(** * Catalog auto-checker: a shallow embedding of the validation pipeline

    The development follows [src/app/api/auto-checker-catalog-number/route.ts]
    (the chunk validator, the regex match cache, the sheet reader and the
    event stream of the [GET] handler), [src/lib/metadata-utils.ts] (the
    fingerprint) and the [BluePrint] model.

    Conventions of the embedding.
    - JavaScript strings are [string]s whose characters are read as ASCII
      code units; [trim], [toUpperCase], [toLowerCase] and the class [\w]
      are the ASCII fragments of the JavaScript operations.
    - JavaScript numbers are exact decimals [m * 10^e] together with [NaN]
      and the two infinities; the rounding of binary64 is not part of the
      model.
    - Objects are association lists in insertion order, [Set]s are lists
      without repetition in insertion order.
    - The 10 ms pause after each send and cancellation by the consumer are
      not modelled: a run is the list of messages it enqueues. *)

From Stdlib Require Import Bool Arith ZArith List Ascii String Lia Permutation.
From Stdlib Require Import Numbers.DecimalString.
Import ListNotations.

Local Open Scope string_scope.
Local Open Scope list_scope.

(** String concatenation, written apart from list concatenation. *)
Infix "+++" := String.append (at level 60, right associativity).

(* ================================================================== *)
(** * JavaScript primitives used by the route *)
(* ================================================================== *)

Module Js.

(** ** Characters and strings *)

Definition charCode (c : ascii) : N := N_of_ascii c.

Definition inRange (lo hi : N) (c : ascii) : bool :=
  (lo <=? charCode c)%N && (charCode c <=? hi)%N.

(** White space removed by [String.prototype.trim] (ASCII part). *)
Definition isWhiteSpace (c : ascii) : bool :=
  inRange 9 13 c || (charCode c =? 32)%N.

Definition isDigit (c : ascii) : bool := inRange 48 57 c.
Definition isUpper (c : ascii) : bool := inRange 65 90 c.
Definition isLower (c : ascii) : bool := inRange 97 122 c.

(** The class [\w] of a RegExp without the [u] flag: [[A-Za-z0-9_]]. *)
Definition isWordChar (c : ascii) : bool :=
  isUpper c || isLower c || isDigit c || (charCode c =? 95)%N.

Definition toUpperChar (c : ascii) : ascii :=
  if isLower c then ascii_of_N (charCode c - 32) else c.

Definition toLowerChar (c : ascii) : ascii :=
  if isUpper c then ascii_of_N (charCode c + 32) else c.

Fixpoint mapString (f : ascii -> ascii) (s : string) : string :=
  match s with
  | EmptyString => EmptyString
  | String c r => String (f c) (mapString f r)
  end.

Definition toUpperCase : string -> string := mapString toUpperChar.
Definition toLowerCase : string -> string := mapString toLowerChar.

Fixpoint trimStart (s : string) : string :=
  match s with
  | EmptyString => EmptyString
  | String c r => if isWhiteSpace c then trimStart r else s
  end.

Fixpoint trimEnd (s : string) : string :=
  match s with
  | EmptyString => EmptyString
  | String c r =>
      let r' := trimEnd r in
      if isWhiteSpace c && (r' =? "")%string then EmptyString else String c r'
  end.

Definition trim (s : string) : string := trimEnd (trimStart s).

(** [s.split(sep)] for a one-character separator. *)
Fixpoint split (sep : ascii) (s : string) : list string :=
  match s with
  | EmptyString => [EmptyString]
  | String c r =>
      if Ascii.eqb c sep then EmptyString :: split sep r
      else match split sep r with
           | h :: t => String c h :: t
           | [] => [String c EmptyString]
           end
  end.

(** [s.split("")]: the code units of [s]. *)
Definition chars (s : string) : list ascii := list_ascii_of_string s.

(** [s.replace(a, b)] for one-character strings: the first occurrence only. *)
Fixpoint replaceFirst (a b : ascii) (s : string) : string :=
  match s with
  | EmptyString => EmptyString
  | String c r => if Ascii.eqb c a then String b r else String c (replaceFirst a b r)
  end.

Fixpoint startsWith (p s : string) : option string :=
  match p, s with
  | EmptyString, _ => Some s
  | String a p', String b s' => if Ascii.eqb a b then startsWith p' s' else None
  | String _ _, EmptyString => None
  end.

(** [arr.join(sep)] *)
Fixpoint join (sep : string) (l : list string) : string :=
  match l with
  | [] => ""
  | [x] => x
  | x :: r => x +++ sep +++ join sep r
  end.

(** [arr.includes(x)] on strings. *)
Definition includes (l : list string) (x : string) : bool :=
  existsb (String.eqb x) l.

Fixpoint zeros (n : nat) : string :=
  match n with O => "" | S k => String "0" (zeros k) end.

(** Decimal digits of a non-negative integer. *)
Definition digitsOf (z : Z) : string :=
  NilZero.string_of_uint (N.to_uint (Z.to_N z)).

Definition natToString (n : nat) : string := digitsOf (Z.of_nat n).

(** ** Numbers *)

Inductive JsNum : Type :=
| NaN
| Infinity (negative : bool)
| Fin (m e : Z).    (* the decimal m * 10^e, with m not divisible by 10 *)

Fixpoint stripZeros (fuel : nat) (m e : Z) : Z * Z :=
  match fuel with
  | O => (m, e)
  | S f => if (m mod 10 =? 0)%Z then stripZeros f (m / 10)%Z (e + 1)%Z else (m, e)
  end.

(** The canonical representative of [m * 10^e]. *)
Definition dec (m e : Z) : JsNum :=
  if (m =? 0)%Z then Fin 0 0
  else let '(m', e') := stripZeros (S (Z.to_nat (Z.log2 (Z.abs m)))) m e in Fin m' e'.

Definition ofZ (z : Z) : JsNum := dec z 0.

Definition numEqb (x y : JsNum) : bool :=
  match x, y with
  | Infinity a, Infinity b => Bool.eqb a b
  | Fin m e, Fin m' e' => (m =? m')%Z && (e =? e')%Z
  | _, _ => false               (* NaN differs from everything *)
  end.

Definition isNaN (x : JsNum) : bool :=
  match x with NaN => true | _ => false end.

(** The binary64 number nearest to the decimal [x] is a zero: [x] is zero
    or lies within [2^-1075] of it. *)
Definition roundsToZero (x : JsNum) : bool :=
  match x with
  | Fin m e => (m =? 0)%Z || ((e <? 0)%Z && (Z.abs m * 2 ^ 1075 <=? 10 ^ (- e))%Z)
  | _ => false
  end.

(** [x < 0], on the binary64 number that [x] stands for: a negative
    decimal so small that it is read as [-0] is not below zero. *)
Definition isNegative (x : JsNum) : bool :=
  match x with
  | NaN => false
  | Infinity n => n
  | Fin m e => (m <? 0)%Z && negb (roundsToZero (Fin m e))
  end.

Definition digitVal (c : ascii) : Z := Z.of_N (charCode c - 48).

(** Reads a run of decimal digits: value, number of digits, rest. *)
Fixpoint readDigits (acc : Z) (n : nat) (s : string) : Z * nat * string :=
  match s with
  | String c r =>
      if isDigit c then readDigits (acc * 10 + digitVal c)%Z (S n) r else (acc, n, s)
  | EmptyString => (acc, n, s)
  end.

Definition readSign (s : string) : bool * string :=
  match s with
  | String "-" r => (true, r)
  | String "+" r => (false, r)
  | _ => (false, s)
  end.

(** The exponent part [e[+-]digits], taken only when digits follow. *)
Definition readExponent (s : string) : Z * string :=
  match s with
  | String c r =>
      if Ascii.eqb c "e" || Ascii.eqb c "E" then
        let '(neg, r1) := readSign r in
        let '(v, n, r2) := readDigits 0 0 r1 in
        match n with
        | O => (0%Z, s)
        | S _ => ((if neg then - v else v)%Z, r2)
        end
      else (0%Z, s)
  | EmptyString => (0%Z, s)
  end.

(** The longest prefix of [s] that is a [StrDecimalLiteral], with the rest. *)
Definition readDecimal (s : string) : option (JsNum * string) :=
  let '(neg, s1) := readSign s in
  match startsWith "Infinity" s1 with
  | Some rest => Some (Infinity neg, rest)
  | None =>
      let '(i, ni, s2) := readDigits 0 0 s1 in
      let '(f, nf, s3) :=
        match s2 with
        | String "." r =>
            let '(f, nf, r') := readDigits 0 0 r in
            match ni, nf with
            | O, O => (0%Z, O, s2)
            | _, _ => (f, nf, r')
            end
        | _ => (0%Z, O, s2)
        end in
      match (ni + nf)%nat with
      | O => None
      | S _ =>
          let '(ex, s4) := readExponent s3 in
          let mant := (i * 10 ^ Z.of_nat nf + f)%Z in
          Some (dec (if neg then - mant else mant) (ex - Z.of_nat nf), s4)
      end
  end.

(** [parseFloat(s)] *)
Definition parseFloat (s : string) : JsNum :=
  match readDecimal (trimStart s) with
  | Some (x, _) => x
  | None => NaN
  end.

Definition radixDigit (radix : Z) (c : ascii) : option Z :=
  let v :=
    if isDigit c then Some (digitVal c)
    else if inRange 97 102 c then Some (Z.of_N (charCode c - 87))
    else if inRange 65 70 c then Some (Z.of_N (charCode c - 55))
    else None in
  match v with
  | Some d => if (d <? radix)%Z then Some d else None
  | None => None
  end.

Fixpoint readRadix (radix acc : Z) (s : string) : option Z :=
  match s with
  | EmptyString => Some acc
  | String c r =>
      match radixDigit radix c with
      | Some d => readRadix radix (acc * radix + d)%Z r
      | None => None
      end
  end.

Definition readPrefixed (radix : Z) (body : string) : JsNum :=
  match body with
  | EmptyString => NaN
  | _ => match readRadix radix 0 body with Some v => ofZ v | None => NaN end
  end.

(** [Number(s)] on a string: the whole trimmed text must be a numeric literal. *)
Definition stringToNumber (s : string) : JsNum :=
  let t := trim s in
  match t with
  | EmptyString => Fin 0 0
  | String "0" (String c body) =>
      if Ascii.eqb c "x" || Ascii.eqb c "X" then readPrefixed 16 body
      else if Ascii.eqb c "o" || Ascii.eqb c "O" then readPrefixed 8 body
      else if Ascii.eqb c "b" || Ascii.eqb c "B" then readPrefixed 2 body
      else match readDecimal t with
           | Some (x, EmptyString) => x
           | _ => NaN
           end
  | _ => match readDecimal t with
         | Some (x, EmptyString) => x
         | _ => NaN
         end
  end.

(** [String(x)] on a number. *)
Definition numToString (x : JsNum) : string :=
  match x with
  | NaN => "NaN"
  | Infinity false => "Infinity"
  | Infinity true => "-Infinity"
  | Fin m0 e0 =>
      match dec m0 e0 with
      | Fin m e =>
          if (m =? 0)%Z then "0"
          else
            let ds := digitsOf (Z.abs m) in
            let k := Z.of_nat (String.length ds) in
            let n := (k + e)%Z in
            (if (m <? 0)%Z then "-" else "") +++
            (if (k <=? n)%Z && (n <=? 21)%Z then ds +++ zeros (Z.to_nat (n - k))
             else if (0 <? n)%Z && (n <=? 21)%Z then
               substring 0 (Z.to_nat n) ds +++ "." +++ substring (Z.to_nat n) (Z.to_nat (k - n)) ds
             else if (-6 <? n)%Z && (n <=? 0)%Z then "0." +++ zeros (Z.to_nat (- n)) +++ ds
             else
               let ex := (n - 1)%Z in
               let es := (if (ex <? 0)%Z then "-" else "+") +++ digitsOf (Z.abs ex) in
               if (k =? 1)%Z then ds +++ "e" +++ es
               else substring 0 1 ds +++ "." +++ substring 1 (Z.to_nat (k - 1)) ds +++ "e" +++ es)
      | _ => "NaN"
      end
  end.

(** ** Values *)

Inductive JsVal : Type :=
| JUndefined
| JNull
| JBool (b : bool)
| JNum (n : JsNum)
| JStr (s : string)
| JArr (l : list string).

(** [String(v)] *)
Definition toString (v : JsVal) : string :=
  match v with
  | JUndefined => "undefined"
  | JNull => "null"
  | JBool true => "true"
  | JBool false => "false"
  | JNum n => numToString n
  | JStr s => s
  | JArr l => join "," l
  end.

(** [Number(v)] *)
Definition toNumber (v : JsVal) : JsNum :=
  match v with
  | JUndefined => NaN
  | JNull => Fin 0 0
  | JBool true => Fin 1 0
  | JBool false => Fin 0 0
  | JNum n => n
  | JStr s => stringToNumber s
  | JArr l => stringToNumber (join "," l)
  end.

(** Truthiness: what [!v] and [v || d] test. *)
Definition truthy (v : JsVal) : bool :=
  match v with
  | JUndefined | JNull => false
  | JBool b => b
  | JNum NaN => false
  | JNum (Fin m _) => negb (m =? 0)%Z
  | JNum (Infinity _) => true
  | JStr s => negb (s =? "")%string
  | JArr _ => true
  end.

(** [v === null || v === undefined] *)
Definition isNullish (v : JsVal) : bool :=
  match v with JUndefined | JNull => true | _ => false end.

(** [v || d] *)
Definition orElse (v d : JsVal) : JsVal := if truthy v then v else d.

(** ** Objects: string-keyed records in insertion order *)

Definition Obj : Type := list (string * JsVal).

Fixpoint get (o : Obj) (k : string) : JsVal :=
  match o with
  | [] => JUndefined
  | (k', v) :: r => if (k' =? k)%string then v else get r k
  end.

Fixpoint set (o : Obj) (k : string) (v : JsVal) : Obj :=
  match o with
  | [] => [(k, v)]
  | (k', v') :: r => if (k' =? k)%string then (k', v) :: r else (k', v') :: set r k v
  end.

Definition keys (o : Obj) : list string := map fst o.

(** ** Sets of strings in insertion order *)

Definition StrSet : Type := list string.

Definition has (s : StrSet) (x : string) : bool := existsb (String.eqb x) s.

Definition add (s : StrSet) (x : string) : StrSet :=
  if has s x then s else s ++ [x].

End Js.

Import Js.

(* ================================================================== *)
(** * The regex match cache ([createAggressiveRegex]) *)
(* ================================================================== *)

Module Regex.

Definition backslash : ascii := "\"%char.

(** The class [[-\/\\^$*+?.()|[\]{}]] of the two [replace] calls. *)
Definition isSpecial (c : ascii) : bool :=
  existsb (Ascii.eqb c) (chars "-/\^$*+?.()|[]{}").

(** [s.replace(/[-\/\\^$*+?.()|[\]{}]/g, "\\$&")] *)
Fixpoint escapeSpecial (s : string) : string :=
  match s with
  | EmptyString => EmptyString
  | String c r =>
      if isSpecial c then String backslash (String c (escapeSpecial r))
      else String c (escapeSpecial r)
  end.

(** The arrow function given to [map]: a word character is followed by
    [\W*], any other character is escaped once more. *)
Definition mapChar (c : ascii) : string :=
  if isWordChar c then String c "\W*" else escapeSpecial (String c EmptyString).

(** The source text handed to [new RegExp(pattern, "i")]. *)
Definition aggressivePattern (input : string) : string :=
  join "" (map mapChar (chars (escapeSpecial input))).

(** The fragment of RegExp syntax the patterns live in: a literal character
    (written plainly or as an identity escape) and [\W*]. *)
Inductive Atom : Type :=
| Lit (c : ascii)
| NonWordStar.

Fixpoint compile (p : string) : option (list Atom) :=
  match p with
  | EmptyString => Some []
  | String c r =>
      if Ascii.eqb c backslash then
        match r with
        | String "W" (String "*" r') => option_map (cons NonWordStar) (compile r')
        | String d r' =>
            if isSpecial d then option_map (cons (Lit d)) (compile r') else None
        | EmptyString => None
        end
      else if isSpecial c then None
      else option_map (cons (Lit c)) (compile r)
  end.

(** Equality of characters under the [i] flag. *)
Definition ceq (c d : ascii) : bool := Ascii.eqb (toUpperChar c) (toUpperChar d).

(** [\W*] followed by the continuation [k]: some run of non-word characters
    is consumed. *)
Fixpoint starNonWord (k : string -> bool) (s : string) : bool :=
  k s ||
  match s with
  | String d s' => negb (isWordChar d) && starNonWord k s'
  | EmptyString => false
  end.

(** The atoms match a prefix of [s]. *)
Fixpoint matchHere (r : list Atom) (s : string) : bool :=
  match r with
  | [] => true
  | Lit c :: r' =>
      match s with
      | String d s' => ceq c d && matchHere r' s'
      | EmptyString => false
      end
  | NonWordStar :: r' => starNonWord (matchHere r') s
  end.

(** The atoms match somewhere in [s] (the pattern is not anchored). *)
Fixpoint search (r : list Atom) (s : string) : bool :=
  matchHere r s ||
  match s with
  | String _ s' => search r s'
  | EmptyString => false
  end.

(** A RegExp object with flags ["i"], kept as its source text. *)
Record RegExp : Type := mkRegExp { source : string }.

(** [regex.test(s)] *)
Definition test (re : RegExp) (s : string) : bool :=
  match compile (source re) with
  | Some r => search r s
  | None => false
  end.

(** The module-level [Map<string, RegExp>]. *)
Definition Cache : Type := list (string * RegExp).

Definition MAX_CACHE_SIZE : nat := 1000.

Fixpoint cacheGet (c : Cache) (k : string) : option RegExp :=
  match c with
  | [] => None
  | (k', v) :: r => if (k' =? k)%string then Some v else cacheGet r k
  end.

Definition cacheHas (c : Cache) (k : string) : bool :=
  match cacheGet c k with Some _ => true | None => false end.

Fixpoint cacheSet (c : Cache) (k : string) (v : RegExp) : Cache :=
  match c with
  | [] => [(k, v)]
  | (k', v') :: r =>
      if (k' =? k)%string then (k', v) :: r else (k', v') :: cacheSet r k v
  end.

(** [createAggressiveRegex]: the answer and the cache it leaves behind. *)
Definition createAggressiveRegex (cache : Cache) (input : string)
  : option RegExp * Cache :=
  let cache' :=
    if negb (cacheHas cache input) then
      let cleared := if (MAX_CACHE_SIZE <? List.length cache)%nat then [] else cache in
      cacheSet cleared input (mkRegExp (aggressivePattern input))
    else cache in
  (cacheGet cache' input, cache').

(** Every entry of the cache was built from its own key. *)
Definition coherent (c : Cache) : Prop :=
  forall k v, cacheGet c k = Some v -> v = mkRegExp (aggressivePattern k).

(** The matcher for a label, as every coherent cache answers it. *)
Definition aggressiveRegex (label : string) : RegExp :=
  mkRegExp (aggressivePattern label).

(** What the pattern of a label compiles to. *)
Definition atomsOfChar (c : ascii) : list Atom :=
  if isSpecial c then [Lit backslash; Lit c]
  else if isWordChar c then [Lit c; NonWordStar]
  else [Lit c].

Definition atomsOf (label : string) : list Atom :=
  flat_map atomsOfChar (chars label).

Definition noSpecial (label : string) : bool :=
  forallb (fun c => negb (isSpecial c)) (chars label).

Definition allNonWord (s : string) : bool :=
  forallb (fun c => negb (isWordChar c)) (chars s).

(** [Noisy label text]: [text] is [label] up to the case of its letters,
    with a run of non-word characters possibly inserted after each word
    character of the label. *)
Inductive Noisy : string -> string -> Prop :=
| Noisy_nil : Noisy "" ""
| Noisy_word c d noise l t :
    isWordChar c = true -> ceq c d = true -> allNonWord noise = true ->
    Noisy l t -> Noisy (String c l) (String d (noise +++ t))
| Noisy_other c l t :
    isWordChar c = false -> Noisy l t -> Noisy (String c l) (String c t).

(** The pattern text, character by character of the label. *)
Definition patternOfChar (c : ascii) : string :=
  if isSpecial c then String backslash (String backslash (String backslash (String c "")))
  else if isWordChar c then String c "\W*"
  else String c "".

End Regex.

Import Regex.

(* ================================================================== *)
(** * Diagnostics, field definitions and the field validators *)
(* ================================================================== *)

Module Checker.

Inductive ErrorType : Type :=
| validation | duplication | missing_field | invalid_value
| unrecognized_field | system_error | permission_denied | file_error
| info | success | warning | summary_report.

Inductive Severity : Type := sev_error | sev_warning | sev_info | sev_success.

Definition typeEqb (a b : ErrorType) : bool :=
  match a, b with
  | validation, validation | duplication, duplication
  | missing_field, missing_field | invalid_value, invalid_value
  | unrecognized_field, unrecognized_field | system_error, system_error
  | permission_denied, permission_denied | file_error, file_error
  | info, info | success, success | warning, warning
  | summary_report, summary_report => true
  | _, _ => false
  end.

Definition sevEqb (a b : Severity) : bool :=
  match a, b with
  | sev_error, sev_error | sev_warning, sev_warning
  | sev_info, sev_info | sev_success, sev_success => true
  | _, _ => false
  end.

(** [interface ProcessError]; an absent property is [None].  The same record
    is the unit of the outbound stream ([status] belongs to the greeting). *)
Record ProcessError : Type := mkProcessError {
  type : ErrorType;
  message : string;
  field : option string;
  value : option JsVal;
  catalogNumber : option JsVal;
  sheetName : option string;
  details : option (list string);
  severity : Severity;
  code : option string;
  totalProducts : option Z;
  validProducts : option Z;
  errors : option Z;
  duplications : option Z;
  warnings : option Z;
  status : option string
}.

(** A diagnostic without summary counters. *)
Definition diag (ty : ErrorType) (msg : string) (fld : option string)
  (val cat : option JsVal) (sheet : option string) (det : option (list string))
  (sev : Severity) (cd : option string) : ProcessError :=
  mkProcessError ty msg fld val cat sheet det sev cd None None None None None None.

(** A lifecycle message: type, text, severity and an optional code. *)
Definition note (ty : ErrorType) (msg : string) (sev : Severity)
  (cd : option string) : ProcessError :=
  diag ty msg None None None None None sev cd.

Definition dq : string := String (ascii_of_nat 34) EmptyString.
Definition quoted (s : string) : string := dq +++ s +++ dq.

Inductive FieldType : Type := constant | variable.

(** [interface Field] and the entries of its [value] array; an allowed
    value without [properties] has the empty list. *)
Record AllowedValue : Type := mkAllowedValue {
  av_name : string;
  av_properties : list string
}.

Record Field : Type := mkField {
  field_name : string;
  field_type : FieldType;
  field_value : list AllowedValue
}.

Definition CHUNK_SIZE : nat := 500.

Definition validCurrencies : StrSet := ["EUR"; "USD"; "GBP"; "PLN"; "JPY"].

Definition EssentialFields : list string :=
  [ "name"; "catalog_number"; "supplier_catalog_number"; "supplier.id";
    "price.buy.currency"; "price.buy.amount"; "price.promotion_price.amount";
    "shipment.dry_ice"; "size"; "available"; "display" ].

(** ** Own keys in enumeration order: array indices ascending, then the
    other keys in insertion order *)

Definition indexOfKey (k : string) : Z :=
  let '(v, _, _) := readDigits 0 0 k in v.

Definition isArrayIndex (k : string) : bool :=
  negb (k =? "")%string && forallb isDigit (chars k)
  && (digitsOf (indexOfKey k) =? k)%string && (indexOfKey k <? 4294967295)%Z.

Fixpoint insertKey (k : string) (l : list string) : list string :=
  match l with
  | [] => [k]
  | h :: t => if (indexOfKey k <? indexOfKey h)%Z then k :: l else h :: insertKey k t
  end.

Definition objectKeys (o : Obj) : list string :=
  fold_right insertKey [] (filter isArrayIndex (keys o))
  ++ filter (fun k => negb (isArrayIndex k)) (keys o).

(** [{ ...o }] *)
Definition spread (o : Obj) : Obj := map (fun k => (k, get o k)) (objectKeys o).

(** ** parseBoolean *)

Definition parseBoolean (value : JsVal) : JsVal :=
  match value with
  | JBool b => JBool b
  | JStr s =>
      let normalizedValue := toLowerCase (trim s) in
      if includes ["true"; "yes"; "vrai"] normalizedValue then JBool true
      else if includes ["false"; "no"; "faux"] normalizedValue then JBool false
      else JNull
  | _ => JNull
  end.

(** [v === null || v === undefined || String(v).trim() === ""] *)
Definition isBlank (v : JsVal) : bool :=
  isNullish v || (trim (toString v) =? "")%string.

(** ** validateBooleanField *)

Definition validateBooleanField (value : JsVal) (fieldName : string)
  (productCatalogNumber : string) : option ProcessError :=
  if isBlank value then
    Some (diag missing_field
            (quoted fieldName +++ " cannot be empty. It must be "
               +++ quoted "true" +++ " or " +++ quoted "false" +++ ".")
            (Some fieldName) None (Some (JStr productCatalogNumber)) None None
            sev_error (Some "EMPTY_BOOLEAN_FIELD"))
  else
    let booleanString := toLowerCase (trim (toString value)) in
    if negb (booleanString =? "true")%string && negb (booleanString =? "false")%string then
      Some (diag invalid_value
              (quoted fieldName +++ " must be " +++ quoted "true" +++ " or "
                 +++ quoted "false" +++ ". Found: " +++ quoted (toString value))
              (Some fieldName) (Some value) (Some (JStr productCatalogNumber)) None None
              sev_error (Some "INVALID_BOOLEAN_VALUE"))
    else None.

(** ** validatePriceAmount *)

Definition normalizeAmount (priceAmount : JsVal) : JsNum :=
  parseFloat (replaceFirst "," "." (toString priceAmount)).

Definition validatePriceAmount (priceAmount : JsVal) (fieldName : string)
  (productCatalogNumber : string) : option ProcessError :=
  if isBlank priceAmount then
    Some (diag missing_field
            (quoted fieldName +++ " cannot be empty. It must be a valid number.")
            (Some fieldName) None (Some (JStr productCatalogNumber)) None None
            sev_error (Some "EMPTY_PRICE_AMOUNT"))
  else
    let parsedPriceAmount := normalizeAmount priceAmount in
    if isNaN parsedPriceAmount then
      Some (diag invalid_value
              (quoted fieldName +++ " must be a valid number. Found: "
                 +++ quoted (toString priceAmount))
              (Some fieldName) (Some priceAmount) (Some (JStr productCatalogNumber))
              None None sev_error (Some "INVALID_PRICE_AMOUNT"))
    else if isNegative parsedPriceAmount then
      Some (diag invalid_value
              (quoted fieldName +++ " cannot be negative. Found: "
                 +++ quoted (toString priceAmount))
              (Some fieldName) (Some priceAmount) (Some (JStr productCatalogNumber))
              None None sev_error (Some "NEGATIVE_PRICE_AMOUNT"))
    else None.

(** ** validateAdditionalFields *)

(** The loop over [allowedValues] for one token: the properties of an
    allowed value are tried first, then its own name; the first allowed
    value that matches gives its name.  The matchers are those of the regex
    cache, which answers [aggressiveRegex label] for every label (see
    [createAggressiveRegex_coherent]). *)
Fixpoint findMatch (allowedValues : list AllowedValue) (inputValue : string)
  : option string :=
  match allowedValues with
  | [] => None
  | itemValue :: rest =>
      if existsb (fun prop => test (aggressiveRegex prop) inputValue)
           (av_properties itemValue)
      then Some (av_name itemValue)
      else if test (aggressiveRegex (av_name itemValue)) inputValue
      then Some (av_name itemValue)
      else findMatch rest inputValue
  end.

(** The loop over [inputValues]: the set of matched names and the messages
    of the tokens that matched nothing. *)
Fixpoint matchTokens (allowedValues : list AllowedValue) (trimmedKey : string)
  (inputValues : list string) (matchedItems : StrSet) (subErrors : list string)
  : StrSet * list string :=
  match inputValues with
  | [] => (matchedItems, subErrors)
  | inputValue :: rest =>
      match findMatch allowedValues inputValue with
      | Some n => matchTokens allowedValues trimmedKey rest (add matchedItems n) subErrors
      | None =>
          matchTokens allowedValues trimmedKey rest matchedItems
            (subErrors ++
               ["Input value " +++ quoted inputValue
                  +++ " does not match any allowed constant for "
                  +++ quoted trimmedKey +++ "."])
      end
  end.

(** [trimmedRawValue.split(",").map(trim).filter(v => v.length > 0)] *)
Definition tokens (trimmedRawValue : string) : list string :=
  filter (fun v => (0 <? String.length v)%nat) (map trim (split "," trimmedRawValue)).

Definition constantField (trimmedKey : string) (allowedValues : list AllowedValue)
  (finalProduct : Obj) (errs : list ProcessError) : Obj * list ProcessError :=
  let rawValue := get finalProduct trimmedKey in
  let trimmedRawValue := trim (toString (orElse rawValue (JStr ""))) in
  if (toLowerCase trimmedRawValue =? "n/a")%string then
    (set finalProduct trimmedKey (JArr []), errs)
  else if (trimmedRawValue =? "")%string then
    (finalProduct,
     errs ++ [diag missing_field
                ("Constant field " +++ quoted trimmedKey +++ " cannot be empty.")
                (Some trimmedKey) None (Some (get finalProduct "catalog_number"))
                None None sev_error (Some "EMPTY_CONSTANT_FIELD")])
  else
    let inputValues := tokens trimmedRawValue in
    let '(matchedItems, subErrors) :=
      matchTokens allowedValues trimmedKey inputValues [] [] in
    let errs' :=
      if (0 <? List.length subErrors)%nat then
        errs ++ [diag invalid_value
                   ("Constant field " +++ quoted trimmedKey
                      +++ " contains unrecognized values.")
                   (Some trimmedKey) (Some rawValue)
                   (Some (get finalProduct "catalog_number"))
                   None (Some subErrors) sev_error
                   (Some "UNRECOGNIZED_CONSTANT_VALUE")]
      else errs in
    let finalProduct' :=
      if (0 <? List.length matchedItems)%nat then
        set finalProduct trimmedKey (JArr matchedItems)
      else if (0 <? List.length inputValues)%nat
              && (List.length subErrors =? List.length inputValues)%nat then
        set finalProduct trimmedKey (JArr [])
      else finalProduct in
    (finalProduct', errs').

Definition variableField (trimmedKey : string)
  (finalProduct : Obj) (errs : list ProcessError) : Obj * list ProcessError :=
  let variableValue := get finalProduct trimmedKey in
  let trimmedVariableValue := trim (toString (orElse variableValue (JStr ""))) in
  if (toLowerCase trimmedVariableValue =? "n/a")%string then
    (set finalProduct trimmedKey (JStr ""), errs)
  else if (trimmedVariableValue =? "")%string then
    (finalProduct,
     errs ++ [diag missing_field
                ("Variable field " +++ quoted trimmedKey +++ " cannot be empty.")
                (Some trimmedKey) None (Some (get finalProduct "catalog_number"))
                None None sev_error (Some "EMPTY_VARIABLE_FIELD")])
  else (set finalProduct trimmedKey (JStr trimmedVariableValue), errs).

(** The body of the loop over [Object.keys(finalProduct)]. *)
Definition validateKey (additionalFieldNames : list string) (fields : list Field)
  (st : Obj * list ProcessError) (key : string) : Obj * list ProcessError :=
  let trimmedKey := trim key in
  if includes additionalFieldNames trimmedKey then
    match find (fun f => (trim (field_name f) =? trimmedKey)%string) fields with
    | None => st
    | Some foundField =>
        match field_type foundField with
        | constant => constantField trimmedKey (field_value foundField) (fst st) (snd st)
        | variable => variableField trimmedKey (fst st) (snd st)
        end
    end
  else st.

(** The product is mutated in place: the result carries it along with the
    errors the function returns. *)
Definition validateAdditionalFields (finalProduct : Obj)
  (additionalFieldNames : list string) (fields : list Field)
  : Obj * list ProcessError :=
  fold_left (validateKey additionalFieldNames fields) (objectKeys finalProduct)
    (finalProduct, []).

(** ** getAllKeysWithDotNotation

    Cell values are scalars (or arrays, which the function treats as
    leaves), so the recursive call on nested objects is never reached. *)
Definition getAllKeysWithDotNotation (obj : Obj) (prefix : string) : list string :=
  map (fun key => if (prefix =? "")%string then key else prefix +++ "." +++ key)
    (objectKeys obj).

(** ** processProductChunk *)

(** What the loop body leaves behind for one product: its diagnostics, the
    product as mutated in place, and the two duplicate sets. *)
Record Outcome : Type := mkOutcome {
  o_errors : list ProcessError;
  o_product : Obj;
  o_chunkSet : StrSet;
  o_globalSet : StrSet
}.

(** The catalog number when the early check lets the product through:
    [!cn || typeof cn !== 'string' || String(cn).trim() === ''] is false
    exactly for a string with a non-blank character. *)
Definition catalogNumberOf (product : Obj) : option string :=
  let productCatalogNumber := get product "catalog_number" in
  if negb (truthy productCatalogNumber)
     || match productCatalogNumber with JStr _ => false | _ => true end
     || (trim (toString productCatalogNumber) =? "")%string
  then None
  else Some (toString productCatalogNumber).

Definition missingCatalogNumber (sheet : string) : ProcessError :=
  diag missing_field
    ("Missing or invalid " +++ quoted "catalog_number"
       +++ ". This product cannot be fully processed.")
    (Some "catalog_number") None None (Some sheet) None sev_error
    (Some "MISSING_OR_INVALID_CATALOG_NUMBER").

(** Duplicate check: within the chunk first, then across the run. *)
Definition duplicateCheck (productCatalogNumber sheet : string)
  (chunkSet globalSet : StrSet) : list ProcessError * StrSet * StrSet :=
  if has chunkSet productCatalogNumber then
    ([diag duplication
        ("Duplicate catalog number " +++ quoted productCatalogNumber
           +++ " found within the current sheet/chunk.")
        (Some "catalog_number") None (Some (JStr productCatalogNumber))
        (Some sheet) None sev_error (Some "CHUNK_DUPLICATE_CATALOG_NUMBER")],
     chunkSet, globalSet)
  else
    let chunkSet' := add chunkSet productCatalogNumber in
    if has globalSet productCatalogNumber then
      ([diag duplication
          ("Duplicate catalog number " +++ quoted productCatalogNumber
             +++ " found across different parts of the file.")
          (Some "catalog_number") None (Some (JStr productCatalogNumber))
          (Some sheet) None sev_error (Some "GLOBAL_DUPLICATE_CATALOG_NUMBER")],
       chunkSet', globalSet)
    else ([], chunkSet', add globalSet productCatalogNumber).

(** [v === null || v === undefined || (typeof v === 'string' && v.trim() === '')] *)
Definition isEmptyCell (v : JsVal) : bool :=
  match v with
  | JUndefined | JNull => true
  | JStr s => (trim s =? "")%string
  | _ => false
  end.

Definition unrecognizedFields (product : Obj) (productCatalogNumber sheet : string)
  (additionalFieldNames : list string) : list ProcessError :=
  flat_map
    (fun key =>
       if isEmptyCell (get product key) then []
       else if negb (includes (EssentialFields ++ additionalFieldNames) (trim key)) then
         [diag unrecognized_field
            ("Unrecognized field: " +++ quoted key +++ " found in product.")
            (Some key) None (Some (JStr productCatalogNumber)) (Some sheet) None
            sev_warning (Some "UNRECOGNIZED_PRODUCT_FIELD")]
       else [])
    (getAllKeysWithDotNotation product "").

(** The callback of [EssentialFields.forEach]. *)
Definition essentialField (productCatalogNumber sheet : string)
  (st : Obj * list ProcessError) (fld : string) : Obj * list ProcessError :=
  let '(product, errs) := st in
  if (fld =? "price.promotion_price.amount")%string && isBlank (get product fld) then
    (set product fld JNull, errs)
  else if isEmptyCell (get product fld) then
    (product,
     errs ++ [diag missing_field
                ("Missing essential field: " +++ quoted fld +++ ".")
                (Some fld) None (Some (JStr productCatalogNumber)) (Some sheet) None
                sev_error (Some "MISSING_ESSENTIAL_FIELD")])
  else st.

Definition essentialFields (productCatalogNumber sheet : string)
  (st : Obj * list ProcessError) : Obj * list ProcessError :=
  fold_left (essentialField productCatalogNumber sheet) EssentialFields st.

Definition supplierCheck (supplierId : JsNum) (productCatalogNumber sheet : string)
  (st : Obj * list ProcessError) : Obj * list ProcessError :=
  let '(product, errs) := st in
  let parsedSupplierId := toNumber (get product "supplier.id") in
  if isNaN parsedSupplierId || negb (numEqb parsedSupplierId supplierId) then
    (product,
     errs ++ [diag invalid_value
                ("Invalid supplier ID. Expected " +++ quoted (numToString supplierId)
                   +++ ", found " +++ quoted (toString (get product "supplier.id"))
                   +++ ".")
                (Some "supplier.id") (Some (get product "supplier.id"))
                (Some (JStr productCatalogNumber)) (Some sheet) None sev_error
                (Some "INVALID_SUPPLIER_ID")])
  else st.

Definition currencyCheck (productCatalogNumber sheet : string)
  (st : Obj * list ProcessError) : Obj * list ProcessError :=
  let '(product, errs) := st in
  let currency :=
    trim (toUpperCase (toString (orElse (get product "price.buy.currency") (JStr "")))) in
  if negb (has validCurrencies currency) then
    (product,
     errs ++ [diag invalid_value
                ("Invalid currency. Expected one of [" +++ join ", " validCurrencies
                   +++ "], found "
                   +++ quoted (toString (get product "price.buy.currency")) +++ ".")
                (Some "price.buy.currency") (Some (get product "price.buy.currency"))
                (Some (JStr productCatalogNumber)) (Some sheet) None sev_error
                (Some "INVALID_CURRENCY")])
  else (set product "price.buy.currency" (JStr currency), errs).

(** Validation of one amount, followed by its normalisation in place. *)
Definition amountCheck (fld productCatalogNumber : string)
  (st : Obj * list ProcessError) : Obj * list ProcessError :=
  let '(product, errs) := st in
  match validatePriceAmount (get product fld) fld productCatalogNumber with
  | Some priceAmountError => (product, errs ++ [priceAmountError])
  | None => (set product fld (JNum (normalizeAmount (get product fld))), errs)
  end.

Definition promotionCheck (productCatalogNumber : string)
  (st : Obj * list ProcessError) : Obj * list ProcessError :=
  match get (fst st) "price.promotion_price.amount" with
  | JNull => st
  | _ => amountCheck "price.promotion_price.amount" productCatalogNumber st
  end.

Definition booleanFields : list string := ["shipment.dry_ice"; "available"; "display"].

Definition booleanCheck (productCatalogNumber : string)
  (st : Obj * list ProcessError) (fld : string) : Obj * list ProcessError :=
  let '(product, errs) := st in
  match validateBooleanField (get product fld) fld productCatalogNumber with
  | Some booleanError => (product, errs ++ [booleanError])
  | None => (set product fld (parseBoolean (get product fld)), errs)
  end.

Definition additionalCheck (additionalFieldNames : list string) (fields : list Field)
  (st : Obj * list ProcessError) : Obj * list ProcessError :=
  let '(product, errs) := st in
  let '(product', additionalErrors) :=
    validateAdditionalFields product additionalFieldNames fields in
  (product', errs ++ additionalErrors).

(** The checks that follow the duplicate check, in the order of the source. *)
Definition fieldChecks (supplierId : JsNum) (productCatalogNumber sheet : string)
  (additionalFieldNames : list string) (fields : list Field)
  (st : Obj * list ProcessError) : Obj * list ProcessError :=
  let st1 := (fst st, snd st ++ unrecognizedFields (fst st) productCatalogNumber sheet
                                  additionalFieldNames) in
  let st2 := essentialFields productCatalogNumber sheet st1 in
  let st3 := supplierCheck supplierId productCatalogNumber sheet st2 in
  let st4 := currencyCheck productCatalogNumber sheet st3 in
  let st5 := amountCheck "price.buy.amount" productCatalogNumber st4 in
  let st6 := promotionCheck productCatalogNumber st5 in
  let st7 := fold_left (booleanCheck productCatalogNumber) booleanFields st6 in
  additionalCheck additionalFieldNames fields st7.

(** The body of [for (const product of chunk)]. *)
Definition validateProduct (supplierId : JsNum) (sheet : string)
  (additionalFieldNames : list string) (fields : list Field)
  (chunkSet globalSet : StrSet) (product : Obj) : Outcome :=
  match catalogNumberOf product with
  | None => mkOutcome [missingCatalogNumber sheet] product chunkSet globalSet
  | Some productCatalogNumber =>
      let '(dupErrors, chunkSet', globalSet') :=
        duplicateCheck productCatalogNumber sheet chunkSet globalSet in
      let '(product', productSpecificErrors) :=
        fieldChecks supplierId productCatalogNumber sheet additionalFieldNames fields
          (product, dupErrors) in
      mkOutcome productSpecificErrors product' chunkSet' globalSet'
  end.

(** The state of the loop over a chunk. *)
Record ChunkState : Type := mkChunkState {
  chunkErrors : list ProcessError;
  finalValidData : list Obj;
  chunkProcessedCatalogNumbers : StrSet;
  globalSupplierCatalogNumbers : StrSet
}.

Definition markValidated (product : Obj) : Obj :=
  set (spread product) "validated" (JBool true).

Definition chunkStep (supplierId : JsNum) (sheet : string)
  (additionalFieldNames : list string) (fields : list Field)
  (st : ChunkState) (product : Obj) : ChunkState :=
  let o := validateProduct supplierId sheet additionalFieldNames fields
             (chunkProcessedCatalogNumbers st) (globalSupplierCatalogNumbers st) product in
  if (0 <? List.length (o_errors o))%nat then
    mkChunkState (chunkErrors st ++ o_errors o) (finalValidData st)
      (o_chunkSet o) (o_globalSet o)
  else
    mkChunkState (chunkErrors st) (finalValidData st ++ [markValidated (o_product o)])
      (o_chunkSet o) (o_globalSet o).

(** [processProductChunk]: the errors, the valid products, and the global
    duplicate set as the call leaves it (the set is passed by reference). *)
Definition processProductChunk (chunk : list Obj) (supplierId : JsNum) (sheet : string)
  (additionalFieldNames : list string) (fields : list Field)
  (globalSet : StrSet) : ChunkState :=
  fold_left (chunkStep supplierId sheet additionalFieldNames fields) chunk
    (mkChunkState [] [] [] globalSet).

(** ** splitIntoChunks *)

(** The loop [for (i = 0; i < array.length; i += chunkSize)] pushes
    [array.slice(i, i + chunkSize)]; its turns are counted by [fuel], and
    [length array] turns are enough for a positive [chunkSize]. *)
Fixpoint splitLoop {T : Type} (fuel : nat) (array : list T) (chunkSize : nat)
  : list (list T) :=
  match fuel with
  | O => []
  | S f =>
      match array with
      | [] => []
      | _ => firstn chunkSize array :: splitLoop f (skipn chunkSize array) chunkSize
      end
  end.

Definition splitIntoChunks {T : Type} (array : list T) (chunkSize : nat)
  : list (list T) :=
  splitLoop (List.length array) array chunkSize.

End Checker.

Import Checker.

(* ================================================================== *)
(** * The fingerprint ([generateMetadataHash]) and the BluePrint record *)
(* ================================================================== *)

Module Fingerprint.

Record SheetMetadata : Type := mkSheetMetadata {
  sheetNameOf : string;
  rowCount : Z;
  headersOf : list string
}.

(** ** JSON.stringify on the values of the model *)

Definition hexDigit (n : N) : ascii :=
  if (n <? 10)%N then ascii_of_N (48 + n) else ascii_of_N (87 + n).

Definition escapeChar (c : ascii) : string :=
  let n := charCode c in
  if (n =? 34)%N then "\" +++ dq
  else if (n =? 92)%N then "\\"
  else if (n =? 8)%N then "\b"
  else if (n =? 9)%N then "\t"
  else if (n =? 10)%N then "\n"
  else if (n =? 12)%N then "\f"
  else if (n =? 13)%N then "\r"
  else if (n <? 32)%N then
    "\u00" +++ String (hexDigit (n / 16)) (String (hexDigit (n mod 16)) EmptyString)
  else String c EmptyString.

Definition jsonString (s : string) : string :=
  dq +++ join "" (map escapeChar (chars s)) +++ dq.

(** [None] for [undefined], which an object drops. *)
Definition jsonValue (v : JsVal) : option string :=
  match v with
  | JUndefined => None
  | JNull => Some "null"
  | JBool true => Some "true"
  | JBool false => Some "false"
  | JNum (Fin m e) => Some (numToString (Fin m e))
  | JNum _ => Some "null"
  | JStr s => Some (jsonString s)
  | JArr l => Some ("[" +++ join "," (map jsonString l) +++ "]")
  end.

Definition jsonObject (o : Obj) : string :=
  "{" +++ join ","
            (flat_map (fun k => match jsonValue (get o k) with
                                | Some t => [jsonString k +++ ":" +++ t]
                                | None => []
                                end)
                      (objectKeys o))
      +++ "}".

Definition jsonArray (items : list string) : string :=
  "[" +++ join "," items +++ "]".

Definition jsonInt (z : Z) : string := numToString (ofZ z).

Definition jsonMetadata (m : SheetMetadata) : string :=
  "{" +++ jsonString "sheetName" +++ ":" +++ jsonString (sheetNameOf m) +++ ","
      +++ jsonString "rowCount" +++ ":" +++ jsonInt (rowCount m) +++ ","
      +++ jsonString "headers" +++ ":" +++ jsonArray (map jsonString (headersOf m))
      +++ "}".

(** [products.slice(from, to)] *)
Definition slice {T : Type} (l : list T) (from to : nat) : list T :=
  firstn (to - from) (skipn from l).

Definition sampleSize : nat := 1.

(** The first item, a middle window and a last window. *)
Definition sampledProducts (products : list Obj) : list Obj :=
  let n := List.length products in
  if (0 <? n)%nat then
    slice products 0 (Nat.min sampleSize n)
    ++ (if (sampleSize * 2 <? n)%nat then
          let middleIndex := (n / 2)%nat in
          slice products (Nat.max 0 (middleIndex - sampleSize / 2))
            (Nat.min n (middleIndex + (sampleSize + 1) / 2))
        else [])
    ++ (if (sampleSize <? n)%nat then slice products (Nat.max 0 (n - sampleSize)) n
        else [])
  else [].

Section Digest.

(** [crypto.createHash("sha256").update(s).digest("hex")] *)
Variable sha256 : string -> string.

(** Serialising the values of the model never throws, so the fallback of the
    [catch] block is not reached. *)
Definition generateMetadataHash (metadata : list SheetMetadata) (products : list Obj)
  : string :=
  let metadataHash := sha256 (jsonArray (map jsonMetadata metadata)) in
  let productsHash := sha256 (jsonArray (map jsonObject (sampledProducts products))) in
  let totalCount := natToString (List.length products) in
  sha256 (metadataHash +++ productsHash +++ totalCount).

End Digest.

(** ** The BluePrint collection and [findOneAndUpdate] with [$addToSet] and
    [upsert] *)

Record BluePrintDoc : Type := mkBluePrintDoc {
  bp_name : string;
  bp_files : list string
}.

Definition Store : Type := list BluePrintDoc.

Fixpoint findOne (store : Store) (name : string) : option BluePrintDoc :=
  match store with
  | [] => None
  | d :: r => if (bp_name d =? name)%string then Some d else findOne r name
  end.

(** [{ $addToSet: { files: h } }] on the first document with that name;
    with [upsert], a missing document is created. *)
Fixpoint addToSetUpsert (store : Store) (name h : string) : Store :=
  match store with
  | [] => [mkBluePrintDoc name [h]]
  | d :: r =>
      if (bp_name d =? name)%string then mkBluePrintDoc (bp_name d) (add (bp_files d) h) :: r
      else d :: addToSetUpsert r name h
  end.

(** The fingerprints recorded under a name. *)
Definition recorded (store : Store) (name : string) : list string :=
  match findOne store name with
  | Some d => bp_files d
  | None => []
  end.

End Fingerprint.

Import Fingerprint.

(* ================================================================== *)
(** * The run step ([GET]): sheet reader, validation loop, event stream *)
(* ================================================================== *)

Module Run.

(** ** What the handler reads from outside *)

(** A row as [row.eachCell] visits it: the cells that hold a value, with
    their column numbers, in column order. *)
Definition Row : Type := list (nat * JsVal).

(** A thrown [Error]: its [message] and its [stack]. *)
Record JsError : Type := mkJsError {
  err_message : string;
  err_stack : string
}.

(** A worksheet of the streaming reader: its name, the rows it yields, and
    the error with which the iteration breaks off after them, if any. *)
Record Sheet : Type := mkSheet {
  sheet_name : string;
  sheet_rows : list Row;
  sheet_failure : option JsError
}.

Inductive FindResult : Type :=
| FindThrows (e : JsError)
| Found (fields : option (list Field)).

Record Env : Type := mkEnv {
  connectError : option JsError;       (* await connectToDatabase() throws *)
  supplierIdParam : option string;     (* url.searchParams.get('supplierId') *)
  filePathParam : option string;       (* url.searchParams.get('filePath') *)
  fileExists : bool;                   (* fs.existsSync(fullPath) *)
  fieldsDocument : FindResult;         (* GentaurProductExtension.findOne *)
  openError : option string;           (* new WorkbookReader throws *)
  sheets : list Sheet;
  workbookFailure : option JsError;    (* the workbook iteration throws *)
  bluePrintError : option string;      (* BluePrint.findOneAndUpdate throws *)
  unlinkError : option string          (* fs.unlinkSync throws *)
}.

(** ** A writer for the outbound stream, with [return] and [throw] *)

Inductive Result (A : Type) : Type :=
| Value (a : A)
| Returned
| Thrown (e : JsError).

Arguments Value {A} a.
Arguments Returned {A}.
Arguments Thrown {A} e.

Definition M (A : Type) : Type := (list ProcessError * Result A)%type.

Definition ret {A : Type} (a : A) : M A := ([], Value a).

Definition bind {A B : Type} (m : M A) (k : A -> M B) : M B :=
  match m with
  | (l, Value a) => let '(l', r) := k a in (l ++ l', r)
  | (l, Returned) => (l, Returned)
  | (l, Thrown e) => (l, Thrown e)
  end.

Definition sendMessage (data : ProcessError) : M unit := ([data], Value tt).
Definition sendAll (l : list ProcessError) : M unit := (l, Value tt).
Definition returnNow {A : Type} : M A := ([], Returned).
Definition throw {A : Type} (e : JsError) : M A := ([], Thrown e).

Notation "x <- m ;; k" := (bind m (fun x => k))
  (at level 61, m at next level, right associativity).
Notation "m ;; k" := (bind m (fun _ => k))
  (at level 61, right associativity).

(** ** Reading one sheet *)

(** [headers[colNumber] = h] on the sparse array. *)
Fixpoint setHeader (headers : list (nat * string)) (col : nat) (h : string)
  : list (nat * string) :=
  match headers with
  | [] => [(col, h)]
  | (c, h') :: r =>
      if (col <? c)%nat then (col, h) :: headers
      else if (col =? c)%nat then (c, h) :: r
      else (c, h') :: setHeader r col h
  end.

(** [headers[colNumber]], the empty string standing for a hole. *)
Fixpoint headerAt (headers : list (nat * string)) (col : nat) : string :=
  match headers with
  | [] => ""
  | (c, h) :: r => if (c =? col)%nat then h else headerAt r col
  end.

(** [cell.value?.toString().trim() || `Column${colNumber}`] *)
Definition headerName (v : JsVal) (col : nat) : string :=
  let t := if isNullish v then "" else trim (toString v) in
  if (t =? "")%string then "Column" +++ natToString col else t.

Definition readHeaders (row : Row) : list (nat * string) :=
  fold_left (fun headers cell => setHeader headers (fst cell) (headerName (snd cell) (fst cell)))
    row [].

(** [headers.filter(Boolean)] *)
Definition definedHeaders (headers : list (nat * string)) : list string :=
  filter (fun h => negb (h =? "")%string) (map snd headers).

(** [headers.slice(1).filter(Boolean)] *)
Definition metadataHeaders (headers : list (nat * string)) : list string :=
  definedHeaders (filter (fun ch => (1 <=? fst ch)%nat) headers).

(** [typeof v === 'string' ? v.trim() : v ?? null] *)
Definition cellValue (v : JsVal) : JsVal :=
  match v with
  | JStr s => JStr (trim s)
  | JUndefined => JNull
  | _ => v
  end.

Definition readProduct (headers : list (nat * string)) (row : Row) : Obj :=
  fold_left (fun productData cell =>
               if negb (headerAt headers (fst cell) =? "")%string
               then set productData (headerAt headers (fst cell)) (cellValue (snd cell))
               else productData)
    row [].

Definition noHeaderError (sheet : string) : ProcessError :=
  diag file_error
    ("Sheet " +++ quoted sheet +++ " has no detectable headers. Skipping this sheet.")
    None None None (Some sheet) None sev_warning (Some "NO_SHEET_HEADERS").

(** The state of the loop over the rows of one sheet. *)
Record SheetState : Type := mkSheetState {
  rowIndex : nat;
  headers : list (nat * string);
  sheetHeaders : list string;          (* sheetMetadata.headers *)
  sheetProducts : list Obj;
  processedRows : nat;
  sheetErrors : list ProcessError;     (* pushed to allProcessingErrors *)
  sent : list ProcessError             (* sent while reading *)
}.

Definition rowStep (sheet : string) (st : SheetState) (row : Row) : SheetState :=
  let rowIndex' := S (rowIndex st) in
  if (rowIndex' =? 1)%nat then
    let headers' := readHeaders row in
    if (List.length (definedHeaders headers') =? 0)%nat then
      mkSheetState rowIndex' headers' (sheetHeaders st) (sheetProducts st)
        (processedRows st) (sheetErrors st ++ [noHeaderError sheet])
        (sent st ++ [noHeaderError sheet])
    else
      mkSheetState rowIndex' headers' (metadataHeaders headers') (sheetProducts st)
        (processedRows st) (sheetErrors st) (sent st)
  else
    match row with
    | [] => mkSheetState rowIndex' (headers st) (sheetHeaders st) (sheetProducts st)
              (processedRows st) (sheetErrors st) (sent st)
    | _ =>
        let productData := readProduct (headers st) row in
        if (0 <? List.length (keys productData))%nat then
          let processedRows' := S (processedRows st) in
          mkSheetState rowIndex' (headers st) (sheetHeaders st)
            (sheetProducts st ++ [productData]) processedRows' (sheetErrors st)
            (sent st ++
               (if (processedRows' mod CHUNK_SIZE =? 0)%nat then
                  [note info ("Processed " +++ natToString processedRows' +++ " products...")
                     sev_info None]
                else []))
        else
          mkSheetState rowIndex' (headers st) (sheetHeaders st) (sheetProducts st)
            (processedRows st) (sheetErrors st) (sent st)
    end.

(** The rows of one sheet, from a sheet state with [rowIndex = 0]. *)
Definition readRows (sheet : string) (processed : nat) (rows : list Row) : SheetState :=
  fold_left (rowStep sheet) rows (mkSheetState 0 [] [] [] processed [] []).

(** What reading the workbook has gathered so far. *)
Record Gathered : Type := mkGathered {
  metadata : list SheetMetadata;
  allProducts : list Obj;
  processed : nat;
  allProcessingErrors : list ProcessError
}.

(** [worksheet.name || 'Sheet'] *)
Definition nameOfSheet (ws : Sheet) : string :=
  if (sheet_name ws =? "")%string then "Sheet" else sheet_name ws.

(** The body of [for await (const worksheet of workbook)]. *)
Definition readSheet (g : Gathered) (ws : Sheet) : M Gathered :=
  let sheet := nameOfSheet ws in
  sendMessage (diag info ("Processing sheet: " +++ quoted sheet) None None None
                 (Some sheet) None sev_info None) ;;
  let st := readRows sheet (processed g) (sheet_rows ws) in
  sendAll (sent st) ;;
  match sheet_failure ws with
  | Some e => throw e
  | None =>
      ret (mkGathered
             (metadata g ++ [mkSheetMetadata sheet (Z.of_nat (rowIndex st) - 1)
                               (sheetHeaders st)])
             (allProducts g ++ sheetProducts st)
             (processedRows st)
             (allProcessingErrors g ++ sheetErrors st))
  end.

Fixpoint readSheets (g : Gathered) (l : list Sheet) : M Gathered :=
  match l with
  | [] => ret g
  | ws :: r => g' <- readSheet g ws ;; readSheets g' r
  end.

Definition readWorkbook (env : Env) : M Gathered :=
  g <- readSheets (mkGathered [] [] 0 []) (sheets env) ;;
  match workbookFailure env with
  | Some e => throw e
  | None => ret g
  end.

(** ** Validation of all chunks *)

(** The loop [for (const chunk of chunks)]: the errors of every chunk are
    appended, the global duplicate set is threaded through. *)
Definition chunkLoopStep (supplierId : JsNum) (additionalFieldNames : list string)
  (fields : list Field) (acc : list ProcessError * StrSet) (chunk : list Obj)
  : list ProcessError * StrSet :=
  let r := processProductChunk chunk supplierId "Main Sheet" additionalFieldNames fields
             (snd acc) in
  (fst acc ++ chunkErrors r, globalSupplierCatalogNumbers r).

Definition validateChunks (supplierId : JsNum) (additionalFieldNames : list string)
  (fields : list Field) (chunks : list (list Obj)) : list ProcessError * StrSet :=
  fold_left (chunkLoopStep supplierId additionalFieldNames fields) chunks ([], []).

Definition chunkMessage (index total size : nat) : ProcessError :=
  note info
    ("Processing validation chunk " +++ natToString index +++ " of "
       +++ natToString total +++ " (" +++ natToString size +++ " products)...")
    sev_info None.

Fixpoint chunkMessages (index total : nat) (chunks : list (list Obj))
  : list ProcessError :=
  match chunks with
  | [] => []
  | chunk :: r =>
      chunkMessage index total (List.length chunk) :: chunkMessages (S index) total r
  end.

(** ** The summary *)

Definition isValidationError (e : ProcessError) : bool :=
  (typeEqb (type e) validation || typeEqb (type e) missing_field
   || typeEqb (type e) invalid_value || typeEqb (type e) system_error
   || typeEqb (type e) permission_denied || typeEqb (type e) file_error)
  && sevEqb (severity e) sev_error.

Definition isDuplicationError (e : ProcessError) : bool :=
  typeEqb (type e) duplication && sevEqb (severity e) sev_error.

Definition isWarning (e : ProcessError) : bool := sevEqb (severity e) sev_warning.

Definition optText (o : option string) : string :=
  match o with Some s => s | None => "undefined" end.

Definition notEmpty (o : option string) : bool :=
  match o with Some s => negb (s =? "")%string | None => false end.

Definition fieldSuffix (e : ProcessError) : string :=
  if notEmpty (field e) then "(Field: " +++ optText (field e) +++ ")" else "".

Definition productSuffix (e : ProcessError) : string :=
  match catalogNumber e with
  | Some v => if truthy v then "(Product: " +++ toString v +++ ")" else ""
  | None => ""
  end.

Definition describe (e : ProcessError) : string :=
  "[" +++ optText (code e) +++ "] " +++ message e +++ " " +++ fieldSuffix e +++ " "
      +++ productSuffix e.

Definition describeDuplicate (e : ProcessError) : string :=
  "[" +++ optText (code e) +++ "] " +++ message e +++ " (Product: "
      +++ match catalogNumber e with Some v => toString v | None => "undefined" end
      +++ ")".

Definition validationBatch (batch : list ProcessError) : ProcessError :=
  diag validation
    ("Validation errors found: " +++ natToString (List.length batch)
       +++ " issues in this batch.")
    None None None None (Some (map describe batch)) sev_error (Some "VALIDATION_BATCH").

Definition duplicationSummary (duplicationErrors : list ProcessError) : ProcessError :=
  diag duplication
    ("Duplication errors found: " +++ natToString (List.length duplicationErrors)
       +++ " duplicates.")
    None None None None (Some (map describeDuplicate duplicationErrors)) sev_error
    (Some "DUPLICATION_SUMMARY").

Definition uniqueWarningFields (warningMessages : list ProcessError) : StrSet :=
  fold_left (fun s e => if notEmpty (field e) then add s (optText (field e)) else s)
    warningMessages [].

Definition warningSummary (warningMessages : list ProcessError) : ProcessError :=
  diag warning
    ("Warnings found: " +++ natToString (List.length warningMessages) +++ " issues"
       +++ (if (0 <? List.length (uniqueWarningFields warningMessages))%nat
            then " (e.g., unrecognized fields: "
                   +++ join ", " (uniqueWarningFields warningMessages) +++ ")"
            else "")
       +++ ".")
    None None None None (Some (map describe warningMessages)) sev_warning
    (Some "WARNING_SUMMARY").

Definition summaryReport (total nErrors nDuplications nWarnings : nat) : ProcessError :=
  mkProcessError summary_report "Processing Summary" None None None None None sev_info
    (Some "FINAL_SUMMARY")
    (Some (Z.of_nat total))
    (Some (Z.of_nat total - Z.of_nat nErrors - Z.of_nat nDuplications)%Z)
    (Some (Z.of_nat nErrors)) (Some (Z.of_nat nDuplications)) (Some (Z.of_nat nWarnings))
    None.

(** ** The handler *)

Definition greeting : ProcessError :=
  mkProcessError info "Database connected, starting process..." None None None None None
    sev_info None None None None None None (Some "connected").

Definition BLUEPRINT_NAME : string := "auto-checker".

(** [Number(url.searchParams.get('supplierId'))] *)
Definition supplierIdOf (env : Env) : JsNum :=
  toNumber (match supplierIdParam env with Some s => JStr s | None => JNull end).

(** The negation of [!supplierId || !filePath]. *)
Definition paramsOk (env : Env) : bool :=
  truthy (JNum (supplierIdOf env)) && notEmpty (filePathParam env).

(** [await connectToDatabase()] returns. *)
Definition connected (env : Env) : bool :=
  match connectError env with None => true | Some _ => false end.

Definition summaryOf (total : nat) (all : list ProcessError) : ProcessError :=
  summaryReport total
    (List.length (filter isValidationError all))
    (List.length (filter isDuplicationError all))
    (List.length (filter isWarning all)).

Section Handler.

Variable sha256 : string -> string.

(** From the end of the reading loop to the last message of the [try] block. *)
Definition validateAndReport (env : Env) (store : Store) (fields : list Field)
  (g : Gathered) : M Store :=
  let additionalFieldNames := map field_name fields in
  sendMessage (note info
                 ("Finished reading file. Total products found: "
                    +++ natToString (List.length (allProducts g))
                    +++ ". Starting validation...") sev_info None) ;;
  let metadataHash := generateMetadataHash sha256 (metadata g) (allProducts g) in
  sendMessage (note info ("Metadata hash generated: " +++ metadataHash) sev_info None) ;;
  let chunks := splitIntoChunks (allProducts g) CHUNK_SIZE in
  sendAll (chunkMessages 1 (List.length chunks) chunks) ;;
  let all := allProcessingErrors g
             ++ fst (validateChunks (supplierIdOf env) additionalFieldNames fields chunks) in
  let validationErrors := filter isValidationError all in
  let duplicationErrors := filter isDuplicationError all in
  let warningMessages := filter isWarning all in
  sendAll (if (0 <? List.length validationErrors)%nat
           then map validationBatch (splitIntoChunks validationErrors 50) else []) ;;
  sendAll (if (0 <? List.length duplicationErrors)%nat
           then [duplicationSummary duplicationErrors] else []) ;;
  sendAll (if (0 <? List.length warningMessages)%nat
           then [warningSummary warningMessages] else []) ;;
  store' <-
    (if (List.length validationErrors =? 0)%nat && (List.length duplicationErrors =? 0)%nat
     then
       match bluePrintError env with
       | None =>
           sendMessage (note success "All products passed validation." sev_success None) ;;
           sendMessage (note success "Blue Print Saved 👌." sev_success None) ;;
           ret (addToSetUpsert store BLUEPRINT_NAME metadataHash)
       | Some msg =>
           sendMessage (note system_error ("Failed to save BluePrint: " +++ msg)
                          sev_error (Some "BLUEPRINT_SAVE_FAILED")) ;;
           ret store
       end
     else
       sendMessage (note info
                      "Validation completed with errors/warnings. BluePrint not updated."
                      sev_info None) ;;
       ret store) ;;
  sendMessage (summaryOf (List.length (allProducts g)) all) ;;
  sendMessage (note success "Process Completed." sev_success None) ;;
  ret store'.

(** The [try] block. *)
Definition tryBlock (env : Env) (store : Store) : M Store :=
  if negb (paramsOk env) then
    sendMessage (note system_error "Missing required parameters (supplierId or filePath)."
                   sev_error (Some "MISSING_PARAMS")) ;;
    returnNow
  else if negb (fileExists env) then
    sendMessage (note file_error
                   ("File not found: " +++ optText (filePathParam env))
                   sev_error (Some "FILE_NOT_FOUND")) ;;
    returnNow
  else
    additionalFieldsDocument <-
      match fieldsDocument env with
      | FindThrows e => throw e
      | Found d => ret d
      end ;;
    match additionalFieldsDocument with
    | None =>
        sendMessage (note system_error "Additional fields document not found in database."
                       sev_error (Some "METADATA_NOT_FOUND")) ;;
        returnNow
    | Some fields =>
        sendMessage (note info "Starting file processing..." sev_info None) ;;
        match openError env with
        | Some msg =>
            sendMessage (note file_error ("Error opening Excel file: " +++ msg)
                           sev_error (Some "EXCEL_OPEN_ERROR")) ;;
            returnNow
        | None =>
            g <- readWorkbook env ;;
            if (List.length (allProducts g) =? 0)%nat then
              sendMessage (note info "No products found in the file after initial parsing."
                             sev_info (Some "NO_PRODUCTS_FOUND")) ;;
              sendMessage (note success "Process completed with no products to validate."
                             sev_success None) ;;
              returnNow
            else validateAndReport env store fields g
        end
    end.

(** The [catch] block. *)
Definition catchBlock {A : Type} (r : Result A) : list ProcessError :=
  match r with
  | Thrown e =>
      [diag system_error ("An unexpected server error occurred: " +++ err_message e)
         None None None None (Some [err_stack e]) sev_error
         (Some "UNEXPECTED_SERVER_ERROR")]
  | _ => []
  end.

(** The [finally] block: [fullPathRef.value] names the file once the
    parameters were accepted, and is the empty path before. *)
Definition finallyBlock (env : Env) : list ProcessError :=
  if paramsOk env && fileExists env then
    match unlinkError env with
    | None => [note info "Temporary file cleaned up successfully." sev_info None]
    | Some msg =>
        [note system_error ("Error cleaning up temporary file: " +++ msg) sev_error
           (Some "TEMP_FILE_CLEANUP_FAILED")]
    end
  else [].

(** [GET]: the messages enqueued before the stream is closed, in order, and
    the BluePrint collection afterwards.  The handler first awaits
    [connectToDatabase()], outside the stream and outside the [try]: when
    this throws, the handler throws with it before any stream is made, so no
    message is ever sent and the collection is not touched.  Otherwise the
    stream starts with [initialResponse] and runs the [try], the [catch]
    and the [finally] block. *)
Definition GET (env : Env) (store : Store) : list ProcessError * Store :=
  match connectError env with
  | Some _ => ([], store)
  | None =>
      let '(log, r) := tryBlock env store in
      (greeting :: log ++ catchBlock r ++ finallyBlock env,
       match r with Value store' => store' | _ => store end)
  end.

End Handler.

End Run.

Import Run.

(* ================================================================== *)
(** * Vocabulary of the statements *)
(* ================================================================== *)

Module Trace.

(** The outcome of every product of a chunk, in order, each next to the
    product as it was handed in. *)
Fixpoint chunkTrace (supplierId : JsNum) (sheet : string)
  (additionalFieldNames : list string) (fields : list Field)
  (chunkSet globalSet : StrSet) (chunk : list Obj) : list (Obj * Outcome) :=
  match chunk with
  | [] => []
  | product :: rest =>
      let o := validateProduct supplierId sheet additionalFieldNames fields
                 chunkSet globalSet product in
      (product, o) :: chunkTrace supplierId sheet additionalFieldNames fields
                        (o_chunkSet o) (o_globalSet o) rest
  end.

(** The duplicate sets after a trace. *)
Definition lastGlobal (globalSet : StrSet) (tr : list (Obj * Outcome)) : StrSet :=
  fold_left (fun _ x => o_globalSet (snd x)) tr globalSet.

Definition lastChunkSet (chunkSet : StrSet) (tr : list (Obj * Outcome)) : StrSet :=
  fold_left (fun _ x => o_chunkSet (snd x)) tr chunkSet.

(** The outcomes of a whole run: chunk after chunk, each chunk starting
    with an empty chunk-local set and the global set left by the previous
    one. *)
Fixpoint runTrace (supplierId : JsNum) (sheet : string)
  (additionalFieldNames : list string) (fields : list Field)
  (globalSet : StrSet) (chunks : list (list Obj)) : list (Obj * Outcome) :=
  match chunks with
  | [] => []
  | chunk :: rest =>
      let tr := chunkTrace supplierId sheet additionalFieldNames fields [] globalSet chunk in
      tr ++ runTrace supplierId sheet additionalFieldNames fields
              (lastGlobal globalSet tr) rest
  end.

Definition errorsOf (tr : list (Obj * Outcome)) : list ProcessError :=
  flat_map (fun x => o_errors (snd x)) tr.

(** A product is kept when it gathered no diagnostic at all. *)
Definition kept (x : Obj * Outcome) : bool := negb (0 <? List.length (o_errors (snd x)))%nat.

Definition validOutput (tr : list (Obj * Outcome)) : list Obj :=
  map (fun x => markValidated (o_product (snd x))) (filter kept tr).

Definition isDuplication (e : ProcessError) : bool := typeEqb (type e) duplication.

Definition flaggedDuplicate (o : Outcome) : bool := existsb isDuplication (o_errors o).

(** The product carries the catalog number [c]. *)
Definition carries (c : string) (product : Obj) : bool :=
  match catalogNumberOf product with
  | Some c' => (c' =? c)%string
  | None => false
  end.

(** The catalog numbers of the products that pass the early check. *)
Definition catalogNumbers (products : list Obj) : list string :=
  flat_map (fun p => match catalogNumberOf p with Some c => [c] | None => [] end) products.

Definition isErrorRecord (e : ProcessError) : bool := sevEqb (severity e) sev_error.

(** Error-severity records of one product. *)
Definition errorCount (o : Outcome) : nat :=
  List.length (filter isErrorRecord (o_errors o)).

(** A product without any error-severity record. *)
Definition withoutError (x : Obj * Outcome) : bool := (errorCount (snd x) =? 0)%nat.

(** What the checks after the early one can produce. *)
Definition isFieldDiagnostic (e : ProcessError) : bool :=
  ((typeEqb (type e) missing_field || typeEqb (type e) invalid_value)
   && sevEqb (severity e) sev_error)
  || (typeEqb (type e) unrecognized_field && sevEqb (severity e) sev_warning).

Definition isProductDiagnostic (e : ProcessError) : bool :=
  isFieldDiagnostic e || (typeEqb (type e) duplication && sevEqb (severity e) sev_error).

(** The chunk-local set holds nothing the global set lacks. *)
Definition within (cs gs : StrSet) : Prop :=
  forall x, has cs x = true -> has gs x = true.

(** A check appends diagnostics of kind [P] and nothing else. *)
Definition extends (P : ProcessError -> bool) (st st' : Obj * list ProcessError) : Prop :=
  exists extra, snd st' = snd st ++ extra /\ forallb P extra = true.

(** A diagnostic that is not about one of the fields [ks]. *)
Definition offFields (ks : list string) (e : ProcessError) : bool :=
  match field e with
  | Some f => negb (includes ks f)
  | None => true
  end.

Definition priceFields : list string := ["price.buy.amount"; "price.buy.currency"].

(** The product holds [amount] and [currency] in its two price fields. *)
Definition holds (amount currency : JsVal) (product : Obj) : Prop :=
  get product "price.buy.amount" = amount /\ get product "price.buy.currency" = currency.

(** The messages that may end the useful part of a stream. *)
Definition hasCode (c : string) (m : ProcessError) : bool :=
  match code m with Some c' => (c' =? c)%string | None => false end.

Definition isFatal (m : ProcessError) : bool :=
  sevEqb (severity m) sev_error
  && (hasCode "MISSING_PARAMS" m || hasCode "FILE_NOT_FOUND" m
      || hasCode "METADATA_NOT_FOUND" m || hasCode "EXCEL_OPEN_ERROR" m
      || hasCode "UNEXPECTED_SERVER_ERROR" m).

Definition isSummary (m : ProcessError) : bool := typeEqb (type m) summary_report.
Definition isSuccess (m : ProcessError) : bool := typeEqb (type m) success.
Definition isNoProducts (m : ProcessError) : bool :=
  typeEqb (type m) info && hasCode "NO_PRODUCTS_FOUND" m.

(** A message that is none of the closing ones. *)
Definition nonTerminal (m : ProcessError) : bool :=
  negb (isSummary m || isFatal m || isNoProducts m).

(** What the [finally] block sends. *)
Definition isCleanup (m : ProcessError) : bool :=
  (typeEqb (type m) info
   && (message m =? "Temporary file cleaned up successfully.")%string)
  || hasCode "TEMP_FILE_CLEANUP_FAILED" m.

(** The end of a stream as the specification words it. *)
Definition endsAsSpecified (stream : list ProcessError) : Prop :=
  (exists pre s ok, stream = pre ++ [s; ok] /\ isSummary s = true /\ isSuccess ok = true)
  \/ (exists pre f, stream = pre ++ [f] /\ isFatal f = true).

(** The closing group of a stream. *)
Definition closingGroup (t : list ProcessError) : Prop :=
  (exists s ok, t = [s; ok] /\ isSummary s = true /\ isSuccess ok = true)
  \/ (exists n ok, t = [n; ok] /\ isNoProducts n = true /\ isSuccess ok = true)
  \/ (exists f, t = [f] /\ isFatal f = true).

(** The end of a stream as the handler produces it: progress messages, one
    closing group, then what the cleanup sends. *)
Definition endsProperly (stream : list ProcessError) : Prop :=
  exists pre t cleanup,
    stream = pre ++ t ++ cleanup
    /\ forallb nonTerminal pre = true
    /\ closingGroup t
    /\ forallb isCleanup cleanup = true
    /\ (List.length cleanup <= 1)%nat.

(** A stream of progress messages that ends with the two messages [s], [ok]. *)
Definition endsWith (s ok : ProcessError) (l : list ProcessError) : Prop :=
  exists pre, l = pre ++ [s; ok] /\ forallb nonTerminal pre = true.

(** The last message of the [try] block of a complete run. *)
Definition processCompleted : ProcessError :=
  note success "Process Completed." sev_success None.

(** The collection after a complete run: the fingerprint joins it when no
    error-severity record was counted and the update goes through. *)
Definition storeAfter (sha256 : string -> string) (env : Env) (store : Store)
  (g : Gathered) (all : list ProcessError) : Store :=
  if (List.length (filter isValidationError all) =? 0)%nat
     && (List.length (filter isDuplicationError all) =? 0)%nat
  then match bluePrintError env with
       | None => addToSetUpsert store BLUEPRINT_NAME
                   (generateMetadataHash sha256 (metadata g) (allProducts g))
       | Some _ => store
       end
  else store.

(** A run that gets as far as validating products: the database is
    connected, the parameters are there, the file exists, the field definitions [fields] were found, the
    workbook was read into [g] and holds at least one product. *)
Definition fullRun (env : Env) (fields : list Field) (g : Gathered) : Prop :=
  connectError env = None
  /\ paramsOk env = true /\ fileExists env = true
  /\ fieldsDocument env = Found (Some fields) /\ openError env = None
  /\ (exists readLog, readWorkbook env = (readLog, Value g))
  /\ allProducts g <> [].

(** The trace of the validation of a full run, and all its diagnostics. *)
Definition traceOf (env : Env) (fields : list Field) (g : Gathered)
  : list (Obj * Outcome) :=
  runTrace (supplierIdOf env) "Main Sheet" (map field_name fields) fields []
    (splitIntoChunks (allProducts g) CHUNK_SIZE).

Definition diagnosticsOf (env : Env) (fields : list Field) (g : Gathered)
  : list ProcessError :=
  allProcessingErrors g ++ errorsOf (traceOf env fields g).

(** ** Sample inputs *)

(** A product that passes every check with supplier 5 and no additional
    field; [available] is left open. *)
Definition sampleProduct (catalog available : string) : Obj :=
  [ ("name", JStr "kit"); ("catalog_number", JStr catalog);
    ("supplier_catalog_number", JStr "S-1"); ("supplier.id", JStr "5");
    ("price.buy.currency", JStr "eur"); ("price.buy.amount", JStr "12,50");
    ("shipment.dry_ice", JStr "True"); ("size", JStr "1 ml");
    ("available", JStr available); ("display", JBool true) ].

(** A header row and data rows for the same columns, plus a column the
    schema does not know. *)
Definition sampleHeader : Row :=
  [ (1, JStr "name"); (2, JStr "catalog_number"); (3, JStr "supplier_catalog_number");
    (4, JStr "supplier.id"); (5, JStr "price.buy.currency"); (6, JStr "price.buy.amount");
    (7, JStr "shipment.dry_ice"); (8, JStr "size"); (9, JStr "available");
    (10, JStr "display"); (11, JStr "note") ].

Definition sampleRow (catalog supplier currency : string) (note : option string) : Row :=
  [ (1, JStr "kit"); (2, JStr catalog); (3, JStr "S-1"); (4, JStr supplier);
    (5, JStr currency); (6, JStr "12,50"); (7, JStr "true"); (8, JStr "1 ml");
    (9, JStr "true"); (10, JStr "true") ]
  ++ match note with Some t => [(11, JStr t)] | None => [] end.

Definition sampleEnv (rows : list Row) : Env :=
  mkEnv None (Some "5") (Some "/temp/catalog.xlsx") true (Found (Some [])) None
    [mkSheet "Products" rows None] None None None.

(** What reading the workbook of [env] gathers, when it goes through. *)
Definition gatheredOf (env : Env) : Gathered :=
  match snd (readWorkbook env) with
  | Value g => g
  | _ => mkGathered [] [] 0 []
  end.

(** A stand-in for the digest, for running the handler on samples. *)
Definition sampleDigest (s : string) : string := natToString (String.length s).

End Trace.

Import Trace.

(* ================================================================== *)
(** * Further notions: the cache over many calls, matching, tokens *)
(* ================================================================== *)

Module Notions.

(** A sequence of calls of [createAggressiveRegex], the cache of each call
    being the one the previous call left: the answers, and the last cache. *)
Fixpoint lookups (cache : Cache) (inputs : list string)
  : list (option RegExp) * Cache :=
  match inputs with
  | [] => ([], cache)
  | input :: rest =>
      let '(re, cache') := createAggressiveRegex cache input in
      let '(res, cache'') := lookups cache' rest in
      (re :: res, cache'')
  end.

(** The test the loop over [allowedValues] makes on one allowed value: one
    of its properties matches, or its own name does. *)
Definition matchesValue (itemValue : AllowedValue) (inputValue : string) : bool :=
  existsb (fun prop => test (aggressiveRegex prop) inputValue) (av_properties itemValue)
  || test (aggressiveRegex (av_name itemValue)) inputValue.

Definition isUnmatched (allowedValues : list AllowedValue) (inputValue : string) : bool :=
  match findMatch allowedValues inputValue with
  | Some _ => false
  | None => true
  end.

(** The tokens that match no allowed value, in the order of the input. *)
Definition unmatchedTokens (allowedValues : list AllowedValue) (inputValues : list string)
  : list string :=
  filter (isUnmatched allowedValues) inputValues.

(** The names matched by the tokens, each once, in the order in which they
    are first matched. *)
Definition matchedNames (allowedValues : list AllowedValue) (inputValues : list string)
  : StrSet :=
  fold_left add
    (flat_map (fun t => match findMatch allowedValues t with
                        | Some n => [n]
                        | None => []
                        end) inputValues) [].

(** The line of [subErrors] for one token. *)
Definition unmatchedMessage (trimmedKey inputValue : string) : string :=
  "Input value " +++ quoted inputValue
    +++ " does not match any allowed constant for " +++ quoted trimmedKey +++ ".".

Definition nonEmpty {A : Type} (l : list A) : bool := (0 <? List.length l)%nat.

Definition hasBackslash (s : string) : bool := existsb (Ascii.eqb backslash) (chars s).

(** The text of a field as the checks of the additional fields read it:
    [String(value || '').trim()]. *)
Definition fieldText (product : Obj) (key : string) : string :=
  trim (toString (orElse (get product key) (JStr ""))).

(** A diagnostic about the field [k]. *)
Definition aboutField (k : string) (e : ProcessError) : bool :=
  match field e with
  | Some f => (f =? k)%string
  | None => false
  end.

(** A text at whose first character a decimal literal ends. *)
Definition stopsNumber (t : string) : bool :=
  match t with
  | EmptyString => true
  | String c _ =>
      negb (isDigit c || Ascii.eqb c "." || Ascii.eqb c "," || Ascii.eqb c "e"
            || Ascii.eqb c "E")
  end.

(** The field definition that [validateAdditionalFields] uses for a trimmed
    key: the key is among the additional field names and a field definition
    carries it as its trimmed name. *)
Definition declared (additionalFieldNames : list string) (fields : list Field)
  (k : string) : option Field :=
  if includes additionalFieldNames k
  then find (fun f => (trim (field_name f) =? k)%string) fields
  else None.

(** The first character is a decimal digit. *)
Definition startsWithDigit (s : string) : bool :=
  match s with
  | String c _ => isDigit c
  | EmptyString => false
  end.

(** The first character is a decimal digit or a minus sign. *)
Definition plainHead (s : string) : bool :=
  match s with
  | String c _ => isDigit c || Ascii.eqb c "-"
  | EmptyString => false
  end.

Definition isArray (v : JsVal) : bool :=
  match v with JArr _ => true | _ => false end.

Definition isText (v : JsVal) : bool :=
  match v with JStr _ => true | _ => false end.

(** The essential fields that the checks of a product may rewrite. *)
Definition promoField : string := "price.promotion_price.amount".

Definition normalisedFields : list string :=
  [ "price.promotion_price.amount"; "price.buy.currency"; "price.buy.amount";
    "shipment.dry_ice"; "available"; "display" ].

(** The record pushed for an essential field without value. *)
Definition missingEssential (productCatalogNumber sheet fld : string) : ProcessError :=
  diag missing_field ("Missing essential field: " +++ quoted fld +++ ".")
    (Some fld) None (Some (JStr productCatalogNumber)) (Some sheet) None
    sev_error (Some "MISSING_ESSENTIAL_FIELD").

(** A step of the checks that writes only fields in [W] and only appends
    diagnostics about fields in [R]. *)
Definition touches (W R : string -> bool) (st st' : Obj * list ProcessError) : Prop :=
  (forall k, W k = false -> get (fst st') k = get (fst st) k)
  /\ exists extra,
       snd st' = snd st ++ extra
       /\ forall e, In e extra -> exists f, field e = Some f /\ R f = true.

Definition nowhere (k : string) : bool := false.

(** The last cell of a row that stands under the header [h]. *)
Definition lastCellUnder (headers : list (nat * string)) (h : string) (row : Row)
  : option (nat * JsVal) :=
  find (fun cell => (headerAt headers (fst cell) =? h)%string) (rev row).

(** The progress note sent while reading. *)
Definition progressNote (n : nat) : ProcessError :=
  note info ("Processed " +++ natToString n +++ " products...") sev_info None.

Definition isProgressNote (m : ProcessError) : bool :=
  match startsWith "Processed " (message m) with
  | Some _ => true
  | None => false
  end.

(** The multiples of the chunk size among [a + 1, ..., b]. *)
Definition milestones (a b : nat) : list nat :=
  filter (fun n => (n mod CHUNK_SIZE =? 0)%nat) (seq (S a) (b - a)).

(** The [details] of a message, none standing for the empty list. *)
Definition detailsOf (m : ProcessError) : list string :=
  match details m with
  | Some d => d
  | None => []
  end.

(** A value that is a number, not NaN and not negative. *)
Definition isAmount (v : JsVal) : Prop :=
  exists n, v = JNum n /\ isNaN n = false /\ isNegative n = false.

Definition isBoolean (v : JsVal) : Prop := exists b, v = JBool b.

(** What a product [p] that passed every check holds, [q] being the product
    as it was handed in: the plain essential fields are those of [q] and
    have a value, the supplier reads as the expected number, the currency
    is a whitelisted code, the buy amount is a number, the promotion price
    is null or a number, and the three boolean fields are booleans. *)
Definition normalised (supplierId : JsNum) (q p : Obj) : Prop :=
  (forall k, In k ["name"; "catalog_number"; "supplier_catalog_number"; "supplier.id"; "size"] ->
             get p k = get q k /\ isEmptyCell (get q k) = false)
  /\ numEqb (toNumber (get p "supplier.id")) supplierId = true
  /\ (exists cur, get p "price.buy.currency" = JStr cur /\ In cur validCurrencies)
  /\ isAmount (get p "price.buy.amount")
  /\ (get p promoField = JNull \/ isAmount (get p promoField))
  /\ (forall f, In f booleanFields -> isBoolean (get p f)).

(** A step that appends nothing about the field [k]. *)
Definition silent (k : string) (st st' : Obj * list ProcessError) : Prop :=
  exists extra, snd st' = snd st ++ extra /\ filter (aboutField k) extra = [].

(** The states between the checks of one product, in the order of the
    source: after the unrecognized fields, the essential fields, the
    supplier, the currency, the buy amount, the promotion price, and each of
    the three boolean fields. *)
Definition afterUnrecognized (productCatalogNumber sheet : string)
  (additionalFieldNames : list string) (st : Obj * list ProcessError)
  : Obj * list ProcessError :=
  (fst st, snd st ++ unrecognizedFields (fst st) productCatalogNumber sheet
                       additionalFieldNames).

Definition afterEssential (productCatalogNumber sheet : string)
  (additionalFieldNames : list string) (st : Obj * list ProcessError)
  : Obj * list ProcessError :=
  essentialFields productCatalogNumber sheet
    (afterUnrecognized productCatalogNumber sheet additionalFieldNames st).

Definition afterSupplier (supplierId : JsNum) (productCatalogNumber sheet : string)
  (additionalFieldNames : list string) (st : Obj * list ProcessError)
  : Obj * list ProcessError :=
  supplierCheck supplierId productCatalogNumber sheet
    (afterEssential productCatalogNumber sheet additionalFieldNames st).

Definition afterCurrency (supplierId : JsNum) (productCatalogNumber sheet : string)
  (additionalFieldNames : list string) (st : Obj * list ProcessError)
  : Obj * list ProcessError :=
  currencyCheck productCatalogNumber sheet
    (afterSupplier supplierId productCatalogNumber sheet additionalFieldNames st).

Definition afterAmount (supplierId : JsNum) (productCatalogNumber sheet : string)
  (additionalFieldNames : list string) (st : Obj * list ProcessError)
  : Obj * list ProcessError :=
  amountCheck "price.buy.amount" productCatalogNumber
    (afterCurrency supplierId productCatalogNumber sheet additionalFieldNames st).

Definition afterPromotion (supplierId : JsNum) (productCatalogNumber sheet : string)
  (additionalFieldNames : list string) (st : Obj * list ProcessError)
  : Obj * list ProcessError :=
  promotionCheck productCatalogNumber
    (afterAmount supplierId productCatalogNumber sheet additionalFieldNames st).

Definition afterDryIce (supplierId : JsNum) (productCatalogNumber sheet : string)
  (additionalFieldNames : list string) (st : Obj * list ProcessError)
  : Obj * list ProcessError :=
  booleanCheck productCatalogNumber
    (afterPromotion supplierId productCatalogNumber sheet additionalFieldNames st)
    "shipment.dry_ice".

Definition afterAvailable (supplierId : JsNum) (productCatalogNumber sheet : string)
  (additionalFieldNames : list string) (st : Obj * list ProcessError)
  : Obj * list ProcessError :=
  booleanCheck productCatalogNumber
    (afterDryIce supplierId productCatalogNumber sheet additionalFieldNames st)
    "available".

Definition afterDisplay (supplierId : JsNum) (productCatalogNumber sheet : string)
  (additionalFieldNames : list string) (st : Obj * list ProcessError)
  : Obj * list ProcessError :=
  booleanCheck productCatalogNumber
    (afterAvailable supplierId productCatalogNumber sheet additionalFieldNames st)
    "display".

(** The message that opens the reading of a sheet. *)
Definition processingSheet (sheet : string) : ProcessError :=
  diag info ("Processing sheet: " +++ quoted sheet) None None None (Some sheet) None
    sev_info None.

(** The messages sent while the workbook is read. *)
Inductive Reading : ProcessError -> Prop :=
| reading_sheet (sheet : string) : Reading (processingSheet sheet)
| reading_noHeader (sheet : string) : Reading (noHeaderError sheet)
| reading_progress (n : nat) : Reading (progressNote n).

(** The messages of the report that carry details: the batches of
    validation errors, the duplication summary and the warning summary. *)
Definition isReport (m : ProcessError) : bool :=
  hasCode "VALIDATION_BATCH" m || hasCode "DUPLICATION_SUMMARY" m
  || hasCode "WARNING_SUMMARY" m.

(** The detail lines of the messages of a stream that carry the code [c]. *)
Definition detailLines (c : string) (stream : list ProcessError) : list string :=
  List.concat (map detailsOf (filter (hasCode c) stream)).

(** The report of a run, as it is sent. *)
Definition reportOf (all : list ProcessError) : list ProcessError :=
  (if (0 <? List.length (filter isValidationError all))%nat
   then map validationBatch (splitIntoChunks (filter isValidationError all) 50) else [])
  ++ (if (0 <? List.length (filter isDuplicationError all))%nat
      then [duplicationSummary (filter isDuplicationError all)] else [])
  ++ (if (0 <? List.length (filter isWarning all))%nat
      then [warningSummary (filter isWarning all)] else []).


Definition isSome {A : Type} (o : option A) : bool :=
  match o with Some _ => true | None => false end.

End Notions.

Import Notions.

(* ================================================================== *)
(** * The event stream on the wire and its reader in the terminal dialog *)
(* ================================================================== *)

Module Terminal.

Definition newline : ascii := ascii_of_nat 10.
Definition nl : string := String newline EmptyString.

(** What [sendMessage] enqueues for the JSON text [formattedData]:
    [`data: ${formattedData}\n\n`]. *)
Definition frame (formattedData : string) : string :=
  "data: " +++ formattedData +++ nl +++ nl.

(** The text enqueued for a sequence of messages. *)
Fixpoint frames (payloads : list string) : string :=
  match payloads with
  | [] => ""
  | p :: r => frame p +++ frames r
  end.

Definition noNewline (s : string) : bool :=
  negb (existsb (Ascii.eqb newline) (chars s)).

(** [line.trim()] as a condition. *)
Definition nonBlank (line : string) : bool := negb (trim line =? "")%string.

Section Client.

(** The messages of the dialog, and [JSON.parse], which gives [None] when
    it throws. *)
Variable Message : Type.
Variable jsonParse : string -> option Message.

(** What [addMessage] receives for one line. *)
Inductive Added : Type :=
| Received (data : Message)
| StreamParseError (payload : string)
| Unformatted (line : string).

(** [JSON.parse(line.slice(6))] inside its [try]. *)
Definition readPayload (payload : string) : Added :=
  match jsonParse payload with
  | Some data => Received data
  | None => StreamParseError payload
  end.

(** The body of [for (const line of lines)]. *)
Definition readLine (line : string) : Added :=
  match startsWith "data: " line with
  | Some payload => readPayload payload
  | None => Unformatted line
  end.

(** One turn of the reading loop on the decoded text of one read. *)
Definition readChunk (text : string) : list Added :=
  map readLine (filter nonBlank (split newline text)).

(** The reading loop over the reads of a stream, from no message. *)
Definition readStream (reads : list string) : list Added :=
  fold_left (fun messages text => messages ++ readChunk text) reads [].

End Client.

Arguments Received {Message} data.
Arguments StreamParseError {Message} payload.
Arguments Unformatted {Message} line.

End Terminal.

(* ================================================================== *)
(** * The upload step ([POST]) and the path handed to the run step *)
(* ================================================================== *)

Module Upload.















Section Paths.

(** [path.join] *)
Variable pathJoin : string -> string -> string.





End Paths.

End Upload.
(* ================================================================== *)
(** * The definitions at work on small inputs *)
(* ================================================================== *)

Example pattern_alpha : aggressivePattern "a b" = "a\W* b\W*".
Proof. reflexivity. Qed.
Example pattern_dot : aggressivePattern "a.b" = "a\W*\\\.b\W*".
Proof. reflexivity. Qed.
Example test_noise : test (aggressiveRegex "alpha") "--A-l.p h,a!" = true.
Proof. reflexivity. Qed.
Example test_spaces_kept :
  test (aggressiveRegex "alpha lipoic acid") "Alpha Lipoic Acid" = true
  /\ test (aggressiveRegex "alpha lipoic acid") "A-l-p-h-a lipoic acid" = true.
Proof. split; reflexivity. Qed.
Example catalogNumberOf_blank : catalogNumberOf [("catalog_number", JStr "  ")] = None.
Proof. reflexivity. Qed.
Example catalogNumberOf_number : catalogNumberOf [("catalog_number", JNum (Fin 12 0))] = None.
Proof. reflexivity. Qed.
Example catalogNumberOf_ok : catalogNumberOf [("catalog_number", JStr "A1")] = Some "A1".
Proof. reflexivity. Qed.
Example sampled_5 :
  map (fun o => get o "k") (sampledProducts
    [[("k", JStr "a")]; [("k", JStr "b")]; [("k", JStr "c")]; [("k", JStr "d")]; [("k", JStr "e")]])
  = [JStr "a"; JStr "c"; JStr "e"].
Proof. reflexivity. Qed.
Example json_ex :
  jsonObject [("a", JStr "x"); ("b", JNum (Fin 125 (-1))); ("c", JUndefined)]
  = "{" +++ dq +++ "a" +++ dq +++ ":" +++ dq +++ "x" +++ dq +++ ","
        +++ dq +++ "b" +++ dq +++ ":12.5}".
Proof. reflexivity. Qed.
Example parseFloat_12_50 : parseFloat "12.50" = Fin 125 (-1).
Proof. reflexivity. Qed.
Example parseFloat_prefix : parseFloat "12abc" = Fin 12 0.
Proof. reflexivity. Qed.
Example numToString_12_5 : numToString (Fin 125 (-1)) = "12.5".
Proof. reflexivity. Qed.
Example numToString_big : numToString (dec 1 21) = "1e+21".
Proof. reflexivity. Qed.
Example numToString_small : numToString (dec 15 (-8)) = "1.5e-7".
Proof. reflexivity. Qed.
Example stringToNumber_7 : stringToNumber " 7 " = Fin 7 0.
Proof. reflexivity. Qed.
Example stringToNumber_hex : stringToNumber "0x1F" = Fin 31 0.
Proof. reflexivity. Qed.
Example stringToNumber_junk : stringToNumber "12abc" = NaN.
Proof. reflexivity. Qed.
Example trim_ex : trim "  a b  " = "a b".
Proof. reflexivity. Qed.
Example split_ex : split "," "a,,b" = ["a"; ""; "b"].
Proof. reflexivity. Qed.

(* ================================================================== *)
(** * The regex match cache *)
(* ================================================================== *)

Section RegexCache.

Lemma append_empty_r (s : string) : s +++ "" = s.
Proof. induction s as [|c s IH]; simpl; [reflexivity | now rewrite IH]. Qed.

Lemma append_assoc (a b c : string) : (a +++ b) +++ c = a +++ (b +++ c).
Proof. induction a as [|x a IH]; simpl; [reflexivity | now rewrite IH]. Qed.

Lemma join_empty_cons (x : string) (l : list string) :
  join "" (x :: l) = x +++ join "" l.
Proof.
  destruct l as [|y l]; simpl.
  - now rewrite append_empty_r.
  - reflexivity.
Qed.

Lemma isSpecial_cases (c : ascii) :
  isSpecial c = true -> In c (chars "-/\^$*+?.()|[]{}").
Proof.
  unfold isSpecial. intros H. apply existsb_exists in H.
  destruct H as [x [Hin Heq]]. apply Ascii.eqb_eq in Heq. now subst.
Qed.

Lemma isSpecial_not_word (c : ascii) : isSpecial c = true -> isWordChar c = false.
Proof.
  intros H. apply isSpecial_cases in H. simpl in H.
  repeat (destruct H as [<- | H]; [reflexivity|]). contradiction.
Qed.

Lemma not_special_not_backslash (c : ascii) :
  isSpecial c = false -> Ascii.eqb c backslash = false.
Proof.
  intros H. destruct (Ascii.eqb c backslash) eqn:E; [|reflexivity].
  apply Ascii.eqb_eq in E. subst. discriminate.
Qed.

Lemma aggressivePattern_cons (c : ascii) (r : string) :
  aggressivePattern (String c r) = patternOfChar c +++ aggressivePattern r.
Proof.
  unfold aggressivePattern, patternOfChar. cbn [escapeSpecial].
  destruct (isSpecial c) eqn:Hs.
  - pose proof (isSpecial_not_word c Hs) as Hw.
    cbn [chars list_ascii_of_string map]. rewrite !join_empty_cons.
    change (mapChar backslash) with (String backslash (String backslash "")).
    unfold mapChar at 1. rewrite Hw. cbn [escapeSpecial]. rewrite Hs.
    reflexivity.
  - cbn [chars list_ascii_of_string map]. rewrite join_empty_cons.
    unfold mapChar at 1. destruct (isWordChar c); [reflexivity|].
    cbn [escapeSpecial]. now rewrite Hs.
Qed.

Lemma compile_patternOfChar (c : ascii) (rest : string) :
  compile (patternOfChar c +++ rest)
  = option_map (app (atomsOfChar c)) (compile rest).
Proof.
  unfold patternOfChar, atomsOfChar. destruct (isSpecial c) eqn:Hs.
  - apply isSpecial_cases in Hs. simpl in Hs.
    repeat (destruct Hs as [<- | Hs]; [cbn; destruct (compile rest); reflexivity|]).
    contradiction.
  - pose proof (not_special_not_backslash c Hs) as Hb.
    destruct (isWordChar c).
    + cbn [append]. cbn [compile]. rewrite Hb, Hs. fold compile.
      change (compile (String "\" (String "W" (String "*" rest))))
        with (option_map (cons NonWordStar) (compile rest)).
      destruct (compile rest); reflexivity.
    + cbn [append]. cbn [compile]. rewrite Hb, Hs. fold compile.
      destruct (compile rest); reflexivity.
Qed.

(** Every pattern the cache builds is inside the fragment: [new RegExp]
    never throws on it, and it reads as the atoms of the label. *)
Lemma compile_aggressivePattern (label : string) :
  compile (aggressivePattern label) = Some (atomsOf label).
Proof.
  induction label as [|c r IH].
  - reflexivity.
  - rewrite aggressivePattern_cons, compile_patternOfChar, IH. reflexivity.
Qed.

Lemma test_aggressiveRegex (label s : string) :
  test (aggressiveRegex label) s = search (atomsOf label) s.
Proof. unfold test, aggressiveRegex. simpl. now rewrite compile_aggressivePattern. Qed.

Lemma cacheGet_cacheSet_same (c : Cache) (k : string) (v : RegExp) :
  cacheGet (cacheSet c k v) k = Some v.
Proof.
  induction c as [|[k' v'] c IH]; simpl.
  - now rewrite String.eqb_refl.
  - destruct (k' =? k)%string eqn:E; simpl; rewrite E; [reflexivity | exact IH].
Qed.

Lemma cacheGet_cacheSet_other (c : Cache) (k k0 : string) (v : RegExp) :
  k0 <> k -> cacheGet (cacheSet c k v) k0 = cacheGet c k0.
Proof.
  intros Hne. induction c as [|[k' v'] c IH]; simpl.
  - destruct (k =? k0)%string eqn:E; [|reflexivity].
    apply String.eqb_eq in E. congruence.
  - destruct (k' =? k)%string eqn:E; simpl.
    + apply String.eqb_eq in E. subst k'.
      destruct (k =? k0)%string eqn:E0; [|reflexivity].
      apply String.eqb_eq in E0. congruence.
    + destruct (k' =? k0)%string; [reflexivity | exact IH].
Qed.

Lemma coherent_nil : coherent [].
Proof. intros k v H. discriminate. Qed.

Lemma coherent_cacheSet (c : Cache) (k : string) :
  coherent c -> coherent (cacheSet c k (mkRegExp (aggressivePattern k))).
Proof.
  intros Hc k0 v H. destruct (string_dec k0 k) as [->|Hne].
  - rewrite cacheGet_cacheSet_same in H. congruence.
  - rewrite cacheGet_cacheSet_other in H by assumption. now apply Hc.
Qed.

(** The cache is transparent: whatever it holds, as long as its entries were
    built by [createAggressiveRegex], the answer for a label is the matcher
    built from that label, and the cache stays coherent. *)
Lemma createAggressiveRegex_coherent (cache : Cache) (label : string) :
  coherent cache ->
  fst (createAggressiveRegex cache label) = Some (aggressiveRegex label)
  /\ coherent (snd (createAggressiveRegex cache label)).
Proof.
  intros Hc. unfold createAggressiveRegex, cacheHas. simpl.
  destruct (cacheGet cache label) as [v|] eqn:E; simpl.
  - rewrite E. split; [f_equal; now apply Hc | assumption].
  - rewrite cacheGet_cacheSet_same. split; [reflexivity|].
    apply coherent_cacheSet. destruct (MAX_CACHE_SIZE <? _)%nat; [apply coherent_nil | assumption].
Qed.

Lemma starNonWord_here (k : string -> bool) (s : string) :
  k s = true -> starNonWord k s = true.
Proof. intros H. destruct s; simpl; now rewrite H. Qed.

Lemma starNonWord_skip (k : string -> bool) (noise s : string) :
  allNonWord noise = true -> k s = true -> starNonWord k (noise +++ s) = true.
Proof.
  induction noise as [|c noise IH]; simpl; intros Hn Hk.
  - now apply starNonWord_here.
  - unfold allNonWord in Hn. simpl in Hn. apply andb_true_iff in Hn. destruct Hn as [Hc Hn].
    rewrite Hc. simpl. rewrite (IH Hn Hk). apply orb_true_r.
Qed.

Lemma noSpecial_cons (c : ascii) (l : string) :
  noSpecial (String c l) = true -> isSpecial c = false /\ noSpecial l = true.
Proof.
  unfold noSpecial. simpl. intros H. apply andb_true_iff in H. destruct H as [H1 H2].
  split; [now apply negb_true_iff in H1 | assumption].
Qed.

Lemma ceq_refl (c : ascii) : ceq c c = true.
Proof. unfold ceq. apply Ascii.eqb_refl. Qed.

Lemma matchHere_noisy (label text post : string) :
  noSpecial label = true -> Noisy label text ->
  matchHere (atomsOf label) (text +++ post) = true.
Proof.
  intros Hs Hn. induction Hn as [| c d noise l t Hw Hceq Hnoise Hn IH | c l t Hw Hn IH].
  - reflexivity.
  - apply noSpecial_cons in Hs. destruct Hs as [Hc Hl].
    unfold atomsOf. simpl. unfold atomsOfChar. rewrite Hc, Hw. simpl.
    rewrite Hceq. simpl. rewrite append_assoc.
    apply starNonWord_skip; [assumption | now apply IH].
  - apply noSpecial_cons in Hs. destruct Hs as [Hc Hl].
    unfold atomsOf. simpl. unfold atomsOfChar. rewrite Hc, Hw. simpl.
    rewrite ceq_refl. simpl. now apply IH.
Qed.

Lemma search_skip (r : list Atom) (pre s : string) :
  matchHere r s = true -> search r (pre +++ s) = true.
Proof.
  intros H. induction pre as [|c pre IH]; simpl.
  - destruct s; simpl; now rewrite H.
  - rewrite IH. apply orb_true_r.
Qed.

End RegexCache.

(** A text that holds a noisy variant of the label is accepted, wherever
    the variant stands in it. *)
Lemma noisy_text_accepted
  (cache : Cache) (label text pre post : string) :
  coherent cache ->
  noSpecial label = true ->
  Noisy label text ->
  exists re,
    fst (createAggressiveRegex cache label) = Some re
    /\ test re (pre +++ text +++ post) = true.
Proof.
  intros Hc Hs Hn. exists (aggressiveRegex label). split.
  - now apply createAggressiveRegex_coherent.
  - rewrite test_aggressiveRegex. apply search_skip. now apply matchHere_noisy.
Qed.

(** C5 as stated fails: a hyphen or an underscore in place of a space of the
    label is not accepted. *)
Lemma alpha_lipoic_acid_not_matched :
  exists re,
    fst (createAggressiveRegex [] "alpha lipoic acid") = Some re
    /\ test re "Alpha-Lipoic Acid" = false
    /\ test re "alpha_lipoic_acid" = false.
Proof. eexists. split; [reflexivity|]. split; vm_compute; reflexivity. Qed.

(* ================================================================== *)
(** * Boolean fields *)
(* ================================================================== *)

Section BooleanFields.

Lemma toLowerCase_empty (s : string) : toLowerCase s = "" -> s = "".
Proof. destruct s; simpl; [reflexivity | discriminate]. Qed.

Lemma isBlank_string (s : string) : isBlank (JStr s) = (trim s =? "")%string.
Proof. reflexivity. Qed.

Lemma lower_not_blank (s t : string) :
  toLowerCase (trim s) = t -> t <> "" -> (trim s =? "")%string = false.
Proof.
  intros H Ht. destruct (trim s =? "")%string eqn:E; [|reflexivity].
  apply String.eqb_eq in E. rewrite E in H. cbn in H. now subst t.
Qed.

End BooleanFields.

(** C3, as amended.  For a boolean field ([booleanCheck] is the body of the
    loop over shipment.dry_ice, available and display): a missing or blank
    value gives one missing_field error; a text that reads true, in any case
    and with white space around it, is replaced by the boolean true, and one
    that reads false by the boolean false; every other non-blank text gives
    one invalid_value error and is left as it was. *)
Theorem booleanCheck_true_false_only
  (cn fld : string) (product : Obj) (errs : list ProcessError) :
  (isBlank (get product fld) = true ->
     exists e, booleanCheck cn (product, errs) fld = (product, errs ++ [e])
               /\ type e = missing_field /\ severity e = sev_error
               /\ field e = Some fld)
  /\ (forall s, get product fld = JStr s -> toLowerCase (trim s) = "true" ->
        booleanCheck cn (product, errs) fld = (set product fld (JBool true), errs))
  /\ (forall s, get product fld = JStr s -> toLowerCase (trim s) = "false" ->
        booleanCheck cn (product, errs) fld = (set product fld (JBool false), errs))
  /\ (forall s, get product fld = JStr s -> trim s <> "" ->
        toLowerCase (trim s) <> "true" -> toLowerCase (trim s) <> "false" ->
        exists e, booleanCheck cn (product, errs) fld = (product, errs ++ [e])
                  /\ type e = invalid_value /\ severity e = sev_error
                  /\ field e = Some fld).
Proof.
  unfold booleanCheck, validateBooleanField. repeat split.
  - intros Hb. rewrite Hb. eexists. repeat split.
  - intros s Hv Hs. rewrite Hv, isBlank_string.
    rewrite (lower_not_blank s "true" Hs) by discriminate.
    cbn [toString parseBoolean]. rewrite Hs. reflexivity.
  - intros s Hv Hs. rewrite Hv, isBlank_string.
    rewrite (lower_not_blank s "false" Hs) by discriminate.
    cbn [toString parseBoolean]. rewrite Hs. reflexivity.
  - intros s Hv Hne Ht Hf. rewrite Hv, isBlank_string.
    apply String.eqb_neq in Hne, Ht, Hf. rewrite Hne. cbn [toString].
    rewrite Ht, Hf. cbn [negb andb]. eexists. repeat split.
Qed.

Lemma booleanCheck_true_false_only_witness :
  booleanCheck "A1" ([("display", JStr " TRUE ")], []) "display"
  = ([("display", JBool true)], [])
  /\ booleanCheck "A1" ([("display", JStr "False")], []) "display"
     = ([("display", JBool false)], [])
  /\ (exists e, booleanCheck "A1" ([("display", JStr " ")], []) "display"
                = ([("display", JStr " ")], [] ++ [e]) /\ type e = missing_field)
  /\ (exists e, booleanCheck "A1" ([("display", JStr "vrai")], []) "display"
                = ([("display", JStr "vrai")], [] ++ [e]) /\ type e = invalid_value).
Proof.
  split; [|split; [|split]].
  - exact (proj1 (proj2 (booleanCheck_true_false_only "A1" "display"
                           [("display", JStr " TRUE ")] []))
             " TRUE " eq_refl eq_refl).
  - exact (proj1 (proj2 (proj2 (booleanCheck_true_false_only "A1" "display"
                                  [("display", JStr "False")] [])))
             "False" eq_refl eq_refl).
  - destruct (proj1 (booleanCheck_true_false_only "A1" "display"
                       [("display", JStr " ")] []) eq_refl) as [e [H1 [H2 _]]].
    exists e. split; assumption.
  - destruct (proj2 (proj2 (proj2 (booleanCheck_true_false_only "A1" "display"
                                     [("display", JStr "vrai")] [])))
                "vrai" eq_refl ltac:(discriminate) ltac:(discriminate)
                ltac:(discriminate)) as [e [H1 [H2 _]]].
    exists e. split; assumption.
Defined.

(* ================================================================== *)
(** * The checks of one product only ever append diagnostics *)
(* ================================================================== *)

Section FieldChecks.

Variable P : ProcessError -> bool.

Lemma extends_refl (st : Obj * list ProcessError) : extends P st st.
Proof. exists []. split; [now rewrite app_nil_r | reflexivity]. Qed.

Lemma extends_trans (a b c : Obj * list ProcessError) :
  extends P a b -> extends P b c -> extends P a c.
Proof.
  intros [x [Hx Px]] [y [Hy Py]]. exists (x ++ y). split.
  - rewrite Hy, Hx. now rewrite app_assoc.
  - rewrite forallb_app. now rewrite Px, Py.
Qed.

Lemma extends_push (p p' : Obj) (errs : list ProcessError) (e : ProcessError) :
  P e = true -> extends P (p, errs) (p', errs ++ [e]).
Proof. intros H. exists [e]. split; [reflexivity | simpl; now rewrite H]. Qed.

Lemma extends_same_errors (p p' : Obj) (errs : list ProcessError) :
  extends P (p, errs) (p', errs).
Proof. exists []. split; [simpl; now rewrite app_nil_r | reflexivity]. Qed.

Lemma extends_fold {X : Type} (f : Obj * list ProcessError -> X -> Obj * list ProcessError)
  (l : list X) :
  (forall st x, extends P st (f st x)) ->
  forall st, extends P st (fold_left f l st).
Proof.
  intros Hf. induction l as [|x l IH]; intros st; simpl.
  - apply extends_refl.
  - eapply extends_trans; [apply Hf | apply IH].
Qed.

End FieldChecks.

Section ProductChecks.

Variables (supplierId : JsNum) (sheet : string).
Variables (additionalFieldNames : list string) (fields : list Field).

Ltac ext_step :=
  first [ apply extends_refl
        | apply extends_same_errors
        | apply extends_push; reflexivity ].

Lemma validatePriceAmount_kind (v : JsVal) (fld cn : string) (e : ProcessError) :
  validatePriceAmount v fld cn = Some e -> isFieldDiagnostic e = true.
Proof.
  unfold validatePriceAmount. intros H.
  destruct (isBlank v); [injection H as <-; reflexivity|].
  destruct (isNaN _); [injection H as <-; reflexivity|].
  destruct (isNegative _); [injection H as <-; reflexivity | discriminate].
Qed.

Lemma validateBooleanField_kind (v : JsVal) (fld cn : string) (e : ProcessError) :
  validateBooleanField v fld cn = Some e -> isFieldDiagnostic e = true.
Proof.
  unfold validateBooleanField. intros H.
  destruct (isBlank v); [injection H as <-; reflexivity|].
  destruct (_ && _); [injection H as <-; reflexivity | discriminate].
Qed.

Lemma unrecognizedFields_kind (product : Obj) (cn : string) :
  forallb isFieldDiagnostic
    (unrecognizedFields product cn sheet additionalFieldNames) = true.
Proof.
  unfold unrecognizedFields. apply forallb_forall. intros e Hin.
  apply in_flat_map in Hin. destruct Hin as [k [_ Hk]].
  destruct (isEmptyCell _); [contradiction|].
  destruct (negb _); [destruct Hk as [<-|[]]; reflexivity | contradiction].
Qed.

Lemma essentialField_extends (cn : string) (st : Obj * list ProcessError) (fld : string) :
  extends isFieldDiagnostic st (essentialField cn sheet st fld).
Proof.
  unfold essentialField. destruct st as [product errs].
  destruct (_ && _); [ext_step|]. destruct (isEmptyCell _); ext_step.
Qed.

Lemma supplierCheck_extends (cn : string) (st : Obj * list ProcessError) :
  extends isFieldDiagnostic st (supplierCheck supplierId cn sheet st).
Proof.
  unfold supplierCheck. destruct st as [product errs]. destruct (_ || _); ext_step.
Qed.

Lemma currencyCheck_extends (cn : string) (st : Obj * list ProcessError) :
  extends isFieldDiagnostic st (currencyCheck cn sheet st).
Proof.
  unfold currencyCheck. destruct st as [product errs]. destruct (negb _); ext_step.
Qed.

Lemma amountCheck_extends (fld cn : string) (st : Obj * list ProcessError) :
  extends isFieldDiagnostic st (amountCheck fld cn st).
Proof.
  unfold amountCheck. destruct st as [product errs].
  destruct (validatePriceAmount _ _ _) as [e|] eqn:E; [|ext_step].
  apply extends_push. eapply validatePriceAmount_kind; eassumption.
Qed.

Lemma promotionCheck_extends (cn : string) (st : Obj * list ProcessError) :
  extends isFieldDiagnostic st (promotionCheck cn st).
Proof.
  unfold promotionCheck.
  destruct (get (fst st) _); first [apply extends_refl | apply amountCheck_extends].
Qed.

Lemma booleanCheck_extends (cn : string) (st : Obj * list ProcessError) (fld : string) :
  extends isFieldDiagnostic st (booleanCheck cn st fld).
Proof.
  unfold booleanCheck. destruct st as [product errs].
  destruct (validateBooleanField _ _ _) as [e|] eqn:E; [|ext_step].
  apply extends_push. eapply validateBooleanField_kind; eassumption.
Qed.

Lemma constantField_extends (key : string) (allowed : list AllowedValue)
  (product : Obj) (errs : list ProcessError) :
  extends isFieldDiagnostic (product, errs) (constantField key allowed product errs).
Proof.
  unfold constantField.
  destruct (_ =? "n/a")%string; [ext_step|].
  destruct (_ =? "")%string; [ext_step|].
  destruct (matchTokens _ _ _ _ _) as [matched subErrors].
  match goal with
  | |- extends _ _ (?p, _) => generalize p; intros p'
  end.
  destruct (0 <? List.length subErrors)%nat; ext_step.
Qed.

Lemma variableField_extends (key : string) (product : Obj) (errs : list ProcessError) :
  extends isFieldDiagnostic (product, errs) (variableField key product errs).
Proof.
  unfold variableField.
  destruct (_ =? "n/a")%string; [ext_step|].
  destruct (_ =? "")%string; ext_step.
Qed.

Lemma validateKey_extends (st : Obj * list ProcessError) (key : string) :
  extends isFieldDiagnostic st (validateKey additionalFieldNames fields st key).
Proof.
  unfold validateKey. destruct (includes _ _); [|apply extends_refl].
  destruct (find _ _) as [f|]; [|apply extends_refl].
  destruct st as [product errs]; simpl.
  destruct (field_type f); [apply constantField_extends | apply variableField_extends].
Qed.

Lemma additionalCheck_extends (st : Obj * list ProcessError) :
  extends isFieldDiagnostic st (additionalCheck additionalFieldNames fields st).
Proof.
  unfold additionalCheck, validateAdditionalFields. destruct st as [product errs].
  pose proof (extends_fold isFieldDiagnostic (validateKey additionalFieldNames fields)
                (objectKeys product) validateKey_extends (product, [])) as H.
  destruct (fold_left _ _ _) as [product' more]. destruct H as [extra [Hx Px]].
  simpl in Hx. subst more. exists extra. split; [reflexivity | assumption].
Qed.

(** The checks after the duplicate check append field diagnostics only. *)
Lemma fieldChecks_extends (cn : string) (st : Obj * list ProcessError) :
  extends isFieldDiagnostic st
    (fieldChecks supplierId cn sheet additionalFieldNames fields st).
Proof.
  unfold fieldChecks.
  eapply extends_trans; [|apply additionalCheck_extends].
  eapply extends_trans; [|apply extends_fold; intros; apply booleanCheck_extends].
  eapply extends_trans; [|apply promotionCheck_extends].
  eapply extends_trans; [|apply amountCheck_extends].
  eapply extends_trans; [|apply currencyCheck_extends].
  eapply extends_trans; [|apply supplierCheck_extends].
  eapply extends_trans; [|unfold essentialFields; apply extends_fold; intros;
                           apply essentialField_extends].
  exists (unrecognizedFields (fst st) cn sheet additionalFieldNames).
  split; [reflexivity | apply unrecognizedFields_kind].
Qed.

Lemma isBlank_no_catalogNumber (product : Obj) :
  isBlank (get product "catalog_number") = true -> catalogNumberOf product = None.
Proof.
  unfold catalogNumberOf, isBlank. intros H.
  destruct (get product "catalog_number") as [| |b|n|s|l]; try reflexivity.
  - destruct b; reflexivity.
  - destruct (negb (truthy (JNum n))); reflexivity.
  - simpl in H. simpl. rewrite H. now rewrite orb_true_r.
Qed.

(** The duplicate check flags a number exactly when one of the two sets
    holds it, and records it in both. *)
Lemma duplicateCheck_spec (c : string) (cs gs : StrSet) :
  (forall x, has cs x = true -> has gs x = true) ->
  exists d,
    duplicateCheck c sheet cs gs = (d, add cs c, add gs c)
    /\ existsb isDuplication d = has gs c
    /\ forallb isProductDiagnostic d = true
    /\ List.length d = (if has gs c then 1 else 0)%nat.
Proof.
  intros Hsub. unfold duplicateCheck.
  destruct (has cs c) eqn:Hc.
  - pose proof (Hsub c Hc) as Hg. eexists. split.
    + unfold add. rewrite Hc, Hg. reflexivity.
    + rewrite Hg. repeat split.
  - destruct (has gs c) eqn:Hg.
    + eexists. split.
      * replace (add gs c) with gs by (unfold add; now rewrite Hg). reflexivity.
      * repeat split.
    + exists []. repeat split.
Qed.

Lemma fieldDiagnostic_not_duplication (l : list ProcessError) :
  forallb isFieldDiagnostic l = true -> existsb isDuplication l = false.
Proof.
  induction l as [|e l IH]; simpl; intros H; [reflexivity|].
  apply andb_true_iff in H. destruct H as [He Hl]. rewrite (IH Hl), orb_false_r.
  unfold isFieldDiagnostic in He. unfold isDuplication.
  destruct (type e); simpl in *; try reflexivity; discriminate.
Qed.

Lemma fieldDiagnostic_product (l : list ProcessError) :
  forallb isFieldDiagnostic l = true -> forallb isProductDiagnostic l = true.
Proof.
  induction l as [|e l IH]; simpl; intros H; [reflexivity|].
  apply andb_true_iff in H. destruct H as [He Hl].
  rewrite (IH Hl), andb_true_r. unfold isProductDiagnostic. now rewrite He.
Qed.

(** A product without a catalog number: one diagnostic, nothing touched. *)
Lemma validateProduct_none (cs gs : StrSet) (product : Obj) :
  catalogNumberOf product = None ->
  validateProduct supplierId sheet additionalFieldNames fields cs gs product
  = mkOutcome [missingCatalogNumber sheet] product cs gs.
Proof. intros H. unfold validateProduct. now rewrite H. Qed.

(** A product with a catalog number: the diagnostics are those of the
    duplicate check followed by field diagnostics, and both sets have the
    number afterwards. *)
Lemma validateProduct_some (cs gs : StrSet) (product : Obj) (c : string) :
  (forall x, has cs x = true -> has gs x = true) ->
  catalogNumberOf product = Some c ->
  exists d extra product',
    validateProduct supplierId sheet additionalFieldNames fields cs gs product
    = mkOutcome (d ++ extra) product' (add cs c) (add gs c)
    /\ existsb isDuplication d = has gs c
    /\ List.length d = (if has gs c then 1 else 0)%nat
    /\ forallb isProductDiagnostic d = true
    /\ forallb isFieldDiagnostic extra = true.
Proof.
  intros Hsub Hc. unfold validateProduct. rewrite Hc.
  destruct (duplicateCheck_spec c cs gs Hsub) as [d [Hd [Hflag [Hkind Hlen]]]].
  rewrite Hd.
  pose proof (fieldChecks_extends c (product, d)) as [extra [Hx Px]].
  destruct (fieldChecks _ _ _ _ _ _) as [product' errs]. simpl in Hx. subst errs.
  exists d, extra, product'. repeat split; assumption.
Qed.

End ProductChecks.

(* ================================================================== *)
(** * The duplicate sets along a run *)
(* ================================================================== *)

Section DuplicateSets.

Lemma has_In (s : StrSet) (x : string) : has s x = true <-> In x s.
Proof.
  unfold has. rewrite existsb_exists. split.
  - intros [y [Hy E]]. apply String.eqb_eq in E. now subst.
  - intros H. exists x. split; [assumption | apply String.eqb_refl].
Qed.

Lemma has_add (s : StrSet) (x y : string) :
  has (add s x) y = has s y || (x =? y)%string.
Proof.
  unfold add. destruct (has s x) eqn:Hx.
  - destruct (x =? y)%string eqn:E; [|now rewrite orb_false_r].
    apply String.eqb_eq in E. subst. now rewrite Hx.
  - unfold has. rewrite existsb_app. simpl. rewrite orb_false_r.
    now rewrite (String.eqb_sym y x).
Qed.

Lemma add_In (s : StrSet) (x y : string) : In y (add s x) <-> In y s \/ x = y.
Proof.
  rewrite <- !has_In, has_add, orb_true_iff, String.eqb_eq. reflexivity.
Qed.

Lemma add_NoDup (s : StrSet) (x : string) : NoDup s -> NoDup (add s x).
Proof.
  intros H. unfold add. destruct (has s x) eqn:Hx; [assumption|].
  apply NoDup_app; [assumption | constructor; [intros []|constructor] |].
  intros y Hy [<-|[]]. apply has_In in Hy. congruence.
Qed.

Lemma add_present (s : StrSet) (x : string) : has s x = true -> add s x = s.
Proof. intros H. unfold add. now rewrite H. Qed.

Lemma has_fold_add (l : list string) (s : StrSet) (y : string) :
  has (fold_left add l s) y = has s y || existsb (fun x => (x =? y)%string) l.
Proof.
  revert s. induction l as [|x l IH]; intros s; simpl.
  - now rewrite orb_false_r.
  - rewrite IH, has_add. now rewrite orb_assoc.
Qed.

Lemma fold_add_NoDup (l : list string) (s : StrSet) :
  NoDup s -> NoDup (fold_left add l s).
Proof.
  revert s. induction l as [|x l IH]; intros s H; simpl; [assumption|].
  apply IH. now apply add_NoDup.
Qed.

Lemma fold_add_incl (l : list string) (s : StrSet) (y : string) :
  In y s -> In y (fold_left add l s).
Proof.
  intros H. apply has_In. rewrite has_fold_add. apply has_In in H. now rewrite H.
Qed.

Lemma catalogNumbers_app (a b : list Obj) :
  catalogNumbers (a ++ b) = catalogNumbers a ++ catalogNumbers b.
Proof. unfold catalogNumbers. apply flat_map_app. Qed.

Lemma carries_catalogNumbers (c : string) (l : list Obj) :
  existsb (fun x => (x =? c)%string) (catalogNumbers l) = existsb (carries c) l.
Proof.
  induction l as [|p l IH]; simpl; [reflexivity|].
  unfold catalogNumbers in *. simpl. rewrite existsb_app, IH. f_equal.
  unfold carries. destruct (catalogNumberOf p); simpl; [now rewrite orb_false_r | reflexivity].
Qed.

Variables (supplierId : JsNum) (sheet : string).
Variables (additionalFieldNames : list string) (fields : list Field).

Local Abbreviation validate := (validateProduct supplierId sheet additionalFieldNames fields).
Local Abbreviation ctrace := (chunkTrace supplierId sheet additionalFieldNames fields).
Local Abbreviation rtrace := (runTrace supplierId sheet additionalFieldNames fields).

Lemma within_add (cs gs : StrSet) (c : string) :
  within cs gs -> within (add cs c) (add gs c).
Proof.
  intros H x. rewrite !has_add, !orb_true_iff. intros [Hx|Hx]; [left; now apply H | now right].
Qed.

Lemma within_nil (gs : StrSet) : within [] gs.
Proof. intros x H. discriminate. Qed.

(** The two sets after one product. *)
Lemma validateProduct_sets (cs gs : StrSet) (p : Obj) :
  within cs gs ->
  o_globalSet (validate cs gs p) = fold_left add (catalogNumbers [p]) gs
  /\ o_chunkSet (validate cs gs p) = fold_left add (catalogNumbers [p]) cs.
Proof.
  intros Hw. unfold catalogNumbers. simpl. rewrite app_nil_r.
  destruct (catalogNumberOf p) as [c|] eqn:Hc.
  - destruct (validateProduct_some supplierId sheet additionalFieldNames fields
                cs gs p c Hw Hc) as [d [extra [p' [Hv _]]]].
    rewrite Hv. split; reflexivity.
  - rewrite validateProduct_none by assumption. split; reflexivity.
Qed.

Lemma validateProduct_within (cs gs : StrSet) (p : Obj) :
  within cs gs -> within (o_chunkSet (validate cs gs p)) (o_globalSet (validate cs gs p)).
Proof.
  intros Hw. destruct (validateProduct_sets cs gs p Hw) as [-> ->].
  unfold catalogNumbers. simpl. rewrite app_nil_r.
  destruct (catalogNumberOf p); simpl; [now apply within_add | assumption].
Qed.

Lemma validateProduct_flag (cs gs : StrSet) (p : Obj) (c : string) :
  within cs gs -> catalogNumberOf p = Some c ->
  flaggedDuplicate (validate cs gs p) = has gs c.
Proof.
  intros Hw Hc.
  destruct (validateProduct_some supplierId sheet additionalFieldNames fields
              cs gs p c Hw Hc) as [d [extra [p' [Hv [Hflag [_ [_ Hx]]]]]]].
  rewrite Hv. unfold flaggedDuplicate. simpl. rewrite existsb_app, Hflag.
  rewrite (fieldDiagnostic_not_duplication extra Hx). apply orb_false_r.
Qed.

Lemma validateProduct_kinds (cs gs : StrSet) (p : Obj) :
  within cs gs -> forallb isProductDiagnostic (o_errors (validate cs gs p)) = true.
Proof.
  intros Hw. destruct (catalogNumberOf p) as [c|] eqn:Hc.
  - destruct (validateProduct_some supplierId sheet additionalFieldNames fields
                cs gs p c Hw Hc) as [d [extra [p' [Hv [_ [_ [Hd Hx]]]]]]].
    rewrite Hv. simpl. rewrite forallb_app, Hd. now apply fieldDiagnostic_product.
  - rewrite validateProduct_none by assumption. reflexivity.
Qed.

Lemma chunkTrace_products (chunk : list Obj) (cs gs : StrSet) :
  map fst (ctrace cs gs chunk) = chunk.
Proof.
  revert cs gs. induction chunk as [|p chunk IH]; intros cs gs; simpl;
    [reflexivity | now rewrite IH].
Qed.

Lemma chunkTrace_lastGlobal (chunk : list Obj) (cs gs : StrSet) :
  within cs gs ->
  lastGlobal gs (ctrace cs gs chunk) = fold_left add (catalogNumbers chunk) gs.
Proof.
  revert cs gs. induction chunk as [|p chunk IH]; intros cs gs Hw; [reflexivity|].
  change (p :: chunk) with ([p] ++ chunk) at 2.
  rewrite catalogNumbers_app, fold_left_app.
  destruct (validateProduct_sets cs gs p Hw) as [<- _].
  cbn [chunkTrace]. unfold lastGlobal in *. cbn [fold_left snd].
  apply IH. now apply validateProduct_within.
Qed.

(** Where a product stands in the trace of a chunk decides its outcome. *)
Lemma chunkTrace_position (chunk : list Obj) :
  forall cs gs l1 p o l2,
    within cs gs ->
    ctrace cs gs chunk = l1 ++ (p, o) :: l2 ->
    o_globalSet o = fold_left add (catalogNumbers (map fst l1 ++ [p])) gs
    /\ forallb isProductDiagnostic (o_errors o) = true
    /\ (forall c, catalogNumberOf p = Some c ->
          flaggedDuplicate o = has gs c || existsb (carries c) (map fst l1)).
Proof.
  induction chunk as [|q chunk IH]; intros cs gs l1 p o l2 Hw Htr.
  - destruct l1; discriminate.
  - cbn [chunkTrace] in Htr. destruct l1 as [|x l1].
    + injection Htr as <- <- _. cbn [map app]. repeat split.
      * apply (validateProduct_sets cs gs q Hw).
      * now apply validateProduct_kinds.
      * intros c Hc. cbn [existsb]. rewrite orb_false_r.
        now apply validateProduct_flag.
    + injection Htr as <- Htr.
      destruct (IH _ _ _ _ _ _ (validateProduct_within cs gs q Hw) Htr) as [Hg [Hk Hf]].
      destruct (validateProduct_sets cs gs q Hw) as [Eg _].
      repeat split.
      * rewrite Hg, Eg. cbn [map fst app].
        change (q :: map fst l1 ++ [p]) with ([q] ++ (map fst l1 ++ [p])).
        now rewrite (catalogNumbers_app [q]), fold_left_app.
      * assumption.
      * intros c Hc. rewrite (Hf c Hc), Eg, has_fold_add, carries_catalogNumbers.
        cbn [map fst existsb]. rewrite orb_false_r. now rewrite orb_assoc.
Qed.

(** The same, for a run of several chunks. *)
Lemma runTrace_position (chunks : list (list Obj)) :
  forall gs l1 p o l2,
    rtrace gs chunks = l1 ++ (p, o) :: l2 ->
    o_globalSet o = fold_left add (catalogNumbers (map fst l1 ++ [p])) gs
    /\ forallb isProductDiagnostic (o_errors o) = true
    /\ (forall c, catalogNumberOf p = Some c ->
          flaggedDuplicate o = has gs c || existsb (carries c) (map fst l1)).
Proof.
  induction chunks as [|chunk chunks IH]; intros gs l1 p o l2 Htr.
  - destruct l1; discriminate.
  - cbn [runTrace] in Htr.
    apply app_eq_app in Htr. destruct Htr as [l [[Ha Hb]|[Ha Hb]]].
    + destruct l as [|x l].
      * rewrite app_nil_r in Ha. cbn [app] in Hb. symmetry in Hb.
        change ((p, o) :: l2) with ([] ++ (p, o) :: l2) in Hb.
        destruct (IH _ _ _ _ _ Hb) as [Hg [Hk Hf]].
        rewrite chunkTrace_lastGlobal in Hg, Hf by apply within_nil.
        assert (Hm : map fst l1 = chunk) by (rewrite <- Ha; apply chunkTrace_products).
        repeat split.
        -- rewrite Hg, Hm. cbn [map app]. now rewrite catalogNumbers_app, fold_left_app.
        -- assumption.
        -- intros c Hc. rewrite (Hf c Hc), has_fold_add, carries_catalogNumbers, Hm.
           cbn [map existsb]. now rewrite orb_false_r.
      * cbn [app] in Hb. injection Hb as Hx Hb. subst x.
        apply (chunkTrace_position chunk [] gs l1 p o l (within_nil gs) Ha).
    + destruct (IH _ _ _ _ _ Hb) as [Hg [Hk Hf]].
      rewrite chunkTrace_lastGlobal in Hg, Hf by apply within_nil.
      assert (Hm : map fst l1 = chunk ++ map fst l).
      { rewrite Ha, map_app. f_equal. apply chunkTrace_products. }
      repeat split.
      * rewrite Hg, Hm. rewrite <- app_assoc.
        now rewrite (catalogNumbers_app chunk), fold_left_app.
      * assumption.
      * intros c Hc. rewrite (Hf c Hc), has_fold_add, carries_catalogNumbers, Hm.
        now rewrite existsb_app, orb_assoc.
Qed.

End DuplicateSets.

(* ================================================================== *)
(** * The chunk validator computes what the trace says *)
(* ================================================================== *)

Section ChunkValidator.

Variables (supplierId : JsNum) (sheet : string).
Variables (additionalFieldNames : list string) (fields : list Field).

Local Abbreviation step := (chunkStep supplierId sheet additionalFieldNames fields).
Local Abbreviation ctrace := (chunkTrace supplierId sheet additionalFieldNames fields).

Lemma chunkStep_eq (st : ChunkState) (p : Obj) :
  let o := validateProduct supplierId sheet additionalFieldNames fields
             (chunkProcessedCatalogNumbers st) (globalSupplierCatalogNumbers st) p in
  step st p
  = mkChunkState (chunkErrors st ++ o_errors o)
      (finalValidData st ++ validOutput [(p, o)]) (o_chunkSet o) (o_globalSet o).
Proof.
  intros o. unfold chunkStep. fold o. unfold validOutput, kept. cbn [filter snd].
  destruct (0 <? List.length (o_errors o))%nat eqn:E; cbn [negb map].
  - now rewrite app_nil_r.
  - apply Nat.ltb_ge in E. assert (Ho : o_errors o = []).
    { destruct (o_errors o); [reflexivity | simpl in E; lia]. }
    rewrite Ho. cbn [snd]. now rewrite app_nil_r.
Qed.

Lemma validOutput_cons (x : Obj * Outcome) (tr : list (Obj * Outcome)) :
  validOutput (x :: tr) = validOutput [x] ++ validOutput tr.
Proof.
  unfold validOutput. cbn [filter]. destruct (kept x); reflexivity.
Qed.

Lemma chunkStep_fold (chunk : list Obj) (st : ChunkState) :
  let tr := ctrace (chunkProcessedCatalogNumbers st) (globalSupplierCatalogNumbers st) chunk in
  fold_left step chunk st
  = mkChunkState (chunkErrors st ++ errorsOf tr) (finalValidData st ++ validOutput tr)
      (lastChunkSet (chunkProcessedCatalogNumbers st) tr)
      (lastGlobal (globalSupplierCatalogNumbers st) tr).
Proof.
  revert st. induction chunk as [|p chunk IH]; intros st.
  - destruct st. cbn. now rewrite !app_nil_r.
  - cbn [fold_left chunkTrace]. rewrite IH, chunkStep_eq.
    cbn [chunkErrors finalValidData chunkProcessedCatalogNumbers
           globalSupplierCatalogNumbers].
    set (o := validateProduct _ _ _ _ _ _ p). f_equal.
    + rewrite <- app_assoc. reflexivity.
    + rewrite <- app_assoc. f_equal. symmetry. apply validOutput_cons.
Qed.

(** [processProductChunk] returns the diagnostics of the trace and keeps the
    products without any. *)
Lemma processProductChunk_trace (chunk : list Obj) (gs : StrSet) :
  let r := processProductChunk chunk supplierId sheet additionalFieldNames fields gs in
  chunkErrors r = errorsOf (ctrace [] gs chunk)
  /\ finalValidData r = validOutput (ctrace [] gs chunk)
  /\ globalSupplierCatalogNumbers r = lastGlobal gs (ctrace [] gs chunk).
Proof.
  unfold processProductChunk. rewrite chunkStep_fold. cbn. repeat split.
Qed.

End ChunkValidator.

Lemma errorsOf_app (a b : list (Obj * Outcome)) : errorsOf (a ++ b) = errorsOf a ++ errorsOf b.
Proof. unfold errorsOf. apply flat_map_app. Qed.

Lemma lastGlobal_app (gs : StrSet) (a b : list (Obj * Outcome)) :
  lastGlobal gs (a ++ b) = lastGlobal (lastGlobal gs a) b.
Proof. unfold lastGlobal. apply fold_left_app. Qed.

(** The loop over the chunks of [GET], in terms of the trace of the run. *)
Lemma validateChunks_trace (supplierId : JsNum) (additionalFieldNames : list string)
  (fields : list Field) (chunks : list (list Obj)) :
  validateChunks supplierId additionalFieldNames fields chunks
  = (errorsOf (runTrace supplierId "Main Sheet" additionalFieldNames fields [] chunks),
     lastGlobal [] (runTrace supplierId "Main Sheet" additionalFieldNames fields [] chunks)).
Proof.
  unfold validateChunks.
  assert (H : forall acc,
             fold_left (chunkLoopStep supplierId additionalFieldNames fields) chunks acc
             = (fst acc ++ errorsOf (runTrace supplierId "Main Sheet" additionalFieldNames
                                       fields (snd acc) chunks),
                lastGlobal (snd acc)
                  (runTrace supplierId "Main Sheet" additionalFieldNames fields
                     (snd acc) chunks))).
  { induction chunks as [|chunk chunks IH]; intros [errs gs].
    - cbn. now rewrite app_nil_r.
    - cbn [fold_left runTrace]. rewrite IH. unfold chunkLoopStep. cbn [fst snd].
      destruct (processProductChunk_trace supplierId "Main Sheet" additionalFieldNames
                  fields chunk gs) as [He [_ Hg]].
      rewrite He, Hg, errorsOf_app, lastGlobal_app. now rewrite app_assoc. }
  rewrite H. reflexivity.
Qed.



(* ================================================================== *)
(** * Missing catalog numbers and duplicates *)
(* ================================================================== *)

(** One turn of the loop on a product whose catalog number is missing or
    blank: exactly one missing_field error joins the errors of the chunk
    and the loop body ends there; the product is not changed by any later
    check, it is not added to the valid products, and neither duplicate set
    records anything. *)
Lemma chunkStep_missing_catalog_number
  (supplierId : JsNum) (sheet : string) (additionalFieldNames : list string)
  (fields : list Field) (st : ChunkState) (product : Obj) :
  isBlank (get product "catalog_number") = true ->
  validateProduct supplierId sheet additionalFieldNames fields
    (chunkProcessedCatalogNumbers st) (globalSupplierCatalogNumbers st) product
  = mkOutcome [missingCatalogNumber sheet] product
      (chunkProcessedCatalogNumbers st) (globalSupplierCatalogNumbers st)
  /\ chunkStep supplierId sheet additionalFieldNames fields st product
     = mkChunkState (chunkErrors st ++ [missingCatalogNumber sheet]) (finalValidData st)
         (chunkProcessedCatalogNumbers st) (globalSupplierCatalogNumbers st)
  /\ type (missingCatalogNumber sheet) = missing_field
  /\ severity (missingCatalogNumber sheet) = sev_error.
Proof.
  intros H. apply isBlank_no_catalogNumber in H.
  pose proof (validateProduct_none supplierId sheet additionalFieldNames fields
                (chunkProcessedCatalogNumbers st) (globalSupplierCatalogNumbers st)
                product H) as Hv.
  split; [exact Hv|]. split; [|split; reflexivity].
  unfold chunkStep. rewrite Hv. reflexivity.
Qed.

(** Along the trace of a run that starts with an empty global set,
    whatever the division into chunks: a product with catalog number [c] is
    flagged as a duplicate exactly when an earlier product of the run
    carries [c]; a flagged product is not kept; once the product is
    processed the global set holds [c]; the set never holds a number twice,
    and every later state of the set contains the earlier one. *)
Lemma runTrace_first_seen
  (supplierId : JsNum) (sheet : string) (additionalFieldNames : list string)
  (fields : list Field) (chunks : list (list Obj))
  (l1 l2 : list (Obj * Outcome)) (p : Obj) (o : Outcome) (c : string) :
  runTrace supplierId sheet additionalFieldNames fields [] chunks = l1 ++ (p, o) :: l2 ->
  catalogNumberOf p = Some c ->
  flaggedDuplicate o = existsb (carries c) (map fst l1)
  /\ (flaggedDuplicate o = true -> kept (p, o) = false)
  /\ In c (o_globalSet o)
  /\ NoDup (o_globalSet o)
  /\ (forall q o', In (q, o') l2 ->
        incl (o_globalSet o) (o_globalSet o') /\ NoDup (o_globalSet o')).
Proof.
  intros Htr Hc.
  destruct (runTrace_position supplierId sheet additionalFieldNames fields chunks
              [] l1 p o l2 Htr) as [Hg [_ Hf]].
  assert (Hp : In c (catalogNumbers [p])).
  { unfold catalogNumbers. simpl. rewrite Hc. now left. }
  repeat split.
  - now rewrite (Hf c Hc).
  - unfold flaggedDuplicate, kept. cbn [snd]. intros H.
    destruct (o_errors o); [discriminate | reflexivity].
  - rewrite Hg. apply has_In. rewrite has_fold_add. cbn [has existsb orb].
    apply existsb_exists. exists c. split; [|apply String.eqb_refl].
    rewrite catalogNumbers_app. apply in_or_app. now right.
  - rewrite Hg. apply fold_add_NoDup. constructor.
  - apply in_split in H. destruct H as [m1 [m2 Hl2]].
    assert (Htr' : runTrace supplierId sheet additionalFieldNames fields [] chunks
                   = (l1 ++ (p, o) :: m1) ++ (q, o') :: m2).
    { rewrite Htr, Hl2. now rewrite <- app_assoc. }
    destruct (runTrace_position supplierId sheet additionalFieldNames fields chunks
                [] _ q o' m2 Htr') as [Hg' _].
    rewrite Hg', Hg. rewrite map_app. cbn [map fst].
    replace ((map fst l1 ++ p :: map fst m1) ++ [q])
      with ((map fst l1 ++ [p]) ++ (map fst m1 ++ [q]))
      by (rewrite <- !app_assoc; reflexivity).
    rewrite (catalogNumbers_app (map fst l1 ++ [p]) (map fst m1 ++ [q])), fold_left_app.
    intros x Hx. now apply fold_add_incl.
  - apply in_split in H. destruct H as [m1 [m2 Hl2]].
    assert (Htr' : runTrace supplierId sheet additionalFieldNames fields [] chunks
                   = (l1 ++ (p, o) :: m1) ++ (q, o') :: m2).
    { rewrite Htr, Hl2. now rewrite <- app_assoc. }
    destruct (runTrace_position supplierId sheet additionalFieldNames fields chunks
                [] _ q o' m2 Htr') as [Hg' _].
    rewrite Hg'. apply fold_add_NoDup. constructor.
Qed.

(* ================================================================== *)
(** * Price and currency *)
(* ================================================================== *)

Lemma get_set_same (o : Obj) (k : string) (v : JsVal) : get (set o k v) k = v.
Proof.
  induction o as [|[k' v'] o IH]; simpl.
  - now rewrite String.eqb_refl.
  - destruct (k' =? k)%string eqn:E; simpl; rewrite E; [reflexivity | exact IH].
Qed.

Lemma get_set_other (o : Obj) (k k' : string) (v : JsVal) :
  k <> k' -> get (set o k v) k' = get o k'.
Proof.
  intros Hne. induction o as [|[k0 v0] o IH]; simpl.
  - destruct (k =? k')%string eqn:E; [|reflexivity].
    apply String.eqb_eq in E. congruence.
  - destruct (k0 =? k)%string eqn:E; simpl.
    + apply String.eqb_eq in E. subst k0.
      destruct (k =? k')%string eqn:E'; [|reflexivity].
      apply String.eqb_eq in E'. congruence.
    + destruct (k0 =? k')%string; [reflexivity | exact IH].
Qed.

(** The currency check followed by the check of the buy amount (the
    two steps of the loop body, in this order): with the amount written
    12,50 and a currency that reads as a whitelisted code [w] once put in
    upper case and trimmed, no error is added, the currency becomes [w] and
    the amount becomes the number 12.5.  A missing or blank amount adds a
    missing_field error, an amount that does not parse or parses to a
    negative number adds an invalid_value error, and the product is then
    left as it was. *)
Lemma price_steps (cn sheet : string) :
  (forall product errs c w,
      get product "price.buy.amount" = JStr "12,50" ->
      get product "price.buy.currency" = JStr c ->
      trim (toUpperCase c) = w ->
      In w validCurrencies ->
      amountCheck "price.buy.amount" cn (currencyCheck cn sheet (product, errs))
      = (set (set product "price.buy.currency" (JStr w)) "price.buy.amount"
           (JNum (Fin 125 (-1))),
         errs))
  /\ (forall product errs,
        isBlank (get product "price.buy.amount") = true ->
        exists e,
          amountCheck "price.buy.amount" cn (product, errs) = (product, errs ++ [e])
          /\ type e = missing_field /\ severity e = sev_error
          /\ field e = Some "price.buy.amount")
  /\ (forall product errs,
        isBlank (get product "price.buy.amount") = false ->
        isNaN (normalizeAmount (get product "price.buy.amount")) = true
        \/ isNegative (normalizeAmount (get product "price.buy.amount")) = true ->
        exists e,
          amountCheck "price.buy.amount" cn (product, errs) = (product, errs ++ [e])
          /\ type e = invalid_value /\ severity e = sev_error
          /\ field e = Some "price.buy.amount").
Proof.
  repeat split.
  - intros product errs c w Ha Hc Hw Hin.
    unfold currencyCheck. rewrite Hc.
    assert (Hc' : c <> "").
    { intros ->. subst w. simpl in Hin. repeat (destruct Hin as [Hin|Hin]; [discriminate|]).
      contradiction. }
    assert (Ho : orElse (JStr c) (JStr "") = JStr c).
    { unfold orElse. simpl. apply String.eqb_neq in Hc'. now rewrite Hc'. }
    rewrite Ho. cbn [toString]. rewrite Hw.
    apply has_In in Hin. rewrite Hin. cbn [negb].
    unfold amountCheck. rewrite get_set_other by discriminate. rewrite Ha.
    reflexivity.
  - intros product errs Hb. unfold amountCheck, validatePriceAmount. rewrite Hb.
    eexists. repeat split.
  - intros product errs Hb Hbad. unfold amountCheck, validatePriceAmount. rewrite Hb.
    destruct (isNaN _) eqn:En.
    + eexists. repeat split.
    + destruct Hbad as [Hbad|Hbad]; [discriminate|]. rewrite Hbad. eexists. repeat split.
Qed.

(** The same on a whole product: the sample product passes every check and
    comes out with the amount 12.5 and the currency EUR. *)
Example sample_product_price :
  let o := validateProduct (Fin 5 0) "Main Sheet" [] [] [] [] (sampleProduct "A1" "true") in
  o_errors o = []
  /\ get (o_product o) "price.buy.amount" = JNum (Fin 125 (-1))
  /\ get (o_product o) "price.buy.currency" = JStr "EUR".
Proof. vm_compute. repeat split. Qed.

(* ================================================================== *)
(** * Price and currency through all the checks of a product *)
(* ================================================================== *)

Section PriceEndToEnd.

Lemma isWhiteSpace_toUpperChar (c : ascii) :
  isWhiteSpace (toUpperChar c) = isWhiteSpace c.
Proof. destruct c as [[] [] [] [] [] [] [] []]; reflexivity. Qed.

Lemma toUpperCase_empty (s : string) : (toUpperCase s =? "")%string = (s =? "")%string.
Proof. destruct s; reflexivity. Qed.

Lemma trimStart_toUpperCase (s : string) :
  trimStart (toUpperCase s) = toUpperCase (trimStart s).
Proof.
  induction s as [|c s IH]; [reflexivity|].
  cbn [toUpperCase mapString trimStart]. rewrite isWhiteSpace_toUpperChar.
  destruct (isWhiteSpace c); [exact IH | reflexivity].
Qed.

Lemma trimEnd_toUpperCase (s : string) :
  trimEnd (toUpperCase s) = toUpperCase (trimEnd s).
Proof.
  induction s as [|c s IH]; [reflexivity|].
  cbn [toUpperCase mapString trimEnd]. fold (toUpperCase s).
  rewrite isWhiteSpace_toUpperChar, IH, toUpperCase_empty.
  destruct (isWhiteSpace c && (trimEnd s =? "")%string); reflexivity.
Qed.

Lemma trim_toUpperCase (s : string) : trim (toUpperCase s) = toUpperCase (trim s).
Proof. unfold trim. now rewrite trimStart_toUpperCase, trimEnd_toUpperCase. Qed.

Variables (supplierId : JsNum) (sheet cn : string).
Variables (additionalFieldNames : list string) (fields : list Field).

Hypothesis amount_not_additional :
  includes additionalFieldNames "price.buy.amount" = false.
Hypothesis currency_not_additional :
  includes additionalFieldNames "price.buy.currency" = false.

Local Abbreviation off := (offFields priceFields).

Lemma priceFields_cases (k : string) :
  includes priceFields k = true -> k = "price.buy.amount" \/ k = "price.buy.currency".
Proof.
  unfold includes, priceFields. cbn [existsb]. rewrite orb_false_r, orb_true_iff.
  rewrite !String.eqb_eq. intros [H|H]; [left | right]; exact H.
Qed.

Lemma not_additional (k : string) :
  includes additionalFieldNames k = true -> includes priceFields k = false.
Proof.
  intros H. destruct (includes priceFields k) eqn:E; [|reflexivity].
  apply priceFields_cases in E. destruct E as [-> | ->]; congruence.
Qed.

Lemma get_set_off (o : Obj) (k k' : string) (v : JsVal) :
  includes priceFields k = false -> In k' priceFields ->
  get (set o k v) k' = get o k'.
Proof.
  intros Hk Hin. apply get_set_other. intros ->.
  assert (includes priceFields k' = true); [|congruence].
  unfold includes. apply existsb_exists. exists k'. split; [assumption | apply String.eqb_refl].
Qed.

Lemma holds_set (a c : JsVal) (p : Obj) (k : string) (v : JsVal) :
  includes priceFields k = false -> holds a c p -> holds a c (set p k v).
Proof.
  intros Hk [Ha Hc]. split.
  - rewrite get_set_off; [assumption | assumption | now left].
  - rewrite get_set_off; [assumption | assumption | right; now left].
Qed.

Lemma unrecognizedFields_off (product : Obj) :
  forallb off (unrecognizedFields product cn sheet additionalFieldNames) = true.
Proof.
  unfold unrecognizedFields. apply forallb_forall. intros e Hin.
  apply in_flat_map in Hin. destruct Hin as [k [_ Hk]].
  destruct (isEmptyCell _); [contradiction|].
  destruct (negb _) eqn:E; [|contradiction]. destruct Hk as [<-|[]].
  unfold offFields. cbn [field diag]. destruct (includes priceFields k) eqn:Ek; [|reflexivity].
  apply negb_true_iff in E. unfold includes in E. rewrite existsb_app in E.
  apply orb_false_iff in E. destruct E as [E _].
  apply priceFields_cases in Ek. destruct Ek as [-> | ->]; discriminate.
Qed.

Lemma essentialFields_off (a c : JsVal) (st : Obj * list ProcessError) :
  isEmptyCell a = false -> isEmptyCell c = false -> holds a c (fst st) ->
  extends off st (essentialFields cn sheet st)
  /\ holds a c (fst (essentialFields cn sheet st)).
Proof.
  intros Ha Hc. unfold essentialFields. revert st.
  induction EssentialFields as [|fld l IH]; intros st Hst; cbn [fold_left].
  - split; [apply extends_refl | assumption].
  - assert (Hstep : extends off st (essentialField cn sheet st fld)
                    /\ holds a c (fst (essentialField cn sheet st fld))).
    { unfold essentialField. destruct st as [product errs]. cbn [fst] in Hst.
      destruct ((fld =? "price.promotion_price.amount")%string && _) eqn:E.
      - apply andb_true_iff in E. destruct E as [E _]. apply String.eqb_eq in E. subst fld.
        split; [apply extends_same_errors | now apply holds_set].
      - destruct (isEmptyCell (get product fld)) eqn:Ee.
        + split; [|exact Hst]. apply extends_push. unfold offFields. cbn [field diag].
          destruct (includes priceFields fld) eqn:Ek; [|reflexivity].
          destruct Hst as [H1 H2].
          apply priceFields_cases in Ek. destruct Ek as [-> | ->]; congruence.
        + split; [apply extends_refl | assumption]. }
    destruct Hstep as [H1 H2]. destruct (IH _ H2) as [I1 I2].
    split; [eapply extends_trans; eassumption | assumption].
Qed.

Lemma supplierCheck_off (a c : JsVal) (st : Obj * list ProcessError) :
  holds a c (fst st) ->
  extends off st (supplierCheck supplierId cn sheet st)
  /\ holds a c (fst (supplierCheck supplierId cn sheet st)).
Proof.
  intros Hst. unfold supplierCheck. destruct st as [product errs].
  destruct (_ || _); split; try assumption;
    first [apply extends_refl | apply extends_push; reflexivity].
Qed.

Lemma validatePriceAmount_field (v : JsVal) (fld : string) (e : ProcessError) :
  validatePriceAmount v fld cn = Some e -> field e = Some fld.
Proof.
  unfold validatePriceAmount. intros H.
  destruct (isBlank v); [injection H as <-; reflexivity|].
  destruct (isNaN _); [injection H as <-; reflexivity|].
  destruct (isNegative _); [injection H as <-; reflexivity | discriminate].
Qed.

Lemma validateBooleanField_field (v : JsVal) (fld : string) (e : ProcessError) :
  validateBooleanField v fld cn = Some e -> field e = Some fld.
Proof.
  unfold validateBooleanField. intros H.
  destruct (isBlank v); [injection H as <-; reflexivity|].
  destruct (_ && _); [injection H as <-; reflexivity | discriminate].
Qed.

Lemma push_off (p p' : Obj) (errs : list ProcessError) (e : ProcessError) (k : string) :
  field e = Some k -> includes priceFields k = false ->
  extends off (p, errs) (p', errs ++ [e]).
Proof.
  intros He Hk. apply extends_push. unfold offFields. now rewrite He, Hk.
Qed.

Lemma promotionCheck_off (a c : JsVal) (st : Obj * list ProcessError) :
  holds a c (fst st) ->
  extends off st (promotionCheck cn st) /\ holds a c (fst (promotionCheck cn st)).
Proof.
  intros Hst. unfold promotionCheck.
  assert (Hcheck : extends off st (amountCheck "price.promotion_price.amount" cn st)
                   /\ holds a c (fst (amountCheck "price.promotion_price.amount" cn st))).
  { unfold amountCheck. destruct st as [product errs]. cbn [fst] in Hst.
    destruct (validatePriceAmount _ _ _) as [e|] eqn:Ev.
    - split; [|exact Hst]. eapply push_off; [eapply validatePriceAmount_field; eassumption|].
      reflexivity.
    - split; [apply extends_same_errors | now apply holds_set]. }
  destruct (get (fst st) "price.promotion_price.amount");
    first [exact Hcheck | split; [apply extends_refl | assumption]].
Qed.

Lemma booleanFields_off (a c : JsVal) (st : Obj * list ProcessError) :
  holds a c (fst st) ->
  extends off st (fold_left (booleanCheck cn) booleanFields st)
  /\ holds a c (fst (fold_left (booleanCheck cn) booleanFields st)).
Proof.
  assert (Hstep : forall fld st0,
             In fld booleanFields -> holds a c (fst st0) ->
             extends off st0 (booleanCheck cn st0 fld)
             /\ holds a c (fst (booleanCheck cn st0 fld))).
  { intros fld [product errs] Hin Hst0. cbn [fst] in Hst0. unfold booleanCheck.
    assert (Hoff : includes priceFields fld = false).
    { cbn in Hin. destruct Hin as [<-|[<-|[<-|[]]]]; reflexivity. }
    destruct (validateBooleanField _ _ _) as [e|] eqn:Ev.
    - split; [|exact Hst0].
      eapply push_off; [eapply validateBooleanField_field; eassumption | assumption].
    - split; [apply extends_same_errors | now apply holds_set]. }
  intros Hst. cbn [fold_left booleanFields].
  destruct (Hstep "shipment.dry_ice" st (or_introl eq_refl) Hst) as [E1 H1].
  destruct (Hstep "available" _ (or_intror (or_introl eq_refl)) H1) as [E2 H2].
  destruct (Hstep "display" _ (or_intror (or_intror (or_introl eq_refl))) H2) as [E3 H3].
  split; [|exact H3]. eapply extends_trans; [|exact E3].
  eapply extends_trans; eassumption.
Qed.

Lemma validateKey_off (a c : JsVal) (st : Obj * list ProcessError) (key : string) :
  holds a c (fst st) ->
  extends off st (validateKey additionalFieldNames fields st key)
  /\ holds a c (fst (validateKey additionalFieldNames fields st key)).
Proof.
  intros Hst. unfold validateKey.
  destruct (includes additionalFieldNames (trim key)) eqn:Hin;
    [|split; [apply extends_refl | assumption]].
  pose proof (not_additional _ Hin) as Hoff.
  destruct (find _ fields) as [f|]; [|split; [apply extends_refl | assumption]].
  destruct st as [product errs]. cbn [fst snd] in *.
  destruct (field_type f).
  - unfold constantField.
    destruct (_ =? "n/a")%string; [split; [apply extends_same_errors | now apply holds_set]|].
    destruct (_ =? "")%string;
      [split; [eapply push_off; [reflexivity | assumption] | exact Hst]|].
    destruct (matchTokens _ _ _ _ _) as [matched subErrors].
    split.
    + match goal with |- extends _ _ (?p, _) => generalize p; intros p' end.
      destruct (0 <? List.length subErrors)%nat;
        [eapply push_off; [reflexivity | assumption] | apply extends_same_errors].
    + cbn [fst]. destruct (0 <? List.length matched)%nat; [now apply holds_set|].
      destruct (_ && _); [now apply holds_set | exact Hst].
  - unfold variableField.
    destruct (_ =? "n/a")%string; [split; [apply extends_same_errors | now apply holds_set]|].
    destruct (_ =? "")%string;
      [split; [eapply push_off; [reflexivity | assumption] | exact Hst]|].
    split; [apply extends_same_errors | now apply holds_set].
Qed.

Lemma additionalCheck_off (a c : JsVal) (st : Obj * list ProcessError) :
  holds a c (fst st) ->
  extends off st (additionalCheck additionalFieldNames fields st)
  /\ holds a c (fst (additionalCheck additionalFieldNames fields st)).
Proof.
  intros Hst. unfold additionalCheck, validateAdditionalFields.
  destruct st as [product errs]. cbn [fst] in Hst.
  assert (Hfold : forall ks st0,
             holds a c (fst st0) ->
             extends off st0 (fold_left (validateKey additionalFieldNames fields) ks st0)
             /\ holds a c (fst (fold_left (validateKey additionalFieldNames fields) ks st0))).
  { induction ks as [|k ks IH]; intros st0 H0; cbn [fold_left].
    - split; [apply extends_refl | assumption].
    - destruct (validateKey_off a c st0 k H0) as [E1 H1].
      destruct (IH _ H1) as [E2 H2].
      split; [eapply extends_trans; eassumption | assumption]. }
  destruct (Hfold (objectKeys product) (product, []) Hst) as [[extra [Hx Px]] Hh].
  destruct (fold_left _ _ _) as [product' more]. cbn [fst snd app] in *. subst more.
  split; [|exact Hh]. exists extra. split; [reflexivity | assumption].
Qed.

(** For a product whose buy amount is written 12,50 and whose currency reads
    as the whitelisted code [w], and a schema that does not declare the two
    paths as additional fields: after all the checks of the product the
    amount is the number 12.5, the currency is [w], and no diagnostic of the
    product is about either field. *)
Lemma product_price_end_to_end (cs gs : StrSet) (product : Obj) (c w : string) :
  catalogNumberOf product = Some cn ->
  get product "price.buy.amount" = JStr "12,50" ->
  get product "price.buy.currency" = JStr c ->
  trim (toUpperCase c) = w ->
  In w validCurrencies ->
  let o := validateProduct supplierId sheet additionalFieldNames fields cs gs product in
  get (o_product o) "price.buy.amount" = JNum (Fin 125 (-1))
  /\ get (o_product o) "price.buy.currency" = JStr w
  /\ forallb off (o_errors o) = true.
Proof.
  intros Hcn Ha Hc Hw Hin o. subst o. unfold validateProduct. rewrite Hcn.
  assert (Hdup : forallb off (fst (fst (duplicateCheck cn sheet cs gs))) = true).
  { unfold duplicateCheck. destruct (has cs cn); [reflexivity|].
    destruct (has gs cn); reflexivity. }
  destruct (duplicateCheck cn sheet cs gs) as [[d cs'] gs']. cbn [fst] in Hdup.
  assert (Hce : isEmptyCell (JStr c) = false).
  { cbn [isEmptyCell]. destruct (trim c =? "")%string eqn:E; [|reflexivity].
    apply String.eqb_eq in E. rewrite trim_toUpperCase, E in Hw. subst w.
    cbn in Hin. repeat (destruct Hin as [Hin|Hin]; [discriminate|]). contradiction. }
  unfold fieldChecks. cbn [fst snd].
  set (st1 := (product, d ++ unrecognizedFields product cn sheet additionalFieldNames)).
  assert (H1 : holds (JStr "12,50") (JStr c) (fst st1)) by (split; assumption).
  assert (E1 : extends off (product, []) st1).
  { exists (d ++ unrecognizedFields product cn sheet additionalFieldNames).
    split; [reflexivity|]. rewrite forallb_app, Hdup. apply unrecognizedFields_off. }
  destruct (essentialFields_off (JStr "12,50") (JStr c) st1 eq_refl Hce H1) as [E2 H2].
  set (st2 := essentialFields cn sheet st1) in *.
  destruct (supplierCheck_off _ _ st2 H2) as [E3 H3].
  set (st3 := supplierCheck supplierId cn sheet st2) in *.
  pose proof (proj1 (price_steps cn sheet) (fst st3) (snd st3) c w
                (proj1 H3) (proj2 H3) Hw Hin) as Hpc.
  rewrite <- surjective_pairing in Hpc.
  set (st5 := amountCheck "price.buy.amount" cn (currencyCheck cn sheet st3)) in *.
  assert (H5 : holds (JNum (Fin 125 (-1))) (JStr w) (fst st5)).
  { rewrite Hpc. split; cbn [fst].
    - apply get_set_same.
    - rewrite get_set_other by discriminate. apply get_set_same. }
  assert (E5 : extends off st3 st5).
  { rewrite Hpc. exists []. split; [cbn [snd]; now rewrite app_nil_r | reflexivity]. }
  destruct (promotionCheck_off _ _ st5 H5) as [E6 H6].
  destruct (booleanFields_off _ _ _ H6) as [E7 H7].
  destruct (additionalCheck_off _ _ _ H7) as [E8 H8].
  assert (Eall : extends off (product, [])
                   (additionalCheck additionalFieldNames fields
                      (fold_left (booleanCheck cn) booleanFields (promotionCheck cn st5)))).
  { eapply extends_trans; [|exact E8]. eapply extends_trans; [|exact E7].
    eapply extends_trans; [|exact E6]. eapply extends_trans; [|exact E5].
    eapply extends_trans; [|exact E3]. eapply extends_trans; [exact E1 | exact E2]. }
  destruct (additionalCheck _ _ _) as [product' errs'] eqn:Efinal.
  destruct H8 as [Ga Gc]. destruct Eall as [extra [Hx Px]]. cbn [fst snd app] in *.
  subst errs'. repeat split; assumption.
Qed.

End PriceEndToEnd.

(* ================================================================== *)
(** * Constant fields *)
(* ================================================================== *)

Section ConstantFields.

Variables (allowed : list AllowedValue) (key : string).

Lemma matchTokens_matched (toks : list string) (m : StrSet) (e : list string) (x : string) :
  In x (fst (matchTokens allowed key toks m e))
  <-> In x m \/ exists t, In t toks /\ findMatch allowed t = Some x.
Proof.
  revert m e. induction toks as [|t toks IH]; intros m e; cbn [matchTokens].
  - simpl. split; [now left | intros [H|[t [[] _]]]; assumption].
  - destruct (findMatch allowed t) as [n|] eqn:E; rewrite IH.
    + rewrite add_In. split.
      * intros [[H|H]|[t' [Hin Ht']]].
        -- now left.
        -- right. exists t. subst. split; [now left | assumption].
        -- right. exists t'. split; [now right | assumption].
      * intros [H|[t' [[<-|Hin] Ht']]].
        -- left. now left.
        -- left. right. congruence.
        -- right. exists t'. split; assumption.
    + split.
      * intros [H|[t' [Hin Ht']]]; [now left|].
        right. exists t'. split; [now right | assumption].
      * intros [H|[t' [[<-|Hin] Ht']]]; [now left | congruence |].
        right. exists t'. split; assumption.
Qed.

(** The matched names do not depend on the order of the tokens. *)
Lemma matchTokens_permutation (toks1 toks2 : list string) (x : string) :
  Permutation toks1 toks2 ->
  In x (fst (matchTokens allowed key toks1 [] []))
  <-> In x (fst (matchTokens allowed key toks2 [] [])).
Proof.
  intros Hp. rewrite !matchTokens_matched. split.
  - intros [H|[t [Hin Ht]]]; [now left|]. right. exists t. split; [|assumption].
    eapply Permutation_in; eassumption.
  - intros [H|[t [Hin Ht]]]; [now left|]. right. exists t. split; [|assumption].
    eapply Permutation_in; [apply Permutation_sym|]; eassumption.
Qed.

Lemma matchTokens_same (toks : list string) (n : string) (e : list string) :
  (forall t, In t toks -> findMatch allowed t = Some n) ->
  matchTokens allowed key toks [n] e = ([n], e).
Proof.
  induction toks as [|t toks IH]; intros H; cbn [matchTokens]; [reflexivity|].
  rewrite (H t (or_introl eq_refl)).
  replace (add [n] n) with [n].
  - apply IH. intros t' Ht'. apply H. now right.
  - unfold add. simpl. now rewrite String.eqb_refl.
Qed.

(** The loop over the allowed values stops at the first one that matches
    the token. *)
Lemma findMatch_first (listed later : list AllowedValue) (value : AllowedValue)
  (t : string) :
  matchesValue value t = true ->
  (forall u, In u listed -> matchesValue u t = false) ->
  findMatch (listed ++ value :: later) t = Some (av_name value).
Proof.
  intros Hv. induction listed as [|u listed IH]; intros Hl; cbn [app findMatch].
  - unfold matchesValue in Hv.
    destruct (existsb _ (av_properties value)); [reflexivity|].
    cbn [orb] in Hv. now rewrite Hv.
  - pose proof (Hl u (or_introl eq_refl)) as Hu. unfold matchesValue in Hu.
    apply orb_false_iff in Hu. destruct Hu as [Hp Hn]. rewrite Hp, Hn.
    apply IH. intros u' Hu'. apply Hl. now right.
Qed.

Lemma matchTokens_NoDup (toks : list string) (m : StrSet) (e : list string) :
  NoDup m -> NoDup (fst (matchTokens allowed key toks m e)).
Proof.
  revert m e. induction toks as [|t toks IH]; intros m e Hm; cbn [matchTokens];
    [exact Hm|].
  destruct (findMatch allowed t); apply IH; [now apply add_NoDup | exact Hm].
Qed.

End ConstantFields.

(** C7, as amended.  For a constant field whose text is not n/a (in any
    case) and has at least one token: when every token is matched by one
    and the same allowed value [value] and by none of the allowed values
    [listed] before it in the schema, the field is replaced by the array
    that holds the name of [value] once and no error is added.  For any two
    lists of tokens that are permutations of each other the sets of matched
    names are the same, and the matched names of any list of tokens hold no
    name twice. *)
Theorem constantField_deduplicates
  (key : string) (listed later : list AllowedValue) (value : AllowedValue)
  (product : Obj) (errs : list ProcessError) (raw : string) :
  let allowed := listed ++ value :: later in
  get product key = JStr raw ->
  toLowerCase (trim raw) <> "n/a" ->
  tokens (trim raw) <> [] ->
  (forall t, In t (tokens (trim raw)) ->
             matchesValue value t = true
             /\ forall u, In u listed -> matchesValue u t = false) ->
  constantField key allowed product errs
  = (set product key (JArr [av_name value]), errs)
  /\ (forall toks1 toks2 x,
        Permutation toks1 toks2 ->
        In x (fst (matchTokens allowed key toks1 [] []))
        <-> In x (fst (matchTokens allowed key toks2 [] [])))
  /\ (forall toks, NoDup (fst (matchTokens allowed key toks [] []))).
Proof.
  intros allowed Hv Hna Htok Hsame.
  assert (Hall : forall t, In t (tokens (trim raw)) ->
                           findMatch allowed t = Some (av_name value)).
  { intros t Ht. destruct (Hsame t Ht) as [Hm Hl]. now apply findMatch_first. }
  split; [|split; [intros; now apply matchTokens_permutation
                  |intros; apply matchTokens_NoDup; constructor]].
  unfold constantField. rewrite Hv.
  assert (Hraw : raw <> "") by (intros ->; now apply Htok).
  assert (Ho : orElse (JStr raw) (JStr "") = JStr raw).
  { unfold orElse. simpl. apply String.eqb_neq in Hraw. now rewrite Hraw. }
  rewrite Ho. cbn [toString].
  apply String.eqb_neq in Hna. rewrite Hna.
  assert (Htrim : (trim raw =? "")%string = false).
  { apply String.eqb_neq. intros E. rewrite E in Htok. now apply Htok. }
  rewrite Htrim.
  destruct (tokens (trim raw)) as [|t toks] eqn:Et; [congruence|].
  cbn [matchTokens]. rewrite (Hall t (or_introl eq_refl)).
  replace (add [] (av_name value)) with [av_name value] by reflexivity.
  rewrite matchTokens_same by (intros t' Ht'; apply Hall; now right).
  reflexivity.
Qed.

Lemma constantField_deduplicates_witness :
  constantField "species" [mkAllowedValue "Mouse" []; mkAllowedValue "Human" ["Homo sapiens"]]
    [("species", JStr "Human, human, HUMAN")] []
  = ([("species", JArr ["Human"])], []).
Proof.
  refine (proj1 (constantField_deduplicates "species" [mkAllowedValue "Mouse" []] []
                   (mkAllowedValue "Human" ["Homo sapiens"])
                   [("species", JStr "Human, human, HUMAN")] []
                   "Human, human, HUMAN" eq_refl _ _ _)).
  - discriminate.
  - discriminate.
  - intros t Ht. simpl in Ht.
    destruct Ht as [<-|[<-|[<-|[]]]];
      (split; [reflexivity | intros u [<-|[]]; reflexivity]).
Defined.

(** Tokens that are all matched by one allowed value need not give one
    entry: a token goes to the first allowed value, in the order of the
    schema, that matches it.  Human and Humanoid are both matched by the
    allowed value Human, and Humanoid is listed first. *)
Lemma earlier_allowed_value_takes_token :
  let human := mkAllowedValue "Human" [] in
  let allowed := [mkAllowedValue "Humanoid" []; human] in
  map (matchesValue human) (tokens (trim "Human, Humanoid")) = [true; true]
  /\ constantField "species" allowed [("species", JStr "Human, Humanoid")] []
     = ([("species", JArr ["Human"; "Humanoid"])], []).
Proof. vm_compute. split; reflexivity. Qed.

(** C7 as stated fails: the text N/A is a single token that matches the
    allowed value NA, and the field is emptied. *)
Lemma not_available_clears_constant_field :
  tokens (trim "N/A") = ["N/A"]
  /\ findMatch [mkAllowedValue "NA" []] "N/A" = Some "NA"
  /\ constantField "species" [mkAllowedValue "NA" []] [("species", JStr "N/A")] []
     = ([("species", JArr [])], []).
Proof. repeat split. Qed.

(** C3 as stated fails: YES, vrai, no and FAUX are rejected with an
    invalid_value error and the product is not kept, while True passes and
    becomes the boolean true. *)
Lemma yes_and_vrai_rejected :
  let run v := processProductChunk [sampleProduct "A1" v] (Fin 5 0) "Main Sheet" [] [] [] in
  map (fun v => (map type (chunkErrors (run v)), map code (chunkErrors (run v)),
                 List.length (finalValidData (run v))))
    ["YES"; "vrai"; "no"; "FAUX"]
  = [ ([invalid_value], [Some "INVALID_BOOLEAN_VALUE"], 0%nat);
      ([invalid_value], [Some "INVALID_BOOLEAN_VALUE"], 0%nat);
      ([invalid_value], [Some "INVALID_BOOLEAN_VALUE"], 0%nat);
      ([invalid_value], [Some "INVALID_BOOLEAN_VALUE"], 0%nat) ]
  /\ chunkErrors (run "True") = []
  /\ map (fun p => get p "available") (finalValidData (run "True")) = [JBool true].
Proof. vm_compute. repeat split. Qed.

(* ================================================================== *)
(** * Reading a sheet *)
(* ================================================================== *)

Section SheetReader.

Lemma headerAt_setHeader_same (h : list (nat * string)) (col : nat) (x : string) :
  headerAt (setHeader h col x) col = x.
Proof.
  induction h as [|[c y] h IH]; simpl.
  - now rewrite Nat.eqb_refl.
  - destruct (col <? c)%nat eqn:E1; simpl.
    + now rewrite Nat.eqb_refl.
    + destruct (col =? c)%nat eqn:E2; simpl.
      * now rewrite Nat.eqb_sym, E2.
      * rewrite Nat.eqb_sym, E2. exact IH.
Qed.

Lemma headerAt_setHeader_other (h : list (nat * string)) (col col' : nat) (x : string) :
  col <> col' -> headerAt (setHeader h col x) col' = headerAt h col'.
Proof.
  intros Hne. induction h as [|[c y] h IH]; simpl.
  - apply Nat.eqb_neq in Hne. now rewrite Hne.
  - destruct (col <? c)%nat eqn:E1; simpl.
    + apply Nat.eqb_neq in Hne. now rewrite Hne.
    + destruct (col =? c)%nat eqn:E2; simpl.
      * apply Nat.eqb_eq in E2. subst c.
        apply Nat.eqb_neq in Hne. now rewrite Hne.
      * destruct (c =? col')%nat; [reflexivity | exact IH].
Qed.

Local Abbreviation headerStep :=
  (fun (hs : list (nat * string)) (cell : nat * JsVal) =>
     setHeader hs (fst cell) (headerName (snd cell) (fst cell))).

Lemma headers_untouched (row : Row) (h0 : list (nat * string)) (col : nat) :
  ~ In col (map fst row) ->
  headerAt (fold_left headerStep row h0) col = headerAt h0 col.
Proof.
  revert h0. induction row as [|[c v] row IH]; intros h0 Hn; simpl; [reflexivity|].
  rewrite IH by (intros H; apply Hn; now right).
  apply headerAt_setHeader_other. intros ->. apply Hn. now left.
Qed.

(** Each cell of the header row names its own column. *)
Lemma readHeaders_cell (row : Row) (col : nat) (v : JsVal) :
  NoDup (map fst row) -> In (col, v) row ->
  headerAt (readHeaders row) col = headerName v col.
Proof.
  unfold readHeaders. generalize (@nil (nat * string)) as h0.
  induction row as [|[c u] row IH]; intros h0 Hnd Hin; [contradiction|].
  simpl in Hnd. apply NoDup_cons_iff in Hnd. destruct Hnd as [Hc Hnd].
  cbn [fold_left]. destruct Hin as [E|Hin].
  - injection E as -> ->. cbn [fst snd]. rewrite headers_untouched by assumption.
    apply headerAt_setHeader_same.
  - now apply IH.
Qed.

Lemma headerName_not_empty (v : JsVal) (col : nat) : headerName v col <> "".
Proof.
  unfold headerName.
  destruct ((if isNullish v then "" else trim (toString v)) =? "")%string eqn:E.
  - discriminate.
  - now apply String.eqb_neq in E.
Qed.

Lemma headerName_blank (v : JsVal) (col : nat) :
  isBlank v = true -> headerName v col = "Column" +++ natToString col.
Proof.
  unfold isBlank, headerName. intros H.
  destruct (isNullish v); [reflexivity|]. simpl in H. now rewrite H.
Qed.

Lemma headerAt_blank (h : list (nat * string)) :
  definedHeaders h = [] -> forall col, headerAt h col = "".
Proof.
  unfold definedHeaders. induction h as [|[c x] h IH]; intros Hd col; simpl in *.
  - reflexivity.
  - destruct (x =? "")%string eqn:E; simpl in Hd; [|discriminate].
    apply String.eqb_eq in E. subst x.
    destruct (c =? col)%nat; [reflexivity | now apply IH].
Qed.

(** A header row with at least one cell always yields a header. *)
Lemma readHeaders_detects (row : Row) :
  row <> [] -> definedHeaders (readHeaders row) <> [].
Proof.
  intros Hne Hd. pose proof (headerAt_blank _ Hd) as Hb.
  assert (Hlast : forall r h0,
             r <> [] ->
             exists col, headerAt (fold_left headerStep r h0) col <> "").
  { induction r as [|[c v] r IH]; intros h0 Hr; [congruence|].
    cbn [fold_left]. destruct r as [|x r].
    - exists c. cbn [fold_left fst snd]. rewrite headerAt_setHeader_same.
      apply headerName_not_empty.
    - apply IH. discriminate. }
  destruct (Hlast row [] Hne) as [col Hcol]. apply Hcol. apply Hb.
Qed.

Lemma readProduct_no_headers (h : list (nat * string)) (row : Row) :
  (forall col, headerAt h col = "") -> readProduct h row = [].
Proof.
  intros Hb. unfold readProduct.
  assert (H : forall acc : Obj,
             fold_left (fun productData cell =>
                          if negb (headerAt h (fst cell) =? "")%string
                          then set productData (headerAt h (fst cell)) (cellValue (snd cell))
                          else productData) row acc = acc).
  { induction row as [|cell row IH]; intros acc; cbn [fold_left].
    - reflexivity.
    - rewrite Hb. cbn [String.eqb negb]. apply IH. }
  apply H.
Qed.

Variable sheet : string.

Lemma rowStep_later (st : SheetState) (row : Row) :
  (1 <= rowIndex st)%nat ->
  (1 <= rowIndex (rowStep sheet st row))%nat
  /\ headers (rowStep sheet st row) = headers st
  /\ sheetHeaders (rowStep sheet st row) = sheetHeaders st
  /\ sheetErrors (rowStep sheet st row) = sheetErrors st.
Proof.
  intros H. unfold rowStep.
  destruct (S (rowIndex st) =? 1)%nat eqn:E; [apply Nat.eqb_eq in E; lia|].
  destruct row as [|cell row]; [cbn; repeat split; lia|].
  destruct (0 <? _)%nat; cbn; repeat split; lia.
Qed.

Lemma rowStep_later_blank (st : SheetState) (row : Row) :
  (1 <= rowIndex st)%nat -> (forall col, headerAt (headers st) col = "") ->
  sheetProducts (rowStep sheet st row) = sheetProducts st
  /\ sent (rowStep sheet st row) = sent st
  /\ processedRows (rowStep sheet st row) = processedRows st.
Proof.
  intros H Hb. unfold rowStep.
  destruct (S (rowIndex st) =? 1)%nat eqn:E; [apply Nat.eqb_eq in E; lia|].
  destruct row as [|cell row]; [cbn; repeat split|].
  rewrite (readProduct_no_headers _ _ Hb). cbn. repeat split.
Qed.

Lemma rows_later (rows : list Row) (st : SheetState) :
  (1 <= rowIndex st)%nat ->
  headers (fold_left (rowStep sheet) rows st) = headers st
  /\ sheetHeaders (fold_left (rowStep sheet) rows st) = sheetHeaders st
  /\ sheetErrors (fold_left (rowStep sheet) rows st) = sheetErrors st.
Proof.
  revert st. induction rows as [|row rows IH]; intros st H; cbn [fold_left].
  - repeat split.
  - destruct (rowStep_later st row H) as [H1 [H2 [H3 H4]]].
    destruct (IH _ H1) as [I2 [I3 I4]]. rewrite I2, I3, I4. repeat split; assumption.
Qed.

Lemma rows_later_blank (rows : list Row) (st : SheetState) :
  (1 <= rowIndex st)%nat -> (forall col, headerAt (headers st) col = "") ->
  sheetProducts (fold_left (rowStep sheet) rows st) = sheetProducts st
  /\ sent (fold_left (rowStep sheet) rows st) = sent st
  /\ processedRows (fold_left (rowStep sheet) rows st) = processedRows st.
Proof.
  revert st. induction rows as [|row rows IH]; intros st H Hb; cbn [fold_left].
  - repeat split.
  - destruct (rowStep_later st row H) as [H1 [H2 _]].
    destruct (rowStep_later_blank st row H Hb) as [B1 [B2 B3]].
    assert (Hb' : forall col, headerAt (headers (rowStep sheet st row)) col = "")
      by (rewrite H2; exact Hb).
    destruct (IH _ H1 Hb') as [I1 [I2 I3]]. rewrite I1, I2, I3. repeat split; assumption.
Qed.

End SheetReader.

(** C8, as amended.  For a sheet that yields at least one row, the headers
    are read from the first row: each of its cells names its column, by its
    trimmed text or, when that is blank, by the placeholder Column<n>.  When
    that first row yields no header, the sheet gives exactly one
    warning-severity file_error and no product, whatever the later rows
    hold; otherwise it gives no such warning. *)
Theorem headers_from_first_row (sheet : string) (n : nat) (first : Row) (rows : list Row) :
  let st := readRows sheet n (first :: rows) in
  headers st = readHeaders first
  /\ (NoDup (map fst first) ->
      forall col v, In (col, v) first ->
        headerAt (headers st) col = headerName v col
        /\ (isBlank v = true -> headerName v col = "Column" +++ natToString col)
        /\ (isBlank v = false -> headerName v col = trim (toString v)))
  /\ (definedHeaders (readHeaders first) = [] ->
      sheetErrors st = [noHeaderError sheet] /\ sent st = [noHeaderError sheet]
      /\ sheetProducts st = []
      /\ type (noHeaderError sheet) = file_error
      /\ severity (noHeaderError sheet) = sev_warning)
  /\ (definedHeaders (readHeaders first) <> [] -> sheetErrors st = []).
Proof.
  intros st. subst st. unfold readRows. cbn [fold_left].
  set (st1 := rowStep sheet _ first).
  assert (H1 : (1 <= rowIndex st1)%nat /\ headers st1 = readHeaders first).
  { subst st1. unfold rowStep. cbn [rowIndex Nat.eqb].
    destruct (List.length (definedHeaders (readHeaders first)) =? 0)%nat; cbn; split; lia || reflexivity. }
  destruct H1 as [Hidx Hh].
  destruct (rows_later sheet rows st1 Hidx) as [R1 [_ R3]].
  split; [now rewrite R1|]. split.
  { intros Hnd col v Hin. rewrite R1, Hh. split; [now apply readHeaders_cell|].
    split; [apply headerName_blank|].
    unfold isBlank, headerName. intros Hb. apply orb_false_iff in Hb.
    destruct Hb as [Hn Ht]. now rewrite Hn, Ht. }
  split.
  { intros Hd.
    assert (Hb : forall col, headerAt (headers st1) col = "")
      by (rewrite Hh; now apply headerAt_blank).
    destruct (rows_later_blank sheet rows st1 Hidx Hb) as [B1 [B2 _]].
    rewrite R3, B1, B2. subst st1. unfold rowStep. cbn [rowIndex Nat.eqb].
    rewrite Hd. cbn. repeat split. }
  intros Hd. rewrite R3. subst st1. unfold rowStep. cbn [rowIndex Nat.eqb].
  destruct (definedHeaders (readHeaders first)) as [|x l]; [congruence|]. reflexivity.
Qed.

Lemma headers_from_first_row_witness :
  let first : Row := [(1, JStr " name "); (2, JStr "  ")] in
  let st := readRows "Products" 0 (first :: [[(1, JStr "kit"); (2, JStr "x")]]) in
  headerAt (headers st) 1 = "name" /\ headerAt (headers st) 2 = "Column2"
  /\ sheetErrors (readRows "Products" 0 ([] :: [[(1, JStr "kit")]])) = [noHeaderError "Products"]
  /\ sheetProducts (readRows "Products" 0 ([] :: [[(1, JStr "kit")]])) = [].
Proof.
  intros first st.
  destruct (headers_from_first_row "Products" 0 first [[(1, JStr "kit"); (2, JStr "x")]])
    as [_ [Hcell _]].
  assert (Hnd : NoDup (map fst first)).
  { repeat constructor; simpl; intuition discriminate. }
  destruct (headers_from_first_row "Products" 0 [] [[(1, JStr "kit")]])
    as [_ [_ [Hblank _]]].
  destruct (Hblank eq_refl) as [He [_ [Hp _]]].
  split; [exact (proj1 (Hcell Hnd 1 (JStr " name ") (or_introl eq_refl)))|].
  split; [exact (proj1 (Hcell Hnd 2 (JStr "  ") (or_intror (or_introl eq_refl))))|].
  split; [exact He | exact Hp].
Defined.

(** C8 as stated fails: a sheet without any row has no header row, and no
    warning is raised for it. *)
Lemma empty_sheet_raises_no_warning :
  sheetErrors (readRows "Products" 0 []) = []
  /\ fst (readSheet (mkGathered [] [] 0 []) (mkSheet "Products" [] None))
     = [diag info ("Processing sheet: " +++ quoted "Products") None None None
          (Some "Products") None sev_info None]
  /\ existsb (fun m => typeEqb (type m) file_error)
       (fst (GET sampleDigest (sampleEnv []) [])) = false.
Proof. vm_compute. repeat split. Qed.

(* ================================================================== *)
(** * The shape of the outbound stream *)
(* ================================================================== *)

Section Stream.

Lemma endsWith_base (s ok : ProcessError) : endsWith s ok [s; ok].
Proof. exists []. split; reflexivity. Qed.

Lemma endsWith_cons (s ok m : ProcessError) (l : list ProcessError) :
  nonTerminal m = true -> endsWith s ok l -> endsWith s ok (m :: l).
Proof.
  intros Hm [pre [-> Hpre]]. exists (m :: pre). split; [reflexivity|].
  simpl. now rewrite Hm.
Qed.

Lemma endsWith_app (s ok : ProcessError) (a l : list ProcessError) :
  forallb nonTerminal a = true -> endsWith s ok l -> endsWith s ok (a ++ l).
Proof.
  intros Ha [pre [-> Hpre]]. exists (a ++ pre). split; [now rewrite app_assoc|].
  rewrite forallb_app. now rewrite Ha.
Qed.

Lemma chunkMessages_nonTerminal (chunks : list (list Obj)) (i total : nat) :
  forallb nonTerminal (chunkMessages i total chunks) = true.
Proof.
  revert i. induction chunks as [|c chunks IH]; intros i; [reflexivity|].
  cbn [chunkMessages forallb]. rewrite IH. reflexivity.
Qed.

Lemma batches_nonTerminal (l : list (list ProcessError)) :
  forallb nonTerminal (map validationBatch l) = true.
Proof. induction l as [|b l IH]; [reflexivity|]. cbn [map forallb]. now rewrite IH. Qed.

Lemma rowStep_invariant (sheet : string) (st : SheetState) (row : Row) :
  forallb nonTerminal (sent st) = true -> forallb isWarning (sheetErrors st) = true ->
  forallb nonTerminal (sent (rowStep sheet st row)) = true
  /\ forallb isWarning (sheetErrors (rowStep sheet st row)) = true.
Proof.
  intros Hs He. unfold rowStep.
  destruct (S (rowIndex st) =? 1)%nat.
  - destruct (_ =? 0)%nat; cbn [sent sheetErrors]; [|now split].
    rewrite !forallb_app, Hs, He. split; reflexivity.
  - destruct row as [|cell row]; [now split|].
    destruct (0 <? _)%nat; cbn [sent sheetErrors]; [|now split].
    split; [|assumption]. rewrite forallb_app, Hs.
    destruct (_ =? 0)%nat; reflexivity.
Qed.

Lemma readRows_invariant (sheet : string) (n : nat) (rows : list Row) :
  forallb nonTerminal (sent (readRows sheet n rows)) = true
  /\ forallb isWarning (sheetErrors (readRows sheet n rows)) = true.
Proof.
  unfold readRows.
  assert (H : forall st,
             forallb nonTerminal (sent st) = true ->
             forallb isWarning (sheetErrors st) = true ->
             forallb nonTerminal (sent (fold_left (rowStep sheet) rows st)) = true
             /\ forallb isWarning (sheetErrors (fold_left (rowStep sheet) rows st)) = true).
  { induction rows as [|row rows IH]; intros st Hs He; cbn [fold_left]; [now split|].
    destruct (rowStep_invariant sheet st row Hs He) as [Hs' He']. now apply IH. }
  apply H; reflexivity.
Qed.

Lemma readSheet_eq (g : Gathered) (ws : Sheet) :
  let sheet := nameOfSheet ws in
  let st := readRows sheet (processed g) (sheet_rows ws) in
  readSheet g ws
  = (diag info ("Processing sheet: " +++ quoted sheet) None None None (Some sheet) None
       sev_info None :: sent st,
     match sheet_failure ws with
     | Some e => Thrown e
     | None =>
         Value (mkGathered
                  (metadata g ++ [mkSheetMetadata sheet (Z.of_nat (rowIndex st) - 1)
                                    (sheetHeaders st)])
                  (allProducts g ++ sheetProducts st) (processedRows st)
                  (allProcessingErrors g ++ sheetErrors st))
     end).
Proof.
  intros sheet st. unfold readSheet. fold sheet. fold st.
  unfold bind, sendMessage, sendAll, throw, ret.
  destruct (sheet_failure ws); cbn [app]; now rewrite app_nil_r.
Qed.

(** Reading never ends with an early return; what it sends are progress
    messages, and what it records are warnings. *)
Lemma readSheets_invariant (l : list Sheet) (g : Gathered) :
  forallb isWarning (allProcessingErrors g) = true ->
  forallb nonTerminal (fst (readSheets g l)) = true
  /\ snd (readSheets g l) <> Returned
  /\ (forall g', snd (readSheets g l) = Value g' ->
        forallb isWarning (allProcessingErrors g') = true).
Proof.
  revert g. induction l as [|ws l IH]; intros g Hg; cbn [readSheets].
  - repeat split; [discriminate | intros g' E; injection E as <-; assumption].
  - rewrite readSheet_eq.
    destruct (readRows_invariant (nameOfSheet ws) (processed g) (sheet_rows ws)) as [Hs He].
    destruct (sheet_failure ws) as [e|]; unfold bind.
    + cbn [fst snd forallb]. rewrite Hs. repeat split; discriminate.
    + match goal with
      | |- context [readSheets ?g1 l] =>
          assert (Hg1 : forallb isWarning (allProcessingErrors g1) = true)
            by (cbn [allProcessingErrors]; rewrite forallb_app; now rewrite Hg, He);
          destruct (IH g1 Hg1) as [I1 [I2 I3]];
          destruct (readSheets g1 l) as [log r] eqn:E
      end.
      cbn [fst snd] in *. rewrite forallb_app. cbn [forallb]. rewrite Hs, I1.
      repeat split; assumption.
Qed.

Lemma readWorkbook_invariant (env : Env) :
  forallb nonTerminal (fst (readWorkbook env)) = true
  /\ snd (readWorkbook env) <> Returned
  /\ (forall g, snd (readWorkbook env) = Value g ->
        forallb isWarning (allProcessingErrors g) = true).
Proof.
  unfold readWorkbook.
  destruct (readSheets_invariant (sheets env) (mkGathered [] [] 0 []) eq_refl)
    as [I1 [I2 I3]].
  destruct (readSheets _ (sheets env)) as [log [g| |e]]; cbn [fst snd bind] in *.
  - destruct (workbookFailure env) as [e|]; unfold throw, ret; cbn [fst snd];
      rewrite app_nil_r; repeat split; try assumption; discriminate.
  - congruence.
  - repeat split; [assumption | discriminate | discriminate].
Qed.

Variable sha256 : string -> string.

(** The part of the [try] block after the reading: progress messages, then
    the summary and the closing success message. *)
Lemma validateAndReport_shape (env : Env) (store : Store) (fields : list Field)
  (g : Gathered) :
  endsWith (summaryOf (List.length (allProducts g)) (diagnosticsOf env fields g))
    processCompleted
    (fst (validateAndReport sha256 env store fields g))
  /\ snd (validateAndReport sha256 env store fields g)
     = Value (storeAfter sha256 env store g (diagnosticsOf env fields g)).
Proof.
  unfold validateAndReport, storeAfter, diagnosticsOf, traceOf.
  rewrite validateChunks_trace. cbn [fst].
  set (all := allProcessingErrors g ++ errorsOf _).
  set (hash := generateMetadataHash _ _ _).
  unfold bind, sendMessage, sendAll, ret.
  destruct ((_ =? 0)%nat && (_ =? 0)%nat).
  - destruct (bluePrintError env) as [msg|]; cbn [fst snd app]; (split; [|reflexivity]).
    + apply endsWith_cons; [reflexivity|]. apply endsWith_cons; [reflexivity|].
      apply endsWith_app; [apply chunkMessages_nonTerminal|].
      apply endsWith_app; [destruct (0 <? _)%nat; [apply batches_nonTerminal | reflexivity]|].
      apply endsWith_app; [destruct (0 <? _)%nat; reflexivity|].
      apply endsWith_app; [destruct (0 <? _)%nat; reflexivity|].
      apply endsWith_cons; [reflexivity|]. apply endsWith_base.
    + apply endsWith_cons; [reflexivity|]. apply endsWith_cons; [reflexivity|].
      apply endsWith_app; [apply chunkMessages_nonTerminal|].
      apply endsWith_app; [destruct (0 <? _)%nat; [apply batches_nonTerminal | reflexivity]|].
      apply endsWith_app; [destruct (0 <? _)%nat; reflexivity|].
      apply endsWith_app; [destruct (0 <? _)%nat; reflexivity|].
      apply endsWith_cons; [reflexivity|]. apply endsWith_cons; [reflexivity|].
      apply endsWith_base.
  - cbn [fst snd app]. split; [|reflexivity].
    apply endsWith_cons; [reflexivity|]. apply endsWith_cons; [reflexivity|].
    apply endsWith_app; [apply chunkMessages_nonTerminal|].
    apply endsWith_app; [destruct (0 <? _)%nat; [apply batches_nonTerminal | reflexivity]|].
    apply endsWith_app; [destruct (0 <? _)%nat; reflexivity|].
    apply endsWith_app; [destruct (0 <? _)%nat; reflexivity|].
    apply endsWith_cons; [reflexivity|]. apply endsWith_base.
Qed.

End Stream.

Section Handler.

Variable sha256 : string -> string.

Lemma finallyBlock_cleanup (env : Env) :
  forallb isCleanup (finallyBlock env) = true
  /\ (List.length (finallyBlock env) <= 1)%nat
  /\ forallb (fun m => negb (isSummary m)) (finallyBlock env) = true.
Proof.
  unfold finallyBlock. destruct (_ && _); [|repeat split; simpl; lia].
  destruct (unlinkError env); repeat split; simpl; lia.
Qed.

(** Every run is of one of two kinds: it reaches the summary, or it stops
    early on a fatal error or on a workbook without products. *)
Ltac close_early :=
  right; cbn [bind sendMessage returnNow throw ret fst snd app catchBlock];
  match goal with
  | |- exists pre t, ?a :: ?m :: finallyBlock ?env = _ /\ _ => exists [a], [m]
  | |- exists pre t, ?a :: ?b :: ?m :: finallyBlock ?env = _ /\ _ => exists [a; b], [m]
  end;
  split; [reflexivity|]; split; [reflexivity|]; split; [reflexivity|];
  split; [|reflexivity]; right; eexists; split; reflexivity.

Lemma GET_disconnected (env : Env) (store : Store) (e : JsError) :
  connectError env = Some e -> GET sha256 env store = ([], store).
Proof. intros H. unfold GET. now rewrite H. Qed.

Lemma GET_cases (env : Env) (store : Store) :
  connectError env = None ->
  (exists fields g pre,
      fullRun env fields g
      /\ fst (GET sha256 env store)
         = pre ++ [summaryOf (List.length (allProducts g)) (diagnosticsOf env fields g);
                   processCompleted] ++ finallyBlock env
      /\ forallb nonTerminal pre = true
      /\ snd (GET sha256 env store)
         = storeAfter sha256 env store g (diagnosticsOf env fields g))
  \/ (exists pre t,
        fst (GET sha256 env store) = pre ++ t ++ finallyBlock env
        /\ forallb nonTerminal pre = true
        /\ forallb (fun m => negb (isSummary m)) t = true
        /\ ((exists n ok, t = [n; ok] /\ isNoProducts n = true /\ isSuccess ok = true)
            \/ (exists f, t = [f] /\ isFatal f = true))
        /\ snd (GET sha256 env store) = store).
Proof.
  intros Hconn. unfold GET, tryBlock. rewrite Hconn.
  destruct (paramsOk env) eqn:Hp; cbn [negb]; [|close_early].
  destruct (fileExists env) eqn:Hf; cbn [negb]; [|close_early].
  destruct (fieldsDocument env) as [e|[fields|]] eqn:Hd; [close_early| |close_early].
  destruct (openError env) as [msg|] eqn:Ho; [close_early|].
  destruct (readWorkbook_invariant env) as [R1 [R2 R3]].
  unfold bind, sendMessage, returnNow, ret, throw.
  destruct (readWorkbook env) as [rl [g| |e]] eqn:Hr; cbn [fst snd] in *; cbv beta iota.
  - destruct (List.length (allProducts g) =? 0)%nat eqn:Hn.
    + right. exists (greeting :: note info "Starting file processing..." sev_info None :: rl).
      exists [note info "No products found in the file after initial parsing." sev_info
                (Some "NO_PRODUCTS_FOUND");
              note success "Process completed with no products to validate." sev_success
                None].
      cbn [fst snd app catchBlock].
      split; [rewrite <- !app_assoc; reflexivity|].
      split; [cbn [forallb]; rewrite R1; reflexivity|].
      split; [reflexivity|].
      split; [|reflexivity]. left. eexists. eexists. repeat split.
    + destruct (validateAndReport_shape sha256 env store fields g) as [[pre [Hlog Hpre]] Hst].
      destruct (validateAndReport sha256 env store fields g) as [log r] eqn:Hv.
      cbn [fst snd] in Hlog, Hst. subst log r.
      left. exists fields, g,
        (greeting :: note info "Starting file processing..." sev_info None :: rl ++ pre).
      cbn [fst snd app catchBlock].
      split.
      { repeat split; try assumption; [now exists rl|].
        intros E. rewrite E in Hn. discriminate. }
      split; [rewrite <- !app_assoc; reflexivity|].
      split; [|reflexivity].
      cbn [forallb]. rewrite forallb_app, R1, Hpre. reflexivity.
  - congruence.
  - right. exists (greeting :: note info "Starting file processing..." sev_info None :: rl).
    exists (catchBlock (@Thrown Store e)).
    cbn [fst snd app].
    split; [reflexivity|].
    split; [cbn [forallb]; rewrite R1; reflexivity|].
    split; [reflexivity|].
    split; [|reflexivity]. right. eexists. split; reflexivity.
Qed.

(** A run that gets as far as validating products ends with the summary. *)
Lemma GET_full (env : Env) (store : Store) (fields : list Field) (g : Gathered) :
  fullRun env fields g ->
  exists pre,
    fst (GET sha256 env store)
    = pre ++ [summaryOf (List.length (allProducts g)) (diagnosticsOf env fields g);
              processCompleted] ++ finallyBlock env
    /\ forallb nonTerminal pre = true
    /\ snd (GET sha256 env store)
       = storeAfter sha256 env store g (diagnosticsOf env fields g).
Proof.
  intros [Hconn [Hp [Hf [Hdoc [Ho [[rl Hr] Hne]]]]]].
  destruct (readWorkbook_invariant env) as [R1 _]. rewrite Hr in R1. cbn [fst] in R1.
  unfold GET, tryBlock. rewrite Hconn, Hp, Hf, Hdoc, Ho. cbn [negb].
  unfold bind, sendMessage, returnNow, ret, throw. rewrite Hr. cbv beta iota.
  destruct (List.length (allProducts g) =? 0)%nat eqn:Hn.
  { apply Nat.eqb_eq in Hn. exfalso. apply Hne. now destruct (allProducts g). }
  destruct (validateAndReport_shape sha256 env store fields g) as [[pre [Hlog Hpre]] Hst].
  destruct (validateAndReport sha256 env store fields g) as [log r].
  cbn [fst snd] in Hlog, Hst. subst log r.
  exists (greeting :: note info "Starting file processing..." sev_info None :: rl ++ pre).
  cbn [fst snd app catchBlock].
  split; [rewrite <- !app_assoc; reflexivity|].
  split; [|reflexivity].
  cbn [forallb]. rewrite forallb_app, R1, Hpre. reflexivity.
Qed.

End Handler.

(** C9, as amended.  Every execution of the run step in which the
    database is connected sends progress messages, then exactly one closing
    group (a summary_report followed by a success message; or, for a
    workbook without products, the NO_PRODUCTS_FOUND notice followed by a
    success message; or one fatal error for missing parameters, a missing
    file, a file that cannot be opened, a missing schema document or an
    unexpected failure), and after it at most one message of the cleanup
    step.  When connecting to the database fails, the handler throws before
    the stream is made: the execution sends no message at all, and leaves
    the collection as it was. *)
Theorem stream_ends_properly (sha256 : string -> string) (env : Env) (store : Store) :
  match connectError env with
  | None => endsProperly (fst (GET sha256 env store))
  | Some _ => GET sha256 env store = ([], store)
  end.
Proof.
  destruct (connectError env) as [e|] eqn:Hconn;
    [now apply (GET_disconnected sha256 env store e)|].
  destruct (finallyBlock_cleanup env) as [Hc [Hl _]].
  destruct (GET_cases sha256 env store Hconn)
    as [[fields [g [pre [_ [Hs [Hpre _]]]]]] | [pre [t [Hs [Hpre [_ [Ht _]]]]]]].
  - exists pre, [summaryOf (List.length (allProducts g)) (diagnosticsOf env fields g);
                 processCompleted], (finallyBlock env).
    repeat split; try assumption. left. eexists. eexists. repeat split.
  - exists pre, t, (finallyBlock env). repeat split; try assumption.
    destruct Ht as [Ht|Ht]; [right; left | right; right]; exact Ht.
Qed.

(** C9 as stated fails: a workbook whose only sheet has a header row and no
    data ends with the NO_PRODUCTS_FOUND notice, a success message and the
    cleanup notice; no summary_report and no error is ever sent. *)
Lemma no_products_no_summary :
  let stream := fst (GET sampleDigest (sampleEnv [sampleHeader]) []) in
  map type stream = [info; info; info; info; success; info]
  /\ existsb (fun m => isSummary m || isFatal m) stream = false
  /\ ~ endsAsSpecified stream.
Proof.
  intros stream.
  assert (Hs : exists a b c d e f, stream = [a; b; c; d; e; f]
               /\ isSummary e = false /\ isFatal f = false /\ isSuccess f = false).
  { subst stream. vm_compute. do 6 eexists. repeat split. }
  split; [subst stream; vm_compute; reflexivity|].
  split; [subst stream; vm_compute; reflexivity|].
  destruct Hs as [a [b [c [d [e [f [Hs [He [Hf Hf']]]]]]]]]. rewrite Hs.
  intros [[pre [s [ok [E [H1 H2]]]]] | [pre [x [E H1]]]].
  - change [a; b; c; d; e; f] with ([a; b; c; d] ++ [e; f]) in E.
    apply (f_equal (@rev ProcessError)) in E. rewrite !rev_app_distr in E.
    cbn [rev app] in E. injection E as -> -> _. congruence.
  - change [a; b; c; d; e; f] with ([a; b; c; d; e] ++ [f]) in E.
    apply (f_equal (@rev ProcessError)) in E. rewrite !rev_app_distr in E.
    cbn [rev app] in E. injection E as -> _. congruence.
Qed.

(* ================================================================== *)
(** * The idempotency record *)
(* ================================================================== *)

Section Idempotency.

Lemma recorded_addToSetUpsert (store : Store) (name h : string) :
  recorded (addToSetUpsert store name h) name = add (recorded store name) h.
Proof.
  unfold recorded. induction store as [|d store IH]; simpl.
  - now rewrite String.eqb_refl.
  - destruct (bp_name d =? name)%string eqn:E; simpl; rewrite E; [reflexivity | exact IH].
Qed.

Lemma recorded_addToSetUpsert_other (store : Store) (name name' h : string) :
  name' <> name -> recorded (addToSetUpsert store name h) name' = recorded store name'.
Proof.
  intros Hne. unfold recorded. induction store as [|d store IH]; simpl.
  - destruct (name =? name')%string eqn:E; [|reflexivity].
    apply String.eqb_eq in E. congruence.
  - destruct (bp_name d =? name)%string eqn:E; simpl.
    + apply String.eqb_eq in E. rewrite E.
      destruct (name =? name')%string eqn:E'; [|reflexivity].
      apply String.eqb_eq in E'. congruence.
    + destruct (bp_name d =? name')%string; [reflexivity | exact IH].
Qed.

(** Adding a fingerprint that is already recorded changes nothing. *)
Lemma addToSetUpsert_present (store : Store) (name h : string) :
  In h (recorded store name) -> addToSetUpsert store name h = store.
Proof.
  unfold recorded. induction store as [|d store IH]; simpl; intros Hin; [contradiction|].
  destruct (bp_name d =? name)%string eqn:E.
  - apply has_In in Hin. rewrite (add_present _ _ Hin). now destruct d.
  - now rewrite IH.
Qed.

Variable sha256 : string -> string.

Lemma validateAndReport_log (env : Env) (s1 s2 : Store) (fields : list Field) (g : Gathered) :
  fst (validateAndReport sha256 env s1 fields g)
  = fst (validateAndReport sha256 env s2 fields g).
Proof.
  unfold validateAndReport, bind, sendMessage, sendAll, ret.
  destruct ((_ =? 0)%nat && (_ =? 0)%nat); [destruct (bluePrintError env)|]; reflexivity.
Qed.

(** The collection is never read: the stream of a run is the same whatever
    fingerprints are on record. *)
Lemma GET_stream_independent (env : Env) (s1 s2 : Store) :
  fst (GET sha256 env s1) = fst (GET sha256 env s2).
Proof.
  unfold GET, tryBlock.
  destruct (connectError env); [reflexivity|].
  destruct (paramsOk env); [|reflexivity].
  destruct (fileExists env); [|reflexivity]. cbn [negb].
  destruct (fieldsDocument env) as [e|[fields|]]; try reflexivity.
  destruct (openError env); [reflexivity|].
  unfold bind, sendMessage, returnNow, ret, throw.
  destruct (readWorkbook env) as [rl [g| |e]]; try reflexivity. cbv beta iota.
  destruct (List.length (allProducts g) =? 0)%nat; [reflexivity|].
  pose proof (validateAndReport_log env s1 s2 fields g) as Hlog.
  destruct (validateAndReport_shape sha256 env s1 fields g) as [_ H1].
  destruct (validateAndReport_shape sha256 env s2 fields g) as [_ H2].
  destruct (validateAndReport sha256 env s1 fields g) as [l1 r1].
  destruct (validateAndReport sha256 env s2 fields g) as [l2 r2].
  cbn [fst snd] in *. subst. reflexivity.
Qed.

End Idempotency.

(** C4, as amended.  When a run reaches the summary with no error-severity
    validation record and no duplication record, and the update itself does
    not fail, its fingerprint [h] joins the collection named auto-checker by
    set union: the record is created when absent, [h] is appended when new,
    nothing changes when [h] is already there, and no other record is
    touched.  The collection is never read: a re-submission whose
    fingerprint is on record is read and validated again and sends the same
    stream. *)
Theorem fingerprint_joins_by_union
  (sha256 : string -> string) (env : Env) (store : Store)
  (fields : list Field) (g : Gathered) :
  fullRun env fields g ->
  filter isValidationError (diagnosticsOf env fields g) = [] ->
  filter isDuplicationError (diagnosticsOf env fields g) = [] ->
  bluePrintError env = None ->
  let h := generateMetadataHash sha256 (metadata g) (allProducts g) in
  let store' := snd (GET sha256 env store) in
  store' = addToSetUpsert store BLUEPRINT_NAME h
  /\ (forall x, In x (recorded store' BLUEPRINT_NAME)
                <-> In x (recorded store BLUEPRINT_NAME) \/ x = h)
  /\ (In h (recorded store BLUEPRINT_NAME) -> store' = store)
  /\ (forall name, name <> BLUEPRINT_NAME -> recorded store' name = recorded store name)
  /\ (forall store2, fst (GET sha256 env store2) = fst (GET sha256 env store)).
Proof.
  intros Hrun Hv Hd Hb h store'.
  assert (Hs : store' = addToSetUpsert store BLUEPRINT_NAME h).
  { subst store'. destruct (GET_full sha256 env store fields g Hrun) as [pre [_ [_ Hst]]].
    rewrite Hst. unfold storeAfter. now rewrite Hv, Hd, Hb. }
  split; [exact Hs|]. split.
  { intros x. rewrite Hs, recorded_addToSetUpsert, add_In.
    split; (intros [H|H]; [now left | now right]). }
  split.
  { intros Hin. rewrite Hs. now apply addToSetUpsert_present. }
  split.
  { intros name Hne. rewrite Hs. now apply recorded_addToSetUpsert_other. }
  intros store2. apply GET_stream_independent.
Qed.

Lemma fingerprint_joins_by_union_witness :
  let env := sampleEnv [sampleHeader; sampleRow "A1" "5" "eur" None] in
  let g := gatheredOf env in
  fullRun env [] g
  /\ filter isValidationError (diagnosticsOf env [] g) = []
  /\ filter isDuplicationError (diagnosticsOf env [] g) = []
  /\ recorded (snd (GET sampleDigest env [])) BLUEPRINT_NAME
     = [generateMetadataHash sampleDigest (metadata g) (allProducts g)]
  /\ snd (GET sampleDigest env (snd (GET sampleDigest env []))) = snd (GET sampleDigest env []).
Proof.
  intros env g.
  assert (Hrun : fullRun env [] g).
  { repeat split; try reflexivity.
    - exists (fst (readWorkbook env)). vm_compute. reflexivity.
    - vm_compute. discriminate. }
  assert (Hv : filter isValidationError (diagnosticsOf env [] g) = [])
    by (vm_compute; reflexivity).
  assert (Hd : filter isDuplicationError (diagnosticsOf env [] g) = [])
    by (vm_compute; reflexivity).
  split; [exact Hrun|]. split; [exact Hv|]. split; [exact Hd|].
  destruct (fingerprint_joins_by_union sampleDigest env [] [] g Hrun Hv Hd eq_refl)
    as [Hs _].
  destruct (fingerprint_joins_by_union sampleDigest env (snd (GET sampleDigest env []))
              [] g Hrun Hv Hd eq_refl) as [_ [_ [Hsame _]]].
  split.
  - rewrite Hs. reflexivity.
  - apply Hsame. rewrite Hs. left. reflexivity.
Defined.

(** C4 as stated fails on its second half: with the fingerprint of the file
    on record, the file is read and validated again (the chunk is announced
    and the summary counts its product); nothing is skipped. *)
Lemma resubmission_is_validated_again :
  let env := sampleEnv [sampleHeader; sampleRow "A1" "5" "eur" None] in
  let first := GET sampleDigest env [] in
  let again := GET sampleDigest env (snd first) in
  recorded (snd first) BLUEPRINT_NAME
  = [generateMetadataHash sampleDigest (metadata (gatheredOf env))
       (allProducts (gatheredOf env))]
  /\ existsb (fun m => (message m =? message (chunkMessage 1 1 1))%string) (fst again) = true
  /\ map (fun m => (totalProducts m, validProducts m)) (filter isSummary (fst again))
     = [(Some 1%Z, Some 1%Z)]
  /\ fst again = fst first.
Proof. vm_compute. repeat split. Qed.

(* ================================================================== *)
(** * The summary counts records *)
(* ================================================================== *)

Section Summary.

Lemma splitLoop_concat {T : Type} (n : nat) :
  (0 < n)%nat ->
  forall (fuel : nat) (l : list T),
    (List.length l <= fuel)%nat -> List.concat (splitLoop fuel l n) = l.
Proof.
  intros Hn. induction fuel as [|fuel IH]; intros l Hl.
  - destruct l; [reflexivity | simpl in Hl; lia].
  - destruct l as [|x l]; [reflexivity|].
    cbn [splitLoop List.concat]. rewrite IH.
    + apply firstn_skipn.
    + rewrite length_skipn. set (k := List.length (x :: l)) in *. lia.
Qed.

Lemma splitIntoChunks_concat {T : Type} (l : list T) (n : nat) :
  (0 < n)%nat -> List.concat (splitIntoChunks l n) = l.
Proof. intros Hn. unfold splitIntoChunks. now apply splitLoop_concat. Qed.

Variables (supplierId : JsNum) (sheet : string).
Variables (additionalFieldNames : list string) (fields : list Field).

Local Abbreviation rtrace := (runTrace supplierId sheet additionalFieldNames fields).

Lemma runTrace_products (chunks : list (list Obj)) (gs : StrSet) :
  map fst (rtrace gs chunks) = List.concat chunks.
Proof.
  revert gs. induction chunks as [|chunk chunks IH]; intros gs; [reflexivity|].
  cbn [runTrace List.concat]. now rewrite map_app, chunkTrace_products, IH.
Qed.

Lemma runTrace_kinds (chunks : list (list Obj)) (x : Obj * Outcome) :
  In x (rtrace [] chunks) -> forallb isProductDiagnostic (o_errors (snd x)) = true.
Proof.
  intros Hin. apply in_split in Hin. destruct Hin as [l1 [l2 H]]. destruct x as [p o].
  now destruct (runTrace_position supplierId sheet additionalFieldNames fields chunks
                  [] l1 p o l2 H) as [_ [Hk _]].
Qed.

End Summary.

Lemma productDiagnostic_counted (l : list ProcessError) :
  forallb isProductDiagnostic l = true ->
  (List.length (filter isValidationError l) + List.length (filter isDuplicationError l)
   = List.length (filter isErrorRecord l))%nat.
Proof.
  induction l as [|e l IH]; intros H; [reflexivity|].
  cbn [forallb] in H. apply andb_true_iff in H. destruct H as [He Hl].
  specialize (IH Hl).
  assert (Hcase : (Nat.b2n (isValidationError e) + Nat.b2n (isDuplicationError e)
                   = Nat.b2n (isErrorRecord e))%nat).
  { unfold isProductDiagnostic, isFieldDiagnostic in He.
    unfold isValidationError, isDuplicationError, isErrorRecord.
    destruct (type e), (severity e); cbn in He |- *; try discriminate; reflexivity. }
  cbn [filter].
  destruct (isValidationError e), (isDuplicationError e), (isErrorRecord e);
    cbn [List.length Nat.b2n] in *; lia.
Qed.

Lemma warnings_not_counted (l : list ProcessError) :
  forallb isWarning l = true ->
  filter isValidationError l = [] /\ filter isDuplicationError l = [].
Proof.
  induction l as [|e l IH]; intros H; [split; reflexivity|].
  cbn [forallb] in H. apply andb_true_iff in H. destruct H as [He Hl].
  destruct (IH Hl) as [I1 I2]. cbn [filter]. rewrite I1, I2.
  unfold isWarning in He. unfold isValidationError, isDuplicationError.
  destruct (severity e); try discriminate. rewrite !andb_false_r. split; reflexivity.
Qed.

Lemma errorRecords_sum (tr : list (Obj * Outcome)) :
  List.length (filter isErrorRecord (errorsOf tr))
  = list_sum (map (fun x => errorCount (snd x)) tr).
Proof.
  induction tr as [|x tr IH]; [reflexivity|].
  unfold errorsOf in *. cbn [flat_map map].
  change (list_sum (?a :: ?l)) with (a + list_sum l)%nat.
  rewrite filter_app, length_app, IH. reflexivity.
Qed.

Lemma kept_no_error (x : Obj * Outcome) : kept x = true -> errorCount (snd x) = 0%nat.
Proof.
  unfold kept, errorCount. destruct (o_errors (snd x)); [reflexivity | discriminate].
Qed.

Lemma validOutput_length (tr : list (Obj * Outcome)) :
  List.length (validOutput tr) = List.length (filter kept tr).
Proof. unfold validOutput. apply length_map. Qed.

Section RecordsAgainstProducts.

(** [K] singles out products; those outside [K] have an error-severity
    record, those inside have none. *)
Variable K : Obj * Outcome -> bool.

(** The products minus the records never exceed the products in [K]. *)
Lemma records_at_least_rejected (tr : list (Obj * Outcome)) :
  (forall x, In x tr -> K x = false -> (1 <= errorCount (snd x))%nat) ->
  (List.length tr
   <= List.length (filter K tr) + list_sum (map (fun x => errorCount (snd x)) tr))%nat.
Proof.
  induction tr as [|x tr IH]; intros H; [simpl; lia|].
  assert (IH' := IH (fun y Hy => H y (or_intror Hy))).
  change (x :: tr) with ([x] ++ tr).
  rewrite filter_app, map_app, list_sum_app, !length_app.
  unfold list_sum in *. cbn [filter map fold_right List.length].
  destruct (K x) eqn:E; cbn [List.length].
  - lia.
  - pose proof (H x (or_introl eq_refl) E). lia.
Qed.

Lemma records_exceed_rejected (tr : list (Obj * Outcome)) :
  (forall x, In x tr -> K x = false -> (1 <= errorCount (snd x))%nat) ->
  (forall x, In x tr -> K x = true -> errorCount (snd x) = 0%nat) ->
  (exists x, In x tr /\ (2 <= errorCount (snd x))%nat) ->
  (List.length tr
   < List.length (filter K tr) + list_sum (map (fun x => errorCount (snd x)) tr))%nat.
Proof.
  intros H H0 [x [Hin Hx]]. pose proof (H0 x Hin) as Hx0.
  apply in_split in Hin. destruct Hin as [a [b ->]].
  assert (Ha := records_at_least_rejected a
                  (fun y Hy => H y (in_or_app _ _ _ (or_introl Hy)))).
  assert (Hb := records_at_least_rejected b
                  (fun y Hy => H y (in_or_app _ _ _ (or_intror (in_cons _ _ _ Hy))))).
  rewrite filter_app, map_app, list_sum_app, !length_app.
  unfold list_sum in *. cbn [filter map fold_right List.length].
  destruct (K x) eqn:E; cbn [List.length].
  - specialize (Hx0 eq_refl). lia.
  - lia.
Qed.

End RecordsAgainstProducts.

(** C10.  The validProducts of the summary is totalProducts minus the
    error-severity validation records minus the duplication records.  These
    are records, not products: together they are the error-severity records
    of all the products of the run.  So in every run in which some product
    gathers two or more error-severity records, validProducts is smaller
    than the number of products without any error-severity record; these
    are the products that passed validation as the run step reports it (it
    announces that all products passed when no such record was counted,
    warnings or not).  The count can be negative, as the run of the witness
    shows. *)
Theorem validProducts_counts_records
  (sha256 : string -> string) (env : Env) (store : Store) (m : ProcessError) :
  In m (fst (GET sha256 env store)) ->
  isSummary m = true ->
  exists fields g,
    fullRun env fields g
    /\ let tr := traceOf env fields g in
       let all := diagnosticsOf env fields g in
       let nErrors := List.length (filter isValidationError all) in
       let nDuplications := List.length (filter isDuplicationError all) in
       let counted := (Z.of_nat (List.length tr) - Z.of_nat nErrors
                       - Z.of_nat nDuplications)%Z in
       map fst tr = allProducts g
       /\ totalProducts m = Some (Z.of_nat (List.length tr))
       /\ errors m = Some (Z.of_nat nErrors)
       /\ duplications m = Some (Z.of_nat nDuplications)
       /\ validProducts m = Some counted
       /\ (nErrors + nDuplications
           = list_sum (map (fun x => errorCount (snd x)) tr))%nat
       /\ ((exists x, In x tr /\ (2 <= errorCount (snd x))%nat) ->
           (counted < Z.of_nat (List.length (filter withoutError tr)))%Z).
Proof.
  intros Hin Hm.
  destruct (connectError env) as [e|] eqn:Hconn.
  { rewrite (GET_disconnected sha256 env store e Hconn) in Hin. contradiction. }
  destruct (GET_cases sha256 env store Hconn)
    as [[fields [g [pre [Hrun [Hs [Hpre _]]]]]] | [pre [t [Hs [Hpre [Ht _]]]]]].
  2: { exfalso. rewrite Hs in Hin. apply in_app_or in Hin. destruct Hin as [Hin|Hin].
       - rewrite forallb_forall in Hpre. specialize (Hpre _ Hin).
         unfold nonTerminal in Hpre. rewrite Hm in Hpre. discriminate.
       - apply in_app_or in Hin. destruct Hin as [Hin|Hin].
         + rewrite forallb_forall in Ht. specialize (Ht _ Hin). rewrite Hm in Ht. discriminate.
         + destruct (finallyBlock_cleanup env) as [_ [_ Hc]].
           rewrite forallb_forall in Hc. specialize (Hc _ Hin). rewrite Hm in Hc.
           discriminate. }
  exists fields, g. split; [exact Hrun|].
  assert (Em : m = summaryOf (List.length (allProducts g)) (diagnosticsOf env fields g)).
  { rewrite Hs in Hin. apply in_app_or in Hin. destruct Hin as [Hin|Hin].
    - rewrite forallb_forall in Hpre. specialize (Hpre _ Hin).
      unfold nonTerminal in Hpre. rewrite Hm in Hpre. discriminate.
    - cbn [app] in Hin. destruct Hin as [E|[E|Hin]].
      + now symmetry.
      + subst m. discriminate.
      + destruct (finallyBlock_cleanup env) as [_ [_ Hc]].
        rewrite forallb_forall in Hc. specialize (Hc _ Hin). rewrite Hm in Hc.
        discriminate. }
  intros tr all nErrors nDuplications counted.
  assert (Hprod : map fst tr = allProducts g).
  { subst tr. unfold traceOf. rewrite runTrace_products.
    apply splitIntoChunks_concat. unfold CHUNK_SIZE. lia. }
  assert (Hlen : List.length tr = List.length (allProducts g)).
  { rewrite <- Hprod. now rewrite length_map. }
  assert (Hsum : (nErrors + nDuplications
                  = list_sum (map (fun x => errorCount (snd x)) tr))%nat).
  { subst nErrors nDuplications all. unfold diagnosticsOf. fold tr.
    destruct Hrun as [_ [_ [_ [_ [_ [[rl Hr] _]]]]]].
    destruct (readWorkbook_invariant env) as [_ [_ Hw]].
    rewrite Hr in Hw. specialize (Hw g eq_refl).
    destruct (warnings_not_counted _ Hw) as [W1 W2].
    rewrite !filter_app, W1, W2. cbn [app].
    rewrite productDiagnostic_counted.
    - apply errorRecords_sum.
    - apply forallb_forall. intros e He. unfold errorsOf in He.
      apply in_flat_map in He. destruct He as [x [Hx He]].
      pose proof (runTrace_kinds _ _ _ _ _ x Hx) as Hk.
      rewrite forallb_forall in Hk. now apply Hk. }
  split; [exact Hprod|]. rewrite Em, Hlen.
  split; [reflexivity|]. split; [reflexivity|]. split; [reflexivity|].
  split; [subst counted; rewrite Hlen; reflexivity|].
  split; [exact Hsum|].
  intros Htwo. subst counted.
  assert (H1 : forall x, In x tr -> withoutError x = false ->
                         (1 <= errorCount (snd x))%nat).
  { intros x _ Hx. unfold withoutError in Hx. apply Nat.eqb_neq in Hx. lia. }
  assert (H0 : forall x, In x tr -> withoutError x = true ->
                         errorCount (snd x) = 0%nat).
  { intros x _ Hx. unfold withoutError in Hx. now apply Nat.eqb_eq in Hx. }
  pose proof (records_exceed_rejected withoutError tr H1 H0 Htwo). lia.
Qed.

Lemma validProducts_counts_records_witness :
  let env := sampleEnv [sampleHeader; sampleRow "A1" "7" "XYZ" None] in
  let stream := fst (GET sampleDigest env []) in
  let m := hd greeting (filter isSummary stream) in
  In m stream /\ isSummary m = true
  /\ validProducts m = Some (-1)%Z
  /\ exists fields g,
       fullRun env fields g /\ map fst (traceOf env fields g) = allProducts g.
Proof.
  intros env stream m.
  assert (Hin : In m stream).
  { subst m stream. vm_compute. repeat (first [left; reflexivity | right]). }
  assert (Hm : isSummary m = true) by (vm_compute; reflexivity).
  split; [exact Hin|]. split; [exact Hm|]. split; [vm_compute; reflexivity|].
  destruct (validProducts_counts_records sampleDigest env [] m Hin Hm)
    as [fields [g [Hrun [Hprod _]]]].
  exists fields, g. split; assumption.
Defined.

(** A remark on the products kept by the chunk validator, which the run
    step discards: a product rejected on a warning alone has no
    error-severity record, so the number of products kept (none here) can
    be smaller than the number of products without such a record (one
    here), and can equal validProducts. *)
Lemma warning_only_product_offsets_records :
  let env := sampleEnv [sampleHeader; sampleRow "A1" "7" "XYZ" None;
                        sampleRow "B2" "5" "eur" (Some "hello")] in
  let tr := traceOf env [] (gatheredOf env) in
  map (fun x => errorCount (snd x)) tr = [2; 0]%nat
  /\ map (fun x => map code (o_errors (snd x))) tr
     = [[Some "INVALID_SUPPLIER_ID"; Some "INVALID_CURRENCY"];
        [Some "UNRECOGNIZED_PRODUCT_FIELD"]]
  /\ List.length (validOutput tr) = 0%nat
  /\ List.length (filter withoutError tr) = 1%nat
  /\ map (fun s => (totalProducts s, validProducts s))
       (filter isSummary (fst (GET sampleDigest env [])))
     = [(Some 2%Z, Some 0%Z)].
Proof. vm_compute. repeat split. Qed.

(** The count can be negative: one product with two error records. *)
Lemma validProducts_can_be_negative :
  map validProducts
    (filter isSummary
       (fst (GET sampleDigest (sampleEnv [sampleHeader; sampleRow "A1" "7" "XYZ" None]) [])))
  = [Some (-1)%Z].
Proof. vm_compute. reflexivity. Qed.

(* ================================================================== *)
(** * Chunks *)
(* ================================================================== *)

Section Chunks.

Context {T : Type}.

Lemma splitLoop_nil (fuel chunkSize : nat) : @splitLoop T fuel [] chunkSize = [].
Proof. destruct fuel; reflexivity. Qed.

Lemma splitLoop_sizes (chunkSize : nat) :
  (0 < chunkSize)%nat ->
  forall (fuel : nat) (l : list T),
    (List.length l <= fuel)%nat ->
    Forall (fun c => (1 <= List.length c <= chunkSize)%nat) (splitLoop fuel l chunkSize).
Proof.
  intros Hn. induction fuel as [|fuel IH]; intros l Hl; [constructor|].
  destruct l as [|x l]; [constructor|].
  cbn [splitLoop]. constructor.
  - rewrite length_firstn. set (k := List.length (x :: l)).
    assert (1 <= k)%nat by (subst k; simpl; lia). lia.
  - apply IH. rewrite length_skipn. set (k := List.length (x :: l)) in *. lia.
Qed.

Lemma splitLoop_count (chunkSize : nat) :
  (0 < chunkSize)%nat ->
  forall (fuel : nat) (l : list T),
    (List.length l <= fuel)%nat ->
    List.length (splitLoop fuel l chunkSize)
    = ((List.length l + chunkSize - 1) / chunkSize)%nat.
Proof.
  intros Hn. induction fuel as [|fuel IH]; intros l Hl.
  - destruct l; [|simpl in Hl; lia]. cbn [splitLoop List.length].
    symmetry. apply Nat.div_small. lia.
  - destruct l as [|x l].
    + cbn [splitLoop List.length]. symmetry. apply Nat.div_small. lia.
    + cbn [splitLoop].
      match goal with
      | |- List.length (?a :: ?r) = _ =>
          change (List.length (a :: r)) with (S (List.length r))
      end.
      rewrite IH.
      * rewrite length_skipn. set (k := List.length (x :: l)).
        assert (Hk : (1 <= k)%nat) by (subst k; simpl; lia).
        destruct (Nat.le_gt_cases k chunkSize) as [Hle|Hgt].
        -- replace (k - chunkSize)%nat with 0%nat by lia.
           rewrite (Nat.div_small (0 + chunkSize - 1)) by lia.
           apply (Nat.div_unique _ _ 1 (k - 1)); lia.
        -- replace (k + chunkSize - 1)%nat
             with (1 * chunkSize + (k - chunkSize + chunkSize - 1))%nat by lia.
           rewrite Nat.div_add_l by lia. reflexivity.
      * rewrite length_skipn. set (k := List.length (x :: l)) in *. lia.
Qed.

Lemma splitLoop_full (chunkSize : nat) :
  (0 < chunkSize)%nat ->
  forall (fuel : nat) (l : list T) (i : nat),
    (List.length l <= fuel)%nat ->
    (S i < List.length (splitLoop fuel l chunkSize))%nat ->
    List.length (nth i (splitLoop fuel l chunkSize) []) = chunkSize.
Proof.
  intros Hn. induction fuel as [|fuel IH]; intros l i Hl Hi.
  - simpl in Hi. lia.
  - destruct l as [|x l]; [simpl in Hi; lia|].
    cbn [splitLoop] in *. cbn [List.length] in Hi.
    assert (Hrest : (List.length (skipn chunkSize (x :: l)) <= fuel)%nat).
    { rewrite length_skipn. set (k := List.length (x :: l)) in *. lia. }
    destruct i as [|i].
    + cbn [nth]. rewrite length_firstn.
      destruct (skipn chunkSize (x :: l)) as [|y r] eqn:E.
      * rewrite splitLoop_nil in Hi. simpl in Hi. lia.
      * assert (Hlen : List.length (skipn chunkSize (x :: l)) = S (List.length r))
          by (rewrite E; reflexivity).
        rewrite length_skipn in Hlen. lia.
    + cbn [nth]. apply IH; [assumption | lia].
Qed.

End Chunks.

(** [splitIntoChunks] with a positive chunk size cuts the array into
    consecutive pieces: put end to end they give the array back, no piece is
    empty or longer than the chunk size, every piece but the last has
    exactly the chunk size, and their number is the length divided by the
    chunk size, rounded up. *)
Theorem splitIntoChunks_partitions {T : Type} (array : list T) (chunkSize : nat) :
  (0 < chunkSize)%nat ->
  List.concat (splitIntoChunks array chunkSize) = array
  /\ Forall (fun c => (1 <= List.length c <= chunkSize)%nat) (splitIntoChunks array chunkSize)
  /\ (forall i, (S i < List.length (splitIntoChunks array chunkSize))%nat ->
        List.length (nth i (splitIntoChunks array chunkSize) []) = chunkSize)
  /\ List.length (splitIntoChunks array chunkSize)
     = ((List.length array + chunkSize - 1) / chunkSize)%nat.
Proof.
  intros Hn. unfold splitIntoChunks. repeat split.
  - now apply splitLoop_concat.
  - now apply splitLoop_sizes.
  - intros i Hi. now apply splitLoop_full.
  - now apply splitLoop_count.
Qed.

Lemma splitIntoChunks_partitions_witness :
  (0 < 2)%nat
  /\ List.concat (splitIntoChunks [1; 2; 3; 4; 5]%nat 2) = [1; 2; 3; 4; 5]%nat
  /\ List.length (splitIntoChunks [1; 2; 3; 4; 5]%nat 2) = 3%nat.
Proof.
  assert (H : (0 < 2)%nat) by (constructor; constructor).
  destruct (splitIntoChunks_partitions [1; 2; 3; 4; 5]%nat 2 H) as [H1 [_ [_ H4]]].
  split; [exact H|]. split; [exact H1 | exact H4].
Defined.

(* ================================================================== *)
(** * The cache over many calls *)
(* ================================================================== *)

Section CacheRuns.

Lemma cacheSet_length_new (c : Cache) (k : string) (v : RegExp) :
  cacheGet c k = None -> List.length (cacheSet c k v) = S (List.length c).
Proof.
  induction c as [|[k' v'] c IH]; simpl; intros H; [reflexivity|].
  destruct (k' =? k)%string; [discriminate|]. simpl. now rewrite IH.
Qed.

Lemma cacheSet_keys_new (c : Cache) (k : string) (v : RegExp) :
  cacheGet c k = None -> map fst (cacheSet c k v) = map fst c ++ [k].
Proof.
  induction c as [|[k' v'] c IH]; simpl; intros H; [reflexivity|].
  destruct (k' =? k)%string; [discriminate|]. simpl. now rewrite IH.
Qed.

Lemma cacheGet_None_keys (c : Cache) (k : string) :
  cacheGet c k = None -> ~ In k (map fst c).
Proof.
  induction c as [|[k' v'] c IH]; simpl; intros H; [tauto|].
  destruct (k' =? k)%string eqn:E; [discriminate|].
  apply String.eqb_neq in E. intros [H1|H1]; [congruence | now apply IH].
Qed.

(** What one call keeps: coherence, distinct keys, and the bound. *)
Lemma createAggressiveRegex_invariant (cache : Cache) (input : string) :
  coherent cache -> NoDup (map fst cache) ->
  (List.length cache <= S MAX_CACHE_SIZE)%nat ->
  let r := createAggressiveRegex cache input in
  fst r = Some (aggressiveRegex input)
  /\ coherent (snd r) /\ NoDup (map fst (snd r))
  /\ (List.length (snd r) <= S MAX_CACHE_SIZE)%nat.
Proof.
  intros Hc Hnd Hlen r.
  destruct (createAggressiveRegex_coherent cache input Hc) as [H1 H2].
  split; [exact H1|]. split; [exact H2|]. subst r.
  unfold createAggressiveRegex, cacheHas. cbn [snd].
  destruct (cacheGet cache input) as [v|] eqn:E; cbn [negb]; [split; assumption|].
  destruct (MAX_CACHE_SIZE <? List.length cache)%nat eqn:Efull.
  - split; [repeat constructor; intros []|]. simpl. unfold MAX_CACHE_SIZE. lia.
  - apply Nat.ltb_ge in Efull. split.
    + rewrite cacheSet_keys_new by assumption.
      apply NoDup_app; [assumption | repeat constructor; intros [] |].
      intros x Hx [Heq|[]]. subst x. now apply (cacheGet_None_keys cache input).
    + rewrite cacheSet_length_new by assumption. lia.
Qed.

Lemma lookups_invariant (inputs : list string) (cache : Cache) :
  coherent cache -> NoDup (map fst cache) ->
  (List.length cache <= S MAX_CACHE_SIZE)%nat ->
  fst (lookups cache inputs) = map (fun input => Some (aggressiveRegex input)) inputs
  /\ coherent (snd (lookups cache inputs))
  /\ NoDup (map fst (snd (lookups cache inputs)))
  /\ (List.length (snd (lookups cache inputs)) <= S MAX_CACHE_SIZE)%nat.
Proof.
  revert cache. induction inputs as [|input rest IH]; intros cache Hc Hnd Hlen.
  - cbn. repeat split; assumption.
  - cbn [lookups map].
    destruct (createAggressiveRegex_invariant cache input Hc Hnd Hlen) as [H1 [H2 [H3 H4]]].
    destruct (createAggressiveRegex cache input) as [re cache'].
    cbn [fst snd] in *. subst re.
    destruct (IH cache' H2 H3 H4) as [I1 [I2 [I3 I4]]].
    destruct (lookups cache' rest) as [res cache''].
    cbn [fst snd] in *. subst res. repeat split; assumption.
Qed.

End CacheRuns.

(** The cache of matchers is transparent and bounded: over any sequence of
    calls that starts with the empty cache, every call answers the matcher
    built from its own input, whether the entry was cached, built anew or
    built after the cache was cleared; the cache never holds a key twice and
    never holds more than [MAX_CACHE_SIZE + 1] entries. *)
Theorem createAggressiveRegex_memoizes (inputs : list string) :
  fst (lookups [] inputs) = map (fun input => Some (aggressiveRegex input)) inputs
  /\ NoDup (map fst (snd (lookups [] inputs)))
  /\ (List.length (snd (lookups [] inputs)) <= MAX_CACHE_SIZE + 1)%nat.
Proof.
  destruct (lookups_invariant inputs [] coherent_nil (NoDup_nil _)) as [H1 [_ [H3 H4]]].
  - unfold MAX_CACHE_SIZE. simpl. lia.
  - repeat split; [assumption | assumption | lia].
Qed.

(* ================================================================== *)
(** * What the matchers accept *)
(* ================================================================== *)

Section Matchers.

Lemma toUpperChar_idem (c : ascii) : toUpperChar (toUpperChar c) = toUpperChar c.
Proof. destruct c as [[] [] [] [] [] [] [] []]; reflexivity. Qed.

Lemma toUpperChar_lower (c : ascii) : toUpperChar (toLowerChar c) = toUpperChar c.
Proof. destruct c as [[] [] [] [] [] [] [] []]; reflexivity. Qed.

Lemma isWordChar_upper (c : ascii) : isWordChar (toUpperChar c) = isWordChar c.
Proof. destruct c as [[] [] [] [] [] [] [] []]; reflexivity. Qed.

Lemma isWordChar_lower (c : ascii) : isWordChar (toLowerChar c) = isWordChar c.
Proof. destruct c as [[] [] [] [] [] [] [] []]; reflexivity. Qed.

Lemma isSpecial_upper (c : ascii) : isSpecial (toUpperChar c) = isSpecial c.
Proof. destruct c as [[] [] [] [] [] [] [] []]; reflexivity. Qed.

Lemma isSpecial_lower (c : ascii) : isSpecial (toLowerChar c) = isSpecial c.
Proof. destruct c as [[] [] [] [] [] [] [] []]; reflexivity. Qed.

(** A change of letters that the [i] flag does not see. *)
Variable f : ascii -> ascii.
Hypothesis f_case : forall c, toUpperChar (f c) = toUpperChar c.
Hypothesis f_word : forall c, isWordChar (f c) = isWordChar c.
Hypothesis f_special : forall c, isSpecial (f c) = isSpecial c.

Lemma starNonWord_mapString (k k' : string -> bool) :
  (forall s, k (mapString f s) = k' s) ->
  forall s, starNonWord k (mapString f s) = starNonWord k' s.
Proof.
  intros Hk. induction s as [|d s IH].
  - pose proof (Hk "") as H0. cbn [mapString] in H0. cbn [mapString starNonWord].
    now rewrite H0.
  - cbn [mapString starNonWord]. rewrite <- IH, f_word.
    change (String (f d) (mapString f s)) with (mapString f (String d s)).
    now rewrite Hk.
Qed.

Lemma matchHere_mapString (r : list Atom) (s : string) :
  matchHere r (mapString f s) = matchHere r s.
Proof.
  revert s. induction r as [|a r IH]; intros s; [reflexivity|].
  destruct a as [c|].
  - destruct s as [|d s]; [reflexivity|]. cbn [mapString matchHere].
    unfold ceq. now rewrite f_case, IH.
  - cbn [matchHere]. now apply starNonWord_mapString.
Qed.

Lemma search_mapString (r : list Atom) (s : string) :
  search r (mapString f s) = search r s.
Proof.
  induction s as [|d s IH].
  - reflexivity.
  - cbn [mapString search]. rewrite IH.
    change (String (f d) (mapString f s)) with (mapString f (String d s)).
    now rewrite matchHere_mapString.
Qed.

Lemma starNonWord_ext (k k' : string -> bool) :
  (forall s, k s = k' s) -> forall s, starNonWord k s = starNonWord k' s.
Proof.
  intros Hk. induction s as [|d s IH]; simpl; [now rewrite Hk|].
  now rewrite Hk, IH.
Qed.

Lemma matchHere_label (label s : string) :
  matchHere (atomsOf (mapString f label)) s = matchHere (atomsOf label) s.
Proof.
  revert s. induction label as [|c label IH]; intros s; [reflexivity|].
  unfold atomsOf in *. cbn [mapString chars list_ascii_of_string flat_map].
  unfold atomsOfChar. rewrite f_special, f_word.
  destruct (isSpecial c).
  - cbn [app matchHere]. destruct s as [|d s]; [reflexivity|].
    destruct s as [|d' s]; [reflexivity|].
    unfold ceq. rewrite f_case. now rewrite IH.
  - destruct (isWordChar c).
    + cbn [app matchHere]. destruct s as [|d s]; [reflexivity|].
      unfold ceq. rewrite f_case. f_equal. now apply starNonWord_ext.
    + cbn [app matchHere]. destruct s as [|d s]; [reflexivity|].
      unfold ceq. rewrite f_case. now rewrite IH.
Qed.

Lemma search_label (label s : string) :
  search (atomsOf (mapString f label)) s = search (atomsOf label) s.
Proof.
  induction s as [|d s IH]; cbn [search]; rewrite matchHere_label;
    [reflexivity | now rewrite IH].
Qed.

End Matchers.

(** The [i] flag: the answer of a matcher does not depend on the case of
    the letters of the text, nor on the case of the letters of the label it
    was built from. *)
Theorem aggressiveRegex_ignores_case (label s : string) :
  test (aggressiveRegex label) (toUpperCase s) = test (aggressiveRegex label) s
  /\ test (aggressiveRegex label) (toLowerCase s) = test (aggressiveRegex label) s
  /\ test (aggressiveRegex (toUpperCase label)) s = test (aggressiveRegex label) s
  /\ test (aggressiveRegex (toLowerCase label)) s = test (aggressiveRegex label) s.
Proof.
  rewrite !test_aggressiveRegex. unfold toUpperCase, toLowerCase. repeat split.
  - apply search_mapString; [apply toUpperChar_idem | apply isWordChar_upper].
  - apply search_mapString; [apply toUpperChar_lower | apply isWordChar_lower].
  - apply search_label;
      [apply toUpperChar_idem | apply isWordChar_upper | apply isSpecial_upper].
  - apply search_label;
      [apply toUpperChar_lower | apply isWordChar_lower | apply isSpecial_lower].
Qed.

Section Unanchored.

Lemma starNonWord_extend (k k' : string -> bool) (post : string) :
  (forall s, k s = true -> k' (s +++ post) = true) ->
  forall s, starNonWord k s = true -> starNonWord k' (s +++ post) = true.
Proof.
  intros Hk. induction s as [|d s IH]; intros H.
  - simpl in H. rewrite orb_false_r in H. apply starNonWord_here. now apply (Hk "").
  - cbn [starNonWord] in H. apply orb_true_iff in H. destruct H as [H|H].
    + apply starNonWord_here. now apply (Hk (String d s)).
    + apply andb_true_iff in H. destruct H as [Hd Hs].
      cbn [append starNonWord]. rewrite Hd, (IH Hs). apply orb_true_r.
Qed.

Lemma matchHere_extend (r : list Atom) (post : string) :
  forall s, matchHere r s = true -> matchHere r (s +++ post) = true.
Proof.
  induction r as [|a r IH]; intros s H; [reflexivity|].
  destruct a as [c|].
  - destruct s as [|d s]; [discriminate|]. cbn [append matchHere] in *.
    apply andb_true_iff in H. destruct H as [H1 H2]. now rewrite H1, IH.
  - cbn [matchHere] in *. revert H. now apply starNonWord_extend.
Qed.

Lemma search_extend (r : list Atom) (post s : string) :
  search r s = true -> search r (s +++ post) = true.
Proof.
  induction s as [|d s IH]; intros H.
  - simpl in H. rewrite orb_false_r in H.
    apply (search_skip r "" post). exact (matchHere_extend r post "" H).
  - cbn [search] in H. apply orb_true_iff in H. cbn [append search].
    destruct H as [H|H].
    + pose proof (matchHere_extend r post (String d s) H) as H1.
      cbn [append] in H1. now rewrite H1.
    + rewrite (IH H). apply orb_true_r.
Qed.

Lemma search_prefix (r : list Atom) (pre s : string) :
  search r s = true -> search r (pre +++ s) = true.
Proof.
  intros H. induction pre as [|c pre IH]; [exact H|].
  cbn [append search]. rewrite IH. apply orb_true_r.
Qed.

End Unanchored.

(** The matchers are not anchored: a text that is accepted stays accepted
    with anything put before or after it, so a token only has to contain a
    match of the label. *)
Theorem aggressiveRegex_finds_substring (label pre s post : string) :
  test (aggressiveRegex label) s = true ->
  test (aggressiveRegex label) (pre +++ s +++ post) = true.
Proof.
  rewrite !test_aggressiveRegex. intros H.
  apply search_prefix. now apply search_extend.
Qed.

Lemma aggressiveRegex_finds_substring_witness :
  test (aggressiveRegex "human") "Human" = true
  /\ test (aggressiveRegex "human") ("non" +++ "Human" +++ " primate") = true.
Proof.
  split; [reflexivity|].
  exact (aggressiveRegex_finds_substring "human" "non" "Human" " primate" eq_refl).
Defined.

Section Metacharacters.

Lemma ceq_backslash (d : ascii) : ceq backslash d = true -> d = backslash.
Proof.
  unfold ceq. intros H. apply Ascii.eqb_eq in H.
  destruct d as [[] [] [] [] [] [] [] []]; try discriminate H; reflexivity.
Qed.

Lemma hasBackslash_app (a b : string) :
  hasBackslash (a +++ b) = hasBackslash a || hasBackslash b.
Proof.
  unfold hasBackslash. induction a as [|c a IH]; [reflexivity|].
  cbn [append chars list_ascii_of_string existsb]. unfold chars in IH.
  now rewrite IH, orb_assoc.
Qed.

Lemma starNonWord_suffix (k : string -> bool) (s : string) :
  starNonWord k s = true -> exists a b, s = a +++ b /\ k b = true.
Proof.
  induction s as [|d s IH]; cbn [starNonWord]; intros H.
  - rewrite orb_false_r in H. now exists "", "".
  - apply orb_true_iff in H. destruct H as [H|H].
    + now exists "", (String d s).
    + apply andb_true_iff in H. destruct H as [_ H].
      destruct (IH H) as [a [b [-> Hb]]]. now exists (String d a), b.
Qed.

Lemma matchHere_backslash (r : list Atom) :
  In (Lit backslash) r ->
  forall s, matchHere r s = true -> hasBackslash s = true.
Proof.
  induction r as [|a r IH]; intros Hin s H; [contradiction|].
  destruct a as [c|].
  - destruct s as [|d s]; [discriminate|]. cbn [matchHere] in H.
    apply andb_true_iff in H. destruct H as [H1 H2].
    unfold hasBackslash. cbn [chars list_ascii_of_string existsb].
    destruct Hin as [E|Hin].
    + injection E as ->. apply ceq_backslash in H1. subst d.
      now rewrite Ascii.eqb_refl.
    + fold (chars s). fold (hasBackslash s). rewrite (IH Hin s H2). apply orb_true_r.
  - destruct Hin as [E|Hin]; [discriminate|]. cbn [matchHere] in H.
    apply starNonWord_suffix in H. destruct H as [a [b [-> Hb]]].
    rewrite hasBackslash_app, (IH Hin b Hb). apply orb_true_r.
Qed.

Lemma search_backslash (r : list Atom) :
  In (Lit backslash) r ->
  forall s, search r s = true -> hasBackslash s = true.
Proof.
  intros Hin. induction s as [|d s IH]; cbn [search]; intros H.
  - rewrite orb_false_r in H. now apply (matchHere_backslash r Hin).
  - apply orb_true_iff in H. destruct H as [H|H].
    + now apply (matchHere_backslash r Hin).
    + change (String d s) with (String d "" +++ s).
      rewrite hasBackslash_app, (IH H). apply orb_true_r.
Qed.

Lemma atomsOf_special (label : string) :
  noSpecial label = false -> In (Lit backslash) (atomsOf label).
Proof.
  unfold noSpecial, atomsOf. induction label as [|c label IH]; [discriminate|].
  cbn [chars list_ascii_of_string forallb flat_map]. intros H.
  apply in_or_app. unfold atomsOfChar at 1.
  destruct (isSpecial c) eqn:Ec; [left; now left|].
  right. apply IH. exact H.
Qed.

End Metacharacters.

(** A label that holds a RegExp metacharacter (a hyphen, a dot, a slash, a
    parenthesis, ...) is escaped twice: its matcher asks for a backslash in
    the text, so it accepts no text without one, the label itself
    included. *)
Theorem metacharacter_label_needs_backslash (label s : string) :
  noSpecial label = false ->
  hasBackslash s = false ->
  test (aggressiveRegex label) s = false.
Proof.
  intros Hl Hs. rewrite test_aggressiveRegex.
  destruct (search (atomsOf label) s) eqn:E; [|reflexivity].
  pose proof (search_backslash _ (atomsOf_special label Hl) s E). congruence.
Qed.

Lemma metacharacter_label_needs_backslash_witness :
  noSpecial "IL-2" = false /\ hasBackslash "IL-2" = false
  /\ test (aggressiveRegex "IL-2") "IL-2" = false.
Proof.
  split; [reflexivity|]. split; [reflexivity|].
  exact (metacharacter_label_needs_backslash "IL-2" "IL-2" eq_refl eq_refl).
Defined.

(* ================================================================== *)
(** * Matching the tokens of a constant field *)
(* ================================================================== *)

Section Tokens.

Variable allowed : list AllowedValue.

Lemma findMatch_cons (a : AllowedValue) (rest : list AllowedValue) (t : string) :
  findMatch (a :: rest) t
  = if matchesValue a t then Some (av_name a) else findMatch rest t.
Proof.
  cbn [findMatch]. unfold matchesValue.
  destruct (existsb _ (av_properties a)); [reflexivity|].
  destruct (test _ t); reflexivity.
Qed.

Lemma findMatch_none (l : list AllowedValue) (t : string) :
  findMatch l t = None <-> forallb (fun a => negb (matchesValue a t)) l = true.
Proof.
  induction l as [|a l IH]; [split; reflexivity|].
  rewrite findMatch_cons. cbn [forallb].
  destruct (matchesValue a t); cbn [negb andb]; [split; discriminate | exact IH].
Qed.

Lemma findMatch_some (l : list AllowedValue) (t n : string) :
  findMatch l t = Some n
  <-> exists pre a post,
        l = pre ++ a :: post /\ av_name a = n /\ matchesValue a t = true
        /\ forallb (fun b => negb (matchesValue b t)) pre = true.
Proof.
  induction l as [|a l IH].
  - split; [discriminate | intros [pre [a [post [E _]]]]; destruct pre; discriminate].
  - rewrite findMatch_cons. destruct (matchesValue a t) eqn:Ea.
    + split.
      * intros E. injection E as <-. exists [], a, l. repeat split. exact Ea.
      * intros [pre [b [post [E [Hn [Hb Hpre]]]]]]. destruct pre as [|x pre].
        -- injection E as <- _. now rewrite Hn.
        -- injection E as <- _. cbn [forallb] in Hpre. rewrite Ea in Hpre. discriminate.
    + rewrite IH. split.
      * intros [pre [b [post [E [Hn [Hb Hpre]]]]]]. exists (a :: pre), b, post.
        subst l. repeat split; try assumption. cbn [forallb]. now rewrite Ea.
      * intros [pre [b [post [E [Hn [Hb Hpre]]]]]]. destruct pre as [|x pre].
        -- injection E as <- _. congruence.
        -- injection E as <- E. exists pre, b, post. repeat split; try assumption.
           cbn [forallb] in Hpre. apply andb_true_iff in Hpre. tauto.
Qed.

End Tokens.

(** The loop over the allowed values gives a token to the first allowed
    value, in the order of the schema, one of whose properties matches it or
    whose name matches it; the values after it are not consulted.  A token
    is left unmatched exactly when no allowed value matches it. *)
Theorem findMatch_first_in_schema_order (allowed : list AllowedValue) (t : string) :
  (findMatch allowed t = None
   <-> forallb (fun a => negb (matchesValue a t)) allowed = true)
  /\ (forall n,
        findMatch allowed t = Some n
        <-> exists pre a post,
              allowed = pre ++ a :: post /\ av_name a = n /\ matchesValue a t = true
              /\ forallb (fun b => negb (matchesValue b t)) pre = true).
Proof.
  split; [apply findMatch_none | intros n; apply findMatch_some].
Qed.

Section ConstantFieldReport.

Variables (allowed : list AllowedValue) (key : string).

Lemma matchTokens_closed_form (toks : list string) (m : StrSet) (e : list string) :
  matchTokens allowed key toks m e
  = (fold_left add
       (flat_map (fun t => match findMatch allowed t with
                           | Some n => [n]
                           | None => []
                           end) toks) m,
     e ++ map (unmatchedMessage key) (unmatchedTokens allowed toks)).
Proof.
  revert m e. induction toks as [|t toks IH]; intros m e; cbn [matchTokens].
  - cbn. now rewrite app_nil_r.
  - unfold unmatchedTokens, isUnmatched in *. cbn [flat_map filter].
    destruct (findMatch allowed t) as [n|] eqn:E; rewrite IH.
    + reflexivity.
    + cbn [app map]. rewrite <- app_assoc. reflexivity.
Qed.

Lemma fold_add_nil (l : list string) (s : StrSet) :
  fold_left add l s = [] -> l = [] /\ s = [].
Proof.
  destruct l as [|x l]; [now split|]. cbn [fold_left]. intros H.
  assert (Hin : In x (fold_left add l (add s x))).
  { apply fold_add_incl. apply add_In. now right. }
  rewrite H in Hin. contradiction.
Qed.

Lemma matchedNames_nil (toks : list string) :
  matchedNames allowed toks = [] -> unmatchedTokens allowed toks = toks.
Proof.
  unfold matchedNames, unmatchedTokens, isUnmatched. intros H.
  apply fold_add_nil in H. destruct H as [H _].
  induction toks as [|t toks IH]; [reflexivity|].
  cbn [flat_map filter] in *. destruct (findMatch allowed t); [discriminate|].
  cbn [app] in H. now rewrite IH.
Qed.

Lemma matchedNames_spec (toks : list string) :
  NoDup (matchedNames allowed toks)
  /\ forall n, In n (matchedNames allowed toks)
               <-> exists t, In t toks /\ findMatch allowed t = Some n.
Proof.
  unfold matchedNames. split; [apply fold_add_NoDup; constructor|].
  intros n. rewrite <- has_In, has_fold_add. cbn [has existsb orb].
  rewrite existsb_exists. split.
  - intros [x [Hx E]]. apply String.eqb_eq in E. subst x.
    apply in_flat_map in Hx. destruct Hx as [t [Ht Hn]]. exists t. split; [assumption|].
    destruct (findMatch allowed t) as [n'|]; [|contradiction].
    destruct Hn as [->|[]]. reflexivity.
  - intros [t [Ht E]]. exists n. split; [|apply String.eqb_refl].
    apply in_flat_map. exists t. split; [assumption|]. rewrite E. now left.
Qed.

End ConstantFieldReport.

(** A constant field whose text is neither blank nor n/a.  The tokens are
    the pieces between commas, trimmed, the empty ones left out.  The field
    becomes the array of the matched names, each once, in the order in
    which they are first matched; when there are tokens and none matches,
    it becomes the empty array; when there is no token at all (a text made
    of commas), it is left as it was and nothing is reported.  When some
    token matches nothing, exactly one invalid_value error is added, whose
    details hold one line for each unmatched token, in the order of the
    input; the tokens that did match are kept all the same. *)
Theorem constantField_reports_unmatched
  (key : string) (allowed : list AllowedValue) (product : Obj)
  (errs : list ProcessError) :
  toLowerCase (fieldText product key) <> "n/a" ->
  fieldText product key <> "" ->
  let toks := tokens (fieldText product key) in
  let good := matchedNames allowed toks in
  let bad := unmatchedTokens allowed toks in
  constantField key allowed product errs
  = ((if nonEmpty good then set product key (JArr good)
      else if nonEmpty toks then set product key (JArr [])
      else product),
     (if nonEmpty bad
      then errs ++ [diag invalid_value
                      ("Constant field " +++ quoted key
                         +++ " contains unrecognized values.")
                      (Some key) (Some (get product key))
                      (Some (get product "catalog_number")) None
                      (Some (map (unmatchedMessage key) bad)) sev_error
                      (Some "UNRECOGNIZED_CONSTANT_VALUE")]
      else errs))
  /\ NoDup good
  /\ (forall n, In n good <-> exists t, In t toks /\ findMatch allowed t = Some n).
Proof.
  intros Hna Hne toks good bad.
  split; [|apply matchedNames_spec].
  unfold constantField. fold (fieldText product key).
  apply String.eqb_neq in Hna, Hne. rewrite Hna, Hne. fold toks.
  rewrite matchTokens_closed_form. fold bad. cbn [app].
  change (fold_left add _ []) with good.
  unfold nonEmpty. rewrite length_map. f_equal.
  destruct (0 <? List.length good)%nat eqn:Eg; [reflexivity|].
  assert (Hbad : bad = toks).
  { apply matchedNames_nil. fold good. apply Nat.ltb_ge in Eg.
    destruct good; [reflexivity | simpl in Eg; lia]. }
  rewrite Hbad, Nat.eqb_refl, andb_true_r. reflexivity.
Qed.

Lemma constantField_reports_unmatched_witness :
  let allowed := [mkAllowedValue "Human" ["Homo sapiens"]; mkAllowedValue "Mouse" []] in
  constantField "species" allowed
    [("catalog_number", JStr "A1"); ("species", JStr "mouse, cat ,, homo sapiens, Mouse, dog")] []
  = ([("catalog_number", JStr "A1"); ("species", JArr ["Mouse"; "Human"])],
     [diag invalid_value ("Constant field " +++ quoted "species"
                            +++ " contains unrecognized values.")
        (Some "species")
        (Some (JStr "mouse, cat ,, homo sapiens, Mouse, dog"))
        (Some (JStr "A1")) None
        (Some [unmatchedMessage "species" "cat"; unmatchedMessage "species" "dog"])
        sev_error (Some "UNRECOGNIZED_CONSTANT_VALUE")])
  /\ constantField "species" allowed [("species", JStr " , ,")] []
     = ([("species", JStr " , ,")], []).
Proof.
  intros allowed. split.
  - refine (proj1 (constantField_reports_unmatched "species" allowed
                     [("catalog_number", JStr "A1");
                      ("species", JStr "mouse, cat ,, homo sapiens, Mouse, dog")] [] _ _));
      discriminate.
  - refine (proj1 (constantField_reports_unmatched "species" allowed
                     [("species", JStr " , ,")] [] _ _)); discriminate.
Defined.

(* ================================================================== *)
(** * The additional fields: what is touched and what is not *)
(* ================================================================== *)

Section OwnKeys.

Lemma insertKey_Permutation (k : string) (l : list string) :
  Permutation (insertKey k l) (k :: l).
Proof.
  induction l as [|h t IH]; cbn [insertKey]; [apply Permutation_refl|].
  destruct (indexOfKey k <? indexOfKey h)%Z; [apply Permutation_refl|].
  eapply Permutation_trans; [apply perm_skip; exact IH | apply perm_swap].
Qed.

Lemma sortKeys_Permutation (l : list string) :
  Permutation (fold_right insertKey [] l) l.
Proof.
  induction l as [|k l IH]; cbn [fold_right]; [constructor|].
  eapply Permutation_trans; [apply insertKey_Permutation | now apply perm_skip].
Qed.

Lemma filter_split_Permutation {A : Type} (p : A -> bool) (l : list A) :
  Permutation (filter p l ++ filter (fun x => negb (p x)) l) l.
Proof.
  induction l as [|x l IH]; cbn [filter]; [constructor|].
  destruct (p x); cbn [negb app].
  - now apply perm_skip.
  - eapply Permutation_trans; [apply Permutation_sym, Permutation_middle|].
    now apply perm_skip.
Qed.

(** [Object.keys] lists every own key once, whatever the order. *)
Lemma objectKeys_Permutation (o : Obj) : Permutation (objectKeys o) (keys o).
Proof.
  unfold objectKeys.
  eapply Permutation_trans; [|apply (filter_split_Permutation isArrayIndex)].
  apply Permutation_app_tail. apply sortKeys_Permutation.
Qed.

Lemma set_keys_present (o : Obj) (k : string) (v : JsVal) :
  In k (keys o) -> keys (set o k v) = keys o.
Proof.
  unfold keys. induction o as [|[k' v'] o IH]; cbn [map set fst]; intros H; [contradiction|].
  destruct (k' =? k)%string eqn:E; [reflexivity|].
  cbn [map fst]. f_equal. apply IH. destruct H as [H|H]; [|exact H].
  apply String.eqb_neq in E. congruence.
Qed.

Lemma get_present (o : Obj) (k : string) : get o k <> JUndefined -> In k (keys o).
Proof.
  unfold keys. induction o as [|[k' v'] o IH]; cbn [get map fst]; intros H; [congruence|].
  destruct (k' =? k)%string eqn:E.
  - left. now apply String.eqb_eq.
  - right. now apply IH.
Qed.

Lemma fieldText_present (product : Obj) (k : string) :
  fieldText product k <> "" -> In k (keys product).
Proof.
  intros H. apply get_present. intros E. apply H. unfold fieldText. now rewrite E.
Qed.

End OwnKeys.

Section AdditionalFrame.

Variables (additionalFieldNames : list string) (fields : list Field).

Local Abbreviation vkey := (validateKey additionalFieldNames fields).

Local Abbreviation declared := (Notions.declared additionalFieldNames fields).

Lemma validateKey_undeclared (st : Obj * list ProcessError) (key : string) :
  declared (trim key) = None -> vkey st key = st.
Proof.
  unfold Notions.declared, validateKey. destruct (includes _ _); [|reflexivity].
  now intros ->.
Qed.

Lemma constantField_step (k : string) (allowed : list AllowedValue) (product : Obj)
  (errs : list ProcessError) :
  keys (fst (constantField k allowed product errs)) = keys product
  /\ (forall k', k' <> k ->
        get (fst (constantField k allowed product errs)) k' = get product k')
  /\ exists extra, snd (constantField k allowed product errs) = errs ++ extra
                   /\ forallb (aboutField k) extra = true
                   /\ (List.length extra <= 1)%nat.
Proof.
  assert (Hself : aboutField k
                    (diag missing_field ("Constant field " +++ quoted k +++ " cannot be empty.")
                       (Some k) None (Some (get product "catalog_number")) None None
                       sev_error (Some "EMPTY_CONSTANT_FIELD")) = true)
    by (unfold aboutField; cbn; apply String.eqb_refl).
  unfold constantField. fold (fieldText product k).
  destruct (toLowerCase (fieldText product k) =? "n/a")%string eqn:Ena.
  { assert (Hp : In k (keys product)).
    { apply fieldText_present. intros E. rewrite E in Ena. discriminate. }
    cbn [fst snd]. split; [now apply set_keys_present|].
    split; [intros k' Hk; apply get_set_other; congruence|].
    exists []. rewrite app_nil_r. repeat split. simpl. lia. }
  destruct (fieldText product k =? "")%string eqn:Ee.
  { cbn [fst snd]. split; [reflexivity|]. split; [reflexivity|].
    eexists. split; [reflexivity|]. split; [cbn [forallb]; now rewrite Hself | simpl; lia]. }
  assert (Hp : In k (keys product)).
  { apply fieldText_present. now apply String.eqb_neq. }
  destruct (matchTokens _ _ _ _ _) as [matched subErrors].
  cbn [fst snd]. split; [|split].
  - destruct (0 <? List.length matched)%nat; [now apply set_keys_present|].
    destruct (_ && _); [now apply set_keys_present | reflexivity].
  - intros k' Hk. destruct (0 <? List.length matched)%nat;
      [apply get_set_other; congruence|].
    destruct (_ && _); [apply get_set_other; congruence | reflexivity].
  - destruct (0 <? List.length subErrors)%nat.
    + eexists. split; [reflexivity|]. split; [|simpl; lia].
      cbn [forallb]. unfold aboutField. cbn. now rewrite String.eqb_refl.
    + exists []. rewrite app_nil_r. repeat split. simpl. lia.
Qed.

Lemma variableField_step (k : string) (product : Obj) (errs : list ProcessError) :
  keys (fst (variableField k product errs)) = keys product
  /\ (forall k', k' <> k -> get (fst (variableField k product errs)) k' = get product k')
  /\ exists extra, snd (variableField k product errs) = errs ++ extra
                   /\ forallb (aboutField k) extra = true
                   /\ (List.length extra <= 1)%nat.
Proof.
  unfold variableField. fold (fieldText product k).
  destruct (toLowerCase (fieldText product k) =? "n/a")%string eqn:Ena.
  { assert (Hp : In k (keys product)).
    { apply fieldText_present. intros E. rewrite E in Ena. discriminate. }
    cbn [fst snd]. split; [now apply set_keys_present|].
    split; [intros k' Hk; apply get_set_other; congruence|].
    exists []. rewrite app_nil_r. repeat split. simpl. lia. }
  destruct (fieldText product k =? "")%string eqn:Ee.
  { cbn [fst snd]. split; [reflexivity|]. split; [reflexivity|].
    eexists. split; [reflexivity|]. split; [|simpl; lia].
    cbn [forallb]. unfold aboutField. cbn. now rewrite String.eqb_refl. }
  assert (Hp : In k (keys product)).
  { apply fieldText_present. now apply String.eqb_neq. }
  cbn [fst snd]. split; [now apply set_keys_present|].
  split; [intros k' Hk; apply get_set_other; congruence|].
  exists []. rewrite app_nil_r. repeat split. simpl. lia.
Qed.

(** One turn of the loop over the keys: the keys stay, only the field named
    by the trimmed key can change, and at most one diagnostic is added,
    about that field. *)
Lemma validateKey_step (st : Obj * list ProcessError) (key : string) :
  keys (fst (vkey st key)) = keys (fst st)
  /\ (forall k', k' <> trim key -> get (fst (vkey st key)) k' = get (fst st) k')
  /\ exists extra, snd (vkey st key) = snd st ++ extra
                   /\ forallb (aboutField (trim key)) extra = true
                   /\ (List.length extra <= 1)%nat
                   /\ (declared (trim key) = None -> extra = []).
Proof.
  destruct (declared (trim key)) as [f|] eqn:Ed.
  - unfold Notions.declared in Ed. unfold validateKey.
    destruct (includes additionalFieldNames (trim key)); [|discriminate]. rewrite Ed.
    destruct (field_type f).
    + destruct (constantField_step (trim key) (field_value f) (fst st) (snd st))
        as [H1 [H2 [extra [H3 [H4 H5]]]]].
      split; [exact H1|]. split; [exact H2|]. exists extra.
      repeat split; try assumption. discriminate.
    + destruct (variableField_step (trim key) (fst st) (snd st))
        as [H1 [H2 [extra [H3 [H4 H5]]]]].
      split; [exact H1|]. split; [exact H2|]. exists extra.
      repeat split; try assumption. discriminate.
  - rewrite (validateKey_undeclared st key Ed). split; [reflexivity|].
    split; [reflexivity|]. exists []. rewrite app_nil_r. repeat split. simpl. lia.
Qed.

Lemma validateKeys_frame (ks : list string) (st : Obj * list ProcessError) :
  keys (fst (fold_left vkey ks st)) = keys (fst st)
  /\ (forall k, (forall key, In key ks -> trim key = k -> declared k = None) ->
        get (fst (fold_left vkey ks st)) k = get (fst st) k)
  /\ exists extra, snd (fold_left vkey ks st) = snd st ++ extra
                   /\ (forall e, In e extra ->
                         exists key, In key ks /\ aboutField (trim key) e = true
                                     /\ declared (trim key) <> None)
                   /\ (List.length extra <= List.length ks)%nat.
Proof.
  revert st. induction ks as [|key ks IH]; intros st; cbn [fold_left].
  - split; [reflexivity|]. split; [reflexivity|]. exists []. rewrite app_nil_r.
    repeat split; [intros e [] | simpl; lia].
  - destruct (validateKey_step st key) as [S1 [S2 [x [S3 [S4 [S5 S6]]]]]].
    destruct (IH (vkey st key)) as [I1 [I2 [y [I3 [I4 I5]]]]].
    split; [now rewrite I1|]. split.
    + intros k Hk. rewrite I2 by (intros key' Hin; apply Hk; now right).
      destruct (string_dec k (trim key)) as [->|Hne]; [|now apply S2].
      rewrite validateKey_undeclared; [reflexivity|].
      apply (Hk key); [now left | reflexivity].
    + exists (x ++ y). split; [rewrite I3, S3; now rewrite app_assoc|]. split.
      * intros e He. apply in_app_or in He. destruct He as [He|He].
        -- exists key. split; [now left|]. rewrite forallb_forall in S4.
           split; [now apply S4|]. intros Hd. rewrite (S6 Hd) in He. contradiction.
        -- destruct (I4 e He) as [key' [H1 H2]]. exists key'. split; [now right | exact H2].
      * rewrite length_app. cbn [List.length]. lia.
Qed.

End AdditionalFrame.

Lemma validateAdditionalFields_keys
  (product : Obj) (additionalFieldNames : list string) (fields : list Field) :
  keys (fst (validateAdditionalFields product additionalFieldNames fields)) = keys product.
Proof.
  unfold validateAdditionalFields.
  now destruct (validateKeys_frame additionalFieldNames fields (objectKeys product)
                  (product, [])) as [H1 _].
Qed.

(** [validateAdditionalFields] works field by field: it never adds or
    removes a key of the product; a field that the schema does not declare
    (its name is not among the additional field names, or no field
    definition carries it) keeps its value; every diagnostic it returns is
    about a declared field that is a key of the product once trimmed, and
    there is at most one diagnostic for each key. *)
Theorem validateAdditionalFields_frame
  (product : Obj) (additionalFieldNames : list string) (fields : list Field) :
  let r := validateAdditionalFields product additionalFieldNames fields in
  keys (fst r) = keys product
  /\ (forall k, declared additionalFieldNames fields k = None ->
        get (fst r) k = get product k)
  /\ (forall e, In e (snd r) ->
        exists key, In key (keys product) /\ field e = Some (trim key)
                    /\ declared additionalFieldNames fields (trim key) <> None)
  /\ (List.length (snd r) <= List.length (keys product))%nat.
Proof.
  intros r. subst r. unfold validateAdditionalFields.
  destruct (validateKeys_frame additionalFieldNames fields (objectKeys product)
              (product, [])) as [H1 [H2 [extra [H3 [H4 H5]]]]].
  cbn [fst snd app] in *. split; [exact H1|]. split.
  - intros k Hk. apply H2. intros key _ _. exact Hk.
  - rewrite H3. split.
    + intros e He. destruct (H4 e He) as [key [Hin [Ha Hd]]]. exists key.
      split; [eapply Permutation_in; [apply objectKeys_Permutation | exact Hin]|].
      split; [|exact Hd]. unfold aboutField in Ha.
      destruct (field e) as [f|]; [|discriminate]. apply String.eqb_eq in Ha. now subst.
    + rewrite <- (Permutation_length (objectKeys_Permutation product)). exact H5.
Qed.

Section Trimming.

Lemma trimEnd_idem (s : string) : trimEnd (trimEnd s) = trimEnd s.
Proof.
  induction s as [|c s IH]; [reflexivity|]. cbn [trimEnd].
  destruct (isWhiteSpace c && (trimEnd s =? "")%string) eqn:E; [reflexivity|].
  cbn [trimEnd]. now rewrite IH, E.
Qed.

Lemma trimStart_head (s : string) :
  trimStart s = "" \/ exists c r, trimStart s = String c r /\ isWhiteSpace c = false.
Proof.
  induction s as [|c s IH]; [now left|]. cbn [trimStart].
  destruct (isWhiteSpace c) eqn:E; [exact IH|]. right. now exists c, s.
Qed.

Lemma trim_idem (s : string) : trim (trim s) = trim s.
Proof.
  unfold trim. destruct (trimStart_head s) as [E|[c [r [E Hc]]]]; rewrite E.
  - reflexivity.
  - cbn [trimEnd]. rewrite Hc. cbn [andb trimStart]. rewrite Hc.
    cbn [trimEnd]. rewrite Hc. cbn [andb]. now rewrite trimEnd_idem.
Qed.

(** A text that starts with a character other than white space keeps it
    when trimmed. *)
Lemma trim_head (c : ascii) (r : string) :
  isWhiteSpace c = false -> trim (String c r) = String c (trimEnd r).
Proof. intros H. unfold trim. cbn [trimStart]. rewrite H. cbn [trimEnd]. now rewrite H. Qed.

End Trimming.

Section VariableFields.

Variables (additionalFieldNames : list string) (fields : list Field).

Local Abbreviation vkey := (validateKey additionalFieldNames fields).
Local Abbreviation declared := (Notions.declared additionalFieldNames fields).

Lemma aboutField_other (k k' : string) (e : ProcessError) :
  k <> k' -> aboutField k' e = true -> aboutField k e = false.
Proof.
  unfold aboutField. intros Hne H. destruct (field e) as [f|]; [|reflexivity].
  apply String.eqb_eq in H. subst f. apply String.eqb_neq. congruence.
Qed.

Lemma validateKeys_other (ks : list string) (k : string) (st : Obj * list ProcessError) :
  (forall key, In key ks -> trim key <> k) ->
  get (fst (fold_left vkey ks st)) k = get (fst st) k
  /\ exists extra, snd (fold_left vkey ks st) = snd st ++ extra
                   /\ filter (aboutField k) extra = [].
Proof.
  revert st. induction ks as [|key ks IH]; intros st Hks; cbn [fold_left].
  - split; [reflexivity|]. exists []. now rewrite app_nil_r.
  - destruct (validateKey_step additionalFieldNames fields st key)
      as [_ [S2 [x [S3 [S4 _]]]]].
    destruct (IH (vkey st key) (fun key' H => Hks key' (or_intror H)))
      as [I1 [y [I2 I3]]].
    assert (Hne : k <> trim key) by (intros E; apply (Hks key (or_introl eq_refl)); now symmetry).
    split; [rewrite I1; now apply S2|].
    exists (x ++ y). split; [rewrite I2, S3; now rewrite app_assoc|].
    rewrite filter_app, I3, app_nil_r.
    clear - S4 Hne. induction x as [|e x IHx]; [reflexivity|].
    cbn [forallb] in S4. apply andb_true_iff in S4. destruct S4 as [He Hx].
    cbn [filter]. rewrite (aboutField_other k (trim key) e Hne He). now apply IHx.
Qed.

Lemma fieldText_same (p q : Obj) (k : string) :
  get p k = get q k -> fieldText p k = fieldText q k.
Proof. unfold fieldText. now intros ->. Qed.

Lemma declared_trimmed (k : string) (f : Field) : declared k = Some f -> trim k = k.
Proof.
  unfold Notions.declared. destruct (includes _ _); [|discriminate]. intros H.
  apply find_some in H. destruct H as [_ H]. apply String.eqb_eq in H.
  rewrite <- H. apply trim_idem.
Qed.

End VariableFields.

(** A declared variable field of a product, under a key that no other key
    of the product trims to.  Its text is [String(value || '')], trimmed.
    When the text reads n/a in any case the field becomes the empty string;
    when the text is empty (the value is missing, blank, or a falsy value
    such as the number 0 or the boolean false) the field is left as it was
    and exactly one diagnostic about it is returned, an EMPTY_VARIABLE_FIELD;
    otherwise the field becomes the trimmed text and no diagnostic is about
    it. *)
Theorem variable_field_normalised
  (product : Obj) (additionalFieldNames : list string) (fields : list Field)
  (k : string) (f : Field) :
  NoDup (keys product) ->
  In k (keys product) ->
  (forall key, In key (keys product) -> trim key = k -> key = k) ->
  declared additionalFieldNames fields k = Some f ->
  field_type f = variable ->
  let r := validateAdditionalFields product additionalFieldNames fields in
  let text := fieldText product k in
  get (fst r) k
  = (if (toLowerCase text =? "n/a")%string then JStr ""
     else if (text =? "")%string then get product k
     else JStr text)
  /\ map (fun e => (type e, severity e, code e)) (filter (aboutField k) (snd r))
     = (if (text =? "")%string
        then [(missing_field, sev_error, Some "EMPTY_VARIABLE_FIELD")]
        else [])
  /\ (truthy (get product k) = false -> text = "").
Proof.
  intros Hnd Hin Huniq Hdecl Hvar r text.
  split; [|split].
  3: { intros Ht. subst text. unfold fieldText, orElse. now rewrite Ht. }
  all: subst r; unfold validateAdditionalFields.
  all: assert (Hin' : In k (objectKeys product))
         by (eapply Permutation_in; [apply Permutation_sym, objectKeys_Permutation | exact Hin]).
  all: assert (Hnd' : NoDup (objectKeys product))
         by (eapply Permutation_NoDup; [apply Permutation_sym, objectKeys_Permutation | exact Hnd]).
  all: apply in_split in Hin'; destruct Hin' as [l1 [l2 Hsplit]].
  all: rewrite Hsplit in Hnd'; apply NoDup_remove_2 in Hnd'.
  all: assert (Hother : forall key, In key (l1 ++ l2) -> trim key <> k).
  all: try (intros key Hkey Ht;
            assert (Hk : In key (keys product))
              by (eapply Permutation_in; [apply objectKeys_Permutation|];
                  rewrite Hsplit; apply in_or_app; apply in_app_or in Hkey;
                  destruct Hkey; [now left | right; now right]);
            rewrite (Huniq key Hk Ht) in Hkey; contradiction).
  all: rewrite Hsplit, fold_left_app; cbn [fold_left].
  all: destruct (validateKeys_other additionalFieldNames fields l1 k (product, [])
                   (fun key H => Hother key (in_or_app _ _ _ (or_introl H))))
         as [G1 [x1 [E1 F1]]].
  all: set (st1 := fold_left (validateKey additionalFieldNames fields) l1 (product, [])) in *.
  all: cbn [fst snd app] in G1, E1.
  all: assert (Hstep : validateKey additionalFieldNames fields st1 k
                       = variableField k (fst st1) (snd st1))
         by (unfold validateKey; rewrite (declared_trimmed _ _ k f Hdecl);
             unfold declared in Hdecl;
             destruct (includes additionalFieldNames k); [|discriminate];
             rewrite Hdecl, Hvar; reflexivity).
  all: destruct (validateKeys_other additionalFieldNames fields l2 k
                   (validateKey additionalFieldNames fields st1 k)
                   (fun key H => Hother key (in_or_app _ _ _ (or_intror H))))
         as [G2 [x2 [E2 F2]]].
  all: rewrite Hstep in G2, E2.
  all: assert (Ht : fieldText (fst st1) k = text) by (apply fieldText_same; exact G1).
  - rewrite Hstep, G2. unfold variableField. fold (fieldText (fst st1) k). rewrite Ht.
    destruct (toLowerCase text =? "n/a")%string; [apply get_set_same|].
    destruct (text =? "")%string; [exact G1 | apply get_set_same].
  - rewrite Hstep, E2. unfold variableField. fold (fieldText (fst st1) k). rewrite Ht.
    destruct (toLowerCase text =? "n/a")%string eqn:Ena.
    + assert (Hne : (text =? "")%string = false).
      { destruct (text =? "")%string eqn:E; [|reflexivity].
        apply String.eqb_eq in E. rewrite E in Ena. discriminate. }
      rewrite Hne. cbn [snd]. rewrite E1, filter_app, F1, F2. reflexivity.
    + destruct (text =? "")%string.
      * cbn [snd]. rewrite E1, !filter_app, F1, F2. cbn [filter app].
        unfold aboutField at 1. cbn [field diag]. rewrite String.eqb_refl. reflexivity.
      * cbn [snd]. rewrite E1, filter_app, F1, F2. reflexivity.
Qed.

Lemma variable_field_normalised_witness :
  let fields := [mkField "lot" variable []] in
  let r v := validateAdditionalFields [("catalog_number", JStr "A1"); ("lot", v)]
               ["lot"] fields in
  get (fst (r (JStr "  B-7 "))) "lot" = JStr "B-7"
  /\ get (fst (r (JStr "N/A"))) "lot" = JStr ""
  /\ map (fun e => (type e, severity e, code e))
       (filter (aboutField "lot") (snd (r (JNum (Fin 0 0)))))
     = [(missing_field, sev_error, Some "EMPTY_VARIABLE_FIELD")].
Proof.
  intros fields r.
  assert (Hnd : NoDup ["catalog_number"; "lot"]).
  { constructor; [intros [H|[]]; discriminate|]. constructor; [intros []|constructor]. }
  assert (Hin : In "lot" ["catalog_number"; "lot"]) by (right; now left).
  assert (Hu : forall key, In key ["catalog_number"; "lot"] -> trim key = "lot" -> key = "lot").
  { intros key [<-|[<-|[]]] H; [discriminate H | reflexivity]. }
  split; [|split].
  - exact (proj1 (variable_field_normalised
                    [("catalog_number", JStr "A1"); ("lot", JStr "  B-7 ")]
                    ["lot"] fields "lot" (mkField "lot" variable [])
                    Hnd Hin Hu eq_refl eq_refl)).
  - exact (proj1 (variable_field_normalised
                    [("catalog_number", JStr "A1"); ("lot", JStr "N/A")]
                    ["lot"] fields "lot" (mkField "lot" variable [])
                    Hnd Hin Hu eq_refl eq_refl)).
  - exact (proj1 (proj2 (variable_field_normalised
                    [("catalog_number", JStr "A1"); ("lot", JNum (Fin 0 0))]
                    ["lot"] fields "lot" (mkField "lot" variable [])
                    Hnd Hin Hu eq_refl eq_refl))).
Defined.

(* ================================================================== *)
(** * Texts of numbers *)
(* ================================================================== *)

Section NumberTexts.

Lemma string_of_uint_digits (d : Decimal.uint) :
  forallb isDigit (chars (NilZero.string_of_uint d)) = true
  /\ startsWithDigit (NilZero.string_of_uint d) = true.
Proof.
  assert (H : forall d, forallb isDigit (chars (NilEmpty.string_of_uint d)) = true).
  { induction d0 as [|d0 IH|d0 IH|d0 IH|d0 IH|d0 IH|d0 IH|d0 IH|d0 IH|d0 IH|d0 IH];
      [reflexivity|..];
      cbn [NilEmpty.string_of_uint chars list_ascii_of_string forallb];
      unfold chars in IH; now rewrite IH. }
  split.
  - destruct d; try apply H. reflexivity.
  - destruct d; reflexivity.
Qed.

Lemma digitsOf_digits (z : Z) :
  forallb isDigit (chars (digitsOf z)) = true /\ startsWithDigit (digitsOf z) = true.
Proof. unfold digitsOf. apply string_of_uint_digits. Qed.

Lemma startsWithDigit_plain (s : string) : startsWithDigit s = true -> plainHead s = true.
Proof. destruct s as [|c r]; [discriminate|]. cbn. intros ->. reflexivity. Qed.

Lemma plainHead_app (a b : string) : plainHead a = true -> plainHead (a +++ b) = true.
Proof. destruct a; [discriminate | exact (fun H => H)]. Qed.

Lemma plainHead_substring (n : nat) (s : string) :
  plainHead s = true -> plainHead (substring 0 (S n) s) = true.
Proof. destruct s; [discriminate | exact (fun H => H)]. Qed.

Lemma dec_Fin (m e : Z) : exists m' e', dec m e = Fin m' e'.
Proof.
  unfold dec. destruct (m =? 0)%Z; [now exists 0%Z, 0%Z|].
  destruct (stripZeros _ m e) as [m' e']. now exists m', e'.
Qed.

(** The text of a finite number starts with a digit or with a minus sign. *)
Lemma numToString_head (m0 e0 : Z) : plainHead (numToString (Fin m0 e0)) = true.
Proof.
  unfold numToString. destruct (dec_Fin m0 e0) as [m [e ->]].
  destruct (m =? 0)%Z; [reflexivity|].
  destruct (m <? 0)%Z; [reflexivity|]. cbn [append].
  destruct (digitsOf_digits (Z.abs m)) as [_ Hd]. apply startsWithDigit_plain in Hd.
  set (ds := digitsOf (Z.abs m)) in *.
  set (k := Z.of_nat (String.length ds)). set (n := (k + e)%Z).
  destruct ((k <=? n)%Z && (n <=? 21)%Z); [now apply plainHead_app|].
  destruct ((0 <? n)%Z && (n <=? 21)%Z) eqn:E1.
  { apply plainHead_app. apply andb_true_iff in E1. destruct E1 as [E1 _].
    apply Z.ltb_lt in E1. destruct (Z.to_nat n) as [|j] eqn:Ej; [lia|].
    now apply plainHead_substring. }
  destruct ((-6 <? n)%Z && (n <=? 0)%Z); [reflexivity|].
  destruct (k =? 1)%Z; [now apply plainHead_app|].
  apply plainHead_app. now apply (plainHead_substring 0).
Qed.

Lemma plain_char (c : ascii) :
  isDigit c || Ascii.eqb c "-" = true ->
  isWhiteSpace c = false /\ toLowerChar c <> "t"%char /\ toLowerChar c <> "f"%char.
Proof.
  destruct c as [[] [] [] [] [] [] [] []]; intros H; try discriminate H;
    repeat split; try reflexivity; discriminate.
Qed.

(** No number reads as true or false. *)
Lemma number_text_not_boolean (n : JsNum) :
  toLowerCase (trim (numToString n)) <> "true"
  /\ toLowerCase (trim (numToString n)) <> "false".
Proof.
  destruct n as [|[]|m e]; try (split; discriminate).
  pose proof (numToString_head m e) as H.
  destruct (numToString (Fin m e)) as [|c r]; [discriminate|].
  cbn [plainHead] in H. apply plain_char in H. destruct H as [Hw [Ht Hf]].
  rewrite trim_head by assumption. cbn [toLowerCase mapString].
  split; intros E; injection E as E _; congruence.
Qed.

End NumberTexts.

Lemma parseBoolean_after_validation (value : JsVal) (fieldName cn : string) :
  validateBooleanField value fieldName cn = None ->
  isArray value = false ->
  exists b, parseBoolean value = JBool b
            /\ toLowerCase (trim (toString value)) = (if b then "true" else "false").
Proof.
  unfold validateBooleanField. intros Hv Ha.
  destruct value as [| |b|n|s|l]; try discriminate.
  - exists b. destruct b; split; reflexivity.
  - destruct (isBlank (JNum n)); [discriminate|]. cbn [toString] in Hv.
    destruct (number_text_not_boolean n) as [Ht Hf].
    apply String.eqb_neq in Ht, Hf. rewrite Ht, Hf in Hv. discriminate.
  - destruct (isBlank (JStr s)); [discriminate|]. cbn [toString parseBoolean] in *.
    destruct (toLowerCase (trim s) =? "true")%string eqn:Et.
    + apply String.eqb_eq in Et. rewrite Et. exists true. split; reflexivity.
    + destruct (toLowerCase (trim s) =? "false")%string eqn:Ef; [|discriminate].
      apply String.eqb_eq in Ef. rewrite Ef. exists false. split; reflexivity.
Qed.

(** Validation then normalisation of a boolean field: a value that
    [validateBooleanField] lets through and that is not an array is turned
    by [parseBoolean] into a boolean, never into null, and into the boolean
    it reads as. *)
Theorem validated_boolean_is_parsed (value : JsVal) (fieldName cn : string) :
  validateBooleanField value fieldName cn = None ->
  isArray value = false ->
  exists b, parseBoolean value = JBool b
            /\ toLowerCase (trim (toString value)) = (if b then "true" else "false").
Proof. apply parseBoolean_after_validation. Qed.

Lemma validated_boolean_is_parsed_witness :
  validateBooleanField (JStr " TRUE ") "display" "A1" = None
  /\ isArray (JStr " TRUE ") = false
  /\ exists b, parseBoolean (JStr " TRUE ") = JBool b
               /\ toLowerCase (trim (toString (JStr " TRUE ")))
                  = (if b then "true" else "false").
Proof.
  split; [reflexivity|]. split; [reflexivity|].
  exact (validated_boolean_is_parsed (JStr " TRUE ") "display" "A1" eq_refl eq_refl).
Defined.

(* ================================================================== *)
(** * Amounts are read by their numeric prefix *)
(* ================================================================== *)

Section AmountPrefix.

Lemma digit_char (c : ascii) :
  isDigit c = true ->
  isWhiteSpace c = false /\ Ascii.eqb c "," = false
  /\ (forall r, readSign (String c r) = (false, String c r))
  /\ (forall r, startsWith "Infinity" (String c r) = None).
Proof.
  destruct c as [[] [] [] [] [] [] [] []]; intros H; try discriminate H;
    repeat split; reflexivity.
Qed.

Lemma stop_char (c : ascii) (r : string) :
  stopsNumber (String c r) = true ->
  isDigit c = false /\ Ascii.eqb c "," = false
  /\ Ascii.eqb c "e" || Ascii.eqb c "E" = false
  /\ (forall (A : Type) (x : string -> A) (y : A),
        match String c r with String "." r0 => x r0 | _ => y end = y).
Proof.
  cbn [stopsNumber]. intros H. apply negb_true_iff in H.
  repeat (apply orb_false_iff in H; destruct H as [H ?]).
  repeat split; try assumption.
  - apply orb_false_iff. now split.
  - intros A x y. destruct c as [[] [] [] [] [] [] [] []]; try reflexivity; discriminate.
Qed.

Lemma replaceFirst_digits (ds t : string) :
  forallb isDigit (chars ds) = true ->
  replaceFirst "," "." (ds +++ t) = ds +++ replaceFirst "," "." t.
Proof.
  induction ds as [|c ds IH]; intros H; [reflexivity|].
  cbn [chars list_ascii_of_string forallb] in H. apply andb_true_iff in H.
  destruct H as [Hc Hds]. cbn [append replaceFirst].
  destruct (digit_char c Hc) as [_ [-> _]]. fold (chars ds) in Hds. now rewrite IH.
Qed.

Lemma stopsNumber_replaceFirst (t : string) :
  stopsNumber t = true -> stopsNumber (replaceFirst "," "." t) = true.
Proof.
  destruct t as [|c r]; [reflexivity|]. intros H.
  destruct (stop_char c r H) as [_ [Hc _]]. cbn [replaceFirst]. now rewrite Hc.
Qed.

Lemma readDigits_prefix (ds t : string) :
  forallb isDigit (chars ds) = true -> stopsNumber t = true ->
  forall acc n,
    readDigits acc n (ds +++ t) = (fst (fst (readDigits acc n ds)),
                                   (n + String.length ds)%nat, t)
    /\ snd (fst (readDigits acc n ds)) = (n + String.length ds)%nat.
Proof.
  intros Hds Ht. induction ds as [|c ds IH]; intros acc n.
  - cbn [append String.length readDigits fst snd]. rewrite Nat.add_0_r.
    split; [|reflexivity]. destruct t as [|c r]; [reflexivity|].
    destruct (stop_char c r Ht) as [Hc _]. cbn [readDigits]. now rewrite Hc.
  - cbn [chars list_ascii_of_string forallb] in Hds. apply andb_true_iff in Hds.
    destruct Hds as [Hc Hds]. cbn [append readDigits String.length]. rewrite Hc.
    destruct (IH Hds (acc * 10 + digitVal c)%Z (S n)) as [I1 I2].
    rewrite I1, I2.
    replace (n + S (String.length ds))%nat with (S n + String.length ds)%nat by lia.
    split; reflexivity.
Qed.

Lemma readDecimal_prefix (ds t : string) :
  ds <> "" -> forallb isDigit (chars ds) = true -> stopsNumber t = true ->
  readDecimal (ds +++ t) = Some (dec (fst (fst (readDigits 0 0 ds))) 0, t).
Proof.
  intros Hne Hds Ht.
  destruct (readDigits_prefix ds t Hds Ht 0%Z 0%nat) as [Hr _].
  destruct ds as [|c ds]; [congruence|].
  cbn [chars list_ascii_of_string forallb] in Hds. apply andb_true_iff in Hds.
  destruct Hds as [Hc _].
  destruct (digit_char c Hc) as [_ [_ [Hsign Hinf]]].
  unfold readDecimal. cbn [append] in *. rewrite Hsign, Hinf, Hr.
  cbn [Nat.add String.length].
  destruct t as [|d r].
  - cbn [readExponent]. rewrite Z.mul_1_r, Z.add_0_r. reflexivity.
  - destruct (stop_char d r Ht) as [_ [_ [He Hdot]]].
    pose proof (Hdot _ (fun r0 => let '(f, nf, r') := readDigits 0 0 r0 in (f, nf, r'))
                  (0%Z, 0%nat, String d r)) as Hd.
    cbv beta in Hd. rewrite Hd. unfold readExponent. rewrite He.
    rewrite Z.mul_1_r, Z.add_0_r. reflexivity.
Qed.

Lemma stripZeros_sign (fuel : nat) (m e : Z) :
  (0 <= m)%Z -> (0 <= fst (stripZeros fuel m e))%Z.
Proof.
  revert m e. induction fuel as [|fuel IH]; intros m e Hm; [exact Hm|].
  cbn [stripZeros]. destruct (m mod 10 =? 0)%Z; [|exact Hm].
  apply IH. apply Z.div_pos; lia.
Qed.

Lemma dec_nonnegative (m e : Z) :
  (0 <= m)%Z -> isNaN (dec m e) = false /\ isNegative (dec m e) = false.
Proof.
  intros Hm. unfold dec. destruct (m =? 0)%Z; [split; reflexivity|].
  pose proof (stripZeros_sign (S (Z.to_nat (Z.log2 (Z.abs m)))) m e Hm) as H.
  destruct (stripZeros _ m e) as [m' e']. cbn [fst] in H. cbn [isNaN isNegative].
  split; [reflexivity|]. apply andb_false_iff. left. apply Z.ltb_ge. exact H.
Qed.

Lemma readDigits_nonnegative (s : string) (acc : Z) (n : nat) :
  (0 <= acc)%Z -> (0 <= fst (fst (readDigits acc n s)))%Z.
Proof.
  revert acc n. induction s as [|c s IH]; intros acc n Ha; [exact Ha|].
  cbn [readDigits]. destruct (isDigit c); [|exact Ha].
  apply IH. unfold digitVal. lia.
Qed.

End AmountPrefix.

(** [validatePriceAmount] reads an amount with [parseFloat]: a text that
    starts with digits is accepted whatever follows them, as long as what
    follows cannot continue the number (it does not start with a digit, a
    dot, a comma or an exponent mark), and the amount is then the number
    the digits write.  The text 12abc is the amount 12, and so is 12 EUR. *)
Theorem amount_reads_numeric_prefix (ds t fieldName cn : string) :
  ds <> "" ->
  forallb isDigit (chars ds) = true ->
  stopsNumber t = true ->
  validatePriceAmount (JStr (ds +++ t)) fieldName cn = None
  /\ normalizeAmount (JStr (ds +++ t)) = normalizeAmount (JStr ds).
Proof.
  intros Hne Hds Ht.
  assert (Hnorm : forall t', stopsNumber t' = true ->
            normalizeAmount (JStr (ds +++ t')) = dec (fst (fst (readDigits 0 0 ds))) 0).
  { intros t' Ht'. unfold normalizeAmount, parseFloat. cbn [toString].
    rewrite replaceFirst_digits by assumption.
    destruct ds as [|c r] eqn:Eds; [congruence|]. rewrite <- Eds in *.
    assert (Hc : isDigit c = true).
    { rewrite Eds in Hds. cbn [chars list_ascii_of_string forallb] in Hds.
      now apply andb_true_iff in Hds. }
    assert (Hts : trimStart (ds +++ replaceFirst "," "." t') = ds +++ replaceFirst "," "." t').
    { rewrite Eds. cbn [append trimStart]. now destruct (digit_char c Hc) as [-> _]. }
    rewrite Hts, readDecimal_prefix; try assumption; [reflexivity|].
    now apply stopsNumber_replaceFirst. }
  split.
  - unfold validatePriceAmount.
    assert (Hb : isBlank (JStr (ds +++ t)) = false).
    { destruct ds as [|c r]; [congruence|].
      cbn [chars list_ascii_of_string forallb] in Hds. apply andb_true_iff in Hds.
      destruct Hds as [Hc _]. destruct (digit_char c Hc) as [Hw _].
      unfold isBlank. cbn [isNullish toString orb append]. now rewrite trim_head. }
    rewrite Hb, (Hnorm t Ht).
    destruct (dec_nonnegative (fst (fst (readDigits 0 0 ds))) 0) as [-> ->];
      [apply readDigits_nonnegative; lia | reflexivity].
  - rewrite (Hnorm t Ht). symmetry.
    rewrite <- (append_empty_r ds) at 1. now apply Hnorm.
Qed.

Lemma amount_reads_numeric_prefix_witness :
  validatePriceAmount (JStr ("12" +++ " EUR")) "price.buy.amount" "A1" = None
  /\ normalizeAmount (JStr ("12" +++ "abc")) = normalizeAmount (JStr "12")
  /\ normalizeAmount (JStr "12") = Fin 12 0.
Proof.
  split; [|split].
  - refine (proj1 (amount_reads_numeric_prefix "12" " EUR" "price.buy.amount" "A1" _ _ _));
      [discriminate | reflexivity | reflexivity].
  - refine (proj2 (amount_reads_numeric_prefix "12" "abc" "price.buy.amount" "A1" _ _ _));
      [discriminate | reflexivity | reflexivity].
  - reflexivity.
Defined.

(* ================================================================== *)
(** * Catalog numbers that are not texts *)
(* ================================================================== *)

(** A catalog number has to be a text: a product whose catalog_number cell
    holds a number, a boolean or any value other than a string gets the one
    MISSING_OR_INVALID_CATALOG_NUMBER error like a product without catalog
    number; no other check runs on it, it is not kept, and neither duplicate
    set records anything. *)
Theorem catalog_number_must_be_text
  (supplierId : JsNum) (sheet : string) (additionalFieldNames : list string)
  (fields : list Field) (st : ChunkState) (product : Obj) :
  isText (get product "catalog_number") = false ->
  validateProduct supplierId sheet additionalFieldNames fields
    (chunkProcessedCatalogNumbers st) (globalSupplierCatalogNumbers st) product
  = mkOutcome [missingCatalogNumber sheet] product
      (chunkProcessedCatalogNumbers st) (globalSupplierCatalogNumbers st)
  /\ chunkStep supplierId sheet additionalFieldNames fields st product
     = mkChunkState (chunkErrors st ++ [missingCatalogNumber sheet]) (finalValidData st)
         (chunkProcessedCatalogNumbers st) (globalSupplierCatalogNumbers st).
Proof.
  intros H.
  assert (Hc : catalogNumberOf product = None).
  { unfold catalogNumberOf. destruct (get product "catalog_number"); try discriminate H;
      try reflexivity; now rewrite orb_true_r. }
  assert (Hv := validateProduct_none supplierId sheet additionalFieldNames fields
                  (chunkProcessedCatalogNumbers st) (globalSupplierCatalogNumbers st)
                  product Hc).
  split; [exact Hv|]. unfold chunkStep. rewrite Hv. reflexivity.
Qed.

Lemma catalog_number_must_be_text_witness :
  isText (get [("name", JStr "kit"); ("catalog_number", JNum (Fin 10234 0))]
            "catalog_number") = false
  /\ chunkStep (Fin 5 0) "Main Sheet" [] [] (mkChunkState [] [] [] [])
       [("name", JStr "kit"); ("catalog_number", JNum (Fin 10234 0))]
     = mkChunkState ([] ++ [missingCatalogNumber "Main Sheet"]) [] [] [].
Proof.
  split; [reflexivity|].
  exact (proj2 (catalog_number_must_be_text (Fin 5 0) "Main Sheet" [] []
                  (mkChunkState [] [] [] [])
                  [("name", JStr "kit"); ("catalog_number", JNum (Fin 10234 0))] eq_refl)).
Defined.

(* ================================================================== *)
(** * The checks of a product, step by step *)
(* ================================================================== *)

Section Touches.

Lemma touches_refl (W R : string -> bool) (st : Obj * list ProcessError) :
  touches W R st st.
Proof.
  split; [reflexivity|]. exists []. split; [now rewrite app_nil_r | intros e []].
Qed.

Lemma touches_trans (W R : string -> bool) (a b c : Obj * list ProcessError) :
  touches W R a b -> touches W R b c -> touches W R a c.
Proof.
  intros [G1 [x [E1 H1]]] [G2 [y [E2 H2]]]. split.
  - intros k Hk. now rewrite G2, G1.
  - exists (x ++ y). split; [rewrite E2, E1; now rewrite app_assoc|].
    intros e He. apply in_app_or in He. destruct He; [now apply H1 | now apply H2].
Qed.

Lemma touches_weaken (W W' R R' : string -> bool) (a b : Obj * list ProcessError) :
  (forall k, W k = true -> W' k = true) -> (forall k, R k = true -> R' k = true) ->
  touches W R a b -> touches W' R' a b.
Proof.
  intros HW HR [G [x [E H]]]. split.
  - intros k Hk. apply G. destruct (W k) eqn:Ek; [|reflexivity].
    rewrite (HW k Ek) in Hk. discriminate.
  - exists x. split; [exact E|]. intros e He. destruct (H e He) as [f [Hf Rf]].
    exists f. split; [exact Hf | now apply HR].
Qed.

Lemma touches_get (W R : string -> bool) (a b : Obj * list ProcessError) (k : string) :
  touches W R a b -> W k = false -> get (fst b) k = get (fst a) k.
Proof. intros [G _] Hk. now apply G. Qed.

Lemma touches_grows (W R : string -> bool) (a b : Obj * list ProcessError) :
  touches W R a b -> exists extra, snd b = snd a ++ extra.
Proof. intros [_ [x [E _]]]. now exists x. Qed.

(** A step that does not report about [k] adds nothing about [k]. *)
Lemma touches_silent (W R : string -> bool) (a b : Obj * list ProcessError) (k : string) :
  touches W R a b -> R k = false ->
  exists extra, snd b = snd a ++ extra /\ filter (aboutField k) extra = [].
Proof.
  intros [_ [x [E H]]] Hk. exists x. split; [exact E|]. clear E.
  induction x as [|e x IH]; [reflexivity|]. cbn [filter].
  destruct (H e (or_introl eq_refl)) as [f [Hf Rf]].
  unfold aboutField at 1. rewrite Hf.
  destruct (f =? k)%string eqn:Efk.
  - apply String.eqb_eq in Efk. subst f. congruence.
  - apply IH. intros e' He'. apply H. now right.
Qed.

(** A step about one field: the product is left alone or the field is set,
    and what is appended is about that field. *)
Lemma touches_one (f : string) (p p' : Obj) (errs extra : list ProcessError) :
  (p' = p \/ exists v, p' = set p f v) ->
  forallb (aboutField f) extra = true ->
  touches (String.eqb f) (String.eqb f) (p, errs) (p', errs ++ extra).
Proof.
  intros Hp Hx. split.
  - intros k Hk. cbn [fst]. destruct Hp as [->|[v ->]]; [reflexivity|].
    apply get_set_other. now apply String.eqb_neq.
  - exists extra. split; [reflexivity|]. intros e He.
    rewrite forallb_forall in Hx. specialize (Hx e He). unfold aboutField in Hx.
    destruct (field e) as [g|]; [|discriminate]. exists g. split; [reflexivity|].
    now rewrite String.eqb_sym.
Qed.

Lemma touches_one_quiet (f : string) (p p' : Obj) (errs : list ProcessError) :
  (p' = p \/ exists v, p' = set p f v) ->
  touches (String.eqb f) (String.eqb f) (p, errs) (p', errs).
Proof.
  intros Hp. rewrite <- (app_nil_r errs) at 2. now apply touches_one.
Qed.

End Touches.

Section Steps.

Variables (supplierId : JsNum) (cn sheet : string).
Variables (additionalFieldNames : list string) (fields : list Field).

Local Abbreviation declared := (Notions.declared additionalFieldNames fields).

Lemma isEmptyCell_isBlank (v : JsVal) : isEmptyCell v = true -> isBlank v = true.
Proof. destruct v; try discriminate; try reflexivity. exact (fun H => H). Qed.

Lemma set_set (o : Obj) (k : string) (v : JsVal) : set (set o k v) k v = set o k v.
Proof.
  induction o as [|[k' v'] o IH]; cbn [set].
  - now rewrite String.eqb_refl.
  - destruct (k' =? k)%string eqn:E; cbn [set]; rewrite E; [reflexivity | now rewrite IH].
Qed.

(** The loop over the essential fields in closed form: an absent or blank
    promotion price becomes null, and every other essential field without
    value gets one record. *)
Lemma essentialFields_fold (l : list string) (product : Obj) (errs : list ProcessError) :
  fold_left (essentialField cn sheet) l (product, errs)
  = ((if includes l promoField && isBlank (get product promoField)
      then set product promoField JNull else product),
     errs ++ map (missingEssential cn sheet)
               (filter (fun fld => negb (fld =? promoField)%string
                                   && isEmptyCell (get product fld)) l)).
Proof.
  revert product errs. induction l as [|fld l IH]; intros product errs.
  - cbn. now rewrite app_nil_r.
  - cbn [fold_left]. unfold essentialField at 2. unfold includes. cbn [existsb filter].
    fold (includes l promoField). fold promoField.
    destruct (fld =? promoField)%string eqn:Ef.
    + apply String.eqb_eq in Ef. subst fld. rewrite String.eqb_refl. cbn [negb andb orb].
      destruct (isBlank (get product promoField)) eqn:Eb.
      * rewrite IH, get_set_same. cbn [isBlank isNullish orb]. rewrite andb_true_r.
        f_equal.
        -- destruct (includes l promoField); [apply set_set | reflexivity].
        -- f_equal. f_equal. apply filter_ext. intros a.
           destruct (a =? promoField)%string eqn:Ea; [reflexivity|]. cbn [negb andb].
           rewrite get_set_other; [reflexivity|]. apply String.eqb_neq.
           now rewrite String.eqb_sym.
      * destruct (isEmptyCell (get product promoField)) eqn:Ee.
        { apply isEmptyCell_isBlank in Ee. congruence. }
        rewrite IH, Eb, andb_false_r. reflexivity.
    + rewrite (String.eqb_sym promoField fld), Ef. cbn [negb andb orb].
      destruct (isEmptyCell (get product fld)); rewrite IH; [|reflexivity].
      cbn [map]. rewrite <- app_assoc. reflexivity.
Qed.

Lemma essentialFields_closed (product : Obj) (errs : list ProcessError) :
  essentialFields cn sheet (product, errs)
  = ((if isBlank (get product promoField) then set product promoField JNull else product),
     errs ++ map (missingEssential cn sheet)
               (filter (fun fld => negb (fld =? promoField)%string
                                   && isEmptyCell (get product fld)) EssentialFields)).
Proof. unfold essentialFields. rewrite essentialFields_fold. reflexivity. Qed.

Lemma essentialFields_touches (st : Obj * list ProcessError) :
  touches (String.eqb promoField)
    (fun f => includes EssentialFields f && negb (f =? promoField)%string
              && isEmptyCell (get (fst st) f))
    st (essentialFields cn sheet st).
Proof.
  destruct st as [product errs]. rewrite essentialFields_closed. cbn [fst]. split.
  - intros k Hk. cbn [fst]. destruct (isBlank _); [|reflexivity].
    apply get_set_other. now apply String.eqb_neq.
  - eexists. split; [reflexivity|]. intros e He. apply in_map_iff in He.
    destruct He as [fld [<- Hfld]]. apply filter_In in Hfld. destruct Hfld as [Hin Hc].
    exists fld. split; [reflexivity|]. apply andb_true_iff in Hc. destruct Hc as [-> ->].
    rewrite !andb_true_r.
    unfold includes. apply existsb_exists. exists fld. split; [exact Hin | apply String.eqb_refl].
Qed.

Lemma unrecognized_touches (product : Obj) (errs : list ProcessError) :
  touches nowhere
    (fun f => negb (includes (EssentialFields ++ additionalFieldNames) (trim f)))
    (product, errs)
    (product, errs ++ unrecognizedFields product cn sheet additionalFieldNames).
Proof.
  split; [reflexivity|]. eexists. split; [reflexivity|]. intros e He.
  unfold unrecognizedFields in He. apply in_flat_map in He. destruct He as [key [_ He]].
  destruct (isEmptyCell _); [contradiction|].
  destruct (negb _) eqn:E; [|contradiction]. destruct He as [<-|[]].
  exists key. split; [reflexivity | exact E].
Qed.

Lemma supplierCheck_touches (st : Obj * list ProcessError) :
  touches nowhere (String.eqb "supplier.id") st (supplierCheck supplierId cn sheet st).
Proof.
  destruct st as [product errs]. unfold supplierCheck.
  destruct (_ || _); [|apply touches_refl].
  split; [reflexivity|]. eexists. split; [reflexivity|].
  intros e [<-|[]]. eexists. split; reflexivity.
Qed.

Lemma currencyCheck_touches (st : Obj * list ProcessError) :
  touches (String.eqb "price.buy.currency") (String.eqb "price.buy.currency")
    st (currencyCheck cn sheet st).
Proof.
  destruct st as [product errs]. unfold currencyCheck. destruct (negb _).
  - apply touches_one; [now left | reflexivity].
  - apply touches_one_quiet. right. eexists. reflexivity.
Qed.

Lemma validatePriceAmount_about (v : JsVal) (fld : string) (e : ProcessError) :
  validatePriceAmount v fld cn = Some e -> aboutField fld e = true.
Proof.
  intros H. unfold aboutField. rewrite (validatePriceAmount_field cn v fld e H).
  apply String.eqb_refl.
Qed.

Lemma validateBooleanField_about (v : JsVal) (fld : string) (e : ProcessError) :
  validateBooleanField v fld cn = Some e -> aboutField fld e = true.
Proof.
  intros H. unfold aboutField. rewrite (validateBooleanField_field cn v fld e H).
  apply String.eqb_refl.
Qed.

Lemma amountCheck_touches (fld : string) (st : Obj * list ProcessError) :
  touches (String.eqb fld) (String.eqb fld) st (amountCheck fld cn st).
Proof.
  destruct st as [product errs]. unfold amountCheck.
  destruct (validatePriceAmount _ _ _) as [e|] eqn:E.
  - apply touches_one; [now left|]. cbn [forallb].
    now rewrite (validatePriceAmount_about _ _ _ E).
  - apply touches_one_quiet. right. eexists. reflexivity.
Qed.

Lemma promotionCheck_touches (st : Obj * list ProcessError) :
  touches (String.eqb promoField) (String.eqb promoField) st (promotionCheck cn st).
Proof.
  unfold promotionCheck.
  destruct (get (fst st) "price.promotion_price.amount");
    first [apply touches_refl | apply amountCheck_touches].
Qed.

Lemma booleanCheck_touches (fld : string) (st : Obj * list ProcessError) :
  touches (String.eqb fld) (String.eqb fld) st (booleanCheck cn st fld).
Proof.
  destruct st as [product errs]. unfold booleanCheck.
  destruct (validateBooleanField _ _ _) as [e|] eqn:E.
  - apply touches_one; [now left|]. cbn [forallb].
    now rewrite (validateBooleanField_about _ _ _ E).
  - apply touches_one_quiet. right. eexists. reflexivity.
Qed.

Lemma additionalCheck_touches (st : Obj * list ProcessError) :
  touches (fun k => isSome (declared k)) (fun k => isSome (declared k))
    st (additionalCheck additionalFieldNames fields st).
Proof.
  destruct st as [product errs]. unfold additionalCheck, validateAdditionalFields.
  destruct (validateKeys_frame additionalFieldNames fields (objectKeys product)
              (product, [])) as [_ [H2 [extra [H3 [H4 _]]]]].
  destruct (fold_left _ _ _) as [product' more]. cbn [fst snd app] in *. subst more.
  split.
  - intros k Hk. cbn [fst]. apply H2. intros key _ _.
    destruct (declared k); [discriminate | reflexivity].
  - exists extra. split; [reflexivity|]. intros e He.
    destruct (H4 e He) as [key [_ [Ha Hd]]]. unfold aboutField in Ha.
    destruct (field e) as [f|]; [|discriminate]. apply String.eqb_eq in Ha. subst f.
    exists (trim key). split; [reflexivity|]. destruct (declared (trim key)); [reflexivity | congruence].
Qed.

End Steps.

Section Chain.

Variables (supplierId : JsNum) (cn sheet : string).
Variables (additionalFieldNames : list string) (fields : list Field).

Local Abbreviation declared := (Notions.declared additionalFieldNames fields).
Local Abbreviation st1 := (afterUnrecognized cn sheet additionalFieldNames).
Local Abbreviation st2 := (afterEssential cn sheet additionalFieldNames).
Local Abbreviation st3 := (afterSupplier supplierId cn sheet additionalFieldNames).
Local Abbreviation st4 := (afterCurrency supplierId cn sheet additionalFieldNames).
Local Abbreviation st5 := (afterAmount supplierId cn sheet additionalFieldNames).
Local Abbreviation st6 := (afterPromotion supplierId cn sheet additionalFieldNames).
Local Abbreviation st7a := (afterDryIce supplierId cn sheet additionalFieldNames).
Local Abbreviation st7b := (afterAvailable supplierId cn sheet additionalFieldNames).
Local Abbreviation st7 := (afterDisplay supplierId cn sheet additionalFieldNames).

Lemma fieldChecks_chain (st : Obj * list ProcessError) :
  fieldChecks supplierId cn sheet additionalFieldNames fields st
  = additionalCheck additionalFieldNames fields (st7 st).
Proof. reflexivity. Qed.

Lemma silent_refl (k : string) (st : Obj * list ProcessError) : silent k st st.
Proof. exists []. now rewrite app_nil_r. Qed.

Lemma silent_trans (k : string) (a b c : Obj * list ProcessError) :
  silent k a b -> silent k b c -> silent k a c.
Proof.
  intros [x [E1 F1]] [y [E2 F2]]. exists (x ++ y).
  split; [rewrite E2, E1; now rewrite app_assoc|]. now rewrite filter_app, F1, F2.
Qed.

Lemma includes_app (a b : list string) (k : string) :
  includes (a ++ b) k = includes a k || includes b k.
Proof. unfold includes. apply existsb_app. Qed.

Lemma includes_In (l : list string) (k : string) : includes l k = true <-> In k l.
Proof. apply has_In. Qed.

(** What [includes normalisedFields k = false] says, one field at a time. *)
Lemma not_normalised (k : string) :
  includes normalisedFields k = false ->
  (promoField =? k)%string = false /\ ("price.buy.currency" =? k)%string = false
  /\ ("price.buy.amount" =? k)%string = false /\ ("shipment.dry_ice" =? k)%string = false
  /\ ("available" =? k)%string = false /\ ("display" =? k)%string = false.
Proof.
  unfold includes, normalisedFields. cbn [existsb]. rewrite orb_false_r. intros H.
  repeat (apply orb_false_iff in H; destruct H as [? H]).
  repeat split; rewrite String.eqb_sym; assumption.
Qed.

(** A field that the checks do not normalise and that the schema does not
    declare goes through all of them unchanged. *)
Lemma fieldChecks_get (st : Obj * list ProcessError) (k : string) :
  includes normalisedFields k = false -> declared k = None ->
  get (fst (fieldChecks supplierId cn sheet additionalFieldNames fields st)) k
  = get (fst st) k.
Proof.
  intros Hn Hd. destruct (not_normalised k Hn) as [N1 [N2 [N3 [N4 [N5 N6]]]]].
  rewrite fieldChecks_chain.
  rewrite (touches_get _ _ _ _ k (additionalCheck_touches additionalFieldNames fields _))
    by (now rewrite Hd).
  unfold afterDisplay, afterAvailable, afterDryIce, afterPromotion, afterAmount,
    afterCurrency, afterSupplier, afterEssential.
  rewrite (touches_get _ _ _ _ k (booleanCheck_touches cn _ _)) by assumption.
  rewrite (touches_get _ _ _ _ k (booleanCheck_touches cn _ _)) by assumption.
  rewrite (touches_get _ _ _ _ k (booleanCheck_touches cn _ _)) by assumption.
  rewrite (touches_get _ _ _ _ k (promotionCheck_touches cn _)) by assumption.
  rewrite (touches_get _ _ _ _ k (amountCheck_touches cn _ _)) by assumption.
  rewrite (touches_get _ _ _ _ k (currencyCheck_touches cn sheet _)) by assumption.
  rewrite (touches_get _ _ _ _ k (supplierCheck_touches supplierId cn sheet _))
    by reflexivity.
  rewrite (touches_get _ _ _ _ k (essentialFields_touches cn sheet _)) by assumption.
  reflexivity.
Qed.

Lemma keys_set (o : Obj) (k k' : string) (v : JsVal) :
  In k' (keys (set o k v)) <-> In k' (keys o) \/ k' = k.
Proof.
  unfold keys. induction o as [|[k0 v0] o IH]; cbn [set map fst In].
  - split; [intros [<- | []]; now right | intros [[] | ->]; now left].
  - destruct (k0 =? k)%string eqn:E; cbn [map fst In].
    + apply String.eqb_eq in E. subst k0. split; [tauto|].
      intros [H | ->]; [exact H | now left].
    + rewrite IH. tauto.
Qed.

(** A check that writes the field it has validated leaves the keys alone:
    the field is there, since a missing field does not pass. *)
Lemma set_validated_keys (p : Obj) (f : string) (v : JsVal) :
  isBlank (get p f) = false -> keys (set p f v) = keys p.
Proof.
  intros H. apply set_keys_present. apply get_present. intros E.
  rewrite E in H. discriminate.
Qed.

Lemma amountCheck_keys (fld : string) (st : Obj * list ProcessError) :
  keys (fst (amountCheck fld cn st)) = keys (fst st).
Proof.
  destruct st as [p errs]. unfold amountCheck, validatePriceAmount.
  destruct (isBlank (get p fld)) eqn:Eb; [reflexivity|].
  destruct (isNaN _); [reflexivity|]. destruct (isNegative _); [reflexivity|].
  now apply set_validated_keys.
Qed.

Lemma booleanCheck_keys (fld : string) (st : Obj * list ProcessError) :
  keys (fst (booleanCheck cn st fld)) = keys (fst st).
Proof.
  destruct st as [p errs]. unfold booleanCheck, validateBooleanField.
  destruct (isBlank (get p fld)) eqn:Eb; [reflexivity|].
  destruct (_ && _); [reflexivity|]. now apply set_validated_keys.
Qed.

Lemma currencyCheck_keys (st : Obj * list ProcessError) :
  keys (fst (currencyCheck cn sheet st)) = keys (fst st).
Proof.
  destruct st as [p errs]. unfold currencyCheck.
  destruct (has validCurrencies _) eqn:E; [|reflexivity]. cbn [negb fst].
  apply set_keys_present. apply get_present. intros Eu. rewrite Eu in E. discriminate.
Qed.

Lemma promotionCheck_keys (st : Obj * list ProcessError) :
  keys (fst (promotionCheck cn st)) = keys (fst st).
Proof.
  unfold promotionCheck.
  destruct (get (fst st) "price.promotion_price.amount");
    first [reflexivity | apply amountCheck_keys].
Qed.

Lemma supplierCheck_product (st : Obj * list ProcessError) :
  fst (supplierCheck supplierId cn sheet st) = fst st.
Proof. destruct st as [p errs]. unfold supplierCheck. now destruct (_ || _). Qed.

Lemma fieldChecks_keys (st : Obj * list ProcessError) (k : string) :
  In k (keys (fst (fieldChecks supplierId cn sheet additionalFieldNames fields st)))
  <-> In k (keys (fst st))
      \/ (k = promoField /\ isBlank (get (fst st) promoField) = true).
Proof.
  rewrite fieldChecks_chain.
  assert (Ha : keys (fst (additionalCheck additionalFieldNames fields (st7 st)))
               = keys (fst (st7 st))).
  { destruct (st7 st) as [p errs]. unfold additionalCheck.
    pose proof (validateAdditionalFields_keys p additionalFieldNames fields) as H.
    destruct (validateAdditionalFields p additionalFieldNames fields). exact H. }
  rewrite Ha. unfold afterDisplay, afterAvailable, afterDryIce, afterPromotion,
    afterAmount, afterCurrency, afterSupplier, afterEssential.
  rewrite !booleanCheck_keys, promotionCheck_keys, amountCheck_keys, currencyCheck_keys,
    supplierCheck_product.
  destruct st as [p errs]. unfold afterUnrecognized. cbn [fst snd].
  rewrite essentialFields_closed. cbn [fst].
  destruct (isBlank (get p promoField)).
  - rewrite keys_set. split; (intros [H|H]; [now left | right]); [now split | tauto].
  - split; [now left | intros [H|[_ H]]; [exact H | discriminate]].
Qed.

End Chain.

(** The checks that follow the duplicate check rewrite six fields at most
    (the promotion price, the currency, the buy amount and the three boolean
    fields) besides the additional fields that the schema declares: every
    other field of the product comes out as it went in.  No key is ever
    removed, and the only key that can appear is the promotion price, set to
    null when the product had no value for it. *)
Theorem fieldChecks_frame
  (supplierId : JsNum) (cn sheet : string) (additionalFieldNames : list string)
  (fields : list Field) (product : Obj) (errs : list ProcessError) :
  let r := fieldChecks supplierId cn sheet additionalFieldNames fields (product, errs) in
  (forall k, includes normalisedFields k = false ->
             declared additionalFieldNames fields k = None ->
             get (fst r) k = get product k)
  /\ (forall k, In k (keys (fst r))
                <-> In k (keys product)
                    \/ (k = promoField /\ isBlank (get product promoField) = true)).
Proof.
  intros r. subst r. split.
  - intros k Hn Hd.
    now rewrite (fieldChecks_get supplierId cn sheet additionalFieldNames fields
                   (product, errs) k Hn Hd).
  - intros k. apply (fieldChecks_keys supplierId cn sheet additionalFieldNames fields
                       (product, errs) k).
Qed.

(** Carrying the value of a field back through the checks that cannot have
    written it. *)
Ltac peel k :=
  match goal with
  | |- context [get (fst (booleanCheck ?cn ?s ?f)) k] =>
      rewrite (touches_get _ _ _ _ k (booleanCheck_touches cn f s)) by reflexivity
  | |- context [get (fst (promotionCheck ?cn ?s)) k] =>
      rewrite (touches_get _ _ _ _ k (promotionCheck_touches cn s)) by reflexivity
  | |- context [get (fst (amountCheck ?f ?cn ?s)) k] =>
      rewrite (touches_get _ _ _ _ k (amountCheck_touches cn f s)) by reflexivity
  | |- context [get (fst (currencyCheck ?cn ?sheet ?s)) k] =>
      rewrite (touches_get _ _ _ _ k (currencyCheck_touches cn sheet s)) by reflexivity
  | |- context [get (fst (supplierCheck ?sid ?cn ?sheet ?s)) k] =>
      rewrite (touches_get _ _ _ _ k (supplierCheck_touches sid cn sheet s)) by reflexivity
  | |- context [get (fst (essentialFields ?cn ?sheet ?s)) k] =>
      rewrite (touches_get _ _ _ _ k (essentialFields_touches cn sheet s)) by reflexivity
  end.

Ltac unchain :=
  unfold afterDisplay, afterAvailable, afterDryIce, afterPromotion, afterAmount,
    afterCurrency, afterSupplier, afterEssential, afterUnrecognized.

Section PerField.

Variables (supplierId : JsNum) (cn sheet : string).
Variables (additionalFieldNames : list string) (fields : list Field).

Local Abbreviation declared := (Notions.declared additionalFieldNames fields).
Local Abbreviation checks := (fieldChecks supplierId cn sheet additionalFieldNames fields).
Local Abbreviation st1 := (afterUnrecognized cn sheet additionalFieldNames).
Local Abbreviation st2 := (afterEssential cn sheet additionalFieldNames).
Local Abbreviation st3 := (afterSupplier supplierId cn sheet additionalFieldNames).
Local Abbreviation st4 := (afterCurrency supplierId cn sheet additionalFieldNames).
Local Abbreviation st5 := (afterAmount supplierId cn sheet additionalFieldNames).
Local Abbreviation st6 := (afterPromotion supplierId cn sheet additionalFieldNames).
Local Abbreviation st7a := (afterDryIce supplierId cn sheet additionalFieldNames).
Local Abbreviation st7b := (afterAvailable supplierId cn sheet additionalFieldNames).
Local Abbreviation st7 := (afterDisplay supplierId cn sheet additionalFieldNames).

Lemma kept_through (W R : string -> bool) (a b : Obj * list ProcessError) (e : ProcessError) :
  touches W R a b -> In e (snd a) -> In e (snd b).
Proof.
  intros H Hin. destruct (touches_grows _ _ _ _ H) as [x ->]. apply in_or_app. now left.
Qed.

(** Whatever a step has appended is still there at the end. *)
Lemma kept_to_the_end (st : Obj * list ProcessError) (e : ProcessError) :
  In e (snd (st2 st)) \/ In e (snd (st3 st)) \/ In e (snd (st4 st))
  \/ In e (snd (st5 st)) \/ In e (snd (st6 st)) \/ In e (snd (st7a st))
  \/ In e (snd (st7b st)) \/ In e (snd (st7 st)) ->
  In e (snd (checks st)).
Proof.
  intros H. rewrite fieldChecks_chain.
  apply (kept_through _ _ _ _ e (additionalCheck_touches additionalFieldNames fields _)).
  assert (H7b : In e (snd (st7b st)) -> In e (snd (st7 st)))
    by apply (kept_through _ _ _ _ e (booleanCheck_touches cn _ _)).
  assert (H7a : In e (snd (st7a st)) -> In e (snd (st7b st)))
    by apply (kept_through _ _ _ _ e (booleanCheck_touches cn _ _)).
  assert (H6 : In e (snd (st6 st)) -> In e (snd (st7a st)))
    by apply (kept_through _ _ _ _ e (booleanCheck_touches cn _ _)).
  assert (H5 : In e (snd (st5 st)) -> In e (snd (st6 st)))
    by apply (kept_through _ _ _ _ e (promotionCheck_touches cn _)).
  assert (H4 : In e (snd (st4 st)) -> In e (snd (st5 st)))
    by apply (kept_through _ _ _ _ e (amountCheck_touches cn _ _)).
  assert (H3 : In e (snd (st3 st)) -> In e (snd (st4 st)))
    by apply (kept_through _ _ _ _ e (currencyCheck_touches cn sheet _)).
  assert (H2 : In e (snd (st2 st)) -> In e (snd (st3 st)))
    by apply (kept_through _ _ _ _ e (supplierCheck_touches supplierId cn sheet _)).
  tauto.
Qed.

Lemma missingEssential_reported (st : Obj * list ProcessError) (k : string) :
  In k EssentialFields -> k <> promoField -> isEmptyCell (get (fst st) k) = true ->
  In (missingEssential cn sheet k) (snd (st2 st)).
Proof.
  intros Hin Hne He. unfold afterEssential, afterUnrecognized.
  rewrite essentialFields_closed. cbn [fst snd]. apply in_or_app. right.
  apply in_map. apply filter_In. split; [exact Hin|].
  apply String.eqb_neq in Hne. now rewrite Hne, He.
Qed.

Lemma amountCheck_blank (fld : string) (st : Obj * list ProcessError) :
  isEmptyCell (get (fst st) fld) = true ->
  exists e, snd (amountCheck fld cn st) = snd st ++ [e]
            /\ aboutField fld e = true /\ isErrorRecord e = true
            /\ code e = Some "EMPTY_PRICE_AMOUNT".
Proof.
  intros H. apply isEmptyCell_isBlank in H. destruct st as [p errs]. cbn [fst] in H.
  unfold amountCheck, validatePriceAmount. rewrite H. eexists. split; [reflexivity|].
  unfold aboutField. cbn. rewrite String.eqb_refl. repeat split.
Qed.

Lemma booleanCheck_blank (fld : string) (st : Obj * list ProcessError) :
  isEmptyCell (get (fst st) fld) = true ->
  exists e, snd (booleanCheck cn st fld) = snd st ++ [e]
            /\ aboutField fld e = true /\ isErrorRecord e = true
            /\ code e = Some "EMPTY_BOOLEAN_FIELD".
Proof.
  intros H. apply isEmptyCell_isBlank in H. destruct st as [p errs]. cbn [fst] in H.
  unfold booleanCheck, validateBooleanField. rewrite H. eexists. split; [reflexivity|].
  unfold aboutField. cbn. rewrite String.eqb_refl. repeat split.
Qed.

Lemma currencyCheck_blank (st : Obj * list ProcessError) :
  isEmptyCell (get (fst st) "price.buy.currency") = true ->
  exists e, snd (currencyCheck cn sheet st) = snd st ++ [e]
            /\ aboutField "price.buy.currency" e = true /\ isErrorRecord e = true
            /\ code e = Some "INVALID_CURRENCY".
Proof.
  intros H. destruct st as [p errs]. cbn [fst] in H. unfold currencyCheck.
  assert (Hc : trim (toUpperCase (toString (orElse (get p "price.buy.currency") (JStr ""))))
               = "").
  { destruct (get p "price.buy.currency") as [| |b|n|s|l]; try discriminate H;
      try reflexivity.
    cbn [isEmptyCell] in H. apply String.eqb_eq in H.
    unfold orElse. cbn [truthy]. destruct (negb (s =? "")%string); cbn [toString];
      [|reflexivity].
    now rewrite trim_toUpperCase, H. }
  rewrite Hc. cbn [has validCurrencies existsb String.eqb negb].
  eexists. split; [reflexivity|]. repeat split.
Qed.

Lemma two_records (P : ProcessError -> bool) (l : list ProcessError) (e1 e2 : ProcessError) :
  In e1 l -> In e2 l -> e1 <> e2 -> P e1 = true -> P e2 = true ->
  (2 <= List.length (filter P l))%nat.
Proof.
  intros H1 H2 Hne P1 P2.
  assert (Hincl : incl [e1; e2] (filter P l)).
  { intros x [<-|[<-|[]]]; apply filter_In; split; assumption. }
  assert (Hnd : NoDup [e1; e2]).
  { constructor; [intros [E|[]]; congruence|]. constructor; [intros []|constructor]. }
  apply (NoDup_incl_length Hnd Hincl).
Qed.

Lemma missingEssential_facts (k : string) :
  aboutField k (missingEssential cn sheet k) = true
  /\ isErrorRecord (missingEssential cn sheet k) = true
  /\ code (missingEssential cn sheet k) = Some "MISSING_ESSENTIAL_FIELD".
Proof. unfold aboutField. cbn. rewrite String.eqb_refl. repeat split. Qed.

(** The field's own validator reports a blank value once more. *)
Lemma own_check_blank (st : Obj * list ProcessError) (k : string) :
  In k ["price.buy.currency"; "price.buy.amount"; "shipment.dry_ice"; "available";
        "display"] ->
  isEmptyCell (get (fst st) k) = true ->
  exists e, In e (snd (checks st))
            /\ aboutField k e = true /\ isErrorRecord e = true
            /\ code e <> Some "MISSING_ESSENTIAL_FIELD".
Proof.
  intros Hk He.
  destruct Hk as [<-|[<-|[<-|[<-|[<-|[]]]]]].
  - destruct (currencyCheck_blank (st3 st)) as [e [E [A [B C]]]].
    { unchain. repeat peel "price.buy.currency". exact He. }
    exists e. split; [|split; [exact A | split; [exact B | rewrite C; discriminate]]].
    apply kept_to_the_end. right. right. left.
    unfold afterCurrency. rewrite E. apply in_or_app. right. now left.
  - destruct (amountCheck_blank "price.buy.amount" (st4 st)) as [e [E [A [B C]]]].
    { unchain. repeat peel "price.buy.amount". exact He. }
    exists e. split; [|split; [exact A | split; [exact B | rewrite C; discriminate]]].
    apply kept_to_the_end. do 3 right. left.
    unfold afterAmount. rewrite E. apply in_or_app. right. now left.
  - destruct (booleanCheck_blank "shipment.dry_ice" (st6 st)) as [e [E [A [B C]]]].
    { unchain. repeat peel "shipment.dry_ice". exact He. }
    exists e. split; [|split; [exact A | split; [exact B | rewrite C; discriminate]]].
    apply kept_to_the_end. do 5 right. left.
    unfold afterDryIce. rewrite E. apply in_or_app. right. now left.
  - destruct (booleanCheck_blank "available" (st7a st)) as [e [E [A [B C]]]].
    { unchain. repeat peel "available". exact He. }
    exists e. split; [|split; [exact A | split; [exact B | rewrite C; discriminate]]].
    apply kept_to_the_end. do 6 right. left.
    unfold afterAvailable. rewrite E. apply in_or_app. right. now left.
  - destruct (booleanCheck_blank "display" (st7b st)) as [e [E [A [B C]]]].
    { unchain. repeat peel "display". exact He. }
    exists e. split; [|split; [exact A | split; [exact B | rewrite C; discriminate]]].
    apply kept_to_the_end. do 7 right.
    unfold afterDisplay. rewrite E. apply in_or_app. right. now left.
Qed.

End PerField.

(** An essential field that has a validator of its own (the currency, the
    buy amount and the three boolean fields) is reported twice when the
    product has no value for it: once as a missing essential field, once by
    its validator.  Such a product alone accounts for two error records, so
    the summary counts it twice among the errors. *)
Theorem blank_field_reported_twice
  (supplierId : JsNum) (sheet : string) (additionalFieldNames : list string)
  (fields : list Field) (cs gs : StrSet) (product : Obj) (cn k : string) :
  catalogNumberOf product = Some cn ->
  In k ["price.buy.currency"; "price.buy.amount"; "shipment.dry_ice"; "available";
        "display"] ->
  isEmptyCell (get product k) = true ->
  let o := validateProduct supplierId sheet additionalFieldNames fields cs gs product in
  In (missingEssential cn sheet k) (o_errors o)
  /\ (2 <= List.length (filter (fun e => aboutField k e && isErrorRecord e) (o_errors o)))%nat
  /\ (2 <= errorCount o)%nat.
Proof.
  intros Hcn Hk He o. subst o. unfold validateProduct. rewrite Hcn.
  destruct (duplicateCheck cn sheet cs gs) as [[d cs'] gs'].
  assert (Hess : In k EssentialFields /\ k <> promoField).
  { cbn in Hk. destruct Hk as [<-|[<-|[<-|[<-|[<-|[]]]]]];
      (split; [cbn; tauto | discriminate]). }
  destruct Hess as [Hin Hne].
  assert (H1 : In (missingEssential cn sheet k)
                 (snd (fieldChecks supplierId cn sheet additionalFieldNames fields
                         (product, d)))).
  { apply kept_to_the_end. left.
    now apply (missingEssential_reported cn sheet additionalFieldNames (product, d) k). }
  destruct (own_check_blank supplierId cn sheet additionalFieldNames fields
              (product, d) k Hk He) as [e2 [H2 [A2 [B2 C2]]]].
  destruct (missingEssential_facts cn sheet k) as [A1 [B1 C1]].
  destruct (fieldChecks _ _ _ _ _ _) as [product' errs]. cbn [snd o_errors] in *.
  split; [exact H1|].
  assert (Hne' : missingEssential cn sheet k <> e2) by (intros E; rewrite <- E in C2; congruence).
  split.
  - apply (two_records _ errs _ e2 H1 H2 Hne'); [now rewrite A1, B1 | now rewrite A2, B2].
  - unfold errorCount. cbn [o_errors].
    apply (two_records _ errs _ e2 H1 H2 Hne'); assumption.
Qed.

Lemma blank_field_reported_twice_witness :
  let product := [("catalog_number", JStr "A1"); ("available", JStr "  ")] in
  let o := validateProduct (Fin 5 0) "Main Sheet" [] [] [] [] product in
  In (missingEssential "A1" "Main Sheet" "available") (o_errors o)
  /\ (2 <= errorCount o)%nat.
Proof.
  intros product o.
  destruct (blank_field_reported_twice (Fin 5 0) "Main Sheet" [] [] [] [] product
              "A1" "available" eq_refl
              (or_intror (or_intror (or_intror (or_introl eq_refl)))) eq_refl)
    as [H1 [_ H3]].
  split; [exact H1 | exact H3].
Defined.

Section PromotionPrice.

Variables (supplierId : JsNum) (cn sheet : string).
Variables (additionalFieldNames : list string) (fields : list Field).

Local Abbreviation declared := (Notions.declared additionalFieldNames fields).
Local Abbreviation checks := (fieldChecks supplierId cn sheet additionalFieldNames fields).

Lemma essential_is_recognized (k : string) :
  In k EssentialFields ->
  negb (includes (EssentialFields ++ additionalFieldNames) (trim k)) = false.
Proof.
  intros H. rewrite includes_app.
  cbn in H. repeat (destruct H as [<-|H]; [reflexivity|]). contradiction.
Qed.

Lemma promotionCheck_null (st : Obj * list ProcessError) :
  get (fst st) promoField = JNull -> promotionCheck cn st = st.
Proof. unfold promotionCheck, promoField. now intros ->. Qed.

Lemma promotion_null_after_essential (st : Obj * list ProcessError) :
  isBlank (get (fst st) promoField) = true ->
  get (fst (afterAmount supplierId cn sheet additionalFieldNames st)) promoField = JNull.
Proof.
  intros Hb. unchain. repeat peel promoField.
  rewrite essentialFields_closed. cbn [fst snd]. rewrite Hb. apply get_set_same.
Qed.

End PromotionPrice.

(** The promotion price is optional.  When the product has no value for it
    (the cell is missing, null, or blank once trimmed) and the schema does
    not declare it as an additional field, the field comes out of the checks
    as null and none of the diagnostics they add is about it. *)
Theorem blank_promotion_price_is_optional
  (supplierId : JsNum) (cn sheet : string) (additionalFieldNames : list string)
  (fields : list Field) (product : Obj) (errs : list ProcessError) :
  isBlank (get product promoField) = true ->
  declared additionalFieldNames fields promoField = None ->
  let r := fieldChecks supplierId cn sheet additionalFieldNames fields (product, errs) in
  get (fst r) promoField = JNull
  /\ silent promoField (product, errs) r.
Proof.
  intros Hb Hd r. subst r.
  pose proof (promotion_null_after_essential supplierId cn sheet additionalFieldNames
                (product, errs) Hb) as H5.
  pose proof (promotionCheck_null cn _ H5) as H6.
  rewrite fieldChecks_chain. split.
  - rewrite (touches_get _ _ _ _ promoField
               (additionalCheck_touches additionalFieldNames fields _))
      by (now rewrite Hd).
    unfold afterDisplay, afterAvailable, afterDryIce, afterPromotion.
    repeat peel promoField. rewrite H6. exact H5.
  - eapply silent_trans;
      [|apply (touches_silent _ _ _ _ promoField
                 (additionalCheck_touches additionalFieldNames fields _));
        now rewrite Hd].
    unfold afterDisplay, afterAvailable, afterDryIce, afterPromotion. rewrite H6.
    eapply silent_trans;
      [|apply (touches_silent _ _ _ _ promoField (booleanCheck_touches cn _ _));
        reflexivity].
    eapply silent_trans;
      [|apply (touches_silent _ _ _ _ promoField (booleanCheck_touches cn _ _));
        reflexivity].
    eapply silent_trans;
      [|apply (touches_silent _ _ _ _ promoField (booleanCheck_touches cn _ _));
        reflexivity].
    unfold afterAmount, afterCurrency, afterSupplier, afterEssential.
    eapply silent_trans;
      [|apply (touches_silent _ _ _ _ promoField (amountCheck_touches cn _ _));
        reflexivity].
    eapply silent_trans;
      [|apply (touches_silent _ _ _ _ promoField (currencyCheck_touches cn sheet _));
        reflexivity].
    eapply silent_trans;
      [|apply (touches_silent _ _ _ _ promoField
                 (supplierCheck_touches supplierId cn sheet _));
        reflexivity].
    eapply silent_trans;
      [|apply (touches_silent _ _ _ _ promoField (essentialFields_touches cn sheet _));
        reflexivity].
    apply (touches_silent _ _ _ _ promoField
             (unrecognized_touches cn sheet additionalFieldNames product errs)).
    apply essential_is_recognized. cbn. tauto.
Qed.

Lemma blank_promotion_price_is_optional_witness :
  let product := [("catalog_number", JStr "A1"); ("price.promotion_price.amount", JStr "  ")] in
  let r := fieldChecks (Fin 5 0) "A1" "Main Sheet" [] [] (product, []) in
  isBlank (get product promoField) = true
  /\ get (fst r) promoField = JNull
  /\ silent promoField (product, []) r.
Proof.
  intros product r. split; [reflexivity|].
  exact (blank_promotion_price_is_optional (Fin 5 0) "A1" "Main Sheet" [] [] product []
           eq_refl eq_refl).
Defined.

(* ================================================================== *)
(** * What a product that passes every check holds *)
(* ================================================================== *)

Section Passed.

Variables (supplierId : JsNum) (cn sheet : string).
Variables (additionalFieldNames : list string) (fields : list Field).

Local Abbreviation declared := (Notions.declared additionalFieldNames fields).
Local Abbreviation checks := (fieldChecks supplierId cn sheet additionalFieldNames fields).
Local Abbreviation st1 := (afterUnrecognized cn sheet additionalFieldNames).
Local Abbreviation st2 := (afterEssential cn sheet additionalFieldNames).
Local Abbreviation st3 := (afterSupplier supplierId cn sheet additionalFieldNames).
Local Abbreviation st4 := (afterCurrency supplierId cn sheet additionalFieldNames).
Local Abbreviation st5 := (afterAmount supplierId cn sheet additionalFieldNames).
Local Abbreviation st6 := (afterPromotion supplierId cn sheet additionalFieldNames).
Local Abbreviation st7a := (afterDryIce supplierId cn sheet additionalFieldNames).
Local Abbreviation st7b := (afterAvailable supplierId cn sheet additionalFieldNames).
Local Abbreviation st7 := (afterDisplay supplierId cn sheet additionalFieldNames).

Lemma no_growth (W R : string -> bool) (a b : Obj * list ProcessError) :
  touches W R a b -> snd b = [] -> snd a = [].
Proof.
  intros H Hb. destruct (touches_grows _ _ _ _ H) as [x E]. rewrite Hb in E.
  symmetry in E. now apply app_eq_nil in E.
Qed.

Lemma pair_of_quiet (s : Obj * list ProcessError) : snd s = [] -> s = (fst s, []).
Proof. destruct s as [p e]. cbn. now intros ->. Qed.

(** When the checks end without any diagnostic, none of them added one. *)
Lemma all_quiet (st : Obj * list ProcessError) :
  snd (checks st) = [] ->
  snd (st7 st) = [] /\ snd (st7b st) = [] /\ snd (st7a st) = [] /\ snd (st6 st) = []
  /\ snd (st5 st) = [] /\ snd (st4 st) = [] /\ snd (st3 st) = [] /\ snd (st2 st) = []
  /\ snd (st1 st) = [].
Proof.
  rewrite fieldChecks_chain. intros H8.
  pose proof (no_growth _ _ _ _ (additionalCheck_touches additionalFieldNames fields _) H8)
    as H7.
  pose proof (no_growth _ _ _ _ (booleanCheck_touches cn _ _) H7) as H7b.
  pose proof (no_growth _ _ _ _ (booleanCheck_touches cn _ _) H7b) as H7a.
  pose proof (no_growth _ _ _ _ (booleanCheck_touches cn _ _) H7a) as H6.
  pose proof (no_growth _ _ _ _ (promotionCheck_touches cn _) H6) as H5.
  pose proof (no_growth _ _ _ _ (amountCheck_touches cn _ _) H5) as H4.
  pose proof (no_growth _ _ _ _ (currencyCheck_touches cn sheet _) H4) as H3.
  pose proof (no_growth _ _ _ _ (supplierCheck_touches supplierId cn sheet _) H3) as H2.
  pose proof (no_growth _ _ _ _ (essentialFields_touches cn sheet _) H2) as H1.
  repeat split; assumption.
Qed.

Lemma essential_passed (p : Obj) (k : string) :
  snd (essentialFields cn sheet (p, [])) = [] ->
  In k EssentialFields -> k <> promoField -> isEmptyCell (get p k) = false.
Proof.
  rewrite essentialFields_closed. cbn [snd app]. intros H Hin Hne.
  destruct (isEmptyCell (get p k)) eqn:E; [|reflexivity].
  assert (Hf : In k (filter (fun fld => negb (fld =? promoField)%string
                                        && isEmptyCell (get p fld)) EssentialFields)).
  { apply filter_In. split; [exact Hin|]. apply String.eqb_neq in Hne. now rewrite Hne, E. }
  apply (in_map (missingEssential cn sheet)) in Hf. rewrite H in Hf. contradiction.
Qed.

Lemma supplier_passed (p : Obj) :
  snd (supplierCheck supplierId cn sheet (p, [])) = [] ->
  numEqb (toNumber (get p "supplier.id")) supplierId = true.
Proof.
  unfold supplierCheck.
  destruct (isNaN _ || negb (numEqb (toNumber (get p "supplier.id")) supplierId)) eqn:E;
    [discriminate|].
  intros _. apply orb_false_iff in E. destruct E as [_ E]. now apply negb_false_iff in E.
Qed.

Lemma currency_passed (p : Obj) :
  snd (currencyCheck cn sheet (p, [])) = [] ->
  exists cur, In cur validCurrencies
              /\ fst (currencyCheck cn sheet (p, [])) = set p "price.buy.currency" (JStr cur).
Proof.
  unfold currencyCheck. destruct (has validCurrencies _) eqn:E; cbn [negb]; [|discriminate].
  intros _. eexists. split; [apply has_In; exact E | reflexivity].
Qed.

Lemma amount_passed (fld : string) (p : Obj) :
  snd (amountCheck fld cn (p, [])) = [] ->
  exists n, isNaN n = false /\ isNegative n = false
            /\ fst (amountCheck fld cn (p, [])) = set p fld (JNum n).
Proof.
  unfold amountCheck, validatePriceAmount.
  destruct (isBlank (get p fld)); [discriminate|].
  destruct (isNaN _) eqn:En; [discriminate|].
  destruct (isNegative _) eqn:Eg; [discriminate|].
  intros _. eexists. repeat split; eassumption.
Qed.

Lemma boolean_passed (fld : string) (p : Obj) :
  snd (booleanCheck cn (p, []) fld) = [] -> isArray (get p fld) = false ->
  exists b, fst (booleanCheck cn (p, []) fld) = set p fld (JBool b).
Proof.
  unfold booleanCheck.
  destruct (validateBooleanField (get p fld) fld cn) as [e|] eqn:E; [discriminate|].
  intros _ Ha. destruct (parseBoolean_after_validation _ _ _ E Ha) as [b [Hb _]].
  exists b. cbn [fst]. now rewrite Hb.
Qed.

Lemma amount_is_amount (fld : string) (s : Obj * list ProcessError) :
  snd s = [] -> snd (amountCheck fld cn s) = [] ->
  isAmount (get (fst (amountCheck fld cn s)) fld).
Proof.
  intros Hs H. rewrite (pair_of_quiet s Hs) in *.
  destruct (amount_passed fld _ H) as [n [H1 [H2 ->]]].
  exists n. rewrite get_set_same. repeat split; assumption.
Qed.

Lemma boolean_is_boolean (fld : string) (s : Obj * list ProcessError) :
  snd s = [] -> snd (booleanCheck cn s fld) = [] -> isArray (get (fst s) fld) = false ->
  isBoolean (get (fst (booleanCheck cn s fld)) fld).
Proof.
  intros Hs H Ha. rewrite (pair_of_quiet s Hs) in *. cbn [fst] in Ha.
  destruct (boolean_passed fld _ H Ha) as [b ->]. exists b. apply get_set_same.
Qed.

(** The product that comes out of checks that added no diagnostic. *)
Lemma passed_is_normalised (product : Obj) :
  (forall k, In k EssentialFields -> declared k = None) ->
  (forall f, In f booleanFields -> isArray (get product f) = false) ->
  snd (checks (product, [])) = [] ->
  normalised supplierId product (fst (checks (product, []))).
Proof.
  intros Hschema Harr Hq.
  destruct (all_quiet _ Hq) as [Q7 [Q7b [Q7a [Q6 [Q5 [Q4 [Q3 [Q2 Q1]]]]]]]].
  assert (Hund : forall k, In k EssentialFields ->
            get (fst (checks (product, []))) k = get (fst (st7 (product, []))) k).
  { intros k Hk. rewrite fieldChecks_chain.
    apply (touches_get _ _ _ _ k (additionalCheck_touches additionalFieldNames fields _)).
    now rewrite (Hschema k Hk). }
  assert (Hplain : forall k,
            In k ["name"; "catalog_number"; "supplier_catalog_number"; "supplier.id"; "size"] ->
            get (fst (checks (product, []))) k = get product k
            /\ isEmptyCell (get product k) = false).
  { intros k Hk.
    assert (He : In k EssentialFields /\ k <> promoField
                 /\ includes normalisedFields k = false).
    { cbn in Hk. destruct Hk as [<-|[<-|[<-|[<-|[<-|[]]]]]];
        (split; [cbn; tauto | split; [discriminate | reflexivity]]). }
    destruct He as [Hin [Hne Hnn]]. split.
    - apply (fieldChecks_get supplierId cn sheet additionalFieldNames fields
               (product, []) k Hnn (Hschema k Hin)).
    - apply essential_passed; try assumption.
      unfold afterEssential, afterUnrecognized in Q2. cbn [fst snd app] in Q1, Q2.
      unfold afterUnrecognized in Q1. cbn [fst snd app] in Q1. rewrite Q1 in Q2. exact Q2. }
  split; [exact Hplain|]. split; [|split; [|split; [|split]]].
  - (* supplier *)
    rewrite (proj1 (Hplain "supplier.id" ltac:(cbn; tauto))).
    assert (H : get (fst (st2 (product, []))) "supplier.id" = get product "supplier.id").
    { unchain. repeat peel "supplier.id". reflexivity. }
    rewrite <- H. apply supplier_passed.
    unfold afterSupplier in Q3. rewrite (pair_of_quiet _ Q2) in Q3. exact Q3.
  - (* currency *)
    rewrite (Hund "price.buy.currency" ltac:(cbn; tauto)).
    unfold afterDisplay, afterAvailable, afterDryIce, afterPromotion, afterAmount.
    repeat peel "price.buy.currency".
    unfold afterCurrency in Q4 |- *. rewrite (pair_of_quiet _ Q3) in Q4 |- *.
    destruct (currency_passed _ Q4) as [cur [Hc ->]]. exists cur.
    split; [apply get_set_same | exact Hc].
  - (* buy amount *)
    rewrite (Hund "price.buy.amount" ltac:(cbn; tauto)).
    unfold afterDisplay, afterAvailable, afterDryIce, afterPromotion.
    repeat peel "price.buy.amount". now apply amount_is_amount.
  - (* promotion price *)
    unfold promoField.
    rewrite (Hund "price.promotion_price.amount" ltac:(cbn; tauto)).
    unfold afterDisplay, afterAvailable, afterDryIce.
    repeat peel "price.promotion_price.amount".
    unfold afterPromotion in Q6 |- *. unfold promotionCheck in Q6 |- *.
    destruct (get (fst (st5 (product, []))) "price.promotion_price.amount") eqn:E;
      try (right; now apply amount_is_amount).
    left. exact E.
  - (* booleans *)
    intros f Hf. rewrite (Hund f ltac:(cbn in Hf |- *; tauto)).
    cbn in Hf. destruct Hf as [<-|[<-|[<-|[]]]].
    + unfold afterDisplay, afterAvailable. repeat peel "shipment.dry_ice".
      apply boolean_is_boolean; try assumption.
      unchain. repeat peel "shipment.dry_ice". apply Harr. cbn. tauto.
    + unfold afterDisplay. repeat peel "available".
      apply boolean_is_boolean; try assumption.
      unchain. repeat peel "available". apply Harr. cbn. tauto.
    + apply boolean_is_boolean; try assumption.
      unchain. repeat peel "display". apply Harr. cbn. tauto.
Qed.

End Passed.

Section ValidData.

Variables (supplierId : JsNum) (sheet : string).
Variables (additionalFieldNames : list string) (fields : list Field).

Local Abbreviation declared := (Notions.declared additionalFieldNames fields).
Local Abbreviation validate := (validateProduct supplierId sheet additionalFieldNames fields).
Local Abbreviation ctrace := (chunkTrace supplierId sheet additionalFieldNames fields).

Lemma get_absent (o : Obj) (k : string) : ~ In k (keys o) -> get o k = JUndefined.
Proof.
  intros H. destruct (get o k) eqn:E; try reflexivity;
    exfalso; apply H; apply get_present; rewrite E; discriminate.
Qed.

Lemma get_listed (o : Obj) (l : list string) (k : string) :
  get (map (fun k' => (k', get o k')) l) k = if includes l k then get o k else JUndefined.
Proof.
  induction l as [|k' l IH]; [reflexivity|]. unfold includes in *. cbn [map get existsb].
  rewrite (String.eqb_sym k k').
  destruct (k' =? k)%string eqn:E; [|exact IH].
  apply String.eqb_eq in E. now subst k'.
Qed.

(** [{ ...product }] holds what the product holds. *)
Lemma get_spread (o : Obj) (k : string) : get (spread o) k = get o k.
Proof.
  unfold spread. rewrite get_listed. destruct (includes (objectKeys o) k) eqn:E;
    [reflexivity|].
  symmetry. apply get_absent. intros Hin.
  assert (In k (objectKeys o))
    by (eapply Permutation_in; [apply Permutation_sym, objectKeys_Permutation | exact Hin]).
  apply includes_In in H. congruence.
Qed.

Lemma get_markValidated (o : Obj) (k : string) :
  get (markValidated o) k = if ("validated" =? k)%string then JBool true else get o k.
Proof.
  unfold markValidated. destruct ("validated" =? k)%string eqn:E.
  - apply String.eqb_eq in E. subst k. apply get_set_same.
  - rewrite get_set_other by (now apply String.eqb_neq). apply get_spread.
Qed.

Lemma In_chunkTrace (chunk : list Obj) (cs gs : StrSet) (x : Obj * Outcome) :
  In x (ctrace cs gs chunk) ->
  In (fst x) chunk /\ exists cs' gs', snd x = validate cs' gs' (fst x).
Proof.
  revert cs gs. induction chunk as [|q chunk IH]; intros cs gs H; [contradiction|].
  cbn [chunkTrace] in H. destruct H as [<-|H].
  - split; [now left|]. now exists cs, gs.
  - destruct (IH _ _ H) as [H1 H2]. split; [now right | exact H2].
Qed.

Lemma In_validOutput (tr : list (Obj * Outcome)) (p : Obj) :
  In p (validOutput tr) ->
  exists x, In x tr /\ kept x = true /\ p = markValidated (o_product (snd x)).
Proof.
  unfold validOutput. intros H. apply in_map_iff in H. destruct H as [x [<- Hx]].
  apply filter_In in Hx. destruct Hx as [H1 H2]. now exists x.
Qed.

Lemma catalogNumberOf_text (q : Obj) (c : string) :
  catalogNumberOf q = Some c -> get q "catalog_number" = JStr c.
Proof.
  unfold catalogNumberOf. destruct (get q "catalog_number") as [| |b|n|s|l];
    try discriminate.
  - destruct (negb (truthy (JBool b))); discriminate.
  - destruct (negb (truthy (JNum n))); discriminate.
  - destruct (negb (truthy (JStr s)) || false || _); [discriminate|].
    cbn [toString]. now intros [= ->].
Qed.

(** A product that is kept went through all the checks, on no diagnostic
    of the duplicate check, and none of them added one. *)
Lemma kept_outcome (cs gs : StrSet) (q : Obj) :
  kept (q, validate cs gs q) = true ->
  exists cn, catalogNumberOf q = Some cn
             /\ has gs cn = false
             /\ o_product (validate cs gs q)
                = fst (fieldChecks supplierId cn sheet additionalFieldNames fields (q, []))
             /\ snd (fieldChecks supplierId cn sheet additionalFieldNames fields (q, [])) = [].
Proof.
  unfold kept. cbn [snd]. unfold validateProduct.
  destruct (catalogNumberOf q) as [cn|]; [|discriminate]. intros H. exists cn.
  split; [reflexivity|].
  unfold duplicateCheck in *.
  destruct (has cs cn).
  { pose proof (fieldChecks_extends supplierId sheet additionalFieldNames fields cn
                  (q, [diag duplication
                         ("Duplicate catalog number " +++ quoted cn
                            +++ " found within the current sheet/chunk.")
                         (Some "catalog_number") None (Some (JStr cn)) (Some sheet) None
                         sev_error (Some "CHUNK_DUPLICATE_CATALOG_NUMBER")]))
      as [x [E _]].
    destruct (fieldChecks _ _ _ _ _ _) as [p' errs]. cbn [snd o_errors] in *.
    subst errs. discriminate. }
  destruct (has gs cn).
  { pose proof (fieldChecks_extends supplierId sheet additionalFieldNames fields cn
                  (q, [diag duplication
                         ("Duplicate catalog number " +++ quoted cn
                            +++ " found across different parts of the file.")
                         (Some "catalog_number") None (Some (JStr cn)) (Some sheet) None
                         sev_error (Some "GLOBAL_DUPLICATE_CATALOG_NUMBER")]))
      as [x [E _]].
    destruct (fieldChecks _ _ _ _ _ _) as [p' errs]. cbn [snd o_errors] in *.
    subst errs. discriminate. }
  split; [reflexivity|].
  destruct (fieldChecks _ _ _ _ _ _) as [p' errs]. cbn [fst snd o_errors o_product] in *.
  split; [reflexivity|]. now destruct errs.
Qed.

Lemma normalised_markValidated (q p : Obj) :
  normalised supplierId q p -> normalised supplierId q (markValidated p).
Proof.
  intros [H1 [H2 [H3 [H4 [H5 H6]]]]]. unfold normalised, promoField in *.
  split; [|split; [|split; [|split; [|split]]]].
  - intros k Hk. rewrite get_markValidated.
    cbn in Hk. destruct Hk as [<-|[<-|[<-|[<-|[<-|[]]]]]]; apply H1; cbn; tauto.
  - now rewrite get_markValidated.
  - now rewrite get_markValidated.
  - now rewrite get_markValidated.
  - now rewrite get_markValidated.
  - intros f Hf. rewrite get_markValidated.
    cbn in Hf. destruct Hf as [<-|[<-|[<-|[]]]]; apply H6; cbn; tauto.
Qed.

(** The catalog numbers of the kept products of a chunk are pairwise
    distinct, and none of them was in the global set before the chunk. *)
Lemma kept_numbers_fresh (chunk : list Obj) (cs gs : StrSet) :
  within cs gs ->
  NoDup (catalogNumbers (map fst (filter kept (ctrace cs gs chunk))))
  /\ forall c, In c (catalogNumbers (map fst (filter kept (ctrace cs gs chunk)))) ->
               has gs c = false.
Proof.
  revert cs gs. induction chunk as [|q chunk IH]; intros cs gs Hw.
  - cbn. split; [constructor | intros c []].
  - cbn [chunkTrace filter].
    destruct (IH _ _ (validateProduct_within supplierId sheet additionalFieldNames fields
                        cs gs q Hw)) as [I1 I2].
    destruct (validateProduct_sets supplierId sheet additionalFieldNames fields
                cs gs q Hw) as [Eg _].
    assert (Hsub : forall c, has (o_globalSet (validate cs gs q)) c = false ->
                             has gs c = false).
    { intros c. rewrite Eg, has_fold_add. intros H. now apply orb_false_iff in H. }
    destruct (kept (q, validate cs gs q)) eqn:Ek.
    + destruct (kept_outcome cs gs q Ek) as [cn [Hcn [Hfresh _]]].
      cbn [map fst]. change (q :: ?l) with ([q] ++ l). rewrite catalogNumbers_app.
      unfold catalogNumbers at 1 3. cbn [flat_map]. rewrite Hcn. cbn [app].
      split.
      * constructor; [|exact I1]. intros Hin. specialize (I2 cn Hin).
        rewrite Eg in I2. unfold catalogNumbers in I2. cbn [flat_map] in I2.
        rewrite Hcn in I2. cbn [app fold_left] in I2.
        rewrite has_add, String.eqb_refl, orb_true_r in I2. discriminate.
      * intros c [<-|Hin]; [exact Hfresh | apply Hsub; now apply I2].
    + split; [exact I1 | intros c Hin; apply Hsub; now apply I2].
Qed.

End ValidData.

(** The valid products that [processProductChunk] returns.  With a schema
    that declares none of the essential fields as an additional field, and
    products whose three boolean cells are not arrays: every returned
    product is marked validated, and is one of the products of the chunk
    with its plain essential fields as they were, all with a value, a
    supplier that reads as the expected number, a currency among the five
    codes, a buy amount that is a number (not NaN, not negative), a
    promotion price that is null or such a number, and its three boolean
    fields turned into booleans. *)
Theorem finalValidData_is_normalised
  (supplierId : JsNum) (sheet : string) (additionalFieldNames : list string)
  (fields : list Field) (chunk : list Obj) (globalSet : StrSet) (p : Obj) :
  (forall k, In k EssentialFields -> declared additionalFieldNames fields k = None) ->
  (forall q f, In q chunk -> In f booleanFields -> isArray (get q f) = false) ->
  In p (finalValidData (processProductChunk chunk supplierId sheet additionalFieldNames
                          fields globalSet)) ->
  get p "validated" = JBool true
  /\ exists q, In q chunk /\ normalised supplierId q p.
Proof.
  intros Hschema Harr Hin.
  destruct (processProductChunk_trace supplierId sheet additionalFieldNames fields
              chunk globalSet) as [_ [Hv _]].
  rewrite Hv in Hin. apply In_validOutput in Hin. destruct Hin as [[q o] [Hx [Hk ->]]].
  apply In_chunkTrace in Hx. destruct Hx as [Hq [cs' [gs' Ho]]]. cbn [fst snd] in *.
  subst o. split; [now rewrite get_markValidated|]. exists q. split; [exact Hq|].
  destruct (kept_outcome supplierId sheet additionalFieldNames fields cs' gs' q Hk)
    as [cn [_ [_ [-> Hquiet]]]].
  apply normalised_markValidated.
  apply passed_is_normalised; [exact Hschema | | exact Hquiet].
  intros f Hf. now apply Harr.
Qed.

Lemma finalValidData_is_normalised_witness :
  let chunk := [sampleProduct "A1" " TRUE "] in
  let p := markValidated
             (set (set (set (set (set (sampleProduct "A1" " TRUE ")
                  "price.promotion_price.amount" JNull)
                  "price.buy.currency" (JStr "EUR"))
                  "price.buy.amount" (JNum (Fin 125 (-1))))
                  "shipment.dry_ice" (JBool true))
                  "available" (JBool true)) in
  In p (finalValidData (processProductChunk chunk (Fin 5 0) "Main Sheet" [] [] []))
  /\ get p "validated" = JBool true
  /\ exists q, In q chunk /\ normalised (Fin 5 0) q p.
Proof.
  intros chunk p.
  assert (Hin : In p (finalValidData (processProductChunk chunk (Fin 5 0) "Main Sheet"
                                        [] [] []))).
  { left. vm_compute. reflexivity. }
  split; [exact Hin|].
  refine (finalValidData_is_normalised (Fin 5 0) "Main Sheet" [] [] chunk [] p _ _ Hin).
  - intros k _. reflexivity.
  - intros q f [<-|[]] Hf. cbn in Hf. destruct Hf as [<-|[<-|[<-|[]]]]; reflexivity.
Defined.

(** No catalog number comes out twice: the valid products that
    [processProductChunk] returns carry pairwise distinct catalog numbers
    (when the schema does not declare catalog_number as an additional
    field), and none of these numbers was in the global set when the chunk
    was handed in. *)
Theorem finalValidData_is_duplicate_free
  (supplierId : JsNum) (sheet : string) (additionalFieldNames : list string)
  (fields : list Field) (chunk : list Obj) (globalSet : StrSet) :
  declared additionalFieldNames fields "catalog_number" = None ->
  let valid := finalValidData (processProductChunk chunk supplierId sheet
                                 additionalFieldNames fields globalSet) in
  NoDup (map (fun p => get p "catalog_number") valid)
  /\ forall p, In p valid ->
       exists c, get p "catalog_number" = JStr c /\ has globalSet c = false.
Proof.
  intros Hd valid. subst valid.
  destruct (processProductChunk_trace supplierId sheet additionalFieldNames fields
              chunk globalSet) as [_ [Hv _]].
  rewrite Hv.
  destruct (kept_numbers_fresh supplierId sheet additionalFieldNames fields chunk []
              globalSet (within_nil globalSet)) as [Hnd Hfresh].
  set (tr := chunkTrace supplierId sheet additionalFieldNames fields [] globalSet chunk) in *.
  assert (Hmap : forall l,
            (forall x, In x l -> In x tr /\ kept x = true) ->
            map (fun p => get p "catalog_number")
              (map (fun x => markValidated (o_product (snd x))) l)
            = map JStr (catalogNumbers (map fst l))).
  { induction l as [|[q o] l IH]; intros Hl; [reflexivity|].
    destruct (Hl (q, o) (or_introl eq_refl)) as [Hx Hk].
    apply In_chunkTrace in Hx. destruct Hx as [_ [cs' [gs' Ho]]]. cbn [fst snd] in Ho.
    subst o.
    destruct (kept_outcome supplierId sheet additionalFieldNames fields cs' gs' q Hk)
      as [cn [Hcn [_ [Hp _]]]].
    cbn [map fst snd]. change (q :: ?m) with ([q] ++ m). rewrite catalogNumbers_app.
    unfold catalogNumbers at 1. cbn [flat_map]. rewrite Hcn. cbn [app map].
    rewrite IH by (intros x Hx; apply Hl; now right). f_equal.
    rewrite get_markValidated. cbn [String.eqb Ascii.eqb Bool.eqb].
    rewrite Hp.
    rewrite (fieldChecks_get supplierId cn sheet additionalFieldNames fields (q, [])
               "catalog_number" eq_refl Hd).
    now apply catalogNumberOf_text. }
  unfold validOutput. rewrite Hmap by (intros x Hx; apply filter_In in Hx; exact Hx).
  split.
  - apply Finite.Injective_map_NoDup; [|exact Hnd]. intros a b E. now injection E.
  - intros p Hp. apply (in_map (fun p => get p "catalog_number")) in Hp.
    rewrite Hmap in Hp by (intros x Hx; apply filter_In in Hx; exact Hx).
    apply in_map_iff in Hp. destruct Hp as [c [Hc Hin]]. exists c.
    split; [now symmetry | now apply Hfresh].
Qed.

Lemma finalValidData_is_duplicate_free_witness :
  let chunk := [sampleProduct "A1" "true"; sampleProduct "B2" "true";
                sampleProduct "A1" "true"; sampleProduct "C3" "true"] in
  map (fun p => get p "catalog_number")
    (finalValidData (processProductChunk chunk (Fin 5 0) "Main Sheet" [] [] ["C3"]))
  = [JStr "A1"; JStr "B2"]
  /\ NoDup (map (fun p => get p "catalog_number")
              (finalValidData (processProductChunk chunk (Fin 5 0) "Main Sheet" [] []
                                 ["C3"]))).
Proof.
  intros chunk. split; [vm_compute; reflexivity|].
  exact (proj1 (finalValidData_is_duplicate_free (Fin 5 0) "Main Sheet" [] [] chunk
                  ["C3"] eq_refl)).
Defined.

(* ================================================================== *)
(** * The products the fingerprint looks at *)
(* ================================================================== *)

Section Sampling.

Lemma slice_one {T : Type} (l : list T) (i : nat) (d : T) :
  (i < List.length l)%nat -> slice l i (S i) = [nth i l d].
Proof.
  unfold slice. replace (S i - i)%nat with 1%nat by lia.
  revert i. induction l as [|x l IH]; intros i Hi; [simpl in Hi; lia|].
  destruct i as [|i]; [reflexivity|]. cbn [skipn nth]. apply IH. simpl in Hi. lia.
Qed.

(** The sample: the first product, the one in the middle when there are
    three or more, and the last one when there are two or more. *)
Lemma sampledProducts_closed (products : list Obj) (d : Obj) :
  let n := List.length products in
  sampledProducts products
  = if (n =? 0)%nat then []
    else if (n =? 1)%nat then [nth 0 products d]
    else if (n =? 2)%nat then [nth 0 products d; nth 1 products d]
    else [nth 0 products d; nth (n / 2) products d; nth (n - 1) products d].
Proof.
  intros n. unfold sampledProducts, sampleSize. fold n.
  change (1 / 2)%nat with 0%nat. change ((1 + 1) / 2)%nat with 1%nat.
  change (1 * 2)%nat with 2%nat.
  destruct (n =? 0)%nat eqn:E0.
  { apply Nat.eqb_eq in E0. now rewrite E0. }
  apply Nat.eqb_neq in E0.
  assert (H0 : (0 <? n)%nat = true) by (apply Nat.ltb_lt; lia). rewrite H0.
  assert (Hfirst : slice products 0 (Nat.min 1 n) = [nth 0 products d]).
  { replace (Nat.min 1 n) with 1%nat by lia. apply slice_one. fold n. lia. }
  rewrite Hfirst.
  destruct (n =? 1)%nat eqn:E1.
  { apply Nat.eqb_eq in E1. rewrite E1. reflexivity. }
  apply Nat.eqb_neq in E1.
  assert (H1 : (1 <? n)%nat = true) by (apply Nat.ltb_lt; lia). rewrite H1.
  assert (Hlast : slice products (Nat.max 0 (n - 1)) n = [nth (n - 1) products d]).
  { replace (Nat.max 0 (n - 1)) with (n - 1)%nat by lia.
    replace n with (S (n - 1)) at 2 by lia. apply slice_one. fold n. lia. }
  rewrite Hlast.
  destruct (n =? 2)%nat eqn:E2.
  { apply Nat.eqb_eq in E2. rewrite E2. reflexivity. }
  apply Nat.eqb_neq in E2.
  assert (H2 : (2 <? n)%nat = true) by (apply Nat.ltb_lt; lia). rewrite H2.
  assert (Hdiv : (n / 2 < n)%nat) by (apply Nat.div_lt; lia).
  replace (Nat.max 0 (n / 2 - 0)) with (n / 2)%nat by lia.
  replace (Nat.min n (n / 2 + 1)) with (S (n / 2)) by lia.
  rewrite (slice_one products (n / 2) d) by (fold n; lia). reflexivity.
Qed.

End Sampling.

(** The fingerprint of a file is computed from the sheet metadata, the
    number of products, and three products at most: the first, the one at
    half the length (when there are three or more) and the last (when there
    are two or more).  Two lists of products of the same length that agree
    at these three places get the same fingerprint with the same metadata,
    whatever the other products hold and whatever the digest is. *)
Theorem fingerprint_reads_three_products
  (sha256 : string -> string) (metadata : list SheetMetadata)
  (products1 products2 : list Obj) (d : Obj) :
  let n := List.length products1 in
  List.length products2 = n ->
  nth 0 products1 d = nth 0 products2 d ->
  nth (n / 2) products1 d = nth (n / 2) products2 d ->
  nth (n - 1) products1 d = nth (n - 1) products2 d ->
  sampledProducts products1 = sampledProducts products2
  /\ generateMetadataHash sha256 metadata products1
     = generateMetadataHash sha256 metadata products2.
Proof.
  intros n Hlen H0 Hmid Hlast.
  assert (Hs : sampledProducts products1 = sampledProducts products2).
  { rewrite (sampledProducts_closed products1 d), (sampledProducts_closed products2 d).
    cbv zeta. rewrite Hlen. fold n. rewrite <- H0, <- Hmid, <- Hlast.
    destruct (n =? 0)%nat; [reflexivity|]. destruct (n =? 1)%nat; [reflexivity|].
    destruct (n =? 2)%nat eqn:E2; [|reflexivity].
    apply Nat.eqb_eq in E2. rewrite E2 in Hlast. cbn in Hlast. now rewrite Hlast. }
  split; [exact Hs|]. unfold generateMetadataHash. now rewrite Hs, Hlen.
Qed.

Lemma fingerprint_reads_three_products_witness :
  let p k := [("catalog_number", JStr k)] in
  generateMetadataHash sampleDigest [] [p "A"; p "B"; p "C"; p "D"; p "E"]
  = generateMetadataHash sampleDigest [] [p "A"; p "X"; p "C"; p "Y"; p "E"].
Proof.
  intros p.
  refine (proj2 (fingerprint_reads_three_products sampleDigest []
                   [p "A"; p "B"; p "C"; p "D"; p "E"]
                   [p "A"; p "X"; p "C"; p "Y"; p "E"] [] _ _ _ _)); reflexivity.
Defined.

(* ================================================================== *)
(** * Reading rows *)
(* ================================================================== *)

Section Rows.

Variable hs : list (nat * string).

Local Abbreviation cellStep :=
  (fun (productData : Obj) (cell : nat * JsVal) =>
     if negb (headerAt hs (fst cell) =? "")%string
     then set productData (headerAt hs (fst cell)) (cellValue (snd cell))
     else productData).

Lemma readProduct_snoc (row : Row) (cell : nat * JsVal) :
  readProduct hs (row ++ [cell]) = cellStep (readProduct hs row) cell.
Proof. unfold readProduct. now rewrite fold_left_app. Qed.

Lemma readProduct_get (row : Row) (h : string) :
  h <> "" ->
  get (readProduct hs row) h
  = match lastCellUnder hs h row with
    | Some cell => cellValue (snd cell)
    | None => JUndefined
    end.
Proof.
  intros Hh. unfold lastCellUnder. induction row as [|cell row IH] using rev_ind.
  - reflexivity.
  - rewrite readProduct_snoc, rev_app_distr. cbn [rev app find].
    destruct (headerAt hs (fst cell) =? h)%string eqn:E.
    + apply String.eqb_eq in E. rewrite E.
      apply String.eqb_neq in Hh. rewrite Hh. cbn [negb]. apply get_set_same.
    + destruct (headerAt hs (fst cell) =? "")%string; cbn [negb]; [exact IH|].
      rewrite get_set_other by (now apply String.eqb_neq). exact IH.
Qed.

Lemma cellValue_trimmed (v : JsVal) (s : string) :
  cellValue v = JStr s -> trim s = s.
Proof.
  destruct v; cbn [cellValue]; try discriminate. intros [= <-]. apply trim_idem.
Qed.

Lemma cellValue_defined (v : JsVal) : cellValue v <> JUndefined.
Proof. destruct v; discriminate. Qed.

End Rows.

(** A product is read cell by cell under the headers of its sheet.  The
    value found under a header is that of the last cell of the row that
    stands under this header: when two columns carry the same header, the
    one to the right wins.  The value is trimmed when it is a text, and a
    cell is never read as undefined; a header without any cell in the row
    is absent from the product. *)
Theorem readProduct_last_cell_wins
  (headers : list (nat * string)) (row : Row) (h : string) :
  h <> "" ->
  get (readProduct headers row) h
  = match lastCellUnder headers h row with
    | Some cell => cellValue (snd cell)
    | None => JUndefined
    end
  /\ (forall s, get (readProduct headers row) h = JStr s -> trim s = s)
  /\ (lastCellUnder headers h row <> None -> get (readProduct headers row) h <> JUndefined).
Proof.
  intros Hh. pose proof (readProduct_get headers row h Hh) as H.
  split; [exact H|]. rewrite H. destruct (lastCellUnder headers h row) as [cell|].
  - split; [intros s; apply cellValue_trimmed | intros _; apply cellValue_defined].
  - split; [discriminate | congruence].
Qed.

Lemma readProduct_last_cell_wins_witness :
  let headers := readHeaders [(1, JStr "name"); (2, JStr "size"); (3, JStr "name")] in
  get (readProduct headers [(1, JStr "kit A"); (2, JStr " 1 ml "); (3, JStr "kit B")])
    "name" = JStr "kit B"
  /\ get (readProduct headers [(1, JStr "kit A"); (2, JStr " 1 ml "); (3, JStr "kit B")])
       "size" = JStr "1 ml".
Proof.
  intros headers. split.
  - refine (eq_trans (proj1 (readProduct_last_cell_wins headers
                               [(1, JStr "kit A"); (2, JStr " 1 ml "); (3, JStr "kit B")]
                               "name" _)) _); [discriminate | reflexivity].
  - refine (eq_trans (proj1 (readProduct_last_cell_wins headers
                               [(1, JStr "kit A"); (2, JStr " 1 ml "); (3, JStr "kit B")]
                               "size" _)) _); [discriminate | reflexivity].
Defined.

Section Counting.

Lemma milestones_step (a b : nat) :
  (a <= b)%nat ->
  milestones a (S b)
  = milestones a b ++ (if (S b mod CHUNK_SIZE =? 0)%nat then [S b] else []).
Proof.
  intros H. unfold milestones. replace (S b - a)%nat with (S (b - a)) by lia.
  rewrite seq_S, filter_app. cbn [filter]. replace (S a + (b - a))%nat with (S b) by lia.
  reflexivity.
Qed.

Lemma milestones_join (a b c : nat) :
  (a <= b)%nat -> (b <= c)%nat -> milestones a b ++ milestones b c = milestones a c.
Proof.
  intros H1 H2. unfold milestones. rewrite <- filter_app. f_equal.
  replace (c - a)%nat with ((b - a) + (c - b))%nat by lia.
  rewrite seq_app. f_equal. f_equal. lia.
Qed.

Lemma isProgressNote_progressNote (n : nat) : isProgressNote (progressNote n) = true.
Proof. reflexivity. Qed.

Variable sheet : string.

(** One row: the row counter moves by one; the products, their counter and
    the progress notes move together. *)
Lemma rowStep_counts (a : nat) (st : SheetState) (row : Row) :
  processedRows st = (a + List.length (sheetProducts st))%nat ->
  filter isProgressNote (sent st) = map progressNote (milestones a (processedRows st)) ->
  rowIndex (rowStep sheet st row) = S (rowIndex st)
  /\ processedRows (rowStep sheet st row)
     = (a + List.length (sheetProducts (rowStep sheet st row)))%nat
  /\ filter isProgressNote (sent (rowStep sheet st row))
     = map progressNote (milestones a (processedRows (rowStep sheet st row))).
Proof.
  intros Hp Hs. unfold rowStep.
  destruct (S (rowIndex st) =? 1)%nat.
  - destruct (_ =? 0)%nat; cbn [rowIndex processedRows sheetProducts sent];
      (split; [reflexivity|]; split; [exact Hp|]); [|exact Hs].
    rewrite filter_app, Hs. cbn [filter]. apply app_nil_r.
  - destruct row as [|cell row].
    + cbn [rowIndex processedRows sheetProducts sent]. repeat split; assumption.
    + destruct (0 <? _)%nat; cbn [rowIndex processedRows sheetProducts sent].
      * split; [reflexivity|]. split; [rewrite length_app; cbn [List.length]; lia|].
        rewrite filter_app, Hs, milestones_step by lia. rewrite map_app. f_equal.
        destruct (S (processedRows st) mod CHUNK_SIZE =? 0)%nat; reflexivity.
      * repeat split; assumption.
Qed.

Lemma readRows_counts (a : nat) (rows : list Row) :
  let st := readRows sheet a rows in
  rowIndex st = List.length rows
  /\ processedRows st = (a + List.length (sheetProducts st))%nat
  /\ filter isProgressNote (sent st) = map progressNote (milestones a (processedRows st)).
Proof.
  unfold readRows.
  assert (H : forall st,
             processedRows st = (a + List.length (sheetProducts st))%nat ->
             filter isProgressNote (sent st)
             = map progressNote (milestones a (processedRows st)) ->
             let st' := fold_left (rowStep sheet) rows st in
             rowIndex st' = (rowIndex st + List.length rows)%nat
             /\ processedRows st' = (a + List.length (sheetProducts st'))%nat
             /\ filter isProgressNote (sent st')
                = map progressNote (milestones a (processedRows st'))).
  { induction rows as [|row rows IH]; intros st Hp Hs; cbn [fold_left].
    - cbn [List.length]. rewrite Nat.add_0_r. repeat split; assumption.
    - destruct (rowStep_counts a st row Hp Hs) as [H1 [H2 H3]].
      destruct (IH _ H2 H3) as [I1 [I2 I3]]. cbv zeta. rewrite I1, H1.
      cbn [List.length]. repeat split; try assumption. lia. }
  apply H.
  - cbn. lia.
  - cbn [sent processedRows filter]. unfold milestones.
    now rewrite Nat.sub_diag.
Qed.

End Counting.

Section Workbook.

Lemma readSheets_counts (l : list Sheet) (g g' : Gathered) (log : list ProcessError) :
  readSheets g l = (log, Value g') ->
  map sheetNameOf (metadata g') = map sheetNameOf (metadata g) ++ map nameOfSheet l
  /\ map rowCount (metadata g')
     = map rowCount (metadata g)
       ++ map (fun ws => (Z.of_nat (List.length (sheet_rows ws)) - 1)%Z) l
  /\ (exists more, allProducts g' = allProducts g ++ more
                   /\ processed g' = (processed g + List.length more)%nat)
  /\ filter isProgressNote log = map progressNote (milestones (processed g) (processed g')).
Proof.
  revert g log. induction l as [|ws l IH]; intros g log H.
  - cbn in H. injection H as <- <-. rewrite !app_nil_r. repeat split.
    + exists []. rewrite app_nil_r. cbn. split; [reflexivity | lia].
    + unfold milestones. now rewrite Nat.sub_diag.
  - cbn [readSheets] in H. rewrite readSheet_eq in H.
    destruct (readRows_counts (nameOfSheet ws) (processed g) (sheet_rows ws))
      as [C1 [C2 C3]].
    destruct (sheet_failure ws) as [e|]; [discriminate H|].
    unfold bind in H.
    match type of H with
    | context [readSheets ?g1 l] =>
        destruct (readSheets g1 l) as [log1 r1] eqn:E1
    end.
    injection H as <- ->.
    destruct (IH _ _ E1) as [I1 [I2 [[more [I3 I4]] I5]]].
    cbn [metadata allProducts processed] in *.
    rewrite I1, I2, !map_app. cbn [map sheetNameOf rowCount]. rewrite <- !app_assoc.
    rewrite C1. split; [reflexivity|]. split; [reflexivity|]. split.
    + exists (sheetProducts (readRows (nameOfSheet ws) (processed g) (sheet_rows ws))
                ++ more).
      rewrite I3, <- app_assoc. split; [reflexivity|]. rewrite I4, C2, length_app. lia.
    + cbn [filter]. change (isProgressNote _) with false at 1. cbv iota.
      rewrite filter_app, C3, I5, <- map_app. f_equal.
      apply milestones_join; lia.
Qed.

Lemma readWorkbook_counts (env : Env) (g : Gathered) (log : list ProcessError) :
  readWorkbook env = (log, Value g) ->
  map sheetNameOf (metadata g) = map nameOfSheet (sheets env)
  /\ map rowCount (metadata g)
     = map (fun ws => (Z.of_nat (List.length (sheet_rows ws)) - 1)%Z) (sheets env)
  /\ processed g = List.length (allProducts g)
  /\ filter isProgressNote log
     = map progressNote (milestones 0 (List.length (allProducts g))).
Proof.
  unfold readWorkbook. intros H.
  destruct (readSheets (mkGathered [] [] 0 []) (sheets env)) as [log1 r1] eqn:E1.
  unfold bind in H. destruct r1 as [g1| |e]; try discriminate H.
  destruct (workbookFailure env); [discriminate H|]. cbn in H.
  rewrite app_nil_r in H. injection H as <- <-.
  destruct (readSheets_counts _ _ _ _ E1) as [I1 [I2 [[more [I3 I4]] I5]]].
  cbn [metadata allProducts processed app] in *. subst more.
  cbn in I4. rewrite I4 in I5. repeat split; assumption.
Qed.

End Workbook.

(** One metadata entry is recorded for each sheet of the workbook, in
    order, under the name of the sheet (or Sheet when it has none); its
    rowCount is the number of rows the sheet yielded minus one, whether the
    rows became products or not, so a sheet that yielded no row at all is
    recorded with rowCount -1. *)
Theorem one_metadata_entry_per_sheet (env : Env) (g : Gathered) (log : list ProcessError) :
  readWorkbook env = (log, Value g) ->
  map sheetNameOf (metadata g) = map nameOfSheet (sheets env)
  /\ map rowCount (metadata g)
     = map (fun ws => (Z.of_nat (List.length (sheet_rows ws)) - 1)%Z) (sheets env).
Proof.
  intros H. destruct (readWorkbook_counts env g log H) as [H1 [H2 _]]. now split.
Qed.

Lemma one_metadata_entry_per_sheet_witness :
  let env := mkEnv None (Some "5") (Some "/temp/catalog.xlsx") true (Found (Some [])) None
               [mkSheet "Products" [sampleHeader; []; sampleRow "A1" "5" "eur" None] None;
                mkSheet "" [] None] None None None in
  map (fun m => (sheetNameOf m, rowCount m)) (metadata (gatheredOf env))
  = [("Products", 2%Z); ("Sheet", (-1)%Z)]
  /\ map rowCount (metadata (gatheredOf env))
     = map (fun ws => (Z.of_nat (List.length (sheet_rows ws)) - 1)%Z) (sheets env).
Proof.
  intros env. split; [vm_compute; reflexivity|].
  refine (proj2 (one_metadata_entry_per_sheet env (gatheredOf env)
                   (fst (readWorkbook env)) _)).
  vm_compute. reflexivity.
Defined.

(** While the workbook is read, the number of products read so far is
    counted over all its sheets, and a progress note is sent exactly when
    this number reaches a multiple of the chunk size: the progress notes of
    a workbook with n products are those for 500, 1000, ... up to n, in this
    order, wherever the sheets begin and end. *)
Theorem progress_every_chunk_size (env : Env) (g : Gathered) (log : list ProcessError) :
  readWorkbook env = (log, Value g) ->
  processed g = List.length (allProducts g)
  /\ filter isProgressNote log
     = map progressNote
         (filter (fun n => (n mod CHUNK_SIZE =? 0)%nat)
            (seq 1 (List.length (allProducts g)))).
Proof.
  intros H. destruct (readWorkbook_counts env g log H) as [_ [_ [H3 H4]]].
  split; [exact H3|]. rewrite H4. unfold milestones. now rewrite Nat.sub_0_r.
Qed.

Lemma progress_every_chunk_size_witness :
  let rows := repeat (sampleRow "A1" "5" "eur" None) in
  let env := mkEnv None (Some "5") (Some "/temp/catalog.xlsx") true (Found (Some [])) None
               [mkSheet "First" (sampleHeader :: rows 300%nat) None;
                mkSheet "Second" (sampleHeader :: rows 750%nat) None] None None None in
  processed (gatheredOf env) = 1050%nat
  /\ filter isProgressNote (fst (readWorkbook env))
     = [progressNote 500; progressNote 1000].
Proof.
  intros rows env.
  assert (H : readWorkbook env = (fst (readWorkbook env), Value (gatheredOf env)))
    by exact (@eq_refl _ (readWorkbook env) <: readWorkbook env
                         = (fst (readWorkbook env), Value (gatheredOf env))).
  destruct (progress_every_chunk_size env (gatheredOf env) (fst (readWorkbook env)) H)
    as [H1 H2].
  split.
  - rewrite H1.
    exact (@eq_refl nat 1050%nat <: List.length (allProducts (gatheredOf env)) = 1050%nat).
  - rewrite H2.
    exact (@eq_refl _ [progressNote 500; progressNote 1000]
           <: map progressNote
                (filter (fun n => (n mod CHUNK_SIZE =? 0)%nat)
                   (seq 1 (List.length (allProducts (gatheredOf env)))))
              = [progressNote 500; progressNote 1000]).
Defined.

(* ================================================================== *)
(** * The stream of a run: what is sent while reading, the report *)
(* ================================================================== *)

Section Report.

Lemma filter_none {A : Type} (P : A -> bool) (l : list A) :
  (forall m, In m l -> P m = false) -> filter P l = [].
Proof.
  induction l as [|x l IH]; intros H; [reflexivity|]. cbn [filter].
  rewrite (H x (or_introl eq_refl)). apply IH. intros m Hm. apply H. now right.
Qed.

Lemma filter_all {A : Type} (P : A -> bool) (l : list A) :
  (forall m, In m l -> P m = true) -> filter P l = l.
Proof.
  induction l as [|x l IH]; intros H; [reflexivity|]. cbn [filter].
  rewrite (H x (or_introl eq_refl)). f_equal. apply IH. intros m Hm. apply H. now right.
Qed.

Lemma filter_cons_false {A : Type} (P : A -> bool) (x : A) (l : list A) :
  P x = false -> filter P (x :: l) = filter P l.
Proof. intros H. cbn [filter]. now rewrite H. Qed.

Lemma filter_refines {A : Type} (P Q : A -> bool) (l : list A) :
  (forall m, P m = true -> Q m = true) -> filter P (filter Q l) = filter P l.
Proof.
  intros H. induction l as [|x l IH]; [reflexivity|]. cbn [filter].
  destruct (Q x) eqn:EQ; cbn [filter].
  - now rewrite IH.
  - destruct (P x) eqn:EP; [|exact IH]. rewrite (H x EP) in EQ. discriminate.
Qed.

Lemma rowStep_reading (sheet : string) (st : SheetState) (row : Row) :
  Forall Reading (sent st) -> Forall Reading (sent (rowStep sheet st row)).
Proof.
  intros H. unfold rowStep.
  destruct (S (rowIndex st) =? 1)%nat.
  - destruct (_ =? 0)%nat; cbn [sent]; [|assumption].
    apply Forall_app. split; [assumption|]. constructor; constructor.
  - destruct row as [|cell row]; [assumption|].
    destruct (0 <? _)%nat; cbn [sent]; [|assumption].
    apply Forall_app. split; [assumption|].
    destruct (_ =? 0)%nat; [|constructor].
    constructor; [|constructor]. apply (reading_progress (S (processedRows st))).
Qed.

Lemma readRows_reading (sheet : string) (n : nat) (rows : list Row) :
  Forall Reading (sent (readRows sheet n rows)).
Proof.
  unfold readRows.
  assert (H : forall st, Forall Reading (sent st) ->
                         Forall Reading (sent (fold_left (rowStep sheet) rows st))).
  { induction rows as [|row rows IH]; intros st Hs; cbn [fold_left]; [assumption|].
    apply IH. now apply rowStep_reading. }
  apply H. constructor.
Qed.

Lemma readSheets_reading (l : list Sheet) (g : Gathered) :
  Forall Reading (fst (readSheets g l)).
Proof.
  revert g. induction l as [|ws l IH]; intros g; cbn [readSheets]; [constructor|].
  rewrite readSheet_eq.
  pose proof (readRows_reading (nameOfSheet ws) (processed g) (sheet_rows ws)) as Hs.
  destruct (sheet_failure ws) as [e|]; unfold bind.
  - cbn [fst]. constructor; [apply reading_sheet | assumption].
  - match goal with
    | |- context [readSheets ?g1 l] =>
        pose proof (IH g1) as I; destruct (readSheets g1 l) as [log r]
    end.
    cbn [fst] in *. constructor; [apply reading_sheet|].
    apply Forall_app. now split.
Qed.

Lemma readWorkbook_reading (env : Env) : Forall Reading (fst (readWorkbook env)).
Proof.
  unfold readWorkbook.
  pose proof (readSheets_reading (sheets env) (mkGathered [] [] 0 [])) as H.
  destruct (readSheets _ (sheets env)) as [log [g| |e]]; cbn [fst snd bind] in *;
    try assumption.
  destruct (workbookFailure env); unfold throw, ret; cbn [fst]; now rewrite app_nil_r.
Qed.

Lemma reading_filter (P : ProcessError -> bool) (log : list ProcessError) :
  Forall Reading log -> (forall m, Reading m -> P m = false) -> filter P log = [].
Proof.
  intros H HP. apply filter_none. intros m Hm. apply HP.
  rewrite Forall_forall in H. now apply H.
Qed.

Lemma reading_not_report (m : ProcessError) : Reading m -> isReport m = false.
Proof. intros []; reflexivity. Qed.

Lemma reading_not_cleanup (m : ProcessError) : Reading m -> isCleanup m = false.
Proof. intros []; reflexivity. Qed.

Lemma chunkMessages_filter (P : ProcessError -> bool) (chunks : list (list Obj))
  (i total : nat) :
  (forall i t s, P (chunkMessage i t s) = false) -> filter P (chunkMessages i total chunks) = [].
Proof.
  intros H. revert i. induction chunks as [|c chunks IH]; intros i; [reflexivity|].
  cbn [chunkMessages filter]. now rewrite H, IH.
Qed.

Lemma batches_report (l : list (list ProcessError)) :
  filter isReport (map validationBatch l) = map validationBatch l.
Proof. apply filter_all. intros m Hm. apply in_map_iff in Hm. now destruct Hm as [b [<- _]]. Qed.

Lemma batches_not_cleanup (l : list (list ProcessError)) :
  filter isCleanup (map validationBatch l) = [].
Proof. apply filter_none. intros m Hm. apply in_map_iff in Hm. now destruct Hm as [b [<- _]]. Qed.

Lemma reportOf_report (all : list ProcessError) : filter isReport (reportOf all) = reportOf all.
Proof.
  unfold reportOf. rewrite !filter_app. f_equal; [|f_equal].
  - destruct (0 <? _)%nat; [apply batches_report | reflexivity].
  - destruct (0 <? _)%nat; reflexivity.
  - destruct (0 <? _)%nat; reflexivity.
Qed.

Lemma reportOf_not_cleanup (all : list ProcessError) : filter isCleanup (reportOf all) = [].
Proof.
  unfold reportOf. rewrite !filter_app.
  replace (filter isCleanup (if (0 <? _)%nat then map validationBatch _ else [])) with
    (@nil ProcessError) by (destruct (0 <? _)%nat; [now rewrite batches_not_cleanup | reflexivity]).
  destruct (0 <? List.length (filter isDuplicationError all))%nat;
    destruct (0 <? List.length (filter isWarning all))%nat; reflexivity.
Qed.

Variable sha256 : string -> string.

(** The messages of the second half of the [try] block: two notes, one
    note for each chunk, the report, the notes on the fingerprint, the
    summary and the closing message. *)
Lemma validateAndReport_closed (env : Env) (store : Store) (fields : list Field)
  (g : Gathered) :
  exists head tail,
    fst (validateAndReport sha256 env store fields g)
    = head ++ reportOf (diagnosticsOf env fields g) ++ tail
    /\ filter isReport head = [] /\ filter isReport tail = []
    /\ filter isCleanup head = [] /\ filter isCleanup tail = [].
Proof.
  unfold validateAndReport, diagnosticsOf, traceOf.
  rewrite validateChunks_trace. cbn [fst].
  set (all := allProcessingErrors g ++ errorsOf _).
  set (hash := generateMetadataHash _ _ _).
  set (chunks := splitIntoChunks (allProducts g) CHUNK_SIZE).
  exists (note info ("Finished reading file. Total products found: "
                       +++ natToString (List.length (allProducts g))
                       +++ ". Starting validation...") sev_info None
          :: note info ("Metadata hash generated: " +++ hash) sev_info None
          :: chunkMessages 1 (List.length chunks) chunks).
  unfold bind, sendMessage, sendAll, ret, reportOf.
  assert (Hc1 : filter isReport (chunkMessages 1 (List.length chunks) chunks) = [])
    by (apply chunkMessages_filter; reflexivity).
  assert (Hc2 : filter isCleanup (chunkMessages 1 (List.length chunks) chunks) = [])
    by (apply chunkMessages_filter; reflexivity).
  destruct ((_ =? 0)%nat && (_ =? 0)%nat).
  - destruct (bluePrintError env) as [msg|]; cbn [fst snd app]; eexists;
      (split; [rewrite <- !app_assoc; cbn [app]; reflexivity|]);
      rewrite !filter_cons_false by reflexivity; now repeat split.
  - cbn [fst snd app]. eexists.
    split; [rewrite <- !app_assoc; cbn [app]; reflexivity|].
    rewrite !filter_cons_false by reflexivity. now repeat split.
Qed.

Lemma GET_split (env : Env) (store : Store) :
  connectError env = None ->
  fst (GET sha256 env store)
  = (greeting :: fst (tryBlock sha256 env store)
       ++ catchBlock (snd (tryBlock sha256 env store))) ++ finallyBlock env.
Proof.
  intros Hconn. unfold GET. rewrite Hconn.
  destruct (tryBlock sha256 env store) as [log r]. cbn [fst snd app].
  now rewrite <- app_assoc.
Qed.

Lemma finallyBlock_not_report (env : Env) : filter isReport (finallyBlock env) = [].
Proof.
  unfold finallyBlock. destruct (_ && _); [|reflexivity].
  destruct (unlinkError env); reflexivity.
Qed.

(** Nothing but the [finally] block speaks of the cleanup. *)
Lemma tryBlock_not_cleanup (env : Env) (store : Store) :
  filter isCleanup (greeting :: fst (tryBlock sha256 env store)
                      ++ catchBlock (snd (tryBlock sha256 env store))) = [].
Proof.
  unfold tryBlock.
  destruct (paramsOk env); cbn [negb]; [|reflexivity].
  destruct (fileExists env); cbn [negb]; [|reflexivity].
  destruct (fieldsDocument env) as [e|[fields|]]; [reflexivity| |reflexivity].
  destruct (openError env) as [msg|]; [reflexivity|].
  pose proof (reading_filter isCleanup _ (readWorkbook_reading env) reading_not_cleanup) as R.
  unfold bind, sendMessage, returnNow, ret, throw.
  destruct (readWorkbook env) as [rl [g| |e]]; cbn [fst snd] in *; cbv beta iota.
  - destruct (List.length (allProducts g) =? 0)%nat.
    + cbn [fst snd app catchBlock]. rewrite !filter_cons_false by reflexivity.
      rewrite !filter_app, R. reflexivity.
    + destruct (validateAndReport_closed env store fields g)
        as [head [tail [Hlog [_ [_ [H1 H2]]]]]].
      destruct (validateAndReport sha256 env store fields g) as [log r].
      cbn [fst snd app] in *. subst log.
      rewrite !filter_cons_false by reflexivity.
      rewrite !filter_app, R, H1, H2, reportOf_not_cleanup.
      destruct r; reflexivity.
  - cbn [app catchBlock]. rewrite !filter_cons_false by reflexivity.
    rewrite !filter_app, R. reflexivity.
  - cbn [app catchBlock]. rewrite !filter_cons_false by reflexivity.
    rewrite !filter_app, R. reflexivity.
Qed.

(** The messages of a full run that carry details are its report. *)
Lemma GET_report (env : Env) (store : Store) (fields : list Field) (g : Gathered) :
  fullRun env fields g ->
  filter isReport (fst (GET sha256 env store)) = reportOf (diagnosticsOf env fields g).
Proof.
  intros [Hconn [Hp [Hf [Hdoc [Ho [[rl Hr] Hne]]]]]].
  pose proof (reading_filter isReport _ (readWorkbook_reading env) reading_not_report) as R.
  rewrite Hr in R. cbn [fst] in R.
  unfold GET, tryBlock. rewrite Hconn, Hp, Hf, Hdoc, Ho. cbn [negb].
  unfold bind, sendMessage, returnNow, ret, throw. rewrite Hr. cbv beta iota.
  destruct (List.length (allProducts g) =? 0)%nat eqn:Hn.
  { apply Nat.eqb_eq in Hn. exfalso. apply Hne. now destruct (allProducts g). }
  destruct (validateAndReport_closed env store fields g)
    as [head [tail [Hlog [H1 [H2 _]]]]].
  destruct (validateAndReport sha256 env store fields g) as [log r].
  cbn [fst snd app] in *. subst log.
  rewrite !filter_cons_false by reflexivity.
  rewrite !filter_app, R, H1, H2, reportOf_report, finallyBlock_not_report.
  destruct r; cbn [catchBlock filter app]; now rewrite !app_nil_r.
Qed.

Lemma details_of_batches (l : list (list ProcessError)) :
  List.concat (map detailsOf (map validationBatch l)) = map describe (List.concat l).
Proof.
  induction l as [|b l IH]; [reflexivity|].
  cbn [map List.concat]. rewrite map_app, IH. reflexivity.
Qed.

Lemma detailLines_report (c : string) (stream : list ProcessError) :
  (forall m, hasCode c m = true -> isReport m = true) ->
  detailLines c stream = detailLines c (filter isReport stream).
Proof. intros H. unfold detailLines. now rewrite filter_refines. Qed.

Lemma nonEmpty_nil {A : Type} (l : list A) : (0 <? List.length l)%nat = false -> l = [].
Proof. destruct l; [reflexivity | discriminate]. Qed.

Lemma reportOf_details (all : list ProcessError) :
  detailLines "VALIDATION_BATCH" (reportOf all) = map describe (filter isValidationError all)
  /\ detailLines "DUPLICATION_SUMMARY" (reportOf all)
     = map describeDuplicate (filter isDuplicationError all)
  /\ detailLines "WARNING_SUMMARY" (reportOf all) = map describe (filter isWarning all)
  /\ Forall (fun b => (1 <= List.length (detailsOf b) <= 50)%nat)
       (filter (hasCode "VALIDATION_BATCH") (reportOf all)).
Proof.
  unfold detailLines, reportOf. rewrite !filter_app.
  set (v := filter isValidationError all).
  set (d := filter isDuplicationError all).
  set (w := filter isWarning all).
  assert (Hb : forall c (l : list (list ProcessError)),
             filter (hasCode c) (map validationBatch l)
             = if (c =? "VALIDATION_BATCH")%string then map validationBatch l else []).
  { intros c l. destruct (c =? "VALIDATION_BATCH")%string eqn:E.
    - apply filter_all. intros m Hm. apply in_map_iff in Hm. destruct Hm as [b [<- _]].
      unfold hasCode. cbn [validationBatch diag code]. now rewrite String.eqb_sym.
    - apply filter_none. intros m Hm. apply in_map_iff in Hm. destruct Hm as [b [<- _]].
      unfold hasCode. cbn [validationBatch diag code]. now rewrite String.eqb_sym. }
  repeat split.
  - destruct (0 <? List.length v)%nat eqn:Ev.
    + rewrite Hb. cbn [String.eqb Ascii.eqb Bool.eqb].
      destruct (0 <? List.length d)%nat; destruct (0 <? List.length w)%nat;
        cbn [filter app]; rewrite ?app_nil_r, details_of_batches;
        rewrite splitIntoChunks_concat by lia; reflexivity.
    + rewrite (nonEmpty_nil _ Ev).
      destruct (0 <? List.length d)%nat; destruct (0 <? List.length w)%nat; reflexivity.
  - replace (filter (hasCode "DUPLICATION_SUMMARY")
               (if (0 <? List.length v)%nat
                then map validationBatch (splitIntoChunks v 50) else []))
      with (@nil ProcessError)
      by (destruct (0 <? List.length v)%nat; [now rewrite Hb | reflexivity]).
    destruct (0 <? List.length d)%nat eqn:Ed.
    + destruct (0 <? List.length w)%nat; cbn; now rewrite app_nil_r.
    + rewrite (nonEmpty_nil _ Ed). destruct (0 <? List.length w)%nat; reflexivity.
  - replace (filter (hasCode "WARNING_SUMMARY")
               (if (0 <? List.length v)%nat
                then map validationBatch (splitIntoChunks v 50) else []))
      with (@nil ProcessError)
      by (destruct (0 <? List.length v)%nat; [now rewrite Hb | reflexivity]).
    destruct (0 <? List.length w)%nat eqn:Ew.
    + destruct (0 <? List.length d)%nat; cbn; now rewrite app_nil_r.
    + rewrite (nonEmpty_nil _ Ew). destruct (0 <? List.length d)%nat; reflexivity.
  - replace (filter (hasCode "VALIDATION_BATCH")
               (if (0 <? List.length d)%nat then [duplicationSummary d] else []))
      with (@nil ProcessError) by (destruct (0 <? List.length d)%nat; reflexivity).
    replace (filter (hasCode "VALIDATION_BATCH")
               (if (0 <? List.length w)%nat then [warningSummary w] else []))
      with (@nil ProcessError) by (destruct (0 <? List.length w)%nat; reflexivity).
    rewrite !app_nil_r.
    destruct (0 <? List.length v)%nat; [|constructor].
    rewrite Hb. cbn [String.eqb Ascii.eqb Bool.eqb].
    apply Forall_forall. intros m Hm. apply in_map_iff in Hm. destruct Hm as [b [<- Hin]].
    cbn [validationBatch diag detailsOf details]. rewrite length_map.
    pose proof (splitLoop_sizes 50 ltac:(lia) (List.length v) v (le_n _)) as Hs.
    rewrite Forall_forall in Hs. apply (Hs b Hin).
Qed.

End Report.

Section Summary.

Lemma nonTerminal_not_summary (pre : list ProcessError) :
  forallb nonTerminal pre = true -> filter isSummary pre = [].
Proof.
  intros H. apply filter_none. intros m Hm.
  rewrite forallb_forall in H. specialize (H m Hm). unfold nonTerminal in H.
  destruct (isSummary m); [discriminate H | reflexivity].
Qed.

Lemma summary_unique (pre fin : list ProcessError) (s : ProcessError) :
  forallb nonTerminal pre = true -> isSummary s = true ->
  forallb (fun m => negb (isSummary m)) fin = true ->
  filter isSummary (pre ++ [s; processCompleted] ++ fin) = [s].
Proof.
  intros Hpre Hs Hfin. rewrite !filter_app, (nonTerminal_not_summary _ Hpre).
  cbn [filter app]. rewrite Hs. change (isSummary processCompleted) with false. cbv iota.
  replace (filter isSummary fin) with (@nil ProcessError); [reflexivity|].
  symmetry. apply filter_none. intros m Hm. rewrite forallb_forall in Hfin.
  specialize (Hfin m Hm). now destruct (isSummary m).
Qed.

Lemma recorded_grows (store : Store) (name name' h h' : string) :
  In h' (recorded store name') -> In h' (recorded (addToSetUpsert store name h) name').
Proof.
  intros Hin. destruct (String.eqb_spec name' name) as [->|Hne].
  - rewrite recorded_addToSetUpsert. apply add_In. now left.
  - now rewrite recorded_addToSetUpsert_other.
Qed.

End Summary.

(** In a run that gets as far as the validation, the records counted by
    the summary are all listed in the stream before it: the details of the
    VALIDATION_BATCH messages are the lines of the validation errors, each
    once and in order, at least one and at most 50 to a message; the
    details of the DUPLICATION_SUMMARY and WARNING_SUMMARY messages are the
    lines of the duplication errors and of the warnings; and the stream
    holds one summary, whose counters errors, duplications and warnings are
    the numbers of these lines. *)
Theorem report_lists_what_summary_counts
  (sha256 : string -> string) (env : Env) (store : Store)
  (fields : list Field) (g : Gathered) :
  fullRun env fields g ->
  let stream := fst (GET sha256 env store) in
  let all := diagnosticsOf env fields g in
  detailLines "VALIDATION_BATCH" stream = map describe (filter isValidationError all)
  /\ detailLines "DUPLICATION_SUMMARY" stream
     = map describeDuplicate (filter isDuplicationError all)
  /\ detailLines "WARNING_SUMMARY" stream = map describe (filter isWarning all)
  /\ Forall (fun b => (1 <= List.length (detailsOf b) <= 50)%nat)
       (filter (hasCode "VALIDATION_BATCH") stream)
  /\ exists s,
       filter isSummary stream = [s]
       /\ errors s = Some (Z.of_nat (List.length (detailLines "VALIDATION_BATCH" stream)))
       /\ duplications s
          = Some (Z.of_nat (List.length (detailLines "DUPLICATION_SUMMARY" stream)))
       /\ warnings s = Some (Z.of_nat (List.length (detailLines "WARNING_SUMMARY" stream))).
Proof.
  intros Hrun stream all.
  pose proof (GET_report sha256 env store fields g Hrun) as Hrep. fold stream all in Hrep.
  destruct (reportOf_details all) as [D1 [D2 [D3 D4]]].
  assert (Hsub : forall c, In c ["VALIDATION_BATCH"; "DUPLICATION_SUMMARY"; "WARNING_SUMMARY"] ->
                           forall m, hasCode c m = true -> isReport m = true).
  { intros c Hc m Hm. unfold isReport.
    destruct Hc as [<-|[<-|[<-|[]]]]; rewrite Hm; now rewrite ?orb_true_r. }
  assert (E1 : detailLines "VALIDATION_BATCH" stream
               = map describe (filter isValidationError all)).
  { rewrite detailLines_report, Hrep by (apply Hsub; cbn; tauto). exact D1. }
  assert (E2 : detailLines "DUPLICATION_SUMMARY" stream
               = map describeDuplicate (filter isDuplicationError all)).
  { rewrite detailLines_report, Hrep by (apply Hsub; cbn; tauto). exact D2. }
  assert (E3 : detailLines "WARNING_SUMMARY" stream = map describe (filter isWarning all)).
  { rewrite detailLines_report, Hrep by (apply Hsub; cbn; tauto). exact D3. }
  split; [exact E1|]. split; [exact E2|]. split; [exact E3|]. split.
  { rewrite <- (filter_refines (hasCode "VALIDATION_BATCH") isReport)
      by (apply Hsub; cbn; tauto).
    rewrite Hrep. exact D4. }
  destruct (GET_full sha256 env store fields g Hrun) as [pre [Hs [Hpre _]]].
  destruct (finallyBlock_cleanup env) as [_ [_ Hfin]].
  exists (summaryOf (List.length (allProducts g)) all).
  split; [subst stream; rewrite Hs; now apply summary_unique|].
  rewrite E1, E2, E3, !length_map. repeat split.
Qed.

Lemma report_lists_what_summary_counts_witness :
  let env := sampleEnv [sampleHeader; sampleRow "A1" "6" "eur" (Some "x");
                        sampleRow "A1" "5" "eur" None] in
  let stream := fst (GET sampleDigest env []) in
  fullRun env [] (gatheredOf env)
  /\ List.length (detailLines "VALIDATION_BATCH" stream) = 1%nat
  /\ List.length (detailLines "DUPLICATION_SUMMARY" stream) = 1%nat
  /\ List.length (detailLines "WARNING_SUMMARY" stream) = 1%nat.
Proof.
  intros env stream.
  assert (Hrun : fullRun env [] (gatheredOf env)).
  { repeat split; try reflexivity.
    - exists (fst (readWorkbook env)). vm_compute. reflexivity.
    - vm_compute. discriminate. }
  split; [exact Hrun|].
  destruct (report_lists_what_summary_counts sampleDigest env [] [] (gatheredOf env) Hrun)
    as [H1 [H2 [H3 _]]].
  fold stream in H1, H2, H3. rewrite H1, H2, H3. vm_compute. repeat split.
Defined.

(** A run never removes a fingerprint and never touches a record other
    than the one named auto-checker; and it leaves the collection as it was
    unless its stream holds a summary that counts no error and no
    duplication. *)
Theorem collection_changes_only_after_clean_summary
  (sha256 : string -> string) (env : Env) (store : Store) :
  let stream := fst (GET sha256 env store) in
  let store' := snd (GET sha256 env store) in
  (forall name h, In h (recorded store name) -> In h (recorded store' name))
  /\ (forall name, name <> BLUEPRINT_NAME -> recorded store' name = recorded store name)
  /\ (store' = store
      \/ exists s, filter isSummary stream = [s]
                   /\ errors s = Some 0%Z /\ duplications s = Some 0%Z).
Proof.
  intros stream store'. subst stream store'.
  destruct (connectError env) as [e|] eqn:Hconn.
  { rewrite (GET_disconnected sha256 env store e Hconn). cbn [fst snd].
    split; [tauto|]. split; [reflexivity|]. now left. }
  destruct (GET_cases sha256 env store Hconn)
    as [[fields [g [pre [_ [Hs [Hpre Hst]]]]]] | [pre [t [_ [_ [_ [_ Hst]]]]]]].
  - rewrite Hst. unfold storeAfter.
    destruct ((_ =? 0)%nat && (_ =? 0)%nat) eqn:Hc;
      [destruct (bluePrintError env) as [msg|]|];
      try (split; [tauto|]; split; [reflexivity|]; now left).
    split; [intros name h; apply recorded_grows|].
    split; [intros name Hne; now apply recorded_addToSetUpsert_other|].
    right. destruct (finallyBlock_cleanup env) as [_ [_ Hfin]].
    exists (summaryOf (List.length (allProducts g)) (diagnosticsOf env fields g)).
    split; [rewrite Hs; now apply summary_unique|].
    apply andb_true_iff in Hc. destruct Hc as [C1 C2].
    apply Nat.eqb_eq in C1, C2. unfold summaryOf, summaryReport. cbn [errors duplications].
    now rewrite C1, C2.
  - rewrite Hst. split; [tauto|]. split; [reflexivity|]. now left.
Qed.

(** Nothing is said about the temporary file before the end of a run.  A
    run that connected to the database, was given both parameters and found
    the file ends, whatever happened in between, with one message on its
    removal: the notice that it was cleaned up or, when the removal failed,
    the error TEMP_FILE_CLEANUP_FAILED.  Any other run sends no such
    message. *)
Theorem removal_is_reported_last
  (sha256 : string -> string) (env : Env) (store : Store) :
  exists pre,
    fst (GET sha256 env store)
    = pre ++ (if connected env && paramsOk env && fileExists env
              then [match unlinkError env with
                    | None => note info "Temporary file cleaned up successfully." sev_info None
                    | Some msg =>
                        note system_error ("Error cleaning up temporary file: " +++ msg)
                          sev_error (Some "TEMP_FILE_CLEANUP_FAILED")
                    end]
              else [])
    /\ filter isCleanup pre = [].
Proof.
  unfold connected. destruct (connectError env) as [e|] eqn:Hconn.
  { exists []. rewrite (GET_disconnected sha256 env store e Hconn). now split. }
  exists (greeting :: fst (tryBlock sha256 env store)
            ++ catchBlock (snd (tryBlock sha256 env store))).
  split; [|apply tryBlock_not_cleanup].
  rewrite GET_split by assumption. f_equal. unfold finallyBlock. cbn [andb].
  destruct (_ && _); [|reflexivity]. now destruct (unlinkError env).
Qed.

(* ================================================================== *)
(** * The stream on the wire and the reader of the terminal dialog *)
(* ================================================================== *)

Section Wire.

Import Terminal.

Lemma noNewline_cons (c : ascii) (s : string) :
  noNewline (String c s) = true -> Ascii.eqb c newline = false /\ noNewline s = true.
Proof.
  unfold noNewline. cbn [chars list_ascii_of_string existsb]. intros H.
  apply negb_true_iff, orb_false_iff in H. destruct H as [H1 H2].
  rewrite Ascii.eqb_sym, H1. split; [reflexivity|]. now apply negb_true_iff.
Qed.

(** A line without newline, followed by a newline, is one piece. *)
Lemma split_line (s rest : string) :
  noNewline s = true -> split newline (s +++ nl +++ rest) = s :: split newline rest.
Proof.
  induction s as [|c s IH]; intros H.
  - reflexivity.
  - apply noNewline_cons in H. destruct H as [Hc Hs].
    cbn [append split]. rewrite Hc. fold (append s (nl +++ rest)).
    now rewrite (IH Hs).
Qed.

Lemma split_whole (s : string) : noNewline s = true -> split newline s = [s].
Proof.
  induction s as [|c s IH]; intros H; [reflexivity|].
  apply noNewline_cons in H. destruct H as [Hc Hs].
  cbn [split]. rewrite Hc. now rewrite (IH Hs).
Qed.

Lemma noNewline_data (p : string) : noNewline ("data: " +++ p) = noNewline p.
Proof. reflexivity. Qed.

Lemma split_frames (payloads : list string) (rest : string) :
  forallb noNewline payloads = true ->
  split newline (frames payloads +++ rest)
  = flat_map (fun p => ["data: " +++ p; ""]) payloads ++ split newline rest.
Proof.
  induction payloads as [|p r IH]; intros H; [reflexivity|].
  cbn [forallb] in H. apply andb_true_iff in H. destruct H as [Hp Hr].
  cbn [frames flat_map]. unfold frame. rewrite !append_assoc.
  change ("data: " +++ p +++ nl +++ nl +++ frames r +++ rest)
    with (("data: " +++ p) +++ nl +++ (nl +++ frames r +++ rest)).
  rewrite split_line by (now rewrite noNewline_data).
  change (nl +++ frames r +++ rest) with ("" +++ nl +++ (frames r +++ rest)).
  rewrite split_line by reflexivity. rewrite (IH Hr). reflexivity.
Qed.

Lemma kept_lines (payloads : list string) :
  filter nonBlank (flat_map (fun p => ["data: " +++ p; ""]) payloads)
  = map (fun p => "data: " +++ p) payloads.
Proof.
  induction payloads as [|p r IH]; [reflexivity|].
  cbn [flat_map map]. change (["data: " +++ p; ""] ++ ?l) with (("data: " +++ p) :: "" :: l).
  cbn [filter app]. change (nonBlank ("data: " +++ p)) with true.
  change (nonBlank "") with false. cbv iota. now rewrite IH.
Qed.

Variable Message : Type.
Variable jsonParse : string -> option Message.

Lemma readLine_data (p : string) :
  readLine Message jsonParse ("data: " +++ p) = readPayload Message jsonParse p.
Proof. reflexivity. Qed.

Lemma readStream_flat (reads : list string) :
  readStream Message jsonParse reads = flat_map (readChunk Message jsonParse) reads.
Proof.
  unfold readStream.
  assert (H : forall acc,
             fold_left (fun messages text => messages ++ readChunk Message jsonParse text)
               reads acc
             = acc ++ flat_map (readChunk Message jsonParse) reads).
  { induction reads as [|t r IH]; intros acc; cbn [fold_left flat_map].
    - now rewrite app_nil_r.
    - now rewrite IH, app_assoc. }
  apply H.
Qed.

(** A read that holds whole frames and then a piece [rest]. *)
Lemma readChunk_frames (payloads : list string) (rest : string) :
  forallb noNewline payloads = true ->
  readChunk Message jsonParse (frames payloads +++ rest)
  = map (readPayload Message jsonParse) payloads ++ readChunk Message jsonParse rest.
Proof.
  intros H. unfold readChunk. rewrite (split_frames _ _ H), filter_app, map_app, kept_lines.
  f_equal. rewrite map_map. apply map_ext. intros p. apply readLine_data.
Qed.

End Wire.

(** When every read of the stream holds whole frames, the dialog hands
    each JSON text to the parser once, whole and in the order in which the
    handler enqueued it, however the frames are grouped into reads; nothing
    is shown for the empty lines between frames.  (A JSON text holds no raw
    newline.) *)
Theorem whole_frames_are_read_in_order
  (Message : Type) (jsonParse : string -> option Message) (groups : list (list string)) :
  forallb (forallb Terminal.noNewline) groups = true ->
  Terminal.readStream Message jsonParse (map Terminal.frames groups)
  = map (Terminal.readPayload Message jsonParse) (List.concat groups).
Proof.
  intros H. rewrite readStream_flat.
  induction groups as [|g r IH]; [reflexivity|].
  cbn [forallb] in H. apply andb_true_iff in H. destruct H as [Hg Hr].
  cbn [map flat_map List.concat]. rewrite map_app, (IH Hr). f_equal.
  rewrite <- (append_empty_r (Terminal.frames g)).
  rewrite (readChunk_frames Message jsonParse g "" Hg). apply app_nil_r.
Qed.

Lemma whole_frames_are_read_in_order_witness :
  let parse := fun s => if (s =? "true")%string then Some true
                        else if (s =? "false")%string then Some false else None in
  Terminal.readStream bool parse
    (map Terminal.frames [["true"; "false"]; []; ["null"]])
  = [Terminal.Received true; Terminal.Received false; Terminal.StreamParseError "null"].
Proof.
  intros parse.
  rewrite (whole_frames_are_read_in_order bool parse [["true"; "false"]; []; ["null"]]
             eq_refl).
  reflexivity.
Defined.

(** The dialog does not put together a frame that arrives in two reads.
    When a read ends inside a JSON text, after [a], and the next read
    begins with the remainder [b], the parser is given [a] alone and [b] is
    shown as an unformatted line; the frames before and after are read as
    usual. *)
Theorem cut_frame_is_not_rejoined
  (Message : Type) (jsonParse : string -> option Message)
  (before after : list string) (a b : string) :
  forallb Terminal.noNewline before = true ->
  forallb Terminal.noNewline after = true ->
  Terminal.noNewline a = true -> Terminal.noNewline b = true ->
  Terminal.nonBlank b = true -> startsWith "data: " b = None ->
  Terminal.readStream Message jsonParse
    [ Terminal.frames before +++ "data: " +++ a;
      b +++ Terminal.nl +++ Terminal.nl +++ Terminal.frames after ]
  = map (Terminal.readPayload Message jsonParse) before
    ++ [Terminal.readPayload Message jsonParse a; Terminal.Unformatted b]
    ++ map (Terminal.readPayload Message jsonParse) after.
Proof.
  intros Hbefore Hafter Ha Hb Hnb Hsw.
  rewrite readStream_flat. cbn [flat_map]. rewrite app_nil_r.
  rewrite (readChunk_frames Message jsonParse before _ Hbefore), <- app_assoc.
  f_equal.
  assert (E1 : Terminal.readChunk Message jsonParse ("data: " +++ a)
               = [Terminal.readPayload Message jsonParse a]).
  { unfold Terminal.readChunk. rewrite split_whole by (now rewrite noNewline_data).
    reflexivity. }
  assert (E2 : Terminal.readChunk Message jsonParse
                 (b +++ Terminal.nl +++ Terminal.nl +++ Terminal.frames after)
               = Terminal.Unformatted b
                   :: map (Terminal.readPayload Message jsonParse) after).
  { unfold Terminal.readChunk. rewrite (split_line b _ Hb).
    change (Terminal.nl +++ Terminal.frames after)
      with ("" +++ Terminal.nl +++ Terminal.frames after).
    rewrite split_line by reflexivity.
    cbn [filter]. rewrite Hnb. change (Terminal.nonBlank "") with false. cbv iota.
    cbn [map]. unfold Terminal.readLine at 1. rewrite Hsw. f_equal.
    rewrite <- (append_empty_r (Terminal.frames after)).
    fold (Terminal.readChunk Message jsonParse (Terminal.frames after +++ "")).
    rewrite (readChunk_frames Message jsonParse after "" Hafter). apply app_nil_r. }
  rewrite E1, E2. reflexivity.
Qed.

Lemma cut_frame_is_not_rejoined_witness :
  let parse := fun s => if (s =? "true")%string then Some true
                        else if (s =? "false")%string then Some false else None in
  Terminal.readStream bool parse
    [ Terminal.frames ["true"] +++ "data: " +++ "fa";
      "lse" +++ Terminal.nl +++ Terminal.nl +++ Terminal.frames ["true"] ]
  = [Terminal.Received true; Terminal.StreamParseError "fa"; Terminal.Unformatted "lse";
     Terminal.Received true].
Proof.
  intros parse.
  rewrite (cut_frame_is_not_rejoined bool parse ["true"] ["true"] "fa" "lse"
             eq_refl eq_refl eq_refl eq_refl eq_refl eq_refl).
  reflexivity.
Defined.

(* ================================================================== *)
(** * The upload step and the path it hands to the run step *)
(* ================================================================== *)

Section Uploads.

Import Upload.

Variable pathJoin : string -> string -> string.





End Uploads.




(* ================================================================== *)
(** * What the chunk validator returns, product by product *)
(* ================================================================== *)

Section ChunkOutputs.

Variables (supplierId : JsNum) (sheet : string).
Variables (additionalFieldNames : list string) (fields : list Field).

Local Abbreviation step := (chunkStep supplierId sheet additionalFieldNames fields).
Local Abbreviation validate := (validateProduct supplierId sheet additionalFieldNames fields).
Local Abbreviation ctrace := (chunkTrace supplierId sheet additionalFieldNames fields).
Local Abbreviation chunkRun chunk gs :=
  (processProductChunk chunk supplierId sheet additionalFieldNames fields gs).

Lemma processProductChunk_app (l1 l2 : list Obj) (gs : StrSet) :
  chunkRun (l1 ++ l2) gs = fold_left step l2 (chunkRun l1 gs).
Proof. unfold processProductChunk. apply fold_left_app. Qed.




(** The loop from two states with the same sets goes the same way: errors
    and valid products are appended to what each state holds. *)
Lemma fold_step_appends (l : list Obj) (st : ChunkState) :
  exists errs valid cs gs,
    forall e v,
      fold_left step l
        (mkChunkState e v (chunkProcessedCatalogNumbers st)
           (globalSupplierCatalogNumbers st))
      = mkChunkState (e ++ errs) (v ++ valid) cs gs.
Proof.
  eexists. eexists. eexists. eexists. intros e v. rewrite chunkStep_fold.
  cbn [chunkErrors finalValidData chunkProcessedCatalogNumbers
         globalSupplierCatalogNumbers]. reflexivity.
Qed.

Lemma chunkState_eta (st : ChunkState) :
  st = mkChunkState (chunkErrors st) (finalValidData st)
         (chunkProcessedCatalogNumbers st) (globalSupplierCatalogNumbers st).
Proof. now destruct st. Qed.

(** One product more at the end of a chunk. *)
Lemma processProductChunk_snoc (l1 : list Obj) (p : Obj) (gs : StrSet) :
  let before := chunkRun l1 gs in
  let o := validate (chunkProcessedCatalogNumbers before)
             (globalSupplierCatalogNumbers before) p in
  chunkRun (l1 ++ [p]) gs
  = mkChunkState (chunkErrors before ++ o_errors o)
      (finalValidData before ++ validOutput [(p, o)]) (o_chunkSet o) (o_globalSet o).
Proof.
  intros before o. rewrite processProductChunk_app. cbn [fold_left].
  apply chunkStep_eq.
Qed.







End ChunkOutputs.

Section RunOutputs.

Variables (supplierId : JsNum).
Variables (additionalFieldNames : list string) (fields : list Field).

Local Abbreviation chunksRun chunks :=
  (validateChunks supplierId additionalFieldNames fields chunks).
Local Abbreviation rtrace :=
  (runTrace supplierId "Main Sheet" additionalFieldNames fields).




End RunOutputs.

(** C2.  A product whose catalog number is missing or blank, wherever it
    stands in a chunk: what [processProductChunk] returns for the chunk is
    what it returns for the chunk without this product, with exactly one
    record more among the errors, the missing_field error
    MISSING_OR_INVALID_CATALOG_NUMBER, which stands right after the errors
    of the products before it.  So no other check leaves a diagnostic for
    the product, the product is not among the valid products, and the
    duplicate set records nothing for it. *)
Theorem missing_catalog_number_single_error
  (supplierId : JsNum) (sheet : string) (additionalFieldNames : list string)
  (fields : list Field) (globalSet : StrSet) (l1 l2 : list Obj) (product : Obj) :
  isBlank (get product "catalog_number") = true ->
  let before :=
    processProductChunk l1 supplierId sheet additionalFieldNames fields globalSet in
  let without :=
    processProductChunk (l1 ++ l2) supplierId sheet additionalFieldNames fields globalSet in
  let r :=
    processProductChunk (l1 ++ product :: l2) supplierId sheet additionalFieldNames fields
      globalSet in
  exists rest,
    chunkErrors without = chunkErrors before ++ rest
    /\ chunkErrors r = chunkErrors before ++ missingCatalogNumber sheet :: rest
    /\ finalValidData r = finalValidData without
    /\ globalSupplierCatalogNumbers r = globalSupplierCatalogNumbers without
    /\ type (missingCatalogNumber sheet) = missing_field
    /\ severity (missingCatalogNumber sheet) = sev_error
    /\ field (missingCatalogNumber sheet) = Some "catalog_number".
Proof.
  intros Hb before without r. subst without r.
  rewrite !processProductChunk_app. fold before. cbn [fold_left].
  destruct (chunkStep_missing_catalog_number supplierId sheet additionalFieldNames fields
              before product Hb) as [_ [Hstep _]].
  rewrite Hstep.
  destruct (fold_step_appends supplierId sheet additionalFieldNames fields l2 before)
    as [errs [valid [cs [gs H]]]].
  pose proof (H (chunkErrors before) (finalValidData before)) as H0.
  rewrite <- chunkState_eta in H0. rewrite H0, H.
  cbn [chunkErrors finalValidData globalSupplierCatalogNumbers].
  exists errs. rewrite <- app_assoc. repeat split.
Qed.

Lemma missing_catalog_number_single_error_witness :
  let blank := [("name", JStr "kit"); ("catalog_number", JStr "  ")] in
  let a1 := sampleProduct "A1" "true" in
  let run l := processProductChunk l (Fin 5 0) "Main Sheet" [] [] [] in
  isBlank (get blank "catalog_number") = true
  /\ map code (chunkErrors (run [a1; blank; a1]))
     = [Some "MISSING_OR_INVALID_CATALOG_NUMBER"; Some "CHUNK_DUPLICATE_CATALOG_NUMBER"]
  /\ finalValidData (run [a1; blank; a1]) = finalValidData (run [a1; a1])
  /\ globalSupplierCatalogNumbers (run [a1; blank; a1]) = ["A1"].
Proof.
  intros blank a1 run.
  destruct (missing_catalog_number_single_error (Fin 5 0) "Main Sheet" [] [] []
              [a1] [a1] blank eq_refl) as [rest [H1 [H2 [H3 [H4 _]]]]].
  split; [reflexivity|]. split; [vm_compute; reflexivity|].
  split; [exact H3|]. vm_compute. reflexivity.
Defined.



(* ================================================================== *)
(** * The texts a matcher accepts *)
(* ================================================================== *)

Section Accepted.

Lemma chars_append (a b : string) : chars (a +++ b) = chars a ++ chars b.
Proof.
  unfold chars. induction a as [|c a IH]; [reflexivity|].
  cbn [append list_ascii_of_string app]. now rewrite IH.
Qed.

(** Under the [i] flag a character that is not a word character is matched
    by itself only. *)
Lemma ceq_nonword (c d : ascii) : isWordChar c = false -> ceq c d = true -> d = c.
Proof.
  intros Hc H. unfold ceq in H. apply Ascii.eqb_eq in H.
  assert (Hu : toUpperChar c = c).
  { unfold toUpperChar. destruct (isLower c) eqn:El; [|reflexivity].
    unfold isWordChar in Hc. rewrite El in Hc. now rewrite orb_true_r in Hc. }
  rewrite Hu in H.
  assert (Hd : isWordChar d = false) by (rewrite <- isWordChar_upper, <- H; exact Hc).
  unfold toUpperChar in H. destruct (isLower d) eqn:El; [|now symmetry].
  unfold isWordChar in Hd. rewrite El in Hd. now rewrite orb_true_r in Hd.
Qed.

Lemma starNonWord_inv (k : string -> bool) (s : string) :
  starNonWord k s = true ->
  exists noise rest, s = noise +++ rest /\ allNonWord noise = true /\ k rest = true.
Proof.
  induction s as [|d s IH]; cbn [starNonWord]; intros H.
  - rewrite orb_false_r in H. exists "", "". repeat split. exact H.
  - apply orb_true_iff in H. destruct H as [H|H].
    + exists "", (String d s). repeat split. exact H.
    + apply andb_true_iff in H. destruct H as [Hd H].
      destruct (IH H) as [noise [rest [-> [Hn Hk]]]].
      exists (String d noise), rest. split; [reflexivity|]. split; [|exact Hk].
      unfold allNonWord in *. cbn [chars list_ascii_of_string forallb].
      now rewrite Hd.
Qed.

(** What the atoms of a label match at the head of a text is a noisy
    variant of the label. *)
Lemma matchHere_noisy_inv (label s : string) :
  noSpecial label = true ->
  matchHere (atomsOf label) s = true ->
  exists text post, s = text +++ post /\ Noisy label text.
Proof.
  revert s. induction label as [|c l IH]; intros s Hs H.
  - exists "", s. split; [reflexivity | constructor].
  - apply noSpecial_cons in Hs. destruct Hs as [Hc Hl].
    unfold atomsOf in H. cbn [chars list_ascii_of_string flat_map] in H.
    unfold atomsOfChar in H at 1. rewrite Hc in H.
    destruct (isWordChar c) eqn:Hw; cbn [app matchHere] in H.
    + destruct s as [|d s]; [discriminate H|].
      apply andb_true_iff in H. destruct H as [Hd H].
      apply starNonWord_inv in H. destruct H as [noise [rest [-> [Hn H]]]].
      destruct (IH rest Hl H) as [t [post [-> Ht]]].
      exists (String d (noise +++ t)), post. split.
      * cbn [append]. now rewrite append_assoc.
      * now constructor.
    + destruct s as [|d s]; [discriminate H|].
      apply andb_true_iff in H. destruct H as [Hd H].
      apply (ceq_nonword c d Hw) in Hd. subst d.
      destruct (IH s Hl H) as [t [post [-> Ht]]].
      exists (String c t), post. split; [reflexivity | now constructor].
Qed.

Lemma search_inv (r : list Atom) (s : string) :
  search r s = true -> exists pre rest, s = pre +++ rest /\ matchHere r rest = true.
Proof.
  induction s as [|d s IH]; cbn [search]; intros H.
  - rewrite orb_false_r in H. exists "", "". split; [reflexivity | exact H].
  - apply orb_true_iff in H. destruct H as [H|H].
    + exists "", (String d s). split; [reflexivity | exact H].
    + destruct (IH H) as [pre [rest [-> Hm]]].
      exists (String d pre), rest. split; [reflexivity | exact Hm].
Qed.

(** A noisy variant of a label holds every character of the label that is
    not a word character, as it is. *)
Lemma noisy_keeps_nonword (label text : string) (c : ascii) :
  Noisy label text -> In c (chars label) -> isWordChar c = false -> In c (chars text).
Proof.
  intros Hn. induction Hn as [| c0 d noise l t Hw Hceq Hnoise Hn IH | c0 l t Hw Hn IH];
    intros Hin Hc.
  - contradiction.
  - cbn [chars list_ascii_of_string] in Hin. destruct Hin as [<-|Hin]; [congruence|].
    change (chars (String d (noise +++ t))) with (d :: chars (noise +++ t)).
    right. rewrite chars_append. apply in_or_app. right. now apply IH.
  - cbn [chars list_ascii_of_string] in Hin |- *. destruct Hin as [<-|Hin]; [now left|].
    right. now apply IH.
Qed.

End Accepted.

(** C5, as amended.  For a label free of RegExp metacharacters, the matcher
    that the cache answers accepts exactly the texts that hold, somewhere,
    a noisy variant of the label: the label up to the case of its letters,
    with any run of non-word characters put after each of its word
    characters.  The characters of the label that are not word characters
    (a space, for instance) are part of every such variant: a text that is
    accepted holds each of them, as it is. *)
Theorem createAggressiveRegex_tolerates_noise (cache : Cache) (label s : string) :
  coherent cache ->
  noSpecial label = true ->
  exists re,
    fst (createAggressiveRegex cache label) = Some re
    /\ (test re s = true
        <-> exists pre text post, s = pre +++ text +++ post /\ Noisy label text)
    /\ (forall c, In c (chars label) -> isWordChar c = false ->
                  test re s = true -> In c (chars s)).
Proof.
  intros Hc Hs. exists (aggressiveRegex label).
  split; [now apply createAggressiveRegex_coherent|].
  assert (Hiff : test (aggressiveRegex label) s = true
                 <-> exists pre text post, s = pre +++ text +++ post /\ Noisy label text).
  { rewrite test_aggressiveRegex. split.
    - intros H. apply search_inv in H. destruct H as [pre [rest [-> H]]].
      destruct (matchHere_noisy_inv label rest Hs H) as [text [post [-> Hn]]].
      now exists pre, text, post.
    - intros [pre [text [post [-> Hn]]]]. apply search_skip. now apply matchHere_noisy. }
  split; [exact Hiff|].
  intros c Hin Hw Ht. apply Hiff in Ht. destruct Ht as [pre [text [post [-> Hn]]]].
  rewrite !chars_append. apply in_or_app. right. apply in_or_app. left.
  now apply (noisy_keeps_nonword label).
Qed.

Lemma createAggressiveRegex_tolerates_noise_witness :
  coherent [] /\ noSpecial "ab c" = true
  /\ exists re,
       fst (createAggressiveRegex [] "ab c") = Some re
       /\ test re "xA--b c!" = true
       /\ (test re "xA--b c!" = true -> In " "%char (chars "xA--b c!")).
Proof.
  split; [exact coherent_nil|]. split; [reflexivity|].
  destruct (createAggressiveRegex_tolerates_noise [] "ab c" "xA--b c!" coherent_nil eq_refl)
    as [re [Hre [Hiff Hsp]]].
  exists re. split; [exact Hre|]. split.
  - apply Hiff. exists "x", "A--b c", "!". split; [reflexivity|].
    exact (Noisy_word "a" "A" "--" "b c" "b c" eq_refl eq_refl eq_refl
             (Noisy_word "b" "b" "" " c" " c" eq_refl eq_refl eq_refl
                (Noisy_other " " "c" "c" eq_refl
                   (Noisy_word "c" "c" "" "" "" eq_refl eq_refl eq_refl Noisy_nil)))).
  - apply (Hsp " "%char); [cbn; tauto | reflexivity].
Defined.

(* ================================================================== *)
(** * The buy amount and the currency through the checks of a product *)
(* ================================================================== *)

Section PriceThroughChecks.

Variables (supplierId : JsNum) (cn sheet : string).
Variables (additionalFieldNames : list string) (fields : list Field).

Local Abbreviation declared := (Notions.declared additionalFieldNames fields).
Local Abbreviation checks := (fieldChecks supplierId cn sheet additionalFieldNames fields).

(** No check before that of the buy amount writes the buy amount. *)
Lemma amount_before_its_check (st : Obj * list ProcessError) :
  get (fst (afterCurrency supplierId cn sheet additionalFieldNames st)) "price.buy.amount"
  = get (fst st) "price.buy.amount".
Proof. unchain. repeat peel "price.buy.amount". reflexivity. Qed.

Lemma currency_before_its_check (st : Obj * list ProcessError) :
  get (fst (afterSupplier supplierId cn sheet additionalFieldNames st)) "price.buy.currency"
  = get (fst st) "price.buy.currency".
Proof. unchain. repeat peel "price.buy.currency". reflexivity. Qed.

(** An error of the validator of the buy amount is among the diagnostics
    of the product. *)
Lemma amount_error_reported (st : Obj * list ProcessError) (e : ProcessError) :
  validatePriceAmount (get (fst st) "price.buy.amount") "price.buy.amount" cn = Some e ->
  In e (snd (checks st)).
Proof.
  intros H. apply kept_to_the_end. right. right. right. left.
  pose proof (amount_before_its_check st) as Hg.
  unfold afterAmount, amountCheck.
  destruct (afterCurrency supplierId cn sheet additionalFieldNames st) as [p4 e4].
  cbn [fst] in Hg. rewrite Hg, H. cbn [snd]. apply in_or_app. right. now left.
Qed.

(** An amount that its validator accepts: the field comes out of the
    checks as the number read, and no diagnostic of the checks is about
    it. *)
Lemma amount_accepted (st : Obj * list ProcessError) :
  validatePriceAmount (get (fst st) "price.buy.amount") "price.buy.amount" cn = None ->
  declared "price.buy.amount" = None ->
  get (fst (checks st)) "price.buy.amount"
  = JNum (normalizeAmount (get (fst st) "price.buy.amount"))
  /\ silent "price.buy.amount" st (checks st).
Proof.
  intros H Hd.
  pose proof (amount_before_its_check st) as Hg.
  assert (H5 : afterAmount supplierId cn sheet additionalFieldNames st
               = (set (fst (afterCurrency supplierId cn sheet additionalFieldNames st))
                    "price.buy.amount"
                    (JNum (normalizeAmount (get (fst st) "price.buy.amount"))),
                  snd (afterCurrency supplierId cn sheet additionalFieldNames st))).
  { unfold afterAmount, amountCheck.
    destruct (afterCurrency supplierId cn sheet additionalFieldNames st) as [p4 e4].
    cbn [fst snd] in *. now rewrite Hg, H. }
  assert (He : isEmptyCell (get (fst st) "price.buy.amount") = false).
  { destruct (isEmptyCell _) eqn:E; [|reflexivity].
    apply isEmptyCell_isBlank in E. unfold validatePriceAmount in H. now rewrite E in H. }
  rewrite fieldChecks_chain. split.
  - rewrite (touches_get _ _ _ _ "price.buy.amount"
               (additionalCheck_touches additionalFieldNames fields _))
      by (now rewrite Hd).
    unfold afterDisplay, afterAvailable, afterDryIce, afterPromotion.
    repeat peel "price.buy.amount". rewrite H5. cbn [fst]. apply get_set_same.
  - eapply silent_trans;
      [|apply (touches_silent _ _ _ _ "price.buy.amount"
                 (additionalCheck_touches additionalFieldNames fields _));
        now rewrite Hd].
    unfold afterDisplay, afterAvailable, afterDryIce, afterPromotion.
    eapply silent_trans;
      [|apply (touches_silent _ _ _ _ "price.buy.amount" (booleanCheck_touches cn _ _));
        reflexivity].
    eapply silent_trans;
      [|apply (touches_silent _ _ _ _ "price.buy.amount" (booleanCheck_touches cn _ _));
        reflexivity].
    eapply silent_trans;
      [|apply (touches_silent _ _ _ _ "price.buy.amount" (booleanCheck_touches cn _ _));
        reflexivity].
    eapply silent_trans;
      [|apply (touches_silent _ _ _ _ "price.buy.amount" (promotionCheck_touches cn _));
        reflexivity].
    eapply silent_trans; [|rewrite H5; exists []; cbn [snd]; now rewrite app_nil_r].
    unfold afterCurrency, afterSupplier, afterEssential.
    eapply silent_trans;
      [|apply (touches_silent _ _ _ _ "price.buy.amount"
                 (currencyCheck_touches cn sheet _));
        reflexivity].
    eapply silent_trans;
      [|apply (touches_silent _ _ _ _ "price.buy.amount"
                 (supplierCheck_touches supplierId cn sheet _));
        reflexivity].
    eapply silent_trans;
      [|apply (touches_silent _ _ _ _ "price.buy.amount"
                 (essentialFields_touches cn sheet _));
        unfold afterUnrecognized; cbn [fst]; rewrite He; apply andb_false_r].
    destruct st as [product errs].
    apply (touches_silent _ _ _ _ "price.buy.amount"
             (unrecognized_touches cn sheet additionalFieldNames product errs)).
    apply essential_is_recognized. cbn. tauto.
Qed.

(** The code that the currency check reads in a product. *)
Lemma currency_not_empty (v : JsVal) :
  has validCurrencies (trim (toUpperCase (toString (orElse v (JStr ""))))) = true ->
  isEmptyCell v = false.
Proof.
  destruct v as [| |b|n|s|l]; try reflexivity; try discriminate.
  cbn [isEmptyCell]. intros H. destruct (trim s =? "")%string eqn:E; [|reflexivity].
  apply String.eqb_eq in E. exfalso.
  assert (Hc : trim (toUpperCase (toString (orElse (JStr s) (JStr "")))) = "").
  { unfold orElse. destruct (truthy (JStr s)); cbn [toString];
      [now rewrite trim_toUpperCase, E | reflexivity]. }
  rewrite Hc in H. discriminate H.
Qed.

(** A currency that reads as a whitelisted code: the field comes out of
    the checks as this code, and no diagnostic of the checks is about it. *)
Lemma currency_accepted (st : Obj * list ProcessError) :
  let cur := trim (toUpperCase
                     (toString (orElse (get (fst st) "price.buy.currency") (JStr "")))) in
  has validCurrencies cur = true ->
  declared "price.buy.currency" = None ->
  get (fst (checks st)) "price.buy.currency" = JStr cur
  /\ silent "price.buy.currency" st (checks st).
Proof.
  intros cur H Hd.
  pose proof (currency_before_its_check st) as Hg.
  assert (H4 : afterCurrency supplierId cn sheet additionalFieldNames st
               = (set (fst (afterSupplier supplierId cn sheet additionalFieldNames st))
                    "price.buy.currency" (JStr cur),
                  snd (afterSupplier supplierId cn sheet additionalFieldNames st))).
  { unfold afterCurrency, currencyCheck.
    destruct (afterSupplier supplierId cn sheet additionalFieldNames st) as [p3 e3].
    cbn [fst snd] in *. rewrite Hg. fold cur. now rewrite H. }
  pose proof (currency_not_empty _ H) as He.
  rewrite fieldChecks_chain. split.
  - rewrite (touches_get _ _ _ _ "price.buy.currency"
               (additionalCheck_touches additionalFieldNames fields _))
      by (now rewrite Hd).
    unfold afterDisplay, afterAvailable, afterDryIce, afterPromotion, afterAmount.
    repeat peel "price.buy.currency". rewrite H4. cbn [fst]. apply get_set_same.
  - eapply silent_trans;
      [|apply (touches_silent _ _ _ _ "price.buy.currency"
                 (additionalCheck_touches additionalFieldNames fields _));
        now rewrite Hd].
    unfold afterDisplay, afterAvailable, afterDryIce, afterPromotion, afterAmount.
    eapply silent_trans;
      [|apply (touches_silent _ _ _ _ "price.buy.currency" (booleanCheck_touches cn _ _));
        reflexivity].
    eapply silent_trans;
      [|apply (touches_silent _ _ _ _ "price.buy.currency" (booleanCheck_touches cn _ _));
        reflexivity].
    eapply silent_trans;
      [|apply (touches_silent _ _ _ _ "price.buy.currency" (booleanCheck_touches cn _ _));
        reflexivity].
    eapply silent_trans;
      [|apply (touches_silent _ _ _ _ "price.buy.currency" (promotionCheck_touches cn _));
        reflexivity].
    eapply silent_trans;
      [|apply (touches_silent _ _ _ _ "price.buy.currency" (amountCheck_touches cn _ _));
        reflexivity].
    eapply silent_trans; [|rewrite H4; exists []; cbn [snd]; now rewrite app_nil_r].
    unfold afterSupplier, afterEssential.
    eapply silent_trans;
      [|apply (touches_silent _ _ _ _ "price.buy.currency"
                 (supplierCheck_touches supplierId cn sheet _));
        reflexivity].
    eapply silent_trans;
      [|apply (touches_silent _ _ _ _ "price.buy.currency"
                 (essentialFields_touches cn sheet _));
        unfold afterUnrecognized; cbn [fst]; rewrite He; apply andb_false_r].
    destruct st as [product errs].
    apply (touches_silent _ _ _ _ "price.buy.currency"
             (unrecognized_touches cn sheet additionalFieldNames product errs)).
    apply essential_is_recognized. cbn. tauto.
Qed.

End PriceThroughChecks.

Section PriceOutputs.

Variables (supplierId : JsNum) (sheet : string).
Variables (additionalFieldNames : list string) (fields : list Field).

(** The diagnostics of a product with a catalog number are those of the
    duplicate check, which are about the catalog number, followed by those
    of the checks of the fields. *)
Lemma validateProduct_parts (cs gs : StrSet) (p : Obj) (cn : string) :
  catalogNumberOf p = Some cn ->
  exists d,
    o_errors (validateProduct supplierId sheet additionalFieldNames fields cs gs p)
    = snd (fieldChecks supplierId cn sheet additionalFieldNames fields (p, d))
    /\ o_product (validateProduct supplierId sheet additionalFieldNames fields cs gs p)
       = fst (fieldChecks supplierId cn sheet additionalFieldNames fields (p, d))
    /\ (forall e, In e d -> field e = Some "catalog_number").
Proof.
  intros Hc. unfold validateProduct. rewrite Hc. unfold duplicateCheck.
  destruct (has cs cn); [|destruct (has gs cn)];
    (eexists; destruct (fieldChecks _ _ _ _ _ _) as [p' errs] eqn:E;
     cbn [o_errors o_product]; rewrite E; cbn [fst snd];
     split; [reflexivity|]; split; [reflexivity|]; intros e He; cbn in He;
     repeat (destruct He as [<-|He]; [reflexivity|]); contradiction).
Qed.

Lemma quiet_about (k : string) (p : Obj) (d : list ProcessError)
  (r : Obj * list ProcessError) :
  k <> "catalog_number" ->
  (forall e, In e d -> field e = Some "catalog_number") ->
  silent k (p, d) r -> filter (aboutField k) (snd r) = [].
Proof.
  intros Hk Hd [extra [E Hx]]. cbn [snd] in E. rewrite E, filter_app, Hx, app_nil_r.
  apply filter_none. intros e He. unfold aboutField. rewrite (Hd e He).
  apply String.eqb_neq. congruence.
Qed.

Lemma validOutput_dropped (p : Obj) (o : Outcome) (e : ProcessError) :
  In e (o_errors o) -> validOutput [(p, o)] = [].
Proof.
  intros H. unfold validOutput, kept. cbn [filter snd].
  destruct (o_errors o); [contradiction | reflexivity].
Qed.

Lemma validOutput_kept (p : Obj) (o : Outcome) :
  o_errors o = [] -> validOutput [(p, o)] = [markValidated (o_product o)].
Proof. intros H. unfold validOutput, kept. cbn [filter snd]. now rewrite H. Qed.

End PriceOutputs.

(** C6, as amended.  A product [p] with a catalog number, standing in a
    chunk after the products [l1], validated against a schema that does not
    declare the two price paths as additional fields; [own] are the records
    that [processProductChunk] adds for [p].  With the amount written 12,50
    and a currency that reads as a whitelisted code [w] once put in upper
    case and trimmed, no record of [p] is about the amount or the currency,
    and when [p] has no record at all it joins the valid products with the
    amount 12.5 and the currency [w].  A missing or blank amount gives a
    missing_field error.  Otherwise the amount is read by [parseFloat]
    after its first comma is turned into a point: when no number can be
    read at its start, or when the number read is negative (and not so
    small that binary64 rounds it to zero), [p] gets an invalid_value
    error; in both cases [p] is not added to the valid products.  When a
    number that is not negative is read, whatever follows it in the text,
    no record of [p] is about the amount, and a product without any record
    joins the valid products with this number as its amount. *)
Theorem price_and_currency_normalised
  (supplierId : JsNum) (sheet : string) (additionalFieldNames : list string)
  (fields : list Field) (globalSet : StrSet) (l1 : list Obj) (p : Obj) (cn : string) :
  declared additionalFieldNames fields "price.buy.amount" = None ->
  declared additionalFieldNames fields "price.buy.currency" = None ->
  catalogNumberOf p = Some cn ->
  let before :=
    processProductChunk l1 supplierId sheet additionalFieldNames fields globalSet in
  let upto :=
    processProductChunk (l1 ++ [p]) supplierId sheet additionalFieldNames fields
      globalSet in
  let amount := get p "price.buy.amount" in
  let x := normalizeAmount amount in
  exists own,
    chunkErrors upto = chunkErrors before ++ own
    /\ (forall c w,
          amount = JStr "12,50" -> get p "price.buy.currency" = JStr c ->
          trim (toUpperCase c) = w -> In w validCurrencies ->
          filter (aboutField "price.buy.amount") own = []
          /\ filter (aboutField "price.buy.currency") own = []
          /\ (own = [] ->
              exists v, finalValidData upto = finalValidData before ++ [v]
                        /\ get v "price.buy.amount" = JNum (Fin 125 (-1))
                        /\ get v "price.buy.currency" = JStr w))
    /\ (isBlank amount = true ->
        (exists e, In e own /\ type e = missing_field /\ severity e = sev_error
                   /\ field e = Some "price.buy.amount")
        /\ finalValidData upto = finalValidData before)
    /\ (isBlank amount = false ->
        isNaN x = true \/ isNegative x = true ->
        (exists e, In e own /\ type e = invalid_value /\ severity e = sev_error
                   /\ field e = Some "price.buy.amount")
        /\ finalValidData upto = finalValidData before)
    /\ (isBlank amount = false -> isNaN x = false -> isNegative x = false ->
        filter (aboutField "price.buy.amount") own = []
        /\ (own = [] ->
            exists v, finalValidData upto = finalValidData before ++ [v]
                      /\ get v "price.buy.amount" = JNum x)).
Proof.
  intros Hda Hdc Hcn before upto amount x.
  pose proof (processProductChunk_snoc supplierId sheet additionalFieldNames fields
                l1 p globalSet) as Hsnoc.
  cbv zeta in Hsnoc. fold before in Hsnoc. fold upto in Hsnoc.
  set (o := validateProduct supplierId sheet additionalFieldNames fields
              (chunkProcessedCatalogNumbers before) (globalSupplierCatalogNumbers before) p)
    in *.
  destruct (validateProduct_parts supplierId sheet additionalFieldNames fields
              (chunkProcessedCatalogNumbers before) (globalSupplierCatalogNumbers before)
              p cn Hcn) as [d [Ho [Hp Hd]]].
  fold o in Ho, Hp.
  set (r := fieldChecks supplierId cn sheet additionalFieldNames fields (p, d)) in *.
  assert (Hdrop : forall e, In e (o_errors o) -> finalValidData upto = finalValidData before).
  { intros e He. rewrite Hsnoc. cbn [finalValidData].
    rewrite (validOutput_dropped p o e He). apply app_nil_r. }
  assert (Hkeep : o_errors o = [] ->
                  finalValidData upto
                  = finalValidData before ++ [markValidated (fst r)]).
  { intros He. rewrite Hsnoc. cbn [finalValidData].
    now rewrite (validOutput_kept p o He), Hp. }
  assert (Hreported : forall e,
             validatePriceAmount amount "price.buy.amount" cn = Some e -> In e (o_errors o)).
  { intros e He. rewrite Ho.
    apply (amount_error_reported supplierId cn sheet additionalFieldNames fields (p, d)).
    exact He. }
  assert (Haccepted : isBlank amount = false -> isNaN x = false -> isNegative x = false ->
                      filter (aboutField "price.buy.amount") (o_errors o) = []
                      /\ get (fst r) "price.buy.amount" = JNum x).
  { intros Hb Hn Hneg.
    assert (Hv : validatePriceAmount (get (fst (p, d)) "price.buy.amount")
                   "price.buy.amount" cn = None).
    { cbn [fst]. fold amount. unfold validatePriceAmount. rewrite Hb. fold x.
      now rewrite Hn, Hneg. }
    destruct (amount_accepted supplierId cn sheet additionalFieldNames fields (p, d)
                Hv Hda) as [Hg Hs].
    fold r in Hg, Hs. split; [|exact Hg].
    rewrite Ho. apply (quiet_about "price.buy.amount" p d r); [discriminate | exact Hd |
      exact Hs]. }
  exists (o_errors o). split; [rewrite Hsnoc; reflexivity|].
  split.
  { intros c w Ha Hc Hw Hin.
    assert (Hx : x = Fin 125 (-1)) by (subst x; rewrite Ha; reflexivity).
    destruct (Haccepted ltac:(rewrite Ha; reflexivity) ltac:(rewrite Hx; reflexivity)
                ltac:(rewrite Hx; reflexivity)) as [Hqa Hga].
    assert (Hc' : c <> "").
    { intros ->. subst w. cbn in Hin.
      repeat (destruct Hin as [Hin|Hin]; [discriminate|]). contradiction. }
    assert (Hcur : trim (toUpperCase
                           (toString (orElse (get (fst (p, d)) "price.buy.currency")
                                        (JStr "")))) = w).
    { cbn [fst]. rewrite Hc. unfold orElse. cbn [truthy].
      apply String.eqb_neq in Hc'. rewrite Hc'. cbn [negb toString]. exact Hw. }
    pose proof (currency_accepted supplierId cn sheet additionalFieldNames fields (p, d))
      as Hca.
    cbv zeta in Hca. rewrite Hcur in Hca.
    destruct (Hca (proj2 (has_In validCurrencies w) Hin) Hdc) as [Hgc Hsc].
    fold r in Hgc, Hsc.
    split; [exact Hqa|]. split.
    { rewrite Ho. apply (quiet_about "price.buy.currency" p d r);
        [discriminate | exact Hd | exact Hsc]. }
    intros He. exists (markValidated (fst r)). split; [now apply Hkeep|].
    rewrite !get_markValidated. cbn [String.eqb Ascii.eqb Bool.eqb].
    rewrite Hga, Hgc, Hx. split; reflexivity. }
  split.
  { intros Hb.
    assert (Hv : exists e, validatePriceAmount amount "price.buy.amount" cn = Some e
                           /\ type e = missing_field /\ severity e = sev_error
                           /\ field e = Some "price.buy.amount").
    { unfold validatePriceAmount. rewrite Hb. eexists. repeat split. }
    destruct Hv as [e [Hv He]]. pose proof (Hreported e Hv) as Hin.
    split; [exists e; split; assumption | exact (Hdrop e Hin)]. }
  split.
  { intros Hb Hbad.
    assert (Hv : exists e, validatePriceAmount amount "price.buy.amount" cn = Some e
                           /\ type e = invalid_value /\ severity e = sev_error
                           /\ field e = Some "price.buy.amount").
    { unfold validatePriceAmount. rewrite Hb. fold x.
      destruct (isNaN x) eqn:En; [eexists; repeat split|].
      destruct Hbad as [Hbad|Hbad]; [discriminate|]. rewrite Hbad.
      eexists. repeat split. }
    destruct Hv as [e [Hv He]]. pose proof (Hreported e Hv) as Hin.
    split; [exists e; split; assumption | exact (Hdrop e Hin)]. }
  intros Hb Hn Hneg. destruct (Haccepted Hb Hn Hneg) as [Hq Hg].
  split; [exact Hq|]. intros He. exists (markValidated (fst r)).
  split; [now apply Hkeep|]. rewrite get_markValidated. exact Hg.
Qed.

Lemma price_and_currency_normalised_witness :
  let p := sampleProduct "A1" "true" in
  let run := fun l => processProductChunk l (Fin 5 0) "Main Sheet" [] [] [] in
  declared [] [] "price.buy.amount" = None
  /\ catalogNumberOf p = Some "A1"
  /\ get p "price.buy.amount" = JStr "12,50"
  /\ get p "price.buy.currency" = JStr "eur"
  /\ chunkErrors (run [p]) = []
  /\ exists v, finalValidData (run [p]) = [v]
               /\ get v "price.buy.amount" = JNum (Fin 125 (-1))
               /\ get v "price.buy.currency" = JStr "EUR".
Proof.
  intros p run.
  destruct (price_and_currency_normalised (Fin 5 0) "Main Sheet" [] [] [] [] p "A1"
              eq_refl eq_refl eq_refl) as [own [Hown [H1250 _]]].
  assert (Hnone : own = []).
  { cbn [app] in Hown. vm_compute in Hown. now subst own. }
  destruct (H1250 "eur" "EUR" eq_refl eq_refl eq_refl (or_introl eq_refl))
    as [_ [_ Hv]].
  destruct (Hv Hnone) as [v [Hvalid [Ha Hc]]].
  split; [reflexivity|]. split; [reflexivity|]. split; [reflexivity|].
  split; [reflexivity|]. split; [vm_compute; reflexivity|].
  exists v. split; [exact Hvalid|]. split; assumption.
Defined.

(** C6 as stated fails: an amount that is not numeric but starts with a
    number is accepted.  The texts 12abc and 12 EUR raise no error, and the
    product is kept with the amount 12; a text without a number at its
    start, and a negative number, are rejected. *)
Lemma amount_with_numeric_prefix_accepted :
  let run := fun a => processProductChunk
                        [set (sampleProduct "A1" "true") "price.buy.amount" (JStr a)]
                        (Fin 5 0) "Main Sheet" [] [] [] in
  map (fun a => (map code (chunkErrors (run a)),
                 map (fun v => get v "price.buy.amount") (finalValidData (run a))))
    ["12abc"; "12 EUR"; "abc"; "-3"]
  = [ ([], [JNum (Fin 12 0)]);
      ([], [JNum (Fin 12 0)]);
      ([Some "INVALID_PRICE_AMOUNT"], []);
      ([Some "NEGATIVE_PRICE_AMOUNT"], []) ].
Proof. vm_compute. reflexivity. Qed.

(** A negative amount so small that it is read as [-0] is not below zero:
    it raises no error and the product is kept. *)
Lemma tiny_negative_amount_accepted :
  let r := processProductChunk
             [set (sampleProduct "A1" "true") "price.buy.amount" (JStr "-1e-400")]
             (Fin 5 0) "Main Sheet" [] [] [] in
  chunkErrors r = [] /\ List.length (finalValidData r) = 1%nat.
Proof. vm_compute. split; reflexivity. Qed.
